(* ===== verification/_CoqProject ===== *)
-Q . S2P
Prelude.v
Checksum.v
Retry.v
Gate.v
JournalDb.v
JournalCore.v
JournalAccept.v
Routing.v
SqlLogic.v
JournalOpen.v
JournalLog.v
JournalReads.v
JournalDelivery.v
JournalTransitions.v
JournalSafety.v
DeliverySafety.v
JournalScan.v
Integrity.v
DeliveryFindings.v
Profiles.v
Repair.v
Service.v
ServiceSafety.v
Recovery.v
ServiceFindings.v
DeliveryLiveness.v
Broker.v
EndToEnd.v
EventualDelivery.v
RecoveryLimit.v
Metadata.v
Identity.v
Registration.v
Acl.v
Policy.v
Contracts.v
Fips180.v
Vectors.v
Scenarios.v
ProtocolText.v
JournalScenarios.v
ServiceScenarios.v
DeliveryScenarios.v
DomainScenarios.v
BarrierCapture.v
BenchEvents.v
BenchStore.v
BenchBatches.v
BenchSafety.v
BenchSegments.v
BenchContract.v
BenchPipeline.v
BenchRun.v
FileSystem.v
BenchMain.v
BenchScenarios.v
BenchFileScenarios.v
Suites.v
