(* ===== verification/Prelude.v ===== *)
(** * CraftRelay: a verification development

    CraftRelay takes events from the plugins of a game server, keeps them in a
    local journal, and delivers them to Kafka.  The development models the
    Rust crates under src/crates/ that carry this logic, and proves what makes
    them correct.

    ** The program and its parts

    - The domain crate (craftrelay-domain/src/lib.rs) decides on data alone:
      metadata, identities, registration of producers and integration
      manifests, access control, policy, ownership, admission under quotas and
      the durability of Kafka profiles.
    - The journal (craftrelay-journal/src/lib.rs) stores an accepted event in
      SQLite: the envelope, the payload, the lifecycle state, the fingerprint
      for deduplication, the producer's highest sequence, the head of the
      stream.  It numbers events by a journal sequence and a stream sequence,
      covers its rows with checksums, and keeps one delivery row per event that
      changes by compare-and-set on a revision.
    - The delivery crate (craftrelay-kafka-delivery/src/) sends journal events
      through a Kafka producer: [service.rs] reads a candidate from the
      journal, asks the gate of [gate.rs] whether it is its turn, checks routing
      ([routing.rs]) and profile ([profile.rs]), sends, and records the outcome
      in the journal with the backoff of [retry.rs]; [replicated.rs] and
      [repair.rs] hold the table of status changes and the classes of repair.
    - The benchmark (craftrelay-journal-bench/src/) measures two ways to store
      events: one database, or segments with a limit of records
      ([candidate.rs]).  A producer thread offers generated events to a bounded
      channel, a writer thread takes batches from it ([ingress.rs]); [main.rs]
      and [report.rs] choose the configuration and sum up.
    - The agent (craftrelay-agent/src/barrier_capture.rs) asks a Kafka consumer
      for the offsets at which a projection barrier lies.
    - The testkit (craftrelay-testkit/src/lib.rs) reads the shared test vectors,
      runs the domain crate on them and looks for names in the protobuf file;
      the protocol crate holds constants, data types and the trait of the agent's
      adapter.

    ** Which file models what

    - [Prelude]: results and the [?] operator, machine integers, bytes and
      strings, NUL-joined texts, tactics and the hint database.
    - [Checksum]: SHA-256 as the parameter [Sha256], encodings of hashed texts.
    - [JournalDb]: the tables as the record [Db] and each SQL statement as a
      function on it, the monad [Sql] of statements over a connection, and
      [Engine], which says of each statement whether it fails.  [run_tx] is a
      transaction that is rolled back unless it committed, [run_auto] is
      autocommit.
    - [JournalCore]: checksums of rows, verified loads ([get_status],
      [read_verified_payload], [load_delivery_state], [get_delivery_candidate]).
    - [JournalAccept]: [accept].  [JournalDelivery]: [update_lifecycle],
      [create_delivery_pending], [record_delivery_attempt],
      [confirm_replicated_delivery], [block_delivery], [update_delivery_retry].
      [JournalScan]: the three scans.
    - [JournalOpen]: [open], [init_schema] and the stored schema version.
    - [SqlLogic]: the rules by which the proofs run a sequence of statements
      that may fail.
    - [Gate], [Retry], [Routing], [Profiles], [Repair], [Service]: the files of
      the delivery crate, with the profile checks of the domain crate in
      [Profiles].  The trait [KafkaProducer] is a class; the service is proved
      against any instance, [FakeProducer] is one.
    - [Metadata], [Identity], [Registration], [Acl], [Policy]: the domain crate.
      [Contracts]: its data types without operations, those of the protocol
      crate, and the disk guard of the journal as a class.
    - [BenchEvents]: the generated events.  [BenchStore]: both candidates over a
      monad whose results are a value, a panic or exhausted fuel.
      [BenchPipeline]: producer and writer as steps over a shared state, which
      interleave freely.  [FileSystem]: paths, a file system without links and
      the directory of a run.  [BenchMain]: arguments, file sizes, figures, report
      and its file.
    - [BarrierCapture]: the agent's adapter over the class [Consumer].
    - [Vectors]: the testkit's types, vectors and checks; [Fips180]: SHA-256 as
      an executable instance of [Sha256], with which the checks run.
      [ProtocolText]: the protobuf file and the testkit's searches in it.
    - [EndToEnd]: the whole system as one transition system over the broker's
      view of [Broker]: clients of the journal, the service, its stop, and its
      restart by opening the file and recovering the gate.
    - [Scenarios], [JournalScenarios], [ServiceScenarios], [DeliveryScenarios],
      [DomainScenarios], [BenchScenarios], [BenchFileScenarios]: the tests of the
      crates as computations on the model, under the names of the tests; a test that
      panics is [None] or [false].  [Suites] puts them together.

    A struct is a [Record] with the source's fields (a prefix per record), an
    enum an [Inductive] with the source's constructors (a prefix where two
    enums share a name), a method a [Definition] under the method's name.  A
    long method is cut into parts at its early returns.  Integers are [Z];
    additions that can overflow are written with the wrap-around of a release
    build.  The clock, the answer of the disk guard and the failures of SQLite
    are arguments.  A panic is [None], or [Panicked] in the benchmark.

    ** What the theorems show

    - Acceptance ([JournalLog], [JournalReads], [JournalSafety]): the database
      represents an append-only list of requests, and [accept] answers as the
      specification of section 20 of MASTER_PLAN.md says ([accept_spec]), but for
      a duplicate of a retrying or replicated event and for an identifier that
      another installation used, where the code departs from the plan
      ([DeliveryFindings]).  For any failing statement an event is in the journal
      exactly if [accept] answered [Accepted].  Both sequences are dense, a
      repeated request gets the receipt of the first, and over any run of any
      operations with any failures an accepted event stays readable.
    - Delivery state ([JournalTransitions], [DeliverySafety]): every operation
      has the effect of one enabled transition of a small specification, or
      none.  So a replicated delivery never changes, competing transitions have
      one winner, rows stay valid, attempts are bounded.
    - Scans ([JournalScan]) return exactly the rows of their kind in order.
    - Opening ([JournalOpen]) is safe after any interrupted opening and refuses
      files of a later version.
    - Integrity ([Integrity]): equal checksums of verified rows mean equal
      contents, unless the two texts hashed for these very rows are a collision of
      SHA-256 ([collides]); for texts without NUL, the separator.
    - Ordering ([Gate], [ServiceSafety]): the service completes every stream
      key in order without a gap, a completed event is [REPLICATED] in the
      journal, and only requests that passed every check reach the producer.
    - Restart ([Recovery]): a service that recovered its gate from the journal
      goes on in order from the sequence its gate waits for, and everything before
      it is replicated; below the limit of the scan this is the first event that
      is not replicated.  It rests on [scheduled_in_order]: no event has a delivery
      row while an earlier event of its stream has none.
    - End to end ([EndToEnd]): over any accepts, schedulings, attempts, failures,
      stops and restarts the broker gets of every stream a prefix of what was
      accepted, in order and without a gap, with repetitions only in a row.  The
      steps of the system ([system_step]) are those of the code; the runs of the
      theorem ([orderly_step]) restart only where deliveries are scheduled in
      order, and its streams can be told apart by their keys ([streams_ok]).
    - Progress ([DeliveryLiveness], [EventualDelivery]): where the engines work
      and the producer acknowledges after transient failures, a stream is
      delivered whole and in order; and from every state such a run reaches, with
      fewer than 10,000 delivery rows and the undelivered ones open, a restart
      under these conditions brings the rest of a stream to the broker, which then
      has exactly what was accepted.
    - Benchmark storage ([BenchBatches], [BenchSafety], [BenchSegments],
      [BenchContract]): a candidate is used through the class [LogStore], an
      append-only log; both candidates and the runner are instances, for any
      failing statement, once they are ready: a configuration in the ranges of its
      types and no rollover limit of zero.  They agree where nothing fails, the
      segments partition the log, and the loop of the segmented one ends unless
      its limit is zero.
    - Benchmark pipeline ([BenchRun], [BenchMain]), proved against the class
      alone: every interleaving ends, keeps order and bounds, and the report
      accounts for every record.  The directory of a run starts empty and the file
      of a report holds its text, or no file is changed ([FileSystem],
      [BenchMain]).
    - Barrier ([BarrierCapture]): a capture is complete or an error.
    - Vectors ([Vectors]) and tests ([Suites]) are checks of the model rather than
      properties of the code: it computes what the repository's own vectors expect
      and passes the repository's own tests, with SHA-256 itself; the tests of the
      benchmark with every hash function, and those of its threads under every
      interleaving, but for one assertion that not every interleaving meets.
    - Domain: exact characterisations of metadata, manifests, access control,
      policy, admission and profiles.
    - Limits of the code ([DeliveryFindings], [ServiceFindings], [RecoveryLimit] and
      single theorems of [Recovery], [Routing], [Acl], [Metadata], [Repair],
      [BenchFileScenarios]): behaviour that differs from what the code means to do, each proved of the model.

    ** Assumptions and bounds

    [Sha256Ok] says that a digest has 32 bytes; nothing else is assumed of the
    hash.  [RowOrderOk] says that SQLite
    returns each row once before the ORDER BY.  The journal theorems bound the
    number of events and steps below the largest i64, where the sequences
    would wrap, and so do the benchmark's.  Only the loops of the two candidates
    run on fuel, since one of them need not end: a round per event of the batch
    is enough, more changes nothing ([BenchRun]), and a loop that does not end
    is [OutOfFuel] at every fuel.  Every other loop runs over a list.

    A panic of [accept] poisons the lock of its journal, and every later [accept]
    on that handle panics.  The delivery operations and the reads are functions on
    the database: on a poisoned handle they would panic and touch nothing, and
    the runs may use them at any time, as a process that opened the file again
    does.  Within one [attempt_delivery] the calls to the journal follow each
    other without those of other clients in between, which come before and after
    it; each call is a transaction of its own and may fail.

    In [FileSystem] a removal that fails leaves everything; the program ends
    there.  A recovery theorem that promises progress bounds the delivery rows by
    the 10,000 that [recover] reads; [RecoveryLimit] shows what happens beyond.

    ** Not modelled

    The values of the pragmas and the journal mode read back from them; in the
    benchmark the clock, whose times are arguments, the console, and the JSON
    text, which [serde_json] makes; links in the file system; the construction
    of the agent's Kafka consumer; the Java plugin.  For these reasons the tests
    of the journal mode and of the JSON text have no counterpart, nor have the
    two tests of the journal in which an SQL trigger changes a row behind a
    statement (that an UPDATE fails or finds no row is covered by the
    theorems). *)
From stdpp Require Export base numbers strings gmap list sorting pretty.
From Stdlib Require Export Strings.Byte Strings.Ascii ZArith Lia.

(** ** Results *)

(** Rust's [Result<T, E>]. *)
Inductive result (A E : Type) : Type :=
| Ok (a : A)
| Err (e : E).
Arguments Ok {A E} a.
Arguments Err {A E} e.

Definition is_ok {A E} (r : result A E) : bool :=
  match r with Ok _ => true | Err _ => false end.

Definition map_err {A E F} (f : E → F) (r : result A E) : result A F :=
  match r with Ok a => Ok a | Err e => Err (f e) end.

Declare Scope relay_scope.
Delimit Scope relay_scope with relay.
Open Scope relay_scope.

(** The [?] operator: leave with the error, or go on with the value. *)
Notation "'let?' x := c 'in' k" :=
  (match c with Ok x => k | Err e => Err e end)
  (at level 10, x pattern, c at level 200, k at level 200,
   format "'let?'  x  :=  c  'in'  '//' k") : relay_scope.

#[export] Instance result_eq_dec {A E} `{EqDecision A, EqDecision E} :
  EqDecision (result A E).
Proof. solve_decision. Defined.

(** ** Machine integers *)

(** Rust's [i32], [i64] and [u32] are kept as [Z]; the arithmetic of the source is
    written with the wrap-around of a release build. *)
Definition i32_max : Z := 2147483647.
Definition i32_min : Z := -2147483648.
Definition i64_max : Z := 9223372036854775807.
Definition i64_min : Z := -9223372036854775808.

Definition in_i32 (z : Z) : Prop := (i32_min ≤ z ≤ i32_max)%Z.
Definition in_i64 (z : Z) : Prop := (i64_min ≤ z ≤ i64_max)%Z.

#[export] Instance in_i32_dec z : Decision (in_i32 z).
Proof. unfold in_i32. apply _. Defined.

Definition wrap_signed (w z : Z) : Z :=
  ((z + 2 ^ (w - 1)) mod 2 ^ w - 2 ^ (w - 1))%Z.

Definition i32_add (a b : Z) : Z := wrap_signed 32 (a + b).
Definition i32_sub (a b : Z) : Z := wrap_signed 32 (a - b).
Definition i64_add (a b : Z) : Z := wrap_signed 64 (a + b).
Definition i64_saturate (z : Z) : Z := (Z.max i64_min (Z.min i64_max z)).
Definition i64_saturating_mul (a b : Z) : Z := i64_saturate (a * b).
Definition i64_saturating_pow (a b : Z) : Z := i64_saturate (a ^ b).

Lemma wrap32_id z : in_i32 z → wrap_signed 32 z = z.
Proof.
  unfold in_i32, i32_min, i32_max, wrap_signed; intros H.
  change (2 ^ (32 - 1))%Z with 2147483648%Z; change (2 ^ 32)%Z with 4294967296%Z.
  rewrite Z.mod_small; lia.
Qed.

Lemma wrap64_id z : in_i64 z → wrap_signed 64 z = z.
Proof.
  unfold in_i64, i64_min, i64_max, wrap_signed; intros H.
  change (2 ^ (64 - 1))%Z with 9223372036854775808%Z.
  change (2 ^ 64)%Z with 18446744073709551616%Z.
  rewrite Z.mod_small; lia.
Qed.

Lemma i32_add_id a b : in_i32 (a + b) → i32_add a b = (a + b)%Z.
Proof. apply wrap32_id. Qed.
Lemma i32_sub_id a b : in_i32 (a - b) → i32_sub a b = (a - b)%Z.
Proof. apply wrap32_id. Qed.
Lemma i64_add_id a b : in_i64 (a + b) → i64_add a b = (a + b)%Z.
Proof. apply wrap64_id. Qed.

(** The unsigned 32-bit integers of the source. *)
Definition u32_max : Z := 4294967295.
Definition u32 (z : Z) : Z := (z mod 4294967296)%Z.
Definition u32_add (a b : Z) : Z := u32 (a + b).
Definition u32_sub (a b : Z) : Z := u32 (a - b).

Lemma u32_id z : (0 ≤ z ≤ u32_max)%Z → u32 z = z.
Proof. unfold u32, u32_max. intros. apply Z.mod_small. lia. Qed.

Lemma u32_bounds z : (0 ≤ u32 z ≤ u32_max)%Z.
Proof. unfold u32, u32_max. pose proof (Z.mod_pos_bound z 4294967296). lia. Qed.

Lemma u32_add_l a b : u32_add (u32 a) b = u32 (a + b).
Proof. unfold u32_add, u32. by rewrite Z.add_mod_idemp_l. Qed.

Lemma u32_add_r a b : u32_add a (u32 b) = u32 (a + b).
Proof. unfold u32_add, u32. by rewrite Z.add_mod_idemp_r. Qed.

Create HintDb relay.
Create Rewrite HintDb relay.
#[export] Hint Unfold in_i32 in_i64 i32_min i32_max i64_min i64_max : relay.

(** Linear goals about machine ranges. *)
Ltac rlia := repeat autounfold with relay in *; lia.

(** ** Byte strings *)

(** Rust's [String] and [&str] are byte sequences (UTF-8); they are kept as
    [string].  [Vec<u8>], [&[u8]] and [[u8; 32]] are lists of bytes. *)
Definition bytes_of (s : string) : list byte := String.list_byte_of_string s.

Lemma bytes_of_cons c s : bytes_of (String c s) = byte_of_ascii c :: bytes_of s.
Proof.
  unfold bytes_of, String.list_byte_of_string; simpl.
  by rewrite ?byte_of_ascii_via_N.
Qed.

Lemma bytes_of_app s t : bytes_of (s +:+ t) = bytes_of s ++ bytes_of t.
Proof.
  induction s as [|c s IH]; [done|]. change (String c s +:+ t) with (String c (s +:+ t)).
  by rewrite !bytes_of_cons, IH.
Qed.

#[export] Instance bytes_of_inj : Inj (=) (=) bytes_of.
Proof.
  intros s t H. apply (f_equal String.string_of_list_byte) in H.
  unfold bytes_of in H. by rewrite !String.string_of_list_byte_of_string in H.
Qed.

#[export] Instance byte_eq_dec : EqDecision byte := Byte.byte_eq_dec.

Definition str_is_empty (s : string) : bool :=
  match s with "" => true | _ => false end.

Lemma str_is_empty_true s : str_is_empty s = true ↔ s = "".
Proof. by destruct s. Qed.

(** The NUL separator of the canonical texts. *)
Definition nul : string := String Ascii.zero "".

Definition nul_free (s : string) : Prop := x00 ∉ bytes_of s.

#[export] Instance nul_free_dec s : Decision (nul_free s).
Proof. unfold nul_free. apply _. Defined.

(** The fields of a canonical text, separated by NUL. *)
Definition join_nul (fields : list string) : string := String.concat nul fields.

Lemma sep_app_inj {A} (x : A) (l1 l2 k1 k2 : list A) :
  x ∉ l1 → x ∉ k1 → l1 ++ x :: l2 = k1 ++ x :: k2 → l1 = k1 ∧ l2 = k2.
Proof.
  revert k1. induction l1 as [|a l1 IH]; intros [|b k1] H1 H2 Heq; simpl in Heq.
  - by injection Heq as ->.
  - injection Heq as -> _. destruct H2. by left.
  - injection Heq as -> _. destruct H1. by left.
  - injection Heq as -> Heq.
    apply not_elem_of_cons in H1 as [_ H1]; apply not_elem_of_cons in H2 as [_ H2].
    by destruct (IH k1 H1 H2 Heq) as [-> ->].
Qed.

Lemma join_nul_cons a b l :
  bytes_of (join_nul (a :: b :: l)) = bytes_of a ++ x00 :: bytes_of (join_nul (b :: l)).
Proof. unfold join_nul; simpl. by rewrite !bytes_of_app. Qed.

(** NUL-free fields can be read back from the joined text. *)
Lemma join_nul_inj l k :
  length l = length k → Forall nul_free l → Forall nul_free k →
  join_nul l = join_nul k → l = k.
Proof.
  revert k. induction l as [|a l IH]; intros [|b k] Hlen Hl Hk Heq; try done.
  inversion Hl as [|?? Ha Hl']; inversion Hk as [|?? Hb Hk']; subst.
  destruct l as [|a' l], k as [|b' k]; try done.
  - unfold join_nul in Heq; simpl in Heq; by subst.
  - apply (f_equal bytes_of) in Heq. rewrite !join_nul_cons in Heq.
    apply sep_app_inj in Heq as [->%(inj bytes_of) ->%(inj bytes_of)%IH]; auto.
Qed.

(** *** Decimal text ([to_string] of an integer) *)
Definition to_string (z : Z) : string := pretty z.

Lemma pretty_N_char_not_nul x : byte_of_ascii (pretty_N_char x) ≠ x00.
Proof. unfold pretty_N_char. by repeat case_match. Qed.

Lemma pretty_N_go_nul_free x s : nul_free s → nul_free (pretty_N_go x s).
Proof.
  revert s. induction (N.lt_wf_0 x) as [x _ IH]; intros s Hs.
  destruct (decide (0 < x)%N) as [Hx|Hx].
  - rewrite pretty_N_go_step by done. apply IH; [by apply N.div_lt|].
    unfold nul_free. rewrite bytes_of_cons, not_elem_of_cons. split; [|done].
    apply not_eq_sym, pretty_N_char_not_nul.
  - replace x with 0%N by lia. by rewrite pretty_N_go_0.
Qed.

Lemma to_string_nul_free z : nul_free (to_string z).
Proof.
  assert (HN : ∀ n : N, nul_free (pretty n)).
  { intros n. unfold pretty, pretty_N. case_decide; [compute_done|].
    apply pretty_N_go_nul_free. compute_done. }
  unfold to_string, pretty, pretty_Z. destruct z as [|p|p]; [compute_done|apply HN|].
  unfold nul_free. rewrite bytes_of_app, not_elem_of_app.
  split; [compute_done|apply HN].
Qed.

Lemma to_string_not_empty z : to_string z ≠ "".
Proof.
  assert (HN : ∀ n s, s ≠ "" → pretty_N_go n s ≠ "").
  { intros n. induction (N.lt_wf_0 n) as [x _ IH]; intros s Hs.
    destruct (decide (0 < x)%N).
    - rewrite pretty_N_go_step by done. by apply IH; [apply N.div_lt|].
    - replace x with 0%N by lia. by rewrite pretty_N_go_0. }
  assert (HP : ∀ p, pretty (N.pos p) ≠ "").
  { intros p. unfold pretty, pretty_N. case_decide; [done|].
    rewrite pretty_N_go_step by done. by apply HN. }
  unfold to_string, pretty, pretty_Z. destruct z as [|p|p]; [done|apply HP|done].
Qed.

#[export] Instance to_string_inj : Inj (=) (=) to_string := pretty_Z_inj.
#[export] Hint Resolve to_string_nul_free : relay.

(** An optional integer is written as its digits, or as the empty text. *)
Definition opt_to_string (o : option Z) : string := from_option to_string "" o.

Lemma opt_to_string_nul_free o : nul_free (opt_to_string o).
Proof. destruct o; [apply to_string_nul_free|compute_done]. Qed.

#[export] Instance opt_to_string_inj : Inj (=) (=) opt_to_string.
Proof.
  intros [a|] [b|] H; simpl in H; [by apply (inj to_string) in H as ->|..|done];
    by destruct (to_string_not_empty _ H) || by destruct (to_string_not_empty _ (eq_sym H)).
Qed.
#[export] Hint Resolve opt_to_string_nul_free : relay.

(** *** Debug text ([{:?}])

    A text is written in quotes with its quotes, backslashes and control
    characters escaped.  Bytes of characters beyond ASCII are written as they
    are. *)
Definition quote : string := String "034"%char "".

Definition hex_char (n : N) : ascii :=
  default "0"%char (String.list_ascii_of_string "0123456789abcdef" !! N.to_nat n).

Definition debug_char (c : ascii) : string :=
  let n := N_of_ascii c in
  if (n =? 0)%N then "\0"
  else if (n =? 9)%N then "\t"
  else if (n =? 10)%N then "\n"
  else if (n =? 13)%N then "\r"
  else if (n =? 34)%N then "\" +:+ quote
  else if (n =? 92)%N then "\\"
  else if (n <? 16)%N then "\u{" +:+ String (hex_char n) "}"
  else if (n <? 32)%N || (n =? 127)%N then
    "\u{" +:+ String (hex_char (n / 16)) (String (hex_char (n mod 16)) "}")
  else String c "".

Fixpoint debug_chars (s : string) : string :=
  match s with "" => "" | String c s => debug_char c +:+ debug_chars s end.

Definition debug_str (s : string) : string := quote +:+ debug_chars s +:+ quote.

Definition debug_opt_str (o : option string) : string :=
  match o with Some s => "Some(" +:+ debug_str s +:+ ")" | None => "None" end.
