(* ===== verification/Checksum.v ===== *)
(** * Checksums (crates/craftrelay-domain/src/lib.rs and craftrelay-journal/src/lib.rs)

    The hash function of the [sha2] crate is a parameter, the class [Sha256];
    its one documented fact that the code relies on -- a digest has 32 bytes --
    is the class [Sha256Ok].  Nothing is assumed about collisions: a statement
    that would need collision freedom exhibits the collision instead.  The file
    also holds the byte encodings the hashed texts are built from. *)
From S2P Require Import Prelude.
Open Scope Z_scope.
#[local] Coercion Z.of_nat : nat >-> Z.

(** A checksum is [[u8; 32]]; [is_checksum] states the length that Rust's type
    carries. *)
Abbreviation Checksum := (list byte).
Definition is_checksum (c : Checksum) : Prop := length c = 32%nat.

#[export] Instance is_checksum_dec c : Decision (is_checksum c).
Proof. unfold is_checksum. apply _. Defined.

Class Sha256 := sha256 : list byte → Checksum.
Class Sha256Ok `{Sha256} := sha256_length m : is_checksum (sha256 m).
#[export] Hint Resolve sha256_length : relay.

(** These two messages are different and have one digest.  Every hash of fixed
    length has such messages; the theorems name the two that would have to
    collide. *)
Definition collides `{Sha256} (m m' : list byte) : Prop := m ≠ m' ∧ sha256 m = sha256 m'.

Lemma same_or_collides `{Sha256} m m' : sha256 m = sha256 m' → m = m' ∨ collides m m'.
Proof. intros Heq. destruct (decide (m = m')); [by left|by right]. Qed.

(** A concrete hash for evaluating the model: the message cut or filled to 32
    bytes.  It has the documented length and is used in witnesses only. *)
Definition sample_sha256 : Sha256 := λ m, resize 32 x00 (rev m).

Lemma sample_sha256_ok : @Sha256Ok sample_sha256.
Proof. intros m. apply length_resize. Qed.

(** ** Byte encodings *)
Definition byte_of_Z (z : Z) : byte := default x00 (Byte.of_N (Z.to_N (z mod 256))).

Lemma byte_to_of_Z z : Z.of_N (Byte.to_N (byte_of_Z z)) = z mod 256.
Proof.
  unfold byte_of_Z. pose proof (Z.mod_pos_bound z 256 ltac:(lia)).
  destruct (Byte.of_N (Z.to_N (z mod 256))) as [b|] eqn:Hb; simpl.
  - apply Byte.to_of_N in Hb. rewrite Hb. lia.
  - apply Byte.of_N_None_iff in Hb. lia.
Qed.

Lemma byte_of_Z_inj a b : byte_of_Z a = byte_of_Z b → a mod 256 = b mod 256.
Proof. intros H. by rewrite <- !byte_to_of_Z, H. Qed.

(** [to_be_bytes] of an [n]-byte integer, two's complement. *)
Fixpoint be_bytes (n : nat) (z : Z) : list byte :=
  match n with
  | O => []
  | S m => byte_of_Z (z / 256 ^ m) :: be_bytes m z
  end.

Definition i64_to_be_bytes (z : Z) : list byte := be_bytes 8 z.
Definition i32_to_be_bytes (z : Z) : list byte := be_bytes 4 z.

Lemma be_bytes_length n z : length (be_bytes n z) = n.
Proof. induction n; simpl; congruence. Qed.

Lemma be_bytes_inj n a b : be_bytes n a = be_bytes n b → a mod 256 ^ n = b mod 256 ^ n.
Proof.
  induction n as [|n IH]; intros H; [by rewrite !Z.mod_1_r|].
  injection H as Hd Hr. apply IH in Hr. apply byte_of_Z_inj in Hd.
  rewrite Nat2Z.inj_succ, Z.pow_succ_r, Z.mul_comm by lia.
  rewrite !Z.rem_mul_r by lia. by rewrite Hd, Hr.
Qed.

Lemma i64_to_be_bytes_inj a b :
  in_i64 a → in_i64 b → i64_to_be_bytes a = i64_to_be_bytes b → a = b.
Proof.
  intros Ha Hb H%be_bytes_inj. change (256 ^ 8%nat) with 18446744073709551616 in H.
  unfold in_i64, i64_min, i64_max in *.
  pose proof (Z.div_mod a 18446744073709551616 ltac:(lia)).
  pose proof (Z.div_mod b 18446744073709551616 ltac:(lia)). lia.
Qed.

Lemma i32_to_be_bytes_inj a b :
  in_i32 a → in_i32 b → i32_to_be_bytes a = i32_to_be_bytes b → a = b.
Proof.
  intros Ha Hb H%be_bytes_inj. change (256 ^ 4%nat) with 4294967296 in H.
  unfold in_i32, i32_min, i32_max in *.
  pose proof (Z.div_mod a 4294967296 ltac:(lia)).
  pose proof (Z.div_mod b 4294967296 ltac:(lia)). lia.
Qed.

(** ** Hexadecimal text of a checksum ([checksum_hex] of the journal) *)
Definition hex_digit (n : N) : ascii :=
  default "0"%char ((String.list_ascii_of_string "0123456789abcdef") !! N.to_nat n).

Definition checksum_hex (c : Checksum) : string :=
  foldr (λ b out, String (hex_digit (N.shiftr (Byte.to_N b) 4))
                   (String (hex_digit (N.land (Byte.to_N b) 15)) out)) "" c.

Definition hex_pair (b : byte) : ascii * ascii :=
  (hex_digit (N.shiftr (Byte.to_N b) 4), hex_digit (N.land (Byte.to_N b) 15)).

Lemma hex_pair_inj a b : hex_pair a = hex_pair b → a = b.
Proof.
  intros H.
  assert (Hall : ∀ x, Byte.of_N (match hex_pair x with
      (c, d) => 16 * N.of_nat (default 0%nat (String.index 0 (String c "") "0123456789abcdef"))
                + N.of_nat (default 0%nat (String.index 0 (String d "") "0123456789abcdef")) end) = Some x).
  { intros x. by destruct x; vm_compute. }
  pose proof (Hall a) as Ha. rewrite H, Hall in Ha. congruence.
Qed.

#[export] Instance checksum_hex_inj : Inj (=) (=) checksum_hex.
Proof.
  intros c. induction c as [|b c IH]; intros [|b' c'] H; try done.
  cbn -[hex_digit] in H. injection H as H1 H2 H3.
  f_equal; [apply hex_pair_inj; unfold hex_pair; congruence|by apply IH].
Qed.

Lemma checksum_hex_nul_free c : nul_free (checksum_hex c).
Proof.
  induction c as [|b c IH]; [compute_done|]. cbn -[hex_digit].
  unfold nul_free. rewrite !bytes_of_cons, !not_elem_of_cons.
  repeat split; [by destruct b|by destruct b|done].
Qed.
#[export] Hint Resolve checksum_hex_nul_free : relay.
