(* ===== verification/Retry.v ===== *)
(** * Retry scheduling (crates/craftrelay-kafka-delivery/src/retry.rs, producer.rs)

    The error classification of the Kafka producer and the bounded
    exponential backoff that schedules the next delivery attempt. *)
From S2P Require Import Prelude.
Open Scope Z_scope.

(** ** producer.rs: the errors of a send *)
Inductive SendError : Type :=
| BrokerUnavailable
| TopicNotFound
| AuthorizationFailed
| MessageTooLarge
| Timeout
| QueueFull
| Unknown (detail : string).

#[export] Instance SendError_eq_dec : EqDecision SendError.
Proof. solve_decision. Defined.

Definition is_retriable (e : SendError) : bool :=
  match e with BrokerUnavailable | Timeout | QueueFull => true | _ => false end.

Definition is_permanent (e : SendError) : bool :=
  match e with
  | TopicNotFound | AuthorizationFailed | MessageTooLarge => true
  | _ => false
  end.

(** ** retry.rs *)
Definition MAX_RETRY_ATTEMPTS : Z := 32.
Definition BASE_BACKOFF_MS : Z := 1000.
Definition MAX_BACKOFF_MS : Z := 300000.

Inductive RetryDecision : Type :=
| Retry (next_retry_at_ms : Z)
| Exhausted.

Definition compute_next_retry (attempt_count now_ms : Z) : RetryDecision :=
  if MAX_RETRY_ATTEMPTS <=? attempt_count then Exhausted
  else
    let exponent := Z.max (i32_sub attempt_count 1) 0 in
    let backoff :=
      Z.min (i64_saturating_mul BASE_BACKOFF_MS (i64_saturating_pow 2 exponent))
            MAX_BACKOFF_MS in
    Retry (i64_add now_ms backoff).

Definition should_retry (error : SendError) (attempt_count : Z) : bool :=
  is_retriable error && (attempt_count <? MAX_RETRY_ATTEMPTS).

(** ** The schedule *)

(** The mathematical backoff: doubling from one second, capped at five
    minutes. *)
Definition backoff_ms (attempt : Z) : Z :=
  Z.min (BASE_BACKOFF_MS * 2 ^ Z.max (attempt - 1) 0) MAX_BACKOFF_MS.

Lemma backoff_bounds a : BASE_BACKOFF_MS ≤ backoff_ms a ≤ MAX_BACKOFF_MS.
Proof.
  unfold backoff_ms, BASE_BACKOFF_MS, MAX_BACKOFF_MS.
  assert (1 ≤ 2 ^ Z.max (a - 1) 0) by (apply (Z.pow_le_mono_r 2 0); lia).
  lia.
Qed.

Lemma backoff_mono a b : a ≤ b → backoff_ms a ≤ backoff_ms b.
Proof.
  intros Hab. unfold backoff_ms, BASE_BACKOFF_MS.
  assert (2 ^ Z.max (a - 1) 0 ≤ 2 ^ Z.max (b - 1) 0)
    by (apply Z.pow_le_mono_r; lia).
  lia.
Qed.

Lemma i64_saturate_id z : in_i64 z → i64_saturate z = z.
Proof. unfold i64_saturate; rlia. Qed.

Lemma pow2_small e : 0 ≤ e ≤ 30 → 1 ≤ 2 ^ e ≤ 1073741824.
Proof.
  intros He. split; [apply (Z.pow_le_mono_r 2 0); lia|].
  change 1073741824 with (2 ^ 30). apply Z.pow_le_mono_r; lia.
Qed.

(** Below the limit the saturating arithmetic never saturates. *)
Lemma compute_next_retry_eq a now :
  i32_min < a < MAX_RETRY_ATTEMPTS → in_i64 now → now ≤ i64_max - MAX_BACKOFF_MS →
  compute_next_retry a now = Retry (now + backoff_ms a).
Proof.
  unfold MAX_RETRY_ATTEMPTS; intros Ha Hnow Hmax. unfold compute_next_retry.
  destruct (Z.leb_spec MAX_RETRY_ATTEMPTS a) as [H|_]; [unfold MAX_RETRY_ATTEMPTS in H; lia|].
  rewrite i32_sub_id by rlia.
  pose proof (pow2_small (Z.max (a - 1) 0) ltac:(lia)) as Hp.
  unfold i64_saturating_mul, i64_saturating_pow.
  rewrite (i64_saturate_id (2 ^ _)) by rlia.
  rewrite i64_saturate_id by (unfold BASE_BACKOFF_MS; rlia).
  fold (backoff_ms a).
  pose proof (backoff_bounds a). unfold BASE_BACKOFF_MS, MAX_BACKOFF_MS in *.
  f_equal. apply i64_add_id. rlia.
Qed.

(** C33. Retry scheduling is exact and bounded: for an attempt number below
    the limit of 32, and a clock at least five minutes away from the largest
    [i64], the next attempt is scheduled at the current time plus
    [min(1000 * 2^(attempt-1), 300000)] milliseconds -- no intermediate step
    saturates or wraps -- and so between one second and five minutes ahead. *)
Theorem next_retry_exact (a now : Z) :
  i32_min < a < MAX_RETRY_ATTEMPTS → in_i64 now → now ≤ i64_max - MAX_BACKOFF_MS →
  ∃ t, compute_next_retry a now = Retry t ∧
       t = now + Z.min (1000 * 2 ^ Z.max (a - 1) 0) 300000 ∧
       now + 1000 ≤ t ≤ now + 300000.
Proof.
  intros Ha Hn Hm. eexists. split; [by apply compute_next_retry_eq|].
  split; [done|]. pose proof (backoff_bounds a) as H.
  unfold BASE_BACKOFF_MS, MAX_BACKOFF_MS in H. lia.
Qed.

Lemma next_retry_exact_witness :
  ∃ t, compute_next_retry 6 1000000 = Retry t ∧
       t = 1000000 + Z.min (1000 * 2 ^ Z.max (6 - 1) 0) 300000 ∧
       1000000 + 1000 ≤ t ≤ 1000000 + 300000.
Proof. apply (next_retry_exact 6 1000000); unfold MAX_RETRY_ATTEMPTS, MAX_BACKOFF_MS; rlia. Defined.

(** Retries are bounded and the retry decision and the schedule agree: an
    error is retried exactly when it is one of the three transient kinds and
    fewer than 32 attempts were made, and whenever it is retried the schedule
    yields a time (so the exhausted branch behind a granted retry is dead). *)
Theorem should_retry_schedules (e : SendError) (a now : Z) :
  (should_retry e a = true ↔
     (e = BrokerUnavailable ∨ e = Timeout ∨ e = QueueFull) ∧ a < MAX_RETRY_ATTEMPTS) ∧
  (should_retry e a = true → compute_next_retry a now ≠ Exhausted) ∧
  (is_retriable e = true → is_permanent e = false).
Proof.
  unfold should_retry. repeat split.
  - destruct e; simpl in *; naive_solver.
  - apply andb_prop in H as [_ H]. by apply Z.ltb_lt.
  - intros [[->|[->| ->]] H]; by apply Z.ltb_lt.
  - intros [_ Ha%Z.ltb_lt]%andb_prop. unfold compute_next_retry.
    destruct (Z.leb_spec MAX_RETRY_ATTEMPTS a); [lia|done].
  - by destruct e.
Qed.
