(* ===== verification/Gate.v ===== *)
(** * The per-stream ordering gate (crates/craftrelay-kafka-delivery/src/gate.rs)

    The gate decides which event of a stream may be sent to Kafka.  Its state
    is one entry per stream: the highest completed sequence, the sequence in
    flight and the sequence that blocks the stream.  The theorems say that the
    gate admits exactly one sequence of a stream at a time, that every run of
    the delivery loop completes the sequences of a stream in order without a
    gap, and that recovery from a scan of the persisted states depends only on
    what was replicated. *)
From S2P Require Import Prelude.
Open Scope Z_scope.
#[local] Coercion Z.of_nat : nat >-> Z.

(** ** State and operations *)
Inductive GateDecision : Type :=
| Allowed
| Blocked (waiting_for_sequence : Z).

#[export] Instance GateDecision_eq_dec : EqDecision GateDecision.
Proof. solve_decision. Defined.

Record RecoveredStreamState : Type := mkRecovered {
  rs_stream_key : string;
  rs_stream_sequence : Z;
  rs_replicated : bool;
  rs_blocking : bool;
  rs_in_flight : bool
}.

Record StreamGateState : Type := mkGateState {
  highest_completed : Z;
  in_flight : option Z;
  blocking : option Z
}.

Record OrderingGate : Type := mkGate {
  streams : gmap string StreamGateState
}.

(** [OrderingGate::new] *)
Definition gate_new : OrderingGate := mkGate ∅.

Definition check (g : OrderingGate) (stream_key : string) (stream_sequence : Z)
  : GateDecision :=
  match streams g !! stream_key with
  | None => if stream_sequence =? 1 then Allowed else Blocked 1
  | Some state =>
      let next := i64_add (highest_completed state) 1 in
      match in_flight state with
      | Some f => Blocked f
      | None =>
          match blocking state with
          | Some b => if stream_sequence =? b then Allowed else Blocked b
          | None => if stream_sequence =? next then Allowed else Blocked next
          end
      end
  end.

(** The state that [entry(..).or_insert(..)] puts into an absent stream. *)
Definition fresh_stream : StreamGateState := mkGateState 0 None None.

Definition stream_entry (g : OrderingGate) (k : string) : StreamGateState :=
  default fresh_stream (streams g !! k).

Definition set_stream (g : OrderingGate) (k : string) (s : StreamGateState)
  : OrderingGate := mkGate (<[k := s]> (streams g)).

Definition mark_in_flight (g : OrderingGate) (k : string) (s : Z) : OrderingGate :=
  let state := stream_entry g k in
  set_stream g k (mkGateState (highest_completed state) (Some s) None).

Definition mark_blocking (g : OrderingGate) (k : string) (s : Z) : OrderingGate :=
  let state := stream_entry g k in
  set_stream g k
    (mkGateState (highest_completed state)
       (if decide (in_flight state = Some s) then None else in_flight state)
       (Some s)).

Definition mark_completed (g : OrderingGate) (k : string) (s : Z) : OrderingGate :=
  let state := stream_entry g k in
  set_stream g k
    (mkGateState s
       (if decide (in_flight state = Some s) then None else in_flight state)
       (if decide (blocking state = Some s) then None else blocking state)).

(** One iteration of the loop of [recover_from_scan]. *)
Definition recover_one (g : OrderingGate) (r : RecoveredStreamState) : OrderingGate :=
  let entry := stream_entry g (rs_stream_key r) in
  set_stream g (rs_stream_key r)
    (mkGateState
       (if rs_replicated r && (highest_completed entry <? rs_stream_sequence r)
        then rs_stream_sequence r else highest_completed entry)
       (if rs_in_flight r then Some (rs_stream_sequence r) else in_flight entry)
       (if rs_blocking r
        then match blocking entry with
             | Some existing => Some (Z.min existing (rs_stream_sequence r))
             | None => Some (rs_stream_sequence r)
             end
        else blocking entry)).

(** [streams.clear()], then the loop. *)
Definition recover_from_scan (g : OrderingGate) (states : list RecoveredStreamState)
  : OrderingGate := foldl recover_one (mkGate ∅) states.

Definition stream_count (g : OrderingGate) : nat := size (streams g).

(** ** Looking at one stream after an operation *)
Lemma stream_entry_set g k s : stream_entry (set_stream g k s) k = s.
Proof. unfold stream_entry, set_stream; simpl. by rewrite lookup_insert_eq. Qed.

Lemma stream_entry_set_ne g k k' s :
  k ≠ k' → stream_entry (set_stream g k s) k' = stream_entry g k'.
Proof. intros H. unfold stream_entry, set_stream; simpl. by rewrite lookup_insert_ne. Qed.

Lemma check_set_ne g k k' st s :
  k ≠ k' → check (set_stream g k st) k' s = check g k' s.
Proof. intros H. unfold check, set_stream; simpl. by rewrite lookup_insert_ne. Qed.

(** The gate reads a stream it has no entry for like a fresh one. *)
Lemma check_entry g k s :
  check g k s =
  match in_flight (stream_entry g k) with
  | Some f => Blocked f
  | None =>
      let awaited := default (i64_add (highest_completed (stream_entry g k)) 1)
                             (blocking (stream_entry g k)) in
      if s =? awaited then Allowed else Blocked awaited
  end.
Proof.
  unfold check, stream_entry.
  destruct (streams g !! k) as [[h [f|] [b|]]|]; simpl; try done.
Qed.

(** The one sequence of a stream the gate waits for. *)
Definition awaited (g : OrderingGate) (k : string) : Z :=
  default (i64_add (highest_completed (stream_entry g k)) 1) (blocking (stream_entry g k)).

Lemma check_allowed g k s :
  check g k s = Allowed ↔ in_flight (stream_entry g k) = None ∧ s = awaited g k.
Proof.
  rewrite check_entry. unfold awaited.
  destruct (in_flight (stream_entry g k)); simpl; [naive_solver|].
  destruct (Z.eqb_spec s (default (i64_add (highest_completed (stream_entry g k)) 1)
                                   (blocking (stream_entry g k)))); naive_solver.
Qed.

#[export] Hint Rewrite stream_entry_set : relay.

(** ** Runs of the delivery loop *)

(** What the delivery service does to a gate, and the record it leaves: it
    sends a sequence only after [check] allowed it; the outcome of a send is a
    completion or a failure that blocks the stream; an allowed sequence may
    also be blocked before it is sent, or found to be already replicated.
    The run starts with some gate, a new or a recovered one, and the trace
    holds the latest event first. *)
Inductive gate_event : Type :=
| Sent (k : string) (s : Z)
| Completed (k : string) (s : Z)
| Held (k : string) (s : Z).

Inductive gate_run_from (g0 : OrderingGate) : list gate_event → OrderingGate → Prop :=
| run_start : gate_run_from g0 [] g0
| run_send tr g k s :
    gate_run_from g0 tr g → check g k s = Allowed →
    gate_run_from g0 (Sent k s :: tr) (mark_in_flight g k s)
| run_confirm tr g k s :
    gate_run_from g0 tr g → in_flight (stream_entry g k) = Some s →
    gate_run_from g0 (Completed k s :: tr) (mark_completed g k s)
| run_fail tr g k s :
    gate_run_from g0 tr g → in_flight (stream_entry g k) = Some s →
    gate_run_from g0 (Held k s :: tr) (mark_blocking g k s)
| run_block tr g k s :
    gate_run_from g0 tr g → check g k s = Allowed →
    gate_run_from g0 (Held k s :: tr) (mark_blocking g k s)
| run_already tr g k s :
    gate_run_from g0 tr g → check g k s = Allowed →
    gate_run_from g0 (Completed k s :: tr) (mark_completed g k s).

(** A run of a new gate. *)
Definition gate_run : list gate_event → OrderingGate → Prop := gate_run_from gate_new.

(** The completions of one stream, oldest first. *)
Fixpoint completions (k : string) (tr : list gate_event) : list Z :=
  match tr with
  | [] => []
  | Completed k' s :: tr =>
      if decide (k = k') then completions k tr ++ [s] else completions k tr
  | _ :: tr => completions k tr
  end.

Lemma completions_length k tr : (length (completions k tr) ≤ length tr)%nat.
Proof.
  induction tr as [|[] tr IH]; simpl; try case_decide; simpl;
    rewrite ?length_app; simpl; lia.
Qed.

Lemma completed_in k tr s : s ∈ completions k tr → Completed k s ∈ tr.
Proof.
  induction tr as [|[k' s'|k' s'|k' s'] tr IH]; simpl; intros Hs;
    [by apply not_elem_of_nil in Hs|right; by apply IH| |right; by apply IH].
  case_decide as Hk; [|right; by apply IH]. apply elem_of_app in Hs as [Hs|Hs].
  - right. by apply IH.
  - apply list_elem_of_singleton in Hs as ->. subst. left.
Qed.

(** No sequence is in flight. *)
Definition settled (g : OrderingGate) : Prop := ∀ k, in_flight (stream_entry g k) = None.

(** The stream invariant: after [n] completions of a stream that waited for
    [a], at most one sequence is under way, it is [a + n], and nothing else can
    be next. *)
Definition stream_inv (a n : Z) (st : StreamGateState) : Prop :=
  (n = 0 ∨ highest_completed st = a + n - 1) ∧
  (in_flight st = None ∧ default (i64_add (highest_completed st) 1) (blocking st) = a + n ∨
   in_flight st = Some (a + n) ∧ blocking st = None).

Definition stream_ok (g0 : OrderingGate) (tr : list gate_event) (k : string)
    (st : StreamGateState) : Prop :=
  stream_inv (awaited g0 k) (length (completions k tr)) st ∧
  completions k tr = seqZ (awaited g0 k) (length (completions k tr)).

Definition gate_ok (g0 : OrderingGate) (tr : list gate_event) (g : OrderingGate) : Prop :=
  ∀ k, stream_ok g0 tr k (stream_entry g k).

(** The run is so short that no sequence leaves the range of [i64]. *)
Definition run_fits (g0 : OrderingGate) (tr : list gate_event) : Prop :=
  ∀ k, i64_min ≤ awaited g0 k ∧ awaited g0 k + length tr ≤ i64_max.

Lemma run_fits_tail g0 e tr : run_fits g0 (e :: tr) → run_fits g0 tr.
Proof. intros Hf k. destruct (Hf k). simpl in *. lia. Qed.

Lemma awaited_new k : awaited gate_new k = 1.
Proof. done. Qed.

Lemma run_fits_new tr : length tr < i64_max → run_fits gate_new tr.
Proof. intros Hl k. rewrite awaited_new. rlia. Qed.

(** An operation on one stream keeps all streams in order, given that it keeps
    its own. *)
Lemma gate_ok_set g0 g tr tr' k st :
  gate_ok g0 tr g → stream_ok g0 tr' k st →
  (∀ k', k ≠ k' → completions k' tr' = completions k' tr) →
  gate_ok g0 tr' (set_stream g k st).
Proof.
  intros Hok Hst Hother k'. destruct (decide (k = k')) as [<-|Hne].
  - by rewrite stream_entry_set.
  - unfold stream_ok. rewrite stream_entry_set_ne, Hother by done. apply Hok.
Qed.

(** The only sequence a stream in order can work on is the next one. *)
Lemma gate_ok_next g0 tr g k s :
  gate_ok g0 tr g → check g k s = Allowed ∨ in_flight (stream_entry g k) = Some s →
  s = awaited g0 k + length (completions k tr).
Proof.
  intros Hok Hs. destruct (Hok k) as [(_ & Hf) _].
  destruct Hs as [[Hn ->]%check_allowed|Hs]; destruct Hf as [[??]|[??]]; congruence || done.
Qed.

Lemma completed_cons k tr s :
  completions k (Completed k s :: tr) = completions k tr ++ [s].
Proof. simpl. by case_decide. Qed.

Lemma completed_cons_ne k k' tr s :
  k ≠ k' → completions k' (Completed k s :: tr) = completions k' tr.
Proof. intros Hne. simpl. case_decide; congruence. Qed.

Lemma seqZ_snoc m n : 0 ≤ n → seqZ m n ++ [m + n] = seqZ m (n + 1).
Proof. intros Hn. by rewrite seqZ_app by lia. Qed.

(** What is blocked or in flight, when [s] is the sequence under way. *)
Lemma gate_ok_under_way g0 tr g k s :
  gate_ok g0 tr g → check g k s = Allowed ∨ in_flight (stream_entry g k) = Some s →
  (in_flight (stream_entry g k) = None ∨ in_flight (stream_entry g k) = Some s) ∧
  (blocking (stream_entry g k) = None ∨ blocking (stream_entry g k) = Some s).
Proof.
  intros Hok Hs. pose proof (gate_ok_next _ _ _ _ _ Hok Hs) as ->.
  destruct (Hok k) as [(_ & [[Hf Hb]|[Hf Hb]]) _]; [|auto].
  split; [by left|]. destruct (blocking (stream_entry g k)); simpl in *; [right; congruence|by left].
Qed.

Lemma gate_ok_complete g0 tr g k s :
  gate_ok g0 tr g → run_fits g0 (Completed k s :: tr) →
  check g k s = Allowed ∨ in_flight (stream_entry g k) = Some s →
  gate_ok g0 (Completed k s :: tr) (mark_completed g k s).
Proof.
  intros Hok Hfit Hs. pose proof (gate_ok_next _ _ _ _ _ Hok Hs) as Heq.
  destruct (gate_ok_under_way _ _ _ _ _ Hok Hs) as [Hf Hb].
  destruct (Hfit k) as [Hlo Hhi]. pose proof (completions_length k tr). simpl in Hhi.
  eapply gate_ok_set; [done| |by intros k' Hne; apply completed_cons_ne].
  unfold stream_ok. rewrite completed_cons, length_app. simpl. split.
  - split; [right; simpl; lia|]. left. simpl. split; [by case_decide; destruct Hf|].
    replace (if decide (blocking (stream_entry g k) = Some s) then None
             else blocking (stream_entry g k)) with (@None Z)
      by (case_decide; destruct Hb; done || congruence).
    simpl. rewrite i64_add_id by rlia. lia.
  - destruct (Hok k) as [_ Hseq]. rewrite Hseq at 1.
    rewrite Nat2Z.inj_add, <- seqZ_snoc by lia. do 2 f_equal. lia.
Qed.

Lemma gate_ok_hold g0 tr g k s :
  gate_ok g0 tr g → check g k s = Allowed ∨ in_flight (stream_entry g k) = Some s →
  gate_ok g0 (Held k s :: tr) (mark_blocking g k s).
Proof.
  intros Hok Hs. pose proof (gate_ok_next _ _ _ _ _ Hok Hs) as Heq.
  destruct (gate_ok_under_way _ _ _ _ _ Hok Hs) as [Hf _].
  eapply gate_ok_set; [done| |done]. destruct (Hok k) as [[Hh _] Hseq].
  split; [|done]. split; [done|]. left. simpl. split; [by case_decide; destruct Hf|done].
Qed.

Lemma gate_ok_send g0 tr g k s :
  gate_ok g0 tr g → check g k s = Allowed → gate_ok g0 (Sent k s :: tr) (mark_in_flight g k s).
Proof.
  intros Hok Hs. pose proof (gate_ok_next _ _ _ _ _ Hok (or_introl Hs)) as Heq.
  eapply gate_ok_set; [done| |done]. destruct (Hok k) as [[Hh _] Hseq].
  split; [|done]. split; [done|]. right. simpl. by rewrite Heq.
Qed.

Lemma gate_run_from_ok g0 tr g :
  settled g0 → gate_run_from g0 tr g → run_fits g0 tr → gate_ok g0 tr g.
Proof.
  intros Hset Hrun. induction Hrun as [| | | | |]; intros Hfit;
    try (pose proof (run_fits_tail _ _ _ Hfit) as Htl).
  - intros k. split; [|done]. split; [by left|]. left. split; [apply Hset|].
    change (awaited g0 k = awaited g0 k + 0). lia.
  - apply gate_ok_send; auto.
  - apply gate_ok_complete; auto.
  - apply gate_ok_hold; auto.
  - apply gate_ok_hold; auto.
  - apply gate_ok_complete; auto.
Qed.

Lemma settled_new : settled gate_new.
Proof. done. Qed.

Lemma gate_run_ok tr g : gate_run tr g → length tr < i64_max → gate_ok gate_new tr g.
Proof. intros Hrun Hl. by apply gate_run_from_ok, run_fits_new. Qed.

(** The highest completed sequence of a new gate's run. *)
Lemma gate_run_highest tr g k :
  gate_run tr g → length tr < i64_max →
  highest_completed (stream_entry g k) = length (completions k tr).
Proof.
  intros Hrun Hl. pose proof (gate_run_ok tr g Hrun Hl) as Hok.
  destruct (decide (completions k tr = [])) as [Hn|Hn].
  - rewrite Hn. simpl. clear Hl Hok. unfold gate_run in Hrun.
    induction Hrun as [|tr g k' s _ IH _|tr g k' s _ IH _|tr g k' s _ IH _|tr g k' s _ IH _|tr g k' s _ IH _];
      [done|..]; simpl in Hn; try (case_decide as Hk; [by apply app_nil in Hn as [_ ?]|]);
      (destruct (decide (k' = k)) as [->|Hne];
        [try done; unfold mark_in_flight, mark_blocking; rewrite stream_entry_set; simpl; by apply IH
        |unfold mark_in_flight, mark_blocking, mark_completed;
         rewrite stream_entry_set_ne by done; by apply IH]).
  - destruct (Hok k) as [([Hz|Hh] & _) _].
    + apply (f_equal Z.to_nat) in Hz. rewrite Nat2Z.id in Hz. by apply nil_length_inv in Hz.
    + rewrite Hh, awaited_new. lia.
Qed.

(** Streams are delivered in order and without a gap.  In every run of
    the delivery loop from an empty gate the completions of each stream are
    exactly 1, 2, ..., n in this order; whatever is in flight on the stream is
    n + 1; and the next sequence [check] lets through is n + 1 and no other. *)
Theorem gate_fifo (tr : list gate_event) (g : OrderingGate) (k : string) :
  gate_run tr g → Z.of_nat (length tr) < i64_max →
  let n := Z.of_nat (length (completions k tr)) in
  completions k tr = seqZ 1 n ∧
  highest_completed (stream_entry g k) = n ∧
  (∀ s, in_flight (stream_entry g k) = Some s → s = n + 1) ∧
  (∀ s, check g k s = Allowed ↔ in_flight (stream_entry g k) = None ∧ s = n + 1).
Proof.
  intros Hrun Hlen n. pose proof (gate_run_ok tr g Hrun Hlen) as Hok.
  destruct (Hok k) as [(_ & Hf) Hseq]. rewrite awaited_new in *. fold n in Hf.
  split; [done|]. split; [by apply gate_run_highest|]. split.
  - intros s Hs. destruct Hf as [[? _]|[? _]]; [congruence|]. assert (s = 1 + n) by congruence. lia.
  - intros s. rewrite check_allowed. unfold awaited.
    destruct Hf as [[Hn Ha]|[Hn _]]; rewrite Hn; [rewrite Ha|]; split; intros [? ?]; try done;
      split; done || lia.
Qed.

(** A run: sequence 1 of a stream is sent, fails, is sent again and completes;
    then 2 is sent. *)
Example sample_run :
  gate_run [Sent "a" 2; Completed "a" 1; Sent "a" 1; Held "a" 1; Sent "a" 1]
    (mark_in_flight (mark_completed (mark_in_flight (mark_blocking
       (mark_in_flight gate_new "a" 1) "a" 1) "a" 1) "a" 1) "a" 2).
Proof.
  apply run_send; [|reflexivity]. apply run_confirm; [|reflexivity].
  apply run_send; [|reflexivity]. apply run_fail; [|reflexivity].
  apply run_send; [|reflexivity]. apply run_start.
Qed.

Lemma gate_fifo_witness :
  completions "a" [Sent "a" 2; Completed "a" 1; Sent "a" 1; Held "a" 1; Sent "a" 1] = seqZ 1 1.
Proof. apply (gate_fifo _ _ "a" sample_run). vm_compute. reflexivity. Defined.

(** Every send of a run carries the next sequence: the number of the
    stream's completions before it, plus one. So an event is never sent before
    its predecessors in the stream were confirmed. *)
Theorem sends_in_order (later earlier : list gate_event) (g : OrderingGate)
    (k : string) (s : Z) :
  gate_run (later ++ Sent k s :: earlier) g →
  Z.of_nat (length (later ++ Sent k s :: earlier)) < i64_max →
  s = length (completions k earlier) + 1.
Proof.
  remember (later ++ Sent k s :: earlier) as tr eqn:Htr.
  intros Hrun. revert later Htr. unfold gate_run in Hrun. induction Hrun; intros later Htr Hlen.
  - by destruct later.
  - destruct later as [|ev later]; simplify_eq/=.
    + pose proof (gate_run_ok _ _ Hrun ltac:(lia)) as Hok.
      pose proof (gate_ok_next _ _ _ k s Hok (or_introl H)) as Hs.
      rewrite awaited_new in Hs. lia.
    + eapply IHHrun; [done|lia].
  - destruct later; simplify_eq/=; eapply IHHrun; [done|lia].
  - destruct later; simplify_eq/=; eapply IHHrun; [done|lia].
  - destruct later; simplify_eq/=; eapply IHHrun; [done|lia].
  - destruct later; simplify_eq/=; eapply IHHrun; [done|lia].
Qed.

Lemma sends_in_order_witness :
  2 = length (completions "a" [Completed "a" 1; Sent "a" 1; Held "a" 1; Sent "a" 1]) + 1.
Proof. exact (sends_in_order [] _ _ "a" 2 sample_run eq_refl). Defined.

(** ** Recovery *)

(** What a scan says about one stream. *)
Definition of_stream (k : string) (rs : list RecoveredStreamState)
  : list RecoveredStreamState :=
  filter (λ r, rs_stream_key r = k) rs.

Definition replicated_max (h : Z) (rs : list RecoveredStreamState) : Z :=
  foldl (λ h r, if rs_replicated r then Z.max h (rs_stream_sequence r) else h) h rs.

Definition min_option (o : option Z) (s : Z) : option Z :=
  Some (match o with Some b => Z.min b s | None => s end).

Definition blocking_min (o : option Z) (rs : list RecoveredStreamState) : option Z :=
  foldl (λ o r, if rs_blocking r then min_option o (rs_stream_sequence r) else o) o rs.

Definition last_in_flight (o : option Z) (rs : list RecoveredStreamState) : option Z :=
  foldl (λ o r, if rs_in_flight r then Some (rs_stream_sequence r) else o) o rs.

Lemma recover_fold g rs k :
  let e := stream_entry g k in
  stream_entry (foldl recover_one g rs) k =
  mkGateState (replicated_max (highest_completed e) (of_stream k rs))
              (last_in_flight (in_flight e) (of_stream k rs))
              (blocking_min (blocking e) (of_stream k rs)).
Proof.
  revert g. induction rs as [|r rs IH]; intros g; simpl; [by destruct (stream_entry g k)|].
  rewrite IH. unfold of_stream. rewrite filter_cons.
  destruct (decide (rs_stream_key r = k)) as [Hk|Hk].
  - subst k. unfold recover_one. rewrite stream_entry_set. simpl.
    f_equal.
    + f_equal. destruct (rs_replicated r); simpl; [|done].
      destruct (Z.ltb_spec (highest_completed (stream_entry g (rs_stream_key r)))
                           (rs_stream_sequence r)); lia.
    + f_equal. destruct (rs_blocking r); [|done]. unfold min_option.
      by destruct (blocking (stream_entry g (rs_stream_key r))).
  - unfold recover_one. by rewrite stream_entry_set_ne.
Qed.

(** Recovery is exact: whatever the gate held before, after
    [recover_from_scan] the entry of each stream is determined by the scanned
    states of that stream alone -- the highest replicated sequence, the lowest
    blocking one and the last one in flight. *)
Theorem recover_exact (g : OrderingGate) (rs : list RecoveredStreamState) (k : string) :
  stream_entry (recover_from_scan g rs) k =
  mkGateState (replicated_max 0 (of_stream k rs))
              (last_in_flight None (of_stream k rs))
              (blocking_min None (of_stream k rs)).
Proof.
  unfold recover_from_scan. rewrite recover_fold.
  unfold stream_entry; simpl. by rewrite lookup_empty.
Qed.

(** The persisted states of a stream of which the first [n] sequences are
    replicated and the rest wait, in the form the service builds them. *)
Definition persisted (k : string) (n : Z) (s : Z) : RecoveredStreamState :=
  mkRecovered k s (s <=? n) (negb (s <=? n)) false.

Lemma of_stream_persisted k n l : of_stream k (persisted k n <$> l) = persisted k n <$> l.
Proof.
  induction l as [|s l IH]; [done|]. unfold of_stream in *.
  rewrite fmap_cons, filter_cons. simpl. by rewrite decide_True, IH.
Qed.

Lemma replicated_max_persisted k n h l :
  h ≤ n → n ∈ l → replicated_max h (persisted k n <$> l) = n.
Proof.
  intros Hh Hl. assert (Hmono : ∀ h l, h ≤ replicated_max h (persisted k n <$> l)).
  { clear. intros h l; revert h. induction l as [|s l IH]; intros h; simpl; [lia|].
    etrans; [|apply IH]. case_match; lia. }
  assert (Hub : ∀ h l, h ≤ n → replicated_max h (persisted k n <$> l) ≤ n).
  { clear. intros h l; revert h. induction l as [|s l IH]; intros h Hh; simpl; [lia|].
    apply IH. destruct (Z.leb_spec s n); lia. }
  revert h Hh. induction l as [|s l IH]; [by apply not_elem_of_nil in Hl|].
  intros h Hh. simpl. apply elem_of_cons in Hl as [->|Hl].
  - rewrite (proj2 (Z.leb_le s s)) by lia. apply Z.le_antisymm; [apply Hub; lia|].
    etrans; [|apply Hmono]. lia.
  - apply IH; [done|]. destruct (Z.leb_spec s n); lia.
Qed.

Lemma blocking_min_persisted k n b l :
  n < b → b ∈ l → (∀ s, s ∈ l → s ≤ n ∨ b ≤ s) →
  ∀ o, (o = None ∨ ∃ b', o = Some b' ∧ b ≤ b') →
  blocking_min o (persisted k n <$> l) = Some b.
Proof.
  intros Hb Hl Hall.
  assert (Hkeep : ∀ l, (∀ s, s ∈ l → s ≤ n ∨ b ≤ s) →
                  blocking_min (Some b) (persisted k n <$> l) = Some b).
  { clear Hl Hall l. induction l as [|s l IH]; intros Hall; simpl; [done|].
    replace (if negb (s <=? n) then min_option (Some b) s else Some b) with (Some b);
      [apply IH; intros; apply Hall; by right|].
    destruct (Z.leb_spec s n); simpl; [done|]. unfold min_option. f_equal.
    destruct (Hall s); [by left|lia|lia]. }
  induction l as [|s l IH]; [by apply not_elem_of_nil in Hl|]. intros o Ho. simpl.
  apply elem_of_cons in Hl as [->|Hl].
  - destruct (Z.leb_spec s n); [lia|]. simpl.
    replace (min_option o s) with (Some s);
      [apply Hkeep; intros; apply Hall; by right|].
    unfold min_option. destruct Ho as [->|(b' & -> & Hb')]; f_equal; lia.
  - apply IH; [done|intros; apply Hall; by right|].
    destruct (Z.leb_spec s n); simpl; [done|]. right. eexists. split; [done|].
    destruct (Hall s) as [?|?]; [by left|lia|].
    destruct Ho as [->|(b' & -> & Hb')]; lia.
Qed.

Lemma last_in_flight_persisted k n o l : last_in_flight o (persisted k n <$> l) = o.
Proof. revert o; induction l; intros o; simpl; auto. Qed.

(** Recovery resumes a stream where it stopped.  When the persisted
    states of a stream are its sequences 1..m, of which 1..n are replicated
    (in any order of the scan), the recovered gate lets through exactly
    sequence n + 1: nothing replicated is sent again and nothing is skipped.
    This holds both when something is still waiting (n < m) and when all is
    replicated. *)
Theorem recover_resumes (g : OrderingGate) (k : string) (n m s : Z)
    (scanned : list Z) :
  0 < n ≤ m → m < i64_max → scanned ≡ₚ seqZ 1 m →
  check (recover_from_scan g (persisted k n <$> scanned)) k s = Allowed ↔ s = n + 1.
Proof.
  intros Hn Hm Hp. rewrite check_allowed. unfold awaited.
  rewrite recover_exact, of_stream_persisted, last_in_flight_persisted. simpl.
  assert (Hin : ∀ x, x ∈ scanned ↔ 1 ≤ x ≤ m).
  { intros x. rewrite Hp, elem_of_seqZ. lia. }
  rewrite replicated_max_persisted by (rewrite ?Hin; lia).
  rewrite i64_add_id by rlia.
  destruct (decide (n < m)) as [Hlt|Hge].
  - rewrite (blocking_min_persisted k n (n + 1)) by
      (rewrite ?Hin; try (intros x; rewrite Hin); auto; lia). simpl. naive_solver.
  - replace (blocking_min None (persisted k n <$> scanned)) with (@None Z);
      [simpl; naive_solver|].
    assert (Hall : ∀ x, x ∈ scanned → x ≤ n) by (intros x; rewrite Hin; lia).
    clear -Hall. induction scanned as [|x l IH]; [done|]. simpl.
    rewrite (proj2 (Z.leb_le x n)) by (apply Hall; by left).
    apply IH. intros; apply Hall; by right.
Qed.

Lemma recover_resumes_witness :
  check (recover_from_scan gate_new (persisted "a" 2 <$> [3; 1; 2; 4])) "a" 3 = Allowed ↔ 3 = 2 + 1.
Proof.
  apply (recover_resumes gate_new "a" 2 4 3 [3; 1; 2; 4]); [lia|rlia|].
  change (seqZ 1 4) with [1; 2; 3; 4].
  apply (Permutation_app_swap_app [3] [1; 2] [4]).
Defined.
