(* ===== verification/JournalDb.v ===== *)
(** * The journal's database (crates/craftrelay-journal/src/lib.rs: schema and types)

    The tables of the SQLite schema as finite maps and lists, the public data
    types of the journal, and the session in which its statements run.

    The SQL text of the source is translated statement by statement; the engine
    behind it is a parameter, the class [Engine]: which statement of a call
    fails, and with what message.  Every statement of every operation may fail,
    so the theorems hold for disk errors, lock timeouts and rows whose cells do
    not convert to the Rust type of the column.  A failing statement has no
    effect; a transaction that is dropped without a commit has none either;
    both are documented behaviour of SQLite and rusqlite. *)
From S2P Require Import Prelude Checksum.
Open Scope Z_scope.

(** ** Public types *)

(** [craftrelay_domain::DeliveryStatus] *)
Inductive DeliveryStatus : Type :=
| LocalAccepted
| DeliveryPending
| DeliveryRetrying
| Replicated
| DeliveryBlocked.

#[export] Instance DeliveryStatus_eq_dec : EqDecision DeliveryStatus.
Proof. solve_decision. Defined.

Record AcceptRequest : Type := mkAcceptRequest {
  rq_installation_id : string;
  rq_event_id : string;
  rq_producer_id : string;
  rq_producer_instance_id : string;
  rq_producer_operation_sequence : Z;
  rq_namespace : string;
  rq_logical_stream_type : string;
  rq_stream_key : string;
  rq_event_type : string;
  rq_schema_version : Z;
  rq_payload : list byte;
  rq_request_fingerprint : Checksum;
  rq_routing_version : Z
}.

Record AcceptedEvent : Type := mkAccepted {
  ae_event_id : string;
  ae_journal_sequence : Z;
  ae_stream_sequence : Z;
  ae_lifecycle_revision : Z;
  ae_envelope_checksum : Checksum;
  ae_delivery_status : DeliveryStatus
}.

Inductive AcceptResult : Type :=
| Accepted (ev : AcceptedEvent)
| ExistingDuplicate (ev : AcceptedEvent)
| AcceptCorrupted (event_id detail : string)
| FingerprintConflict (event_id : string)
| SequenceConflict (detail : string)
| DiskUnsafe
| ShuttingDown
| AcceptError (e : string).

Record PersistedStatus : Type := mkStatus {
  ps_event_id : string;
  ps_journal_sequence : Z;
  ps_stream_sequence : Z;
  ps_lifecycle_revision : Z;
  ps_lifecycle_checksum : Checksum;
  ps_delivery_status : string;
  ps_retention_status : string;
  ps_payload_digest : Checksum;
  ps_envelope_checksum : Checksum
}.

Inductive StatusResult : Type :=
| StatusFound (st : PersistedStatus)
| StatusNotFound
| StatusCorrupted (event_id detail : string).

Inductive CasResult : Type :=
| Updated
| AlreadyConfirmed
| StaleRevision
| CasNotFound
| InvalidTransition
| CasCorrupted (event_id detail : string)
| CasError (e : string).

#[export] Instance CasResult_eq_dec : EqDecision CasResult.
Proof. solve_decision. Defined.

Inductive LocalDeliveryStatus : Type :=
| LdLocalAccepted
| LdDeliveryPending
| LdDeliveryBlocked.

Definition local_delivery_as_str (s : LocalDeliveryStatus) : string :=
  match s with
  | LdLocalAccepted => "LOCAL_ACCEPTED"
  | LdDeliveryPending => "DELIVERY_PENDING"
  | LdDeliveryBlocked => "DELIVERY_BLOCKED"
  end.

Inductive LocalRetentionStatus : Type := LrPresent.

Definition local_retention_as_str (s : LocalRetentionStatus) : string := "PRESENT".

Inductive VerifyResult : Type :=
| VerifyOk
| VerifyNotFound
| DigestMismatch
| VerifyError (e : string).

Inductive PayloadReadResult : Type :=
| PayloadFound (payload : list byte)
| PayloadNotFound
| PayloadCorrupted (event_id detail : string)
| PayloadError (e : string).

(** [delivery_state]: the row and the struct have the same columns. *)
Record DeliveryStateRecord : Type := mkDelivery {
  d_event_id : string;
  d_delivery_status : string;
  d_attempt_count : Z;
  d_next_retry_at_ms : option Z;
  d_last_error : option string;
  d_blocked_reason : option string;
  d_kafka_topic : option string;
  d_kafka_partition : option Z;
  d_kafka_offset : option Z;
  d_routing_fingerprint : option Checksum;
  d_profile_id : option string;
  d_profile_version : option Z;
  d_delivery_revision : Z;
  d_delivery_checksum : Checksum;
  d_confirmed_at_ms : option Z;
  d_created_at_ms : Z;
  d_updated_at_ms : Z
}.

#[export] Instance DeliveryStateRecord_eq_dec : EqDecision DeliveryStateRecord.
Proof. solve_decision. Defined.

Record DeliveryAttemptRecord : Type := mkAttempt {
  at_event_id : string;
  at_attempt_number : Z;
  at_outcome : string;
  at_error_code : option string;
  at_kafka_topic : option string;
  at_kafka_partition : option Z;
  at_kafka_offset : option Z;
  at_profile_id : option string;
  at_profile_version : option Z;
  at_attempted_at_ms : Z
}.

Record ReplicatedDeliveryConfirmation : Type := mkConfirmation {
  c_expected_routing_fingerprint : Checksum;
  c_expected_profile_id : string;
  c_expected_profile_version : Z;
  c_kafka_topic : string;
  c_kafka_partition : Z;
  c_kafka_offset : Z
}.

Inductive DeliveryStateResult : Type :=
| DeliveryFound (st : DeliveryStateRecord)
| DeliveryNotFound
| DeliveryCorrupted (event_id detail : string)
| DeliveryError (e : string).

Record DeliveryCandidate : Type := mkCandidate {
  dc_event_id : string;
  dc_installation_id : string;
  dc_namespace : string;
  dc_logical_stream_type : string;
  dc_stream_key : string;
  dc_stream_sequence : Z;
  dc_event_type : string;
  dc_routing_version : Z;
  dc_delivery_state : DeliveryStateRecord
}.

Inductive DeliveryCandidateResult : Type :=
| CandidateFound (c : DeliveryCandidate)
| CandidateNotFound
| CandidateCorrupted (event_id detail : string)
| CandidateError (e : string).

Record PendingDelivery : Type := mkPending {
  pd_event_id : string;
  pd_journal_sequence : Z;
  pd_stream_key : string;
  pd_stream_sequence : Z;
  pd_delivery_status : string;
  pd_attempt_count : Z;
  pd_next_retry_at_ms : option Z
}.

Inductive DeliveryScanResult : Type :=
| ScanOk (deliveries : list PendingDelivery)
| ScanCorrupted (event_id : option string) (detail : string)
| ScanError (e : string).

Definition MAX_ATTEMPTS : nat := 16.
Definition MAX_DELIVERY_ATTEMPTS : nat := 16.

Record JournalConfig : Type := mkConfig {
  busy_timeout_ms : Z;
  wal_autocheckpoint : Z;
  max_payload_bytes : Z;
  max_metadata_entries : Z
}.

Definition default_config : JournalConfig := mkConfig 5000 1000 1048576 32.

(** ** Tables *)

(** [stored_envelope], keyed by the UNIQUE column [event_id]. *)
Record EnvelopeRow : Type := mkEnvelope {
  e_journal_sequence : Z;
  e_installation_id : string;
  e_producer_id : string;
  e_producer_instance_id : string;
  e_producer_op_seq : Z;
  e_namespace : string;
  e_logical_stream_type : string;
  e_stream_key : string;
  e_event_type : string;
  e_schema_version : Z;
  e_stream_sequence : Z;
  e_payload_digest : list byte;
  e_request_fingerprint : list byte;
  e_envelope_checksum : list byte;
  e_payload_ref_id : string;
  e_payload_length : Z;
  e_routing_version : Z;
  e_received_at_ms : Z
}.

(** [payload_blob] *)
Record PayloadRow : Type := mkPayload {
  p_payload : list byte;
  p_payload_digest : list byte
}.

(** [lifecycle_state] *)
Record LifecycleRow : Type := mkLifecycle {
  l_revision : Z;
  l_lifecycle_checksum : list byte;
  l_delivery_status : string;
  l_retention_status : string;
  l_updated_at_ms : Z
}.

(** [producer_sequence] *)
Record ProducerRow : Type := mkProducer {
  pr_highest_seq : Z;
  pr_last_event_id : string
}.

(** [write_attempt]; [id] is AUTOINCREMENT. *)
Record WriteAttemptRow : Type := mkWriteAttempt {
  w_id : Z;
  w_event_id : string;
  w_outcome : string;
  w_detail : option string;
  w_attempt_at_ms : Z
}.

(** [delivery_attempt]; [id] is AUTOINCREMENT. *)
Record DeliveryAttemptRow : Type := mkAttemptRow {
  da_id : Z;
  da_record : DeliveryAttemptRecord
}.

Record Db : Type := mkDb {
  stored_envelope : gmap string EnvelopeRow;
  payload_blob : gmap string PayloadRow;
  lifecycle_state : gmap string LifecycleRow;
  dedup_fingerprint : gmap string (list byte);
  producer_sequence : gmap string ProducerRow;
  stream_head : gmap string Z;
  write_attempt : list WriteAttemptRow;
  write_attempt_seq : Z;
  delivery_state : gmap string DeliveryStateRecord;
  delivery_attempt : list DeliveryAttemptRow;
  delivery_attempt_seq : Z
}.

Definition empty_db : Db := mkDb ∅ ∅ ∅ ∅ ∅ ∅ [] 0 ∅ [] 0.

Definition set_stored_envelope (t : gmap string EnvelopeRow) (db : Db) : Db :=
  mkDb t (payload_blob db) (lifecycle_state db) (dedup_fingerprint db)
    (producer_sequence db) (stream_head db) (write_attempt db) (write_attempt_seq db)
    (delivery_state db) (delivery_attempt db) (delivery_attempt_seq db).
Definition set_payload_blob (t : gmap string PayloadRow) (db : Db) : Db :=
  mkDb (stored_envelope db) t (lifecycle_state db) (dedup_fingerprint db)
    (producer_sequence db) (stream_head db) (write_attempt db) (write_attempt_seq db)
    (delivery_state db) (delivery_attempt db) (delivery_attempt_seq db).
Definition set_lifecycle_state (t : gmap string LifecycleRow) (db : Db) : Db :=
  mkDb (stored_envelope db) (payload_blob db) t (dedup_fingerprint db)
    (producer_sequence db) (stream_head db) (write_attempt db) (write_attempt_seq db)
    (delivery_state db) (delivery_attempt db) (delivery_attempt_seq db).
Definition set_dedup_fingerprint (t : gmap string (list byte)) (db : Db) : Db :=
  mkDb (stored_envelope db) (payload_blob db) (lifecycle_state db) t
    (producer_sequence db) (stream_head db) (write_attempt db) (write_attempt_seq db)
    (delivery_state db) (delivery_attempt db) (delivery_attempt_seq db).
Definition set_producer_sequence (t : gmap string ProducerRow) (db : Db) : Db :=
  mkDb (stored_envelope db) (payload_blob db) (lifecycle_state db) (dedup_fingerprint db)
    t (stream_head db) (write_attempt db) (write_attempt_seq db)
    (delivery_state db) (delivery_attempt db) (delivery_attempt_seq db).
Definition set_stream_head (t : gmap string Z) (db : Db) : Db :=
  mkDb (stored_envelope db) (payload_blob db) (lifecycle_state db) (dedup_fingerprint db)
    (producer_sequence db) t (write_attempt db) (write_attempt_seq db)
    (delivery_state db) (delivery_attempt db) (delivery_attempt_seq db).
Definition set_write_attempt (t : list WriteAttemptRow) (n : Z) (db : Db) : Db :=
  mkDb (stored_envelope db) (payload_blob db) (lifecycle_state db) (dedup_fingerprint db)
    (producer_sequence db) (stream_head db) t n
    (delivery_state db) (delivery_attempt db) (delivery_attempt_seq db).
Definition set_delivery_state (t : gmap string DeliveryStateRecord) (db : Db) : Db :=
  mkDb (stored_envelope db) (payload_blob db) (lifecycle_state db) (dedup_fingerprint db)
    (producer_sequence db) (stream_head db) (write_attempt db) (write_attempt_seq db)
    t (delivery_attempt db) (delivery_attempt_seq db).
Definition set_delivery_attempt (t : list DeliveryAttemptRow) (n : Z) (db : Db) : Db :=
  mkDb (stored_envelope db) (payload_blob db) (lifecycle_state db) (dedup_fingerprint db)
    (producer_sequence db) (stream_head db) (write_attempt db) (write_attempt_seq db)
    (delivery_state db) t n.

(** ** Sessions *)

(** The engine: whether the [n]-th statement of a call fails and with which
    message, and the message of a violated constraint. *)
Class Engine := {
  sql_fault : nat → option string;
  sql_constraint : string → string
}.

(** The engine on which every statement succeeds. *)
Definition reliable (E : Engine) : Prop := ∀ n, sql_fault n = None.

Definition sample_engine : Engine := {|
  sql_fault := λ _, None;
  sql_constraint := λ c, "UNIQUE constraint failed: " +:+ c
|}.

(** A session sees its own writes in [s_work]; [s_base] is what survives when
    the session ends. *)
Record Sess : Type := mkSess {
  s_work : Db;
  s_base : Db;
  s_pc : nat
}.

Definition Sql (A : Type) : Type := Sess → A * Sess.

#[export] Instance sql_ret : MRet Sql := λ A a s, (a, s).
#[export] Instance sql_bind : MBind Sql := λ A B k m s, let '(a, s') := m s in k a s'.

(** A call whose failure ends the function with [h]. *)
Notation "'try' x ← c 'catch' e => h 'in' k" :=
  (mbind (λ r, match r with Ok x => k | Err e => h end) c)
  (at level 10, x binder, c at level 200, e name, h at level 200, k at level 200,
   format "'try'  x  ←  c  'catch'  e  =>  h  'in'  '//' k") : relay_scope.

Section Statements.
Context `{Engine}.

(** One statement: it fails as the engine decides, or does its work. *)
Definition statement {A} (f : Db → result (A * Db) string) : Sql (result A string) :=
  λ s, let s' := mkSess (s_work s) (s_base s) (S (s_pc s)) in
       match sql_fault (s_pc s) with
       | Some e => (Err e, s')
       | None =>
           match f (s_work s) with
           | Err e => (Err e, s')
           | Ok (a, db) => (Ok a, mkSess db (s_base s) (S (s_pc s)))
           end
       end.

(** [query_row(..).optional()] *)
Definition query_row {A} (f : Db → option A) : Sql (result (option A) string) :=
  statement (λ db, Ok (f db, db)).

(** [execute(..)]: the number of affected rows. *)
Definition execute (f : Db → result (Z * Db) string) : Sql (result Z string) :=
  statement f.

(** [conn.transaction()] *)
Definition begin_tx : Sql (result unit string) := statement (λ db, Ok (tt, db)).

(** [tx.commit()]: what the transaction wrote survives. *)
Definition commit : Sql (result unit string) :=
  λ s, match sql_fault (s_pc s) with
       | Some e => (Err e, mkSess (s_work s) (s_base s) (S (s_pc s)))
       | None => (Ok tt, mkSess (s_work s) (s_work s) (S (s_pc s)))
       end.
End Statements.

(** A call that opens a transaction: dropping the transaction undoes what was
    not committed. *)
Definition run_tx {A} (body : Sql A) (db : Db) : A * Db :=
  let '(a, s) := body (mkSess db db 0) in (a, s_base s).

(** A call in autocommit mode: every statement that succeeds survives. *)
Definition run_auto {A} (body : Sql A) (db : Db) : A * Db :=
  let '(a, s) := body (mkSess db db 0) in (a, s_work s).

(** ** The statements of the source *)

(** [INSERT INTO t]: a duplicate primary key violates a constraint. *)
Definition insert_new {V} `{Engine} (name key : string) (row : V) (t : gmap string V)
  : result (gmap string V) string :=
  match t !! key with
  | Some _ => Err (sql_constraint name)
  | None => Ok (<[key := row]> t)
  end.

(** A child row needs its parent in [stored_envelope]. *)
Definition references_envelope `{Engine} (eid : string) (db : Db) : result unit string :=
  match stored_envelope db !! eid with
  | Some _ => Ok tt
  | None => Err (sql_constraint "FOREIGN KEY")
  end.

(** Rows of the table whose [journal_sequence] is [js]; [event_id] of each. *)
Definition envelopes_at (js : Z) (t : gmap string EnvelopeRow) : list string :=
  (filter (λ p, e_journal_sequence p.2 = js) (map_to_list t)).*1.

(** [MAX(journal_sequence)], which an empty table does not have. *)
Definition max_journal_sequence (t : gmap string EnvelopeRow) : option Z :=
  foldr (λ p m, Some (Z.max (e_journal_sequence p.2) (default (e_journal_sequence p.2) m))) None
    (map_to_list t).

(** [COALESCE(MAX(journal_sequence), 0) + 1]: past the largest integer the sum
    is a real number, which is not an [i64]. *)
Definition next_journal_sequence (t : gmap string EnvelopeRow) : option Z :=
  let m := default 0 (max_journal_sequence t) in if m <? i64_max then Some (m + 1) else None.

Section RowStatements.
Context `{Engine}.

Definition insert_envelope (eid : string) (row : EnvelopeRow) (db : Db)
  : result (Z * Db) string :=
  match envelopes_at (e_journal_sequence row) (stored_envelope db) with
  | _ :: _ => Err (sql_constraint "stored_envelope.journal_sequence")
  | [] =>
      let? t := insert_new "stored_envelope.event_id" eid row (stored_envelope db) in
      Ok (1, set_stored_envelope t db)
  end.

Definition insert_payload (eid : string) (row : PayloadRow) (db : Db)
  : result (Z * Db) string :=
  let? _ := references_envelope eid db in
  let? t := insert_new "payload_blob.event_id" eid row (payload_blob db) in
  Ok (1, set_payload_blob t db).

Definition insert_lifecycle (eid : string) (row : LifecycleRow) (db : Db)
  : result (Z * Db) string :=
  let? _ := references_envelope eid db in
  let? t := insert_new "lifecycle_state.event_id" eid row (lifecycle_state db) in
  Ok (1, set_lifecycle_state t db).

Definition insert_dedup (eid : string) (fp : list byte) (db : Db)
  : result (Z * Db) string :=
  let? _ := references_envelope eid db in
  let? t := insert_new "dedup_fingerprint.event_id" eid fp (dedup_fingerprint db) in
  Ok (1, set_dedup_fingerprint t db).

Definition upsert_producer (key : string) (row : ProducerRow) (db : Db)
  : result (Z * Db) string :=
  Ok (1, set_producer_sequence (<[key := row]> (producer_sequence db)) db).

Definition upsert_stream_head (key : string) (head : Z) (db : Db)
  : result (Z * Db) string :=
  Ok (1, set_stream_head (<[key := head]> (stream_head db)) db).

Definition insert_delivery (eid : string) (row : DeliveryStateRecord) (db : Db)
  : result (Z * Db) string :=
  let? _ := references_envelope eid db in
  let? t := insert_new "delivery_state.event_id" eid row (delivery_state db) in
  Ok (1, set_delivery_state t db).

(** [UPDATE delivery_state SET .. WHERE event_id = eid AND delivery_revision = rev] *)
Definition update_delivery (eid : string) (rev : Z)
    (f : DeliveryStateRecord → DeliveryStateRecord) (db : Db) : result (Z * Db) string :=
  match delivery_state db !! eid with
  | Some row =>
      if decide (d_delivery_revision row = rev)
      then Ok (1, set_delivery_state (<[eid := f row]> (delivery_state db)) db)
      else Ok (0, db)
  | None => Ok (0, db)
  end.

(** [UPDATE lifecycle_state SET .. WHERE event_id = eid AND revision = rev] *)
Definition update_lifecycle_row (eid : string) (rev : Z)
    (f : LifecycleRow → LifecycleRow) (db : Db) : result (Z * Db) string :=
  match lifecycle_state db !! eid with
  | Some row =>
      if decide (l_revision row = rev)
      then Ok (1, set_lifecycle_state (<[eid := f row]> (lifecycle_state db)) db)
      else Ok (0, db)
  | None => Ok (0, db)
  end.
End RowStatements.

(** [DELETE .. WHERE id IN (SELECT id .. WHERE event_id = eid ORDER BY id DESC
    LIMIT -1 OFFSET keep)]: of the rows of [eid] only the [keep] with the
    greatest ids stay. *)
Definition old_ids {R} (key : R → string) (id : R → Z) (eid : string) (keep : nat)
    (rows : list R) : list Z :=
  drop keep (merge_sort Z.ge (id <$> filter (λ r, key r = eid) rows)).

Definition prune {R} (key : R → string) (id : R → Z) (eid : string) (keep : nat)
    (rows : list R) : list R :=
  filter (λ r, id r ∉ old_ids key id eid keep rows) rows.

Definition insert_write_attempt (eid outcome : string) (detail : option string)
    (now : Z) (db : Db) : result (Z * Db) string :=
  let id := write_attempt_seq db + 1 in
  Ok (1, set_write_attempt (write_attempt db ++ [mkWriteAttempt id eid outcome detail now]) id db).

Definition prune_write_attempt (eid : string) (keep : nat) (db : Db)
  : result (Z * Db) string :=
  let rows := prune w_event_id w_id eid keep (write_attempt db) in
  Ok (Z.of_nat (length (write_attempt db) - length rows),
      set_write_attempt rows (write_attempt_seq db) db).

Definition insert_delivery_attempt `{Engine} (a : DeliveryAttemptRecord) (db : Db)
  : result (Z * Db) string :=
  let? _ := references_envelope (at_event_id a) db in
  let id := delivery_attempt_seq db + 1 in
  Ok (1, set_delivery_attempt (delivery_attempt db ++ [mkAttemptRow id a]) id db).

Definition prune_delivery_attempt (eid : string) (keep : nat) (db : Db)
  : result (Z * Db) string :=
  let rows := prune (λ r, at_event_id (da_record r)) da_id eid keep (delivery_attempt db) in
  Ok (Z.of_nat (length (delivery_attempt db) - length rows),
      set_delivery_attempt rows (delivery_attempt_seq db) db).
