(* ===== verification/JournalCore.v ===== *)
(** * The journal's integrity layer (crates/craftrelay-journal/src/lib.rs)

    The canonical texts behind the envelope, lifecycle and delivery checksums,
    and the reads that verify them: status, payload, delivery state and
    delivery candidate. *)
From S2P Require Import Prelude Checksum JournalDb.
Open Scope Z_scope.
#[local] Coercion Z.of_nat : nat >-> Z.

Section Core.
Context `{Sha256} `{Engine}.

Definition compute_sha256 (data : list byte) : Checksum := sha256 data.

(** ** Envelope checksum *)

(** The bytes fed to the hasher by [compute_envelope_checksum], in order. *)
Definition envelope_preimage (journal_seq : Z) (event_id installation_id producer_id
    producer_instance_id : string) (producer_op_seq : Z) (namespace logical_stream_type
    stream_key event_type : string) (schema_version stream_seq : Z)
    (payload_digest request_fingerprint : Checksum) (payload_ref_id : string)
    (payload_length routing_version : Z) : list byte :=
  i64_to_be_bytes journal_seq ++ x00 ::
  bytes_of event_id ++ x00 ::
  bytes_of installation_id ++ x00 ::
  bytes_of producer_id ++ x00 ::
  bytes_of producer_instance_id ++ x00 ::
  i64_to_be_bytes producer_op_seq ++ x00 ::
  bytes_of namespace ++ x00 ::
  bytes_of logical_stream_type ++ x00 ::
  bytes_of stream_key ++ x00 ::
  bytes_of event_type ++ x00 ::
  i32_to_be_bytes schema_version ++ x00 ::
  i64_to_be_bytes stream_seq ++ x00 ::
  payload_digest ++ x00 ::
  request_fingerprint ++ x00 ::
  bytes_of payload_ref_id ++ x00 ::
  i64_to_be_bytes payload_length ++ x00 ::
  i64_to_be_bytes routing_version.

Definition compute_envelope_checksum (journal_seq : Z) (event_id installation_id
    producer_id producer_instance_id : string) (producer_op_seq : Z) (namespace
    logical_stream_type stream_key event_type : string) (schema_version stream_seq : Z)
    (payload_digest request_fingerprint : Checksum) (payload_ref_id : string)
    (payload_length routing_version : Z) : Checksum :=
  sha256 (envelope_preimage journal_seq event_id installation_id producer_id
    producer_instance_id producer_op_seq namespace logical_stream_type stream_key
    event_type schema_version stream_seq payload_digest request_fingerprint
    payload_ref_id payload_length routing_version).

(** The preimage and the checksum of a stored row. *)
Definition row_preimage (eid : string) (e : EnvelopeRow) : list byte :=
  envelope_preimage (e_journal_sequence e) eid (e_installation_id e) (e_producer_id e)
    (e_producer_instance_id e) (e_producer_op_seq e) (e_namespace e)
    (e_logical_stream_type e) (e_stream_key e) (e_event_type e) (e_schema_version e)
    (e_stream_sequence e) (e_payload_digest e) (e_request_fingerprint e)
    (e_payload_ref_id e) (e_payload_length e) (e_routing_version e).

Definition recompute_envelope_checksum_from_row (eid : string)
  : Sql (result Checksum string) :=
  try row ← query_row (λ db, stored_envelope db !! eid)
    catch e => mret (Err ("envelope recompute query error: " +:+ e)) in
  match row with
  | None => mret (Err "stored envelope row not found for recompute")
  | Some r =>
      if negb (length (e_payload_digest r) =? 32)%nat then
        mret (Err ("payload_digest length " +:+
                   to_string (length (e_payload_digest r)) +:+ ", expected 32"))
      else if negb (length (e_request_fingerprint r) =? 32)%nat then
        mret (Err ("request_fingerprint length " +:+
                   to_string (length (e_request_fingerprint r)) +:+ ", expected 32"))
      else
        mret (Ok (compute_envelope_checksum (e_journal_sequence r) eid
          (e_installation_id r) (e_producer_id r) (e_producer_instance_id r)
          (e_producer_op_seq r) (e_namespace r) (e_logical_stream_type r)
          (e_stream_key r) (e_event_type r) (e_schema_version r) (e_stream_sequence r)
          (e_payload_digest r) (e_request_fingerprint r) (e_payload_ref_id r)
          (e_payload_length r) (e_routing_version r)))
  end.

(** ** Payload *)
Definition payload_row (eid : string) (db : Db) : option (list byte * list byte) :=
  (λ p, (p_payload p, p_payload_digest p)) <$> payload_blob db !! eid.

Definition verify_payload_digest (eid : string) : Sql (result unit string) :=
  try row ← query_row (payload_row eid)
    catch e => mret (Err ("payload query error: " +:+ e)) in
  match row with
  | None => mret (Err "payload blob not found")
  | Some (payload, stored_digest) =>
      if negb (length stored_digest =? 32)%nat then
        mret (Err ("payload_digest length " +:+
                   to_string (length stored_digest) +:+ ", expected 32"))
      else if decide (compute_sha256 payload = stored_digest) then mret (Ok tt)
      else mret (Err "payload digest mismatch")
  end.

Definition read_verified_payload_impl (eid : string) : Sql PayloadReadResult :=
  try env ← query_row (λ db, e_payload_digest <$> stored_envelope db !! eid)
    catch e => mret (PayloadError ("stored envelope payload digest query error: " +:+ e)) in
  match env with
  | None => mret PayloadNotFound
  | Some envelope_digest =>
      if negb (length envelope_digest =? 32)%nat then
        mret (PayloadCorrupted eid ("stored envelope payload_digest length " +:+
                to_string (length envelope_digest) +:+ ", expected 32"))
      else
        try row ← query_row (payload_row eid)
          catch e => mret (PayloadError ("payload blob query error: " +:+ e)) in
        match row with
        | None => mret (PayloadCorrupted eid "payload blob not found")
        | Some (payload, blob_digest) =>
            if negb (length blob_digest =? 32)%nat then
              mret (PayloadCorrupted eid ("payload blob payload_digest length " +:+
                      to_string (length blob_digest) +:+ ", expected 32"))
            else if negb (bool_decide (blob_digest = envelope_digest)) then
              mret (PayloadCorrupted eid
                      "payload blob digest differs from stored envelope digest")
            else if negb (bool_decide (compute_sha256 payload = envelope_digest)) then
              mret (PayloadCorrupted eid "payload digest mismatch")
            else mret (PayloadFound payload)
        end
  end.

Definition read_verified_payload (eid : string) (db : Db) : PayloadReadResult :=
  (run_auto (read_verified_payload_impl eid) db).1.

Definition verify_payload (eid : string) (db : Db) : VerifyResult :=
  (run_auto
    (try row ← query_row (payload_row eid)
       catch e => mret (VerifyError ("payload query error: " +:+ e)) in
     match row with
     | None => mret VerifyNotFound
     | Some (payload, stored_digest) =>
         if decide (compute_sha256 payload = stored_digest)
         then mret VerifyOk else mret DigestMismatch
     end) db).1.

(** ** Lifecycle *)
Definition lifecycle_text (event_id : string) (revision : Z)
    (delivery_status retention_status : string) : string :=
  join_nul [event_id; to_string revision; delivery_status; retention_status].

Definition compute_lifecycle_checksum (event_id : string) (revision : Z)
    (delivery_status retention_status : string) : Checksum :=
  sha256 (bytes_of (lifecycle_text event_id revision delivery_status retention_status)).

Definition is_allowed_delivery_status (status : string) : bool :=
  bool_decide (status ∈ ["LOCAL_ACCEPTED"; "DELIVERY_PENDING"; "DELIVERY_RETRYING";
                         "REPLICATED"; "DELIVERY_BLOCKED"]).

Definition is_allowed_retention_status (status : string) : bool :=
  bool_decide (status = "PRESENT").

Definition get_status_impl (eid : string) : Sql StatusResult :=
  try row ← query_row (λ db, e ← stored_envelope db !! eid;
                             l ← lifecycle_state db !! eid; Some (e, l))
    catch e => mret (StatusCorrupted eid ("status query error: " +:+ e)) in
  match row with
  | None => mret StatusNotFound
  | Some (e, l) =>
      if negb (length (e_payload_digest e) =? 32)%nat
         || negb (length (e_envelope_checksum e) =? 32)%nat
         || negb (length (l_lifecycle_checksum l) =? 32)%nat then
        mret (StatusCorrupted eid "checksum field length invalid")
      else if negb (bool_decide (l_lifecycle_checksum l =
                compute_lifecycle_checksum eid (l_revision l) (l_delivery_status l)
                  (l_retention_status l))) then
        mret (StatusCorrupted eid "lifecycle checksum mismatch")
      else if negb (is_allowed_delivery_status (l_delivery_status l)) then
        mret (StatusCorrupted eid ("unsupported delivery status: " +:+ l_delivery_status l))
      else if negb (is_allowed_retention_status (l_retention_status l)) then
        mret (StatusCorrupted eid ("unsupported retention status: " +:+ l_retention_status l))
      else
        try expected ← recompute_envelope_checksum_from_row eid
          catch detail => mret (StatusCorrupted eid detail) in
        if negb (bool_decide (e_envelope_checksum e = expected)) then
          mret (StatusCorrupted eid "envelope checksum mismatch")
        else
          mret (StatusFound (mkStatus eid (e_journal_sequence e) (e_stream_sequence e)
            (l_revision l) (l_lifecycle_checksum l) (l_delivery_status l)
            (l_retention_status l) (e_payload_digest e) (e_envelope_checksum e)))
  end.

Definition get_status (eid : string) (db : Db) : StatusResult :=
  (run_auto (get_status_impl eid) db).1.

Definition get_status_by_journal_seq (journal_seq : Z) (db : Db) : StatusResult :=
  (run_auto
    (try eid ← query_row (λ db, head (envelopes_at journal_seq (stored_envelope db)))
       catch e => mret (StatusCorrupted ("journal_seq=" +:+ to_string journal_seq)
                          ("sequence lookup error: " +:+ e)) in
     match eid with
     | None => mret StatusNotFound
     | Some eid => get_status_impl eid
     end) db).1.

(** ** Delivery state *)
Definition delivery_fields (st : DeliveryStateRecord) : list string :=
  [d_event_id st;
   d_delivery_status st;
   to_string (d_attempt_count st);
   opt_to_string (d_next_retry_at_ms st);
   default "" (d_last_error st);
   default "" (d_blocked_reason st);
   default "" (d_kafka_topic st);
   opt_to_string (d_kafka_partition st);
   opt_to_string (d_kafka_offset st);
   from_option checksum_hex "" (d_routing_fingerprint st);
   default "" (d_profile_id st);
   opt_to_string (d_profile_version st);
   to_string (d_delivery_revision st);
   opt_to_string (d_confirmed_at_ms st);
   to_string (d_created_at_ms st)].

Definition compute_delivery_checksum (st : DeliveryStateRecord) : Checksum :=
  sha256 (bytes_of (join_nul (delivery_fields st))).

Definition require_some {A} (value : option A) (field status : string)
  : result unit string :=
  match value with
  | Some _ => Ok tt
  | None => Err (status +:+ " delivery state missing " +:+ field)
  end.

Definition require_non_empty (value : option string) (field status : string)
  : result unit string :=
  match value with
  | Some v => if negb (str_is_empty v) then Ok tt
              else Err (status +:+ " delivery state has empty " +:+ field)
  | None => Err (status +:+ " delivery state missing " +:+ field)
  end.

Definition require_absent {A} (value : option A) (field status : string)
  : result unit string :=
  match value with
  | None => Ok tt
  | Some _ => Err (status +:+ " delivery state must not contain " +:+ field)
  end.

Definition require_positive_i32 (value : option Z) (field status : string)
  : result unit string :=
  match value with
  | Some v => if 0 <? v then Ok tt
              else Err (status +:+ " delivery state has invalid " +:+ field)
  | None => Err (status +:+ " delivery state missing " +:+ field)
  end.

(** [require_non_negative_i32] and [require_non_negative_i64] *)
Definition require_non_negative (value : option Z) (field status : string)
  : result unit string :=
  match value with
  | Some v => if 0 <=? v then Ok tt
              else Err (status +:+ " delivery state has invalid " +:+ field)
  | None => Err (status +:+ " delivery state missing " +:+ field)
  end.

Definition require_delivery_routing_fields (st : DeliveryStateRecord) (status : string)
  : result unit string :=
  let? _ := require_non_empty (d_kafka_topic st) "kafka_topic" status in
  let? _ := require_some (d_routing_fingerprint st) "routing_fingerprint" status in
  let? _ := require_non_empty (d_profile_id st) "profile_id" status in
  require_positive_i32 (d_profile_version st) "profile_version" status.

Definition require_no_confirmed_kafka_metadata (st : DeliveryStateRecord)
    (status : string) : result unit string :=
  let? _ := require_absent (d_kafka_partition st) "kafka_partition" status in
  let? _ := require_absent (d_kafka_offset st) "kafka_offset" status in
  require_absent (d_confirmed_at_ms st) "confirmed_at_ms" status.

Definition validate_delivery_state_invariants (st : DeliveryStateRecord)
  : result unit string :=
  let status := d_delivery_status st in
  if bool_decide (status = "REPLICATED") then
    let? _ := require_non_empty (d_kafka_topic st) "kafka_topic" status in
    let? _ := require_some (d_routing_fingerprint st) "routing_fingerprint" status in
    let? _ := require_non_empty (d_profile_id st) "profile_id" status in
    let? _ := require_positive_i32 (d_profile_version st) "profile_version" status in
    let? _ := require_non_negative (d_kafka_partition st) "kafka_partition" status in
    let? _ := require_non_negative (d_kafka_offset st) "kafka_offset" status in
    let? _ := require_some (d_confirmed_at_ms st) "confirmed_at_ms" status in
    let? _ := require_absent (d_blocked_reason st) "blocked_reason" status in
    require_absent (d_next_retry_at_ms st) "next_retry_at_ms" status
  else if bool_decide (status = "DELIVERY_PENDING") then
    let? _ := require_delivery_routing_fields st status in
    let? _ := require_absent (d_next_retry_at_ms st) "next_retry_at_ms" status in
    let? _ := require_absent (d_blocked_reason st) "blocked_reason" status in
    require_no_confirmed_kafka_metadata st status
  else if bool_decide (status = "DELIVERY_RETRYING") then
    let? _ := require_delivery_routing_fields st status in
    let? _ := require_some (d_next_retry_at_ms st) "next_retry_at_ms" status in
    let? _ := require_absent (d_blocked_reason st) "blocked_reason" status in
    require_no_confirmed_kafka_metadata st status
  else if bool_decide (status = "DELIVERY_BLOCKED") then
    let? _ := require_non_empty (d_blocked_reason st) "blocked_reason" status in
    let? _ := require_absent (d_next_retry_at_ms st) "next_retry_at_ms" status in
    require_no_confirmed_kafka_metadata st status
  else Ok tt.

Definition delivery_statuses : list string :=
  ["DELIVERY_PENDING"; "DELIVERY_RETRYING"; "REPLICATED"; "DELIVERY_BLOCKED"].

(** The struct that [load_delivery_state] builds from a row. *)
Definition delivery_of_row (eid : string) (row : DeliveryStateRecord)
  : DeliveryStateRecord :=
  mkDelivery eid (d_delivery_status row) (d_attempt_count row) (d_next_retry_at_ms row)
    (d_last_error row) (d_blocked_reason row) (d_kafka_topic row) (d_kafka_partition row)
    (d_kafka_offset row) (d_routing_fingerprint row) (d_profile_id row)
    (d_profile_version row) (d_delivery_revision row) (d_delivery_checksum row)
    (d_confirmed_at_ms row) (d_created_at_ms row) (d_updated_at_ms row).

Definition load_delivery_state (eid : string) : Sql DeliveryStateResult :=
  try row ← query_row (λ db, delivery_state db !! eid) catch e => mret (DeliveryError e) in
  match row with
  | None => mret DeliveryNotFound
  | Some row =>
      if negb (bool_decide (in_i32 (d_attempt_count row))) then
        mret (DeliveryError ("Integer " +:+ to_string (d_attempt_count row) +:+
                             " out of range at index 1"))
      else if negb (length (d_delivery_checksum row) =? 32)%nat then
        mret (DeliveryCorrupted eid "delivery checksum length invalid")
      else if from_option (λ v, negb (length v =? 32)%nat) false
                (d_routing_fingerprint row) then
        mret (DeliveryCorrupted eid "routing fingerprint length invalid")
      else if negb (bool_decide (d_delivery_status row ∈ delivery_statuses)) then
        mret (DeliveryCorrupted eid
                ("unsupported delivery state status: " +:+ d_delivery_status row))
      else
        let st := delivery_of_row eid row in
        if negb (bool_decide (d_delivery_checksum st = compute_delivery_checksum st)) then
          mret (DeliveryCorrupted eid "delivery checksum mismatch")
        else
          match validate_delivery_state_invariants st with
          | Err detail => mret (DeliveryCorrupted eid detail)
          | Ok _ => mret (DeliveryFound st)
          end
  end.

Definition get_delivery_state (eid : string) (db : Db) : DeliveryStateResult :=
  (run_auto (load_delivery_state eid) db).1.

(** ** Delivery candidate *)
Definition load_delivery_candidate (eid : string) : Sql DeliveryCandidateResult :=
  ds ← load_delivery_state eid;
  match ds with
  | DeliveryNotFound => mret CandidateNotFound
  | DeliveryCorrupted eid detail => mret (CandidateCorrupted eid detail)
  | DeliveryError e => mret (CandidateError e)
  | DeliveryFound st =>
      try row ← query_row (λ db, stored_envelope db !! eid)
        catch e => mret (CandidateCorrupted eid
                           ("delivery candidate envelope query error: " +:+ e)) in
      match row with
      | None => mret (CandidateCorrupted eid "stored envelope missing for delivery state")
      | Some r =>
          if negb (length (e_envelope_checksum r) =? 32)%nat then
            mret (CandidateCorrupted eid ("envelope checksum length " +:+
                    to_string (length (e_envelope_checksum r)) +:+ ", expected 32"))
          else
            try expected ← recompute_envelope_checksum_from_row eid
              catch detail => mret (CandidateCorrupted eid detail) in
            if bool_decide (e_envelope_checksum r = expected) then
              mret (CandidateFound (mkCandidate eid (e_installation_id r) (e_namespace r)
                (e_logical_stream_type r) (e_stream_key r) (e_stream_sequence r)
                (e_event_type r) (e_routing_version r) st))
            else mret (CandidateCorrupted eid "envelope checksum mismatch")
      end
  end.

Definition get_delivery_candidate (eid : string) (db : Db) : DeliveryCandidateResult :=
  (run_auto (load_delivery_candidate eid) db).1.
End Core.
