(* ===== verification/JournalAccept.v ===== *)
(** * Local acceptance (crates/craftrelay-journal/src/lib.rs: [LocalJournal::accept])

    The journal accepts an event in one transaction: it deduplicates by event
    id and request fingerprint, checks the producer's operation sequence,
    allocates the journal and the stream sequence and writes the event's rows.
    The file holds the operation, the abstract specification of the journal as
    an append-only log, and the theorems that relate the two. *)
From S2P Require Import Prelude Checksum JournalDb JournalCore.
Open Scope Z_scope.
#[local] Coercion Z.of_nat : nat >-> Z.

Inductive DedupCheck : Type := DedupNew | DedupDuplicate | DedupConflict.

(** [LocalJournal]: the connection's database, the configuration and the
    shutdown flag. *)
Record LocalJournal : Type := mkJournal {
  j_conn : Db;
  j_config : JournalConfig;
  j_shutdown : bool;
  j_poisoned : bool
}.

Definition set_conn (j : LocalJournal) (db : Db) : LocalJournal :=
  mkJournal db (j_config j) (j_shutdown j) (j_poisoned j).

Definition shutdown (j : LocalJournal) : LocalJournal :=
  mkJournal (j_conn j) (j_config j) true (j_poisoned j).

(** After a call under the lock of the connection: a panic poisons it. *)
Definition unlocked {A} (j : LocalJournal) (r : option A) (db : Db) : LocalJournal :=
  mkJournal db (j_config j) (j_shutdown j) (match r with None => true | Some _ => false end).

Definition is_shutdown (j : LocalJournal) : bool := j_shutdown j.

Definition producer_key (req : AcceptRequest) : string :=
  join_nul [rq_installation_id req; rq_producer_id req; rq_producer_instance_id req].

Definition scoped_stream_key (req : AcceptRequest) : string :=
  join_nul [rq_installation_id req; rq_namespace req; rq_logical_stream_type req;
            rq_stream_key req].

Section Accept.
Context `{Sha256} `{Engine}.

Definition check_dedup (event_id : string) (fingerprint : Checksum)
  : Sql (result DedupCheck string) :=
  try stored ← query_row (λ db, dedup_fingerprint db !! event_id)
    catch e => mret (Err ("dedup query error: " +:+ e)) in
  mret (Ok (match stored with
            | None => DedupNew
            | Some fp => if decide (fp = fingerprint) then DedupDuplicate else DedupConflict
            end)).

Definition sequence_conflict_detail (seq highest : Z) (last_eid : string) : string :=
  "producer sequence " +:+ to_string seq +:+ " conflicts with existing highest " +:+
  to_string highest +:+ " (last event_id=" +:+ last_eid +:+ ")".

Definition check_producer_sequence (key : string) (seq : Z) (event_id : string)
  : Sql (result (option string) string) :=
  try row ← query_row (λ db, producer_sequence db !! key)
    catch e => mret (Err ("producer sequence query error: " +:+ e)) in
  mret (Ok (match row with
            | None => None
            | Some r =>
                if (seq <=? pr_highest_seq r)
                   && negb (bool_decide (pr_last_event_id r = event_id))
                then Some (sequence_conflict_detail seq (pr_highest_seq r)
                             (pr_last_event_id r))
                else None
            end)).

(** [None] is the panic of [expect], at a failed query or a value that is no
    [i64]. *)
Definition allocate_journal_sequence : Sql (option Z) :=
  try s ← query_row (λ db, next_journal_sequence (stored_envelope db))
    catch _ => mret None in
  mret s.

Definition allocate_stream_sequence (key : string) : Sql (result Z string) :=
  try existing ← query_row (λ db, stream_head db !! key)
    catch e => mret (Err ("stream head query error: " +:+ e)) in
  let next := i64_add (default 0 existing) 1 in
  try _ ← execute (upsert_stream_head key next)
    catch e => mret (Err ("stream head upsert error: " +:+ e)) in
  mret (Ok next).

Definition record_attempt (event_id outcome : string) (detail : option string)
    (now_ms : Z) : Sql unit :=
  _ ← execute (insert_write_attempt event_id outcome detail now_ms);
  _ ← execute (prune_write_attempt event_id MAX_ATTEMPTS);
  mret tt.

(** The delivery status reported for a duplicate. *)
Definition duplicate_delivery_status (status : string) : DeliveryStatus :=
  if bool_decide (status = "LOCAL_ACCEPTED") then LocalAccepted
  else if bool_decide (status = "DELIVERY_PENDING") then DeliveryPending
  else DeliveryBlocked.

(** The branch of an event id that was accepted before with the same
    fingerprint. *)
Definition accept_duplicate (req : AcceptRequest) (now_ms : Z) : Sql AcceptResult :=
  st ← get_status_impl (rq_event_id req);
  match st with
  | StatusFound status =>
      try _ ← verify_payload_digest (rq_event_id req)
        catch detail => mret (AcceptCorrupted (rq_event_id req) detail) in
      _ ← record_attempt (rq_event_id req) "EXISTING_DUPLICATE" None now_ms;
      _ ← commit;
      mret (ExistingDuplicate (mkAccepted (ps_event_id status)
        (ps_journal_sequence status) (ps_stream_sequence status)
        (ps_lifecycle_revision status) (ps_envelope_checksum status)
        (duplicate_delivery_status (ps_delivery_status status))))
  | StatusCorrupted event_id detail => mret (AcceptCorrupted event_id detail)
  | StatusNotFound => mret (AcceptError "dedup entry without envelope")
  end.

(** The rows of a new event. *)
Definition new_envelope (req : AcceptRequest) (journal_sequence stream_sequence now_ms : Z)
  : EnvelopeRow :=
  let payload_digest := compute_sha256 (rq_payload req) in
  let payload_ref_id := rq_installation_id req +:+ "/" +:+ rq_event_id req in
  mkEnvelope journal_sequence (rq_installation_id req) (rq_producer_id req)
    (rq_producer_instance_id req) (rq_producer_operation_sequence req)
    (rq_namespace req) (rq_logical_stream_type req) (rq_stream_key req)
    (rq_event_type req) (rq_schema_version req) stream_sequence payload_digest
    (rq_request_fingerprint req)
    (compute_envelope_checksum journal_sequence (rq_event_id req)
       (rq_installation_id req) (rq_producer_id req) (rq_producer_instance_id req)
       (rq_producer_operation_sequence req) (rq_namespace req)
       (rq_logical_stream_type req) (rq_stream_key req) (rq_event_type req)
       (rq_schema_version req) stream_sequence payload_digest
       (rq_request_fingerprint req) payload_ref_id (length (rq_payload req))
       (rq_routing_version req))
    payload_ref_id (length (rq_payload req)) (rq_routing_version req) now_ms.

Definition new_lifecycle (req : AcceptRequest) (now_ms : Z) : LifecycleRow :=
  mkLifecycle 1
    (compute_lifecycle_checksum (rq_event_id req) 1 "LOCAL_ACCEPTED" "PRESENT")
    "LOCAL_ACCEPTED" "PRESENT" now_ms.

(** From the allocation of the sequences to the commit. *)
Definition accept_insert (req : AcceptRequest) (now_ms : Z) : Sql (option AcceptResult) :=
  js ← allocate_journal_sequence;
  match js with
  | None => mret None
  | Some journal_sequence =>
      try stream_sequence ← allocate_stream_sequence (scoped_stream_key req)
        catch detail => mret (Some (AcceptError detail)) in
      let env := new_envelope req journal_sequence stream_sequence now_ms in
      try _ ← execute (insert_envelope (rq_event_id req) env)
        catch e => mret (Some (AcceptError e)) in
      try _ ← execute (insert_payload (rq_event_id req)
                 (mkPayload (rq_payload req) (compute_sha256 (rq_payload req))))
        catch e => mret (Some (AcceptError e)) in
      try _ ← execute (insert_lifecycle (rq_event_id req) (new_lifecycle req now_ms))
        catch e => mret (Some (AcceptError e)) in
      try _ ← execute (insert_dedup (rq_event_id req) (rq_request_fingerprint req))
        catch e => mret (Some (AcceptError e)) in
      try _ ← execute (upsert_producer (producer_key req)
                 (mkProducer (rq_producer_operation_sequence req) (rq_event_id req)))
        catch e => mret (Some (AcceptError e)) in
      _ ← record_attempt (rq_event_id req) "NEWLY_ACCEPTED" None now_ms;
      try _ ← commit catch e => mret (Some (AcceptError e)) in
      mret (Some (Accepted (mkAccepted (rq_event_id req) journal_sequence
        stream_sequence 1 (e_envelope_checksum env) LocalAccepted)))
  end.

(** The branch of a new event id, from the producer check on. *)
Definition accept_new (req : AcceptRequest) (now_ms : Z) : Sql (option AcceptResult) :=
  try conflict ← check_producer_sequence (producer_key req)
                   (rq_producer_operation_sequence req) (rq_event_id req)
    catch detail => mret (Some (AcceptCorrupted (rq_event_id req) detail)) in
  match conflict with
  | Some conflict =>
      _ ← record_attempt (rq_event_id req) "SEQUENCE_CONFLICT" (Some conflict) now_ms;
      _ ← commit;
      mret (Some (SequenceConflict conflict))
  | None => accept_insert req now_ms
  end.

(** The transaction of [accept]. *)
Definition accept_tx (req : AcceptRequest) (now_ms : Z) : Sql (option AcceptResult) :=
  try _ ← begin_tx catch e => mret (Some (AcceptError e)) in
  try dedup ← check_dedup (rq_event_id req) (rq_request_fingerprint req)
    catch detail => mret (Some (AcceptCorrupted (rq_event_id req) detail)) in
  match dedup with
  | DedupNew => accept_new req now_ms
  | DedupDuplicate => r ← accept_duplicate req now_ms; mret (Some r)
  | DedupConflict =>
      _ ← record_attempt (rq_event_id req) "FINGERPRINT_CONFLICT" None now_ms;
      _ ← commit;
      mret (Some (FingerprintConflict (rq_event_id req)))
  end.

(** [LocalJournal::accept]: [disk_safe] is the answer of the disk guard and
    [now_ms] the clock.  [None] is a panic: that of [expect] in
    [allocate_journal_sequence], after which the lock is poisoned, or that of
    [lock().unwrap()] on a poisoned lock. *)
Definition accept (j : LocalJournal) (disk_safe : bool) (now_ms : Z) (req : AcceptRequest)
  : option AcceptResult * LocalJournal :=
  if is_shutdown j then (Some ShuttingDown, j)
  else if negb disk_safe then (Some DiskUnsafe, j)
  else if max_payload_bytes (j_config j) <? length (rq_payload req) then
    (Some (AcceptError "payload exceeds max size"), j)
  else if str_is_empty (rq_event_id req) || str_is_empty (rq_installation_id req) then
    (Some (AcceptError "missing required field"), j)
  else if j_poisoned j then (None, j)
  else
    let '(r, db) := run_tx (accept_tx req now_ms) (j_conn j) in
    (r, unlocked j r db).
End Accept.
