(* ===== verification/Routing.v ===== *)
(** * Routing (crates/craftrelay-kafka-delivery/src/routing.rs)

    The topic, the partition key and the fingerprint of an event.  The theorems
    say what the canonical texts determine, and tie the partition key to the
    journal's stream. *)
From S2P Require Import Prelude Checksum JournalDb JournalAccept.
Open Scope Z_scope.

Record RoutingInput : Type := mkRoutingInput {
  ri_installation_id : string;
  ri_namespace : string;
  ri_logical_stream_type : string;
  ri_stream_key : string;
  ri_event_type : string;
  ri_routing_version : Z
}.

Record RoutingResolution : Type := mkResolution {
  rr_topic : string;
  rr_partition_key : string;
  rr_routing_checksum : Checksum;
  rr_routing_version : Z
}.

Inductive RoutingError : Type := UnsupportedRoutingVersion | EmptyField.

Definition routing_topic (installation_id namespace : string) : string :=
  "craftrelay." +:+ installation_id +:+ "." +:+ namespace +:+ ".events".

Definition partition_key (i : RoutingInput) : string :=
  join_nul [ri_installation_id i; ri_namespace i; ri_logical_stream_type i; ri_stream_key i].

Definition routing_canonical (i : RoutingInput) : string :=
  join_nul [ri_installation_id i; ri_namespace i; ri_logical_stream_type i;
            ri_stream_key i; ri_event_type i; to_string (ri_routing_version i)].

Definition resolve_routing `{Sha256} (input : RoutingInput)
  : result RoutingResolution RoutingError :=
  if negb (ri_routing_version input =? 1) then Err UnsupportedRoutingVersion
  else if str_is_empty (ri_installation_id input) || str_is_empty (ri_namespace input)
       || str_is_empty (ri_logical_stream_type input) || str_is_empty (ri_stream_key input)
       || str_is_empty (ri_event_type input) then Err EmptyField
  else
    Ok (mkResolution (routing_topic (ri_installation_id input) (ri_namespace input))
          (partition_key input) (sha256 (bytes_of (routing_canonical input)))
          (ri_routing_version input)).

Lemma resolve_routing_ok `{Sha256} i r :
  resolve_routing i = Ok r →
  ri_routing_version i = 1 ∧ r = mkResolution
    (routing_topic (ri_installation_id i) (ri_namespace i)) (partition_key i)
    (sha256 (bytes_of (routing_canonical i))) 1.
Proof.
  unfold resolve_routing. destruct (Z.eqb_spec (ri_routing_version i) 1) as [Hv|]; simpl; [|done].
  case_match; [done|]. intros [= <-]. by rewrite Hv.
Qed.

(** ** What the texts determine *)
Definition routing_texts_ok (i : RoutingInput) : Prop :=
  Forall nul_free [ri_installation_id i; ri_namespace i; ri_logical_stream_type i;
                   ri_stream_key i; ri_event_type i].

Definition dot_free (s : string) : Prop := Byte.x2e ∉ bytes_of s.

#[export] Instance dot_free_dec s : Decision (dot_free s).
Proof. unfold dot_free. apply _. Defined.

Lemma app_string_inj_r a b c : a +:+ c = b +:+ c → a = b.
Proof.
  intros Heq. apply (f_equal bytes_of) in Heq. rewrite !bytes_of_app in Heq.
  by apply app_inj_2 in Heq as [->%(inj bytes_of) _].
Qed.

Lemma routing_topic_inj i n i' n' :
  dot_free i → dot_free i' → routing_topic i n = routing_topic i' n' → i = i' ∧ n = n'.
Proof.
  intros Hi Hi' Heq. unfold routing_topic in Heq. apply (f_equal bytes_of) in Heq.
  rewrite !bytes_of_app in Heq. apply app_inv_head in Heq.
  change (bytes_of ".") with [Byte.x2e] in Heq. simpl in Heq.
  apply sep_app_inj in Heq as [->%(inj bytes_of) Heq]; [|done..].
  split; [done|]. by apply app_inj_2 in Heq as [->%(inj bytes_of) _].
Qed.

(** C32. Routing identifies the stream.  For events whose fields have no NUL, a
    common partition key means the same installation, namespace, stream type and
    key, and so the same topic; a common fingerprint means in addition the same
    event type and version, unless the canonical texts of these two events are
    a collision of SHA-256; and with installation ids without a dot, a common
    topic means the same installation and namespace. *)
Theorem routing_identifies (S : Sha256) (a b : RoutingInput) (ra rb : RoutingResolution) :
  resolve_routing a = Ok ra → resolve_routing b = Ok rb →
  routing_texts_ok a → routing_texts_ok b →
  (rr_partition_key ra = rr_partition_key rb →
     ri_installation_id a = ri_installation_id b ∧ ri_namespace a = ri_namespace b ∧
     ri_logical_stream_type a = ri_logical_stream_type b ∧ ri_stream_key a = ri_stream_key b ∧
     rr_topic ra = rr_topic rb) ∧
  (rr_routing_checksum ra = rr_routing_checksum rb →
     a = b ∨ collides (bytes_of (routing_canonical a)) (bytes_of (routing_canonical b))) ∧
  (dot_free (ri_installation_id a) → dot_free (ri_installation_id b) →
   rr_topic ra = rr_topic rb →
     ri_installation_id a = ri_installation_id b ∧ ri_namespace a = ri_namespace b).
Proof.
  intros [Hva ->]%resolve_routing_ok [Hvb ->]%resolve_routing_ok Ha Hb.
  unfold routing_texts_ok in Ha, Hb. rewrite !Forall_cons in Ha, Hb. simpl.
  split; [|split].
  - intros Hk. apply join_nul_inj in Hk; [|done|rewrite !Forall_cons; tauto..].
    injection Hk as Hi Hn Ht Hk. by rewrite Hi, Hn.
  - intros [Hc|Hcol]%same_or_collides; [left|by right].
    apply (inj bytes_of), join_nul_inj in Hc; [|done|..].
    2-3: rewrite !Forall_cons; pose proof to_string_nul_free; repeat split; tauto || auto.
    injection Hc as ?????. destruct a, b; simpl in *. congruence.
  - intros Hda Hdb. by apply routing_topic_inj.
Qed.

Definition sample_route (inst ns : string) : RoutingInput :=
  mkRoutingInput inst ns "account" "player-1" "transfer" 1.

Lemma routing_identifies_witness :
  ri_installation_id (sample_route "inst-a" "economy") = "inst-a" ∧ "economy" = "economy".
Proof.
  refine (proj2 (proj2 (routing_identifies sample_sha256 (sample_route "inst-a" "economy")
    (sample_route "inst-a" "economy")
    (mkResolution (routing_topic "inst-a" "economy") (partition_key (sample_route "inst-a" "economy"))
       (@sha256 sample_sha256 (bytes_of (routing_canonical (sample_route "inst-a" "economy")))) 1)
    (mkResolution (routing_topic "inst-a" "economy") (partition_key (sample_route "inst-a" "economy"))
       (@sha256 sample_sha256 (bytes_of (routing_canonical (sample_route "inst-a" "economy")))) 1)
    _ _ _ _)) _ _ eq_refl).
  - reflexivity.
  - reflexivity.
  - compute_done.
  - compute_done.
  - compute_done.
  - compute_done.
Defined.

Lemma str_app_longer a b : b ≠ "" → a +:+ b ≠ a.
Proof. intros Hb. induction a as [|x a IH]; [done|]. simpl. intros [= Heq]. by apply IH. Qed.

(** Topics of different installations can coincide.  When installation ids
    may contain a dot, the topic does not tell where the id ends: for any
    non-empty texts a, b, c the installation "a.b" with namespace c and the
    installation a with namespace "b.c" are different and route to one topic. *)
Theorem topic_collision (S : Sha256) (a b c stream_type key event_type : string) :
  a ≠ "" → b ≠ "" → c ≠ "" → stream_type ≠ "" → key ≠ "" → event_type ≠ "" →
  ∃ ra rb,
    resolve_routing (mkRoutingInput (a +:+ "." +:+ b) c stream_type key event_type 1) = Ok ra ∧
    resolve_routing (mkRoutingInput a (b +:+ "." +:+ c) stream_type key event_type 1) = Ok rb ∧
    a +:+ "." +:+ b ≠ a ∧ rr_topic ra = rr_topic rb.
Proof.
  intros Ha Hb Hc Ht Hk He. eexists _, _.
  unfold resolve_routing. simpl.
  destruct a as [|ca a], b as [|cb b], c as [|cc c], stream_type, key, event_type; try done.
  simpl. split; [done|]. split; [done|]. split.
  - by apply (str_app_longer (String ca a) ("." +:+ String cb b)).
  - simpl. unfold routing_topic. apply (inj bytes_of).
    change (String ca (a +:+ String "." (String cb b))) with (String ca a +:+ ("." +:+ String cb b)).
    change (String cb (b +:+ String "." (String cc c))) with (String cb b +:+ ("." +:+ String cc c)).
    by rewrite !bytes_of_app, <- !(assoc_L (++)).
Qed.

Lemma topic_collision_witness :
  ∃ ra rb,
    @resolve_routing sample_sha256 (sample_route "eu.main" "economy") = Ok ra ∧
    @resolve_routing sample_sha256 (sample_route "eu" "main.economy") = Ok rb ∧
    "eu.main" ≠ "eu" ∧ rr_topic ra = rr_topic rb.
Proof.
  apply (topic_collision sample_sha256 "eu" "main" "economy" "account" "player-1" "transfer");
    discriminate.
Defined.

(** The route of an accepted request. *)
Definition route_of_request (r : AcceptRequest) : RoutingInput :=
  mkRoutingInput (rq_installation_id r) (rq_namespace r) (rq_logical_stream_type r)
    (rq_stream_key r) (rq_event_type r) (rq_routing_version r).

(** The partition key is the key under which the journal counts the stream. *)
Lemma partition_key_stream r : partition_key (route_of_request r) = scoped_stream_key r.
Proof. done. Qed.
