(* ===== verification/SqlLogic.v ===== *)
(** * Reasoning about sessions

    A weakest precondition for the statements of [JournalDb], valid for every
    engine: each statement has to be fit to fail.  On top of it the facts the
    operations share: which calls only read, and what a verified read says
    about the database. *)
From S2P Require Import Prelude Checksum JournalDb JournalCore.
Open Scope Z_scope.
#[local] Coercion Z.of_nat : nat >-> Z.

(** [m], run from [s], ends with a result and a session that satisfy [Q]. *)
Definition wp {A} (m : Sql A) (Q : A → Sess → Prop) (s : Sess) : Prop :=
  Q (m s).1 (m s).2.

(** The session after a statement without effect. *)
Definition tick (s : Sess) : Sess := mkSess (s_work s) (s_base s) (S (s_pc s)).

(** Some statement of the engine fails. *)
Definition faulty (E : Engine) : Prop := ∃ n e, sql_fault n = Some e.

Lemma reliable_not_faulty E : reliable E → ¬ faulty E.
Proof. intros Hr (n & e & Hn). by rewrite Hr in Hn. Qed.

Lemma wp_ret {A} (a : A) Q s : Q a s → wp (mret a) Q s.
Proof. done. Qed.

Lemma wp_bind {A B} (m : Sql A) (k : A → Sql B) Q s :
  wp m (λ a s', wp (k a) Q s') s → wp (mbind k m) Q s.
Proof. unfold wp, mbind, sql_bind. by destruct (m s). Qed.

Lemma wp_mono {A} (m : Sql A) (P Q : A → Sess → Prop) s :
  wp m P s → (∀ a s', P a s' → Q a s') → wp m Q s.
Proof. unfold wp. eauto. Qed.

Lemma wp_run_tx {A} (m : Sql A) (P : A → Db → Prop) db :
  wp m (λ a s, P a (s_base s)) (mkSess db db 0) → P (run_tx m db).1 (run_tx m db).2.
Proof. unfold wp, run_tx. by destruct (m _). Qed.

Lemma wp_run_auto {A} (m : Sql A) (P : A → Db → Prop) db :
  wp m (λ a s, P a (s_work s)) (mkSess db db 0) → P (run_auto m db).1 (run_auto m db).2.
Proof. unfold wp, run_auto. by destruct (m _). Qed.

Section Rules.
Context `{E : Engine}.

Lemma wp_statement {A} (f : Db → result (A * Db) string) (Q : result A string → Sess → Prop) s :
  (∀ e, faulty E → Q (Err e) (tick s)) →
  (match f (s_work s) with
   | Err e => Q (Err e) (tick s)
   | Ok (a, db) => Q (Ok a) (mkSess db (s_base s) (S (s_pc s)))
   end) →
  wp (statement f) Q s.
Proof.
  intros Hf Hok. unfold wp, statement.
  destruct (sql_fault (s_pc s)) as [e|] eqn:He; simpl.
  - apply Hf. by exists (s_pc s), e.
  - by destruct (f (s_work s)) as [[a db]|e].
Qed.

Lemma wp_query {A} (f : Db → option A) (Q : result (option A) string → Sess → Prop) s :
  (∀ e, faulty E → Q (Err e) (tick s)) → Q (Ok (f (s_work s))) (tick s) →
  wp (query_row f) Q s.
Proof. intros Hf Hok. by apply wp_statement. Qed.

Lemma wp_commit (Q : result unit string → Sess → Prop) s :
  (∀ e, faulty E → Q (Err e) (tick s)) →
  Q (Ok tt) (mkSess (s_work s) (s_work s) (S (s_pc s))) →
  wp commit Q s.
Proof.
  intros Hf Hok. unfold wp, commit.
  destruct (sql_fault (s_pc s)) as [e|] eqn:He; simpl; [|done].
  apply Hf. by exists (s_pc s), e.
Qed.
End Rules.

(** ** Calls that only read *)

(** A session with the contents of another. *)
Definition same_data (s s' : Sess) : Prop := s_work s' = s_work s ∧ s_base s' = s_base s.

#[export] Instance same_data_refl : Reflexive same_data.
Proof. done. Qed.
#[export] Instance same_data_trans : Transitive same_data.
Proof. intros ??? [??] [??]. split; congruence. Qed.

Definition reads {A} (m : Sql A) : Prop := ∀ s, same_data s (m s).2.

Lemma reads_ret {A} (a : A) : reads (mret a).
Proof. done. Qed.

Lemma reads_bind {A B} (m : Sql A) (k : A → Sql B) :
  reads m → (∀ a, reads (k a)) → reads (mbind k m).
Proof.
  intros Hm Hk s. unfold mbind, sql_bind. specialize (Hm s).
  destruct (m s) as [a s1]; simpl in *. by etrans; [|apply Hk].
Qed.

Lemma reads_query `{Engine} {A} (f : Db → option A) : reads (query_row f).
Proof.
  intros s. unfold query_row, statement. by destruct (sql_fault (s_pc s)).
Qed.

Create HintDb reads.
#[export] Hint Resolve reads_ret reads_query : reads.

Ltac solve_reads :=
  repeat match goal with
  | |- reads (mbind _ _) => apply reads_bind; [eauto with reads|intros]
  | |- reads (match ?x with _ => _ end) => destruct x
  | |- reads (if ?b then _ else _) => destruct b
  | |- reads _ => solve [eauto with reads]
  end.

Section ReadOnly.
Context `{Sha256} `{Engine}.

Lemma reads_recompute eid : reads (recompute_envelope_checksum_from_row eid).
Proof. unfold recompute_envelope_checksum_from_row. solve_reads. Qed.
#[local] Hint Resolve reads_recompute : reads.

Lemma reads_get_status eid : reads (get_status_impl eid).
Proof. unfold get_status_impl. solve_reads. Qed.

Lemma reads_verify_payload eid : reads (verify_payload_digest eid).
Proof. unfold verify_payload_digest. solve_reads. Qed.

Lemma reads_load_delivery eid : reads (load_delivery_state eid).
Proof. unfold load_delivery_state. solve_reads. Qed.
#[local] Hint Resolve reads_load_delivery : reads.

Lemma reads_candidate eid : reads (load_delivery_candidate eid).
Proof. unfold load_delivery_candidate. solve_reads. Qed.

Lemma reads_payload eid : reads (read_verified_payload_impl eid).
Proof. unfold read_verified_payload_impl. solve_reads. Qed.
End ReadOnly.
#[export] Hint Resolve reads_recompute reads_get_status reads_verify_payload
  reads_load_delivery reads_candidate reads_payload : reads.

(** A call that only reads, from a session it leaves as it is. *)
Lemma wp_reads {A} (m : Sql A) (Q : A → Sess → Prop) s :
  reads m → (∀ s', same_data s s' → Q (m s).1 s') → wp m Q s.
Proof. intros Hm HQ. apply HQ, Hm. Qed.

(** ** What verified reads say *)

(** Steps through the calls of a session; a fault leaves a goal with
    [faulty] in its context. *)
Ltac wp_step :=
  match goal with
  | |- wp (mret _) _ _ => apply wp_ret
  | |- wp (mbind _ _) _ _ => apply wp_bind
  | |- wp (query_row _) _ _ => apply wp_query; [intros ??|]
  | |- wp begin_tx _ _ => apply wp_statement; [intros ??|]
  | |- wp (execute _) _ _ => apply wp_statement; [intros ??|]
  | |- wp commit _ _ => apply wp_commit; [intros ??|]
  | |- wp (match ?x with _ => _ end) _ _ => destruct x eqn:?
  | |- wp (if ?b then _ else _) _ _ => destruct b eqn:?
  end.

Section VerifiedReads.
Context `{Sha256} `{E : Engine}.

(** A lifecycle row that passes the checks of [get_status_impl]. *)
Record lifecycle_ok (eid : string) (l : LifecycleRow) : Prop := {
  lc_checksum : l_lifecycle_checksum l =
    compute_lifecycle_checksum eid (l_revision l) (l_delivery_status l) (l_retention_status l);
  lc_length : is_checksum (l_lifecycle_checksum l);
  lc_delivery : is_allowed_delivery_status (l_delivery_status l) = true;
  lc_retention : l_retention_status l = "PRESENT"
}.

(** An envelope row that passes the recomputation of its checksum. *)
Record envelope_ok (eid : string) (e : EnvelopeRow) : Prop := {
  ev_checksum : e_envelope_checksum e = sha256 (row_preimage eid e);
  ev_length : is_checksum (e_envelope_checksum e);
  ev_digest : is_checksum (e_payload_digest e);
  ev_fingerprint : is_checksum (e_request_fingerprint e)
}.

Definition status_of_rows (eid : string) (e : EnvelopeRow) (l : LifecycleRow)
  : PersistedStatus :=
  mkStatus eid (e_journal_sequence e) (e_stream_sequence e) (l_revision l)
    (l_lifecycle_checksum l) (l_delivery_status l) (l_retention_status l)
    (e_payload_digest e) (e_envelope_checksum e).

Lemma negb_len32 {A} (l : list A) : negb (length l =? 32)%nat = false ↔ length l = 32%nat.
Proof. rewrite negb_false_iff. apply Nat.eqb_eq. Qed.

Lemma negb_len32_true {A} (l : list A) :
  negb (length l =? 32)%nat = true ↔ length l ≠ 32%nat.
Proof. rewrite negb_true_iff. apply Nat.eqb_neq. Qed.

(** The recomputation of a sound row succeeds, unless the engine fails. *)
Lemma wp_recompute_ok eid e (Q : result Checksum string → Sess → Prop) s :
  stored_envelope (s_work s) !! eid = Some e → envelope_ok eid e →
  (∀ d s', faulty E → same_data s s' → Q (Err d) s') →
  (∀ s', same_data s s' → Q (Ok (e_envelope_checksum e)) s') →
  wp (recompute_envelope_checksum_from_row eid) Q s.
Proof.
  intros He [Hc _ Hd Hf] Hfault Hok. unfold recompute_envelope_checksum_from_row.
  repeat wp_step; simpl in *; simplify_eq; try (by apply Hfault).
  - apply negb_len32_true in Heqb. congruence.
  - apply negb_len32_true in Heqb0. congruence.
  - rewrite Hc in Hok. by apply Hok.
Qed.

(** A successful recomputation is the checksum of a row of the right shape. *)
Lemma recompute_sound eid s c :
  (recompute_envelope_checksum_from_row eid s).1 = Ok c →
  ∃ e, stored_envelope (s_work s) !! eid = Some e ∧ c = sha256 (row_preimage eid e) ∧
       is_checksum (e_payload_digest e) ∧ is_checksum (e_request_fingerprint e).
Proof.
  intros Hc.
  assert (Hw : wp (recompute_envelope_checksum_from_row eid)
    (λ r _, ∀ c, r = Ok c →
       ∃ e, stored_envelope (s_work s) !! eid = Some e ∧ c = sha256 (row_preimage eid e) ∧
         is_checksum (e_payload_digest e) ∧ is_checksum (e_request_fingerprint e)) s).
  { unfold recompute_envelope_checksum_from_row.
    repeat wp_step; intros c' Hc'; simplify_eq/=.
    apply negb_len32 in Heqb, Heqb0. eauto. }
  by apply Hw.
Qed.

Lemma wp_get_status_ok eid e l (Q : StatusResult → Sess → Prop) s :
  stored_envelope (s_work s) !! eid = Some e → lifecycle_state (s_work s) !! eid = Some l →
  envelope_ok eid e → lifecycle_ok eid l →
  (∀ d s', faulty E → same_data s s' → Q (StatusCorrupted eid d) s') →
  (∀ s', same_data s s' → Q (StatusFound (status_of_rows eid e l)) s') →
  wp (get_status_impl eid) Q s.
Proof.
  intros He Hl Hev [Hlc Hll Hld Hlr] Hfault Hok. unfold get_status_impl.
  apply wp_bind, wp_query; [intros d Hf; apply wp_ret, Hfault; done|].
  rewrite He, Hl. simpl.
  destruct Hev as [Hc Hlen Hdig Hfp]. unfold is_checksum in *.
  rewrite Hdig, Hlen, Hll. simpl.
  rewrite (bool_decide_eq_true_2 _ Hlc), Hld. simpl.
  unfold is_allowed_retention_status. rewrite (bool_decide_eq_true_2 _ Hlr). simpl.
  apply wp_bind, (wp_recompute_ok eid e); [done|by constructor|..].
  - intros d s' Hf Hs. apply wp_ret, Hfault; done.
  - intros s' Hs. rewrite bool_decide_eq_true_2 by done. simpl. apply wp_ret, Hok; done.
Qed.

(** A status that is found comes from two sound rows. *)
Lemma get_status_sound eid s st :
  (get_status_impl eid s).1 = StatusFound st →
  ∃ e l, stored_envelope (s_work s) !! eid = Some e ∧
         lifecycle_state (s_work s) !! eid = Some l ∧
         st = status_of_rows eid e l ∧ envelope_ok eid e ∧ lifecycle_ok eid l.
Proof.
  set (P r := ∀ st, r = StatusFound st → ∃ e l, stored_envelope (s_work s) !! eid = Some e ∧
         lifecycle_state (s_work s) !! eid = Some l ∧
         st = status_of_rows eid e l ∧ envelope_ok eid e ∧ lifecycle_ok eid l).
  assert (Hw : wp (get_status_impl eid) (λ r _, P r) s); [|by apply Hw].
  unfold get_status_impl. apply wp_bind, wp_query; [by intros; apply wp_ret|].
  destruct (stored_envelope (s_work s) !! eid) as [e|] eqn:He; simpl; [|by apply wp_ret].
  destruct (lifecycle_state (s_work s) !! eid) as [l|] eqn:Hl; simpl; [|by apply wp_ret].
  do 4 (wp_step; [by apply wp_ret|]).
  apply wp_bind, wp_reads; [apply reads_recompute|]. intros s' Hs.
  destruct (recompute_envelope_checksum_from_row eid (tick s)).1 as [c|d] eqn:Hc;
    [|by apply wp_ret].
  apply recompute_sound in Hc as (e' & He' & -> & Hd & Hf). simpl in He'.
  rewrite He in He'; injection He' as <-.
  wp_step; [by apply wp_ret|]. apply wp_ret. intros st' [= <-].
  exists e, l. repeat match goal with H : _ || _ = false |- _ => apply orb_false_iff in H as [??] end.
  rewrite negb_len32 in *. rewrite negb_false_iff in *.
  repeat match goal with H : bool_decide _ = true |- _ => apply bool_decide_eq_true_1 in H end.
  split; [done|]. split; [done|]. split; [done|].
  split; constructor; auto.
  unfold is_allowed_retention_status in *. by eapply bool_decide_eq_true_1.
Qed.
End VerifiedReads.
