(* ===== verification/JournalOpen.v ===== *)
(** * Opening the journal (crates/craftrelay-journal/src/lib.rs)

    [LocalJournal::open]: the pragmas, the check of the stored schema version,
    the creation of the tables and the record of the version.  Every statement
    runs in autocommit mode and may fail; the pragmas panic then. *)
From S2P Require Import Prelude Checksum JournalDb JournalCore JournalAccept SqlLogic.
Open Scope Z_scope.
#[local] Coercion Z.of_nat : nat >-> Z.

Definition SCHEMA_VERSION : Z := 2.

(** ** Reading a version *)
Definition digit_value (b : byte) : option Z :=
  let n := Z.of_N (Byte.to_N b) in
  if (48 <=? n) && (n <=? 57) then Some (n - 48) else None.

Fixpoint parse_digits (acc : Z) (bs : list byte) : option Z :=
  match bs with
  | [] => Some acc
  | b :: bs => d ← digit_value b; parse_digits (10 * acc + d) bs
  end.

(** [str::parse::<i64>]: an optional sign, at least one digit, in range. *)
Definition parse_i64 (s : string) : option Z :=
  let '(neg, digits) :=
    match bytes_of s with
    | "+"%byte :: ds => (false, ds)
    | "-"%byte :: ds => (true, ds)
    | ds => (false, ds)
    end in
  match digits with
  | [] => None
  | _ =>
      n ← parse_digits 0 digits;
      let z := if neg : bool then - n else n in
      if (i64_min <=? z) && (z <=? i64_max) then Some z else None
  end.

(** ** The file *)

(** [jf_meta] is the table [journal_meta], if it exists; [jf_tables] names the
    other tables that exist, [jf_db] holds their rows. *)
Record JournalFile : Type := mkFile {
  jf_meta : option (gmap string string);
  jf_tables : gset string;
  jf_db : Db
}.

Definition empty_file : JournalFile := mkFile None ∅ empty_db.

Definition v1_tables : list string :=
  ["stored_envelope"; "payload_blob"; "lifecycle_state"; "dedup_fingerprint";
   "producer_sequence"; "stream_head"; "write_attempt"].
Definition v2_tables : list string := ["delivery_state"; "delivery_attempt"].

(** [CREATE TABLE IF NOT EXISTS] *)
Definition create_table (name : string) (f : JournalFile) : JournalFile :=
  mkFile (jf_meta f) ({[name]} ∪ jf_tables f) (jf_db f).

Definition create_meta (f : JournalFile) : JournalFile :=
  mkFile (Some (default ∅ (jf_meta f))) (jf_tables f) (jf_db f).

Definition stored_version (f : JournalFile) : option string :=
  meta ← jf_meta f; meta !! "schema_version".

(** [INSERT OR REPLACE INTO journal_meta] *)
Definition set_version (f : JournalFile) : JournalFile :=
  mkFile (Some (<["schema_version" := to_string SCHEMA_VERSION]> (default ∅ (jf_meta f))))
    (jf_tables f) (jf_db f).

(** ** Opening *)

(** The file and the number of statements so far. *)
Definition Open (A : Type) : Type := JournalFile * nat → A * (JournalFile * nat).

#[export] Instance open_ret : MRet Open := λ A a s, (a, s).
#[export] Instance open_bind : MBind Open := λ A B k m s, let '(a, s') := m s in k a s'.

Section Opening.
Context `{Engine}.

Definition file_statement {A} (f : JournalFile → A * JournalFile) : Open (result A string) :=
  λ '(file, pc), match sql_fault pc with
                 | Some e => (Err e, (file, S pc))
                 | None => let '(a, file') := f file in (Ok a, (file', S pc))
                 end.

(** [execute_batch]: one statement after the other, up to the first failure. *)
Fixpoint execute_batch (stmts : list (JournalFile → JournalFile)) : Open (result unit string) :=
  match stmts with
  | [] => mret (Ok tt)
  | st :: stmts =>
      try _ ← file_statement (λ f, (tt, st f)) catch e => mret (Err e) in
      execute_batch stmts
  end.

(** The five pragmas change nothing the model sees; [None] is the panic of
    [expect]. *)
Fixpoint pragmas (n : nat) : Open (option unit) :=
  match n with
  | O => mret (Some tt)
  | S n => try _ ← execute_batch [id] catch _ => mret None in pragmas n
  end.
Definition apply_pragmas : Open (option unit) := pragmas 5.

Definition future_version (ver : Z) : string :=
  "unknown future schema version " +:+ to_string ver +:+ ", max supported is " +:+
  to_string SCHEMA_VERSION.

(** The check of the version found. *)
Definition check_version (existing : option string) : result unit string :=
  match existing with
  | None => Ok tt
  | Some v =>
      match parse_i64 v with
      | None => Err "corrupt schema version"
      | Some ver => if SCHEMA_VERSION <? ver then Err (future_version ver) else Ok tt
      end
  end.

Definition existing_ver (existing : option string) : Z := default 0 (existing ≫= parse_i64).

Definition init_schema : Open (option (result unit string)) :=
  p ← apply_pragmas;
  match p with
  | None => mret None
  | Some _ =>
      try _ ← execute_batch [create_meta] catch e => mret (Some (Err e)) in
      try existing ← file_statement (λ f, (stored_version f, f))
        catch e => mret (Some (Err e)) in
      match check_version existing with
      | Err e => mret (Some (Err e))
      | Ok _ =>
          try _ ← execute_batch (create_table <$> v1_tables) catch e => mret (Some (Err e)) in
          try _ ← (if existing_ver existing <? 2 then execute_batch (create_table <$> v2_tables)
                   else mret (Ok tt)) catch e => mret (Some (Err e)) in
          try _ ← file_statement (λ f, (tt, set_version f)) catch e => mret (Some (Err e)) in
          mret (Some (Ok tt))
      end
  end.

(** [LocalJournal::open]: [conn] is the answer of [Connection::open]. *)
Definition open_journal (config : JournalConfig) (conn : result JournalFile string)
  : option (result LocalJournal string) * option JournalFile :=
  match conn with
  | Err e => (Some (Err e), None)
  | Ok file =>
      let '(r, (file', _)) := init_schema (file, O) in
      ((r ← r; Some (match r with
                     | Ok _ => Ok (mkJournal (jf_db file') config false false)
                     | Err e => Err e
                     end)), Some file')
  end.

Definition open_in_memory (config : JournalConfig) : option (result LocalJournal string) :=
  (open_journal config (Ok empty_file)).1.

(** [schema_version] *)
Definition schema_version (f : JournalFile) : Z :=
  match (file_statement (λ f, (stored_version f, f)) (f, O)).1 with
  | Ok (Some v) => default 0 (parse_i64 v)
  | _ => 0
  end.
End Opening.

(** ** What opening does to the file *)

(** The rows and the tables that existed are kept. *)
Record file_kept (f f' : JournalFile) : Prop := {
  fk_db : jf_db f' = jf_db f;
  fk_tables : jf_tables f ⊆ jf_tables f'
}.

#[export] Instance file_kept_preorder : PreOrder file_kept.
Proof.
  split; [by split|]. intros f g h [Hd Ht] [Hd' Ht'].
  split; [by rewrite Hd', Hd|by etrans].
Qed.

(** A file that says version 2 has the tables of version 2. *)
Definition file_ok (f : JournalFile) : Prop :=
  2 ≤ existing_ver (stored_version f) → list_to_set v2_tables ⊆ jf_tables f.

(** Weakest preconditions of [Open]. *)
Definition owp {A} (m : Open A) (Q : A → JournalFile → Prop) (s : JournalFile * nat) : Prop :=
  Q (m s).1 (m s).2.1.

Lemma owp_ret {A} (a : A) (Q : A → JournalFile → Prop) s : Q a s.1 → owp (mret a) Q s.
Proof. done. Qed.

Lemma owp_bind {A B} (m : Open A) (k : A → Open B) (Q : B → JournalFile → Prop) s :
  owp m (λ a f, ∀ pc, owp (k a) Q (f, pc)) s → owp (mbind k m) Q s.
Proof. unfold owp, mbind, open_bind. destruct (m s) as [a [f pc]]. simpl. auto. Qed.

Lemma owp_mono {A} (m : Open A) (P Q : A → JournalFile → Prop) s :
  owp m P s → (∀ a f, P a f → Q a f) → owp m Q s.
Proof. unfold owp. auto. Qed.

Section OpenRules.
Context `{E : Engine}.

Lemma owp_statement {A} (g : JournalFile → A * JournalFile)
    (Q : result A string → JournalFile → Prop) f pc :
  (∀ e, faulty E → Q (Err e) f) → Q (Ok (g f).1) (g f).2 → owp (file_statement g) Q (f, pc).
Proof.
  intros Hf Hok. unfold owp, file_statement. destruct (sql_fault pc) as [e|] eqn:He; simpl.
  - apply Hf. by exists pc, e.
  - by destruct (g f).
Qed.

(** A batch of one statement. *)
Lemma owp_batch g (Q : result unit string → JournalFile → Prop) f pc :
  (∀ e, faulty E → Q (Err e) f) → Q (Ok tt) (g f) → owp (execute_batch [g]) Q (f, pc).
Proof.
  intros Hf Hok. apply owp_bind, owp_statement; [intros e He ?; by apply owp_ret, Hf|].
  intros ?. by apply owp_ret.
Qed.

Lemma owp_pragmas n (Q : option unit → JournalFile → Prop) f pc :
  (faulty E → Q None f) → Q (Some tt) f → owp (pragmas n) Q (f, pc).
Proof.
  intros Hf Hok. revert pc. induction n as [|n IH]; intros pc; [done|].
  apply owp_bind, owp_batch; [intros e He ?; by apply owp_ret, Hf|]. intros ?. apply IH.
Qed.

(** Creating tables. *)
Lemma owp_create names (Q : result unit string → JournalFile → Prop) f pc :
  (∀ e f', faulty E → file_kept f f' → jf_meta f' = jf_meta f → Q (Err e) f') →
  Q (Ok tt) (mkFile (jf_meta f) (list_to_set names ∪ jf_tables f) (jf_db f)) →
  owp (execute_batch (create_table <$> names)) Q (f, pc).
Proof.
  revert f pc. induction names as [|n names IH]; intros f pc Hf Hok; simpl.
  { apply owp_ret. simpl in *. rewrite (left_id_L ∅ (∪)) in Hok. by destruct f. }
  apply owp_bind, owp_statement; [intros e He pc'; by apply owp_ret, Hf|]. intros pc'.
  apply IH; simpl.
  - intros e f' He [Hd Ht] Hm. apply Hf; [done| |done]. simpl in *. split; [done|set_solver].
  - simpl in Hok. by replace (list_to_set names ∪ ({[n]} ∪ jf_tables f))
      with ({[n]} ∪ list_to_set names ∪ jf_tables f) by set_solver.
Qed.

(** What [init_schema] answers and leaves, from a file [f]. *)
Record opened (f : JournalFile) (r : option (result unit string)) (f' : JournalFile) : Prop := {
  op_kept : file_kept f f';
  op_ok : file_ok f → file_ok f';
  op_done : r = Some (Ok tt) → file_ok f →
    list_to_set (v1_tables ++ v2_tables) ⊆ jf_tables f' ∧ stored_version f' = Some "2";
  op_refused : ∀ e, check_version (stored_version f) = Err e →
    r ≠ Some (Ok tt) ∧ jf_tables f' = jf_tables f ∧ stored_version f' = stored_version f;
  op_answer : ¬ faulty E → r = Some (check_version (stored_version f))
}.

Lemma opened_early f r f' :
  file_kept f f' → stored_version f' = stored_version f → r ≠ Some (Ok tt) →
  (∀ e, check_version (stored_version f) = Err e → jf_tables f' = jf_tables f) →
  (faulty E ∨ r = Some (check_version (stored_version f))) → opened f r f'.
Proof.
  intros [Hd Ht] Hv Hr Hn Ha. constructor; [done| |done| |].
  - unfold file_ok. rewrite Hv. intros Hok H2. etrans; [by apply Hok|done].
  - intros e He. split; [done|]. split; [by eapply Hn|done].
  - intros Hnf. by destruct Ha.
Qed.

(** The tables are there and the version is recorded. *)
Lemma opened_done f f' :
  check_version (stored_version f) = Ok tt → file_kept f f' →
  (file_ok f → list_to_set (v1_tables ++ v2_tables) ⊆ jf_tables f') →
  opened f (Some (Ok tt)) (set_version f').
Proof.
  intros Hc [Hd Ht] Hall.
  assert (Hv : stored_version (set_version f') = Some "2").
  { unfold stored_version. simpl. by rewrite lookup_insert_eq. }
  constructor; [by split| | |by rewrite Hc|by rewrite Hc].
  - intros Hok _. etrans; [|by apply Hall]. set_solver.
  - intros _ Hok. split; [by apply Hall|done].
Qed.

Lemma create_meta_kept f : file_kept f (create_meta f) ∧ stored_version (create_meta f) = stored_version f.
Proof. split; [by split|]. unfold stored_version. simpl. destruct (jf_meta f); [done|apply lookup_empty]. Qed.

Lemma init_schema_opened f pc : owp init_schema (opened f) (f, pc).
Proof.
  destruct (create_meta_kept f) as [Hk Hv]. unfold init_schema.
  apply owp_bind, owp_pragmas; [intros He pc1; apply owp_ret, opened_early; auto; reflexivity|].
  intros pc1. apply owp_bind, owp_batch.
  { intros e He pc2. apply owp_ret, opened_early; auto; reflexivity. }
  intros pc2. apply owp_bind, owp_statement.
  { intros e He pc3. apply owp_ret, opened_early; auto. }
  intros pc3. cbn [fst snd]. rewrite Hv. destruct (check_version (stored_version f)) as [[]|e] eqn:Hc.
  2: { apply owp_ret, opened_early; auto. right. by rewrite Hc. }
  assert (Hfail : ∀ e f', faulty E → file_kept (create_meta f) f' → jf_meta f' = jf_meta (create_meta f) →
     opened f (Some (Err e)) f').
  { intros e f' He Hk' Hm. apply opened_early; [by etrans| |done|by rewrite Hc|by left].
    rewrite <- Hv. unfold stored_version. by rewrite Hm. }
  apply owp_bind, owp_create; [intros e f' He Hk' Hm ?; by apply owp_ret, Hfail|]. intros pc4.
  apply owp_bind. destruct (Z.ltb_spec (existing_ver (stored_version f)) 2) as [Hlt|Hge].
  - apply owp_create.
    { intros e f' He [Hd Ht] Hm pc5. apply owp_ret, Hfail; [done| |done].
      split; [done|]. simpl in *. set_solver. }
    intros pc5. apply owp_bind, owp_statement.
    { intros e He pc6. apply owp_ret, Hfail; [done| |done]. split; [done|]. simpl. set_solver. }
    intros pc6. apply owp_ret, opened_done; [done|split; [done|simpl; set_solver]|].
    intros _. simpl. set_solver.
  - apply owp_ret. intros pc5. apply owp_bind, owp_statement.
    { intros e He pc6. apply owp_ret, Hfail; [done| |done]. split; [done|]. simpl. set_solver. }
    intros pc6. apply owp_ret, opened_done; [done|split; [done|simpl; set_solver]|].
    intros Hok. specialize (Hok Hge).
    simpl in *. set_solver.
Qed.
End OpenRules.

(** ** Any number of openings *)

(** Opening a file again and again, each time with its own failures. *)
Inductive reopened : JournalFile → JournalFile → Prop :=
| reopened_none f : reopened f f
| reopened_again (E : Engine) f f' : reopened (init_schema (f, O)).2.1 f' → reopened f f'.

Lemma reopened_kept f f' : reopened f f' → file_kept f f' ∧ (file_ok f → file_ok f').
Proof.
  induction 1 as [f|E f f' _ [IHk IHo]]; [by split|].
  destruct (init_schema_opened f O) as [Hk Ho _ _ _]. split; [by etrans|auto].
Qed.

(** C24. Opening a journal is safe at any time.  Open a file any number of times,
    each opening failing or panicking at any statement, and then once with a
    working store: the last opening answers, and it succeeds exactly when the
    stored version is absent or a number up to 2.  No opening touches a row or
    drops a table.  After a success all tables exist and version 2 is recorded,
    which every later opening accepts; a file of a later version is refused and
    its tables and version are left alone. *)
Theorem open_safe (E : Engine) (config : JournalConfig) (f f1 : JournalFile) :
  reliable E → file_ok f → reopened f f1 →
  ∃ r f2, open_journal config (Ok f1) = (Some r, Some f2) ∧ jf_db f2 = jf_db f ∧
    jf_tables f ⊆ jf_tables f2 ∧
    (∀ j, r = Ok j ↔ check_version (stored_version f1) = Ok tt ∧ j = mkJournal (jf_db f) config false false) ∧
    (∀ j, r = Ok j → list_to_set (v1_tables ++ v2_tables) ⊆ jf_tables f2 ∧
       schema_version f2 = SCHEMA_VERSION ∧ check_version (stored_version f2) = Ok tt) ∧
    (∀ e, r = Err e → jf_tables f2 = jf_tables f1 ∧ stored_version f2 = stored_version f1).
Proof.
  intros HE Hok Hre. destruct (reopened_kept f f1 Hre) as [[Hd Ht] Ho]. specialize (Ho Hok).
  pose proof (init_schema_opened f1 O) as [[Hd2 Ht2] _ Hdone Href Hans]. unfold owp in *.
  specialize (Hans (reliable_not_faulty _ HE)). unfold open_journal.
  destruct (init_schema (f1, O)) as [r [f2 pc]]. simpl in *. subst r.
  destruct (check_version (stored_version f1)) as [[]|e] eqn:Hc; simpl.
  - destruct (Hdone eq_refl Ho) as [Hall Hv]. eexists _, f2. split; [done|].
    split; [congruence|]. split; [set_solver|]. split; [|split; [|done]].
    + intros j. rewrite Hd2, Hd. split; [by intros [= <-]|by intros [_ ->]].
    + intros j _. split; [done|]. unfold schema_version, file_statement. rewrite HE. simpl.
      rewrite Hv. done.
  - destruct (Href e eq_refl) as (_ & Htab & Hver). eexists _, f2. split; [done|].
    split; [congruence|]. split; [set_solver|]. split; [|split; [done|done]].
    intros j. split; [done|]. by intros [? _].
Qed.

(** An opening that is cut off after the tables of version 1, and then a
    complete one. *)
Definition cut_engine : Engine := {|
  sql_fault := λ n, if (14 <=? n)%nat then Some "disk I/O error" else None;
  sql_constraint := λ c, c
|}.

Definition cut_file : JournalFile := (@init_schema cut_engine (empty_file, O)).2.1.

Lemma open_safe_witness :
  ∃ r f2, @open_journal sample_engine default_config (Ok cut_file) = (Some r, Some f2) ∧
    r = Ok (mkJournal empty_db default_config false false) ∧ stored_version cut_file = None ∧
    "delivery_state" ∉ jf_tables cut_file ∧ "delivery_state" ∈ jf_tables f2.
Proof.
  destruct (open_safe sample_engine default_config empty_file cut_file)
    as (r & f2 & Ho & _ & _ & Hr & Hall & _).
  - intros n. reflexivity.
  - intros Hv. by vm_compute in Hv.
  - apply (reopened_again cut_engine). constructor.
  - exists r, f2. split; [exact Ho|].
    assert (Hj : r = Ok (mkJournal empty_db default_config false false)).
    { apply Hr. split; [vm_compute; reflexivity|reflexivity]. }
    split; [exact Hj|]. split; [vm_compute; reflexivity|]. split; [compute_done|].
    apply (proj1 (Hall _ Hj)). compute_done.
Defined.

(** A file of version 3 is refused. *)
Example future_refused :
  (@open_journal sample_engine default_config
     (Ok (mkFile (Some {["schema_version" := "3"]}) ∅ empty_db))).1 =
  Some (Err "unknown future schema version 3, max supported is 2").
Proof. vm_compute. reflexivity. Qed.
