(* ===== verification/JournalLog.v ===== *)
(** * The journal as an append-only log

    The abstract specification of the journal: a list of accepted requests.
    [represents db log] says that the tables of [db] are those of [log] -- the
    envelope of the i-th request carries journal sequence i and its position in
    its stream, payload, fingerprint and producer rows are the request's, and
    every stored checksum verifies.  The lifecycle and delivery rows are free to
    move.  The theorems relate [accept] to this specification for every engine,
    and so for every failure of a statement. *)
From S2P Require Import Prelude Checksum JournalDb JournalCore JournalAccept SqlLogic.
Open Scope Z_scope.
#[local] Coercion Z.of_nat : nat >-> Z.

(** ** Databases up to the attempt protocol *)

(** [record_attempt] ignores its errors, so its table is not part of what the
    journal promises. *)
Record db_same (db db' : Db) : Prop := {
  ds_envelope : stored_envelope db = stored_envelope db';
  ds_payload : payload_blob db = payload_blob db';
  ds_lifecycle : lifecycle_state db = lifecycle_state db';
  ds_dedup : dedup_fingerprint db = dedup_fingerprint db';
  ds_producer : producer_sequence db = producer_sequence db';
  ds_head : stream_head db = stream_head db';
  ds_delivery : delivery_state db = delivery_state db';
  ds_attempts : delivery_attempt db = delivery_attempt db'
}.

#[export] Instance db_equiv : Equiv Db := db_same.

#[export] Instance db_equiv_equivalence : Equivalence (≡@{Db}).
Proof.
  split; [done|intros ?? []; constructor; congruence|].
  intros ??? [] []; constructor; congruence.
Qed.

(** ** The log *)
Definition event_ids (log : list AcceptRequest) : list string := rq_event_id <$> log.

Definition in_stream (k : string) (log : list AcceptRequest) : list AcceptRequest :=
  filter (λ r, scoped_stream_key r = k) log.

Definition stream_count (k : string) (log : list AcceptRequest) : Z :=
  length (in_stream k log).

(** The position of the [i]-th request in its stream, from 1. *)
Definition stream_pos (log : list AcceptRequest) (i : nat) (r : AcceptRequest) : Z :=
  stream_count (scoped_stream_key r) (take (S i) log).

Definition last_of_producer (k : string) (log : list AcceptRequest) : option AcceptRequest :=
  last (filter (λ r, producer_key r = k) log).

Definition producer_row (r : AcceptRequest) : ProducerRow :=
  mkProducer (rq_producer_operation_sequence r) (rq_event_id r).

(** The fingerprint has the length of its Rust type. *)
Definition req_typed (r : AcceptRequest) : Prop := is_checksum (rq_request_fingerprint r).

Lemma stream_count_snoc k log r :
  stream_count k (log ++ [r]) =
  stream_count k log + (if decide (scoped_stream_key r = k) then 1 else 0).
Proof.
  unfold stream_count, in_stream. rewrite filter_app, length_app. simpl.
  rewrite filter_cons, filter_nil. case_decide; simpl; lia.
Qed.

Lemma stream_count_le k log : 0 ≤ stream_count k log ≤ length log.
Proof. unfold stream_count, in_stream. pose proof (length_filter (λ r, scoped_stream_key r = k) log). lia. Qed.

Lemma stream_pos_app log r0 i r :
  (i < length log)%nat → stream_pos (log ++ [r0]) i r = stream_pos log i r.
Proof. intros Hi. unfold stream_pos. by rewrite take_app_le by lia. Qed.

Lemma stream_pos_last log r :
  stream_pos (log ++ [r]) (length log) r = stream_count (scoped_stream_key r) log + 1.
Proof.
  unfold stream_pos. rewrite take_ge by (rewrite length_app; simpl; lia).
  rewrite stream_count_snoc, decide_True by done. lia.
Qed.

Lemma last_of_producer_snoc k log r :
  last_of_producer k (log ++ [r]) =
  if decide (producer_key r = k) then Some r else last_of_producer k log.
Proof.
  unfold last_of_producer. rewrite filter_app, filter_cons, filter_nil.
  case_decide; [apply last_snoc|by rewrite app_nil_r].
Qed.

Section Log.
Context `{Sha256} `{!Sha256Ok}.

(** ** Representation *)
Record represents (db : Db) (log : list AcceptRequest) : Prop := {
  rep_nodup : NoDup (event_ids log);
  rep_typed : Forall req_typed log;
  rep_env : ∀ (i : nat) r, log !! i = Some r →
    ∃ now, stored_envelope db !! rq_event_id r =
           Some (new_envelope r (i + 1) (stream_pos log i r) now);
  rep_env_dom : dom (stored_envelope db) = list_to_set (event_ids log);
  rep_payload : ∀ r, r ∈ log →
    payload_blob db !! rq_event_id r = Some (mkPayload (rq_payload r) (sha256 (rq_payload r)));
  rep_payload_dom : dom (payload_blob db) = list_to_set (event_ids log);
  rep_life : ∀ eid l, lifecycle_state db !! eid = Some l → lifecycle_ok eid l;
  rep_life_dom : dom (lifecycle_state db) = list_to_set (event_ids log);
  rep_dedup : ∀ r, r ∈ log →
    dedup_fingerprint db !! rq_event_id r = Some (rq_request_fingerprint r);
  rep_dedup_dom : dom (dedup_fingerprint db) = list_to_set (event_ids log);
  rep_head : ∀ k, default 0 (stream_head db !! k) = stream_count k log;
  rep_producer : ∀ k, producer_sequence db !! k = producer_row <$> last_of_producer k log;
  rep_delivery_dom : dom (delivery_state db) ⊆ list_to_set (event_ids log)
}.

#[export] Instance represents_proper : Proper ((≡) ==> (=) ==> iff) represents.
Proof.
  assert (Himp : ∀ a b log, a ≡ b → represents a log → represents b log).
  { intros [] [] log []; simpl in *; subst. intros []. by constructor. }
  intros a b Hab ? log ->. split; apply Himp; done.
Qed.

Lemma represents_empty : represents empty_db [].
Proof.
  constructor; simpl; intros; try done; try set_solver; try constructor.
Qed.

(** ** Consequences *)
Lemma rep_env_none db log eid :
  represents db log → eid ∉ event_ids log → stored_envelope db !! eid = None.
Proof.
  intros Hr He. apply not_elem_of_dom. rewrite (rep_env_dom _ _ Hr). set_solver.
Qed.

Lemma new_envelope_ok r js ss now :
  req_typed r → envelope_ok (rq_event_id r) (new_envelope r js ss now).
Proof. intros Ht. constructor; simpl; auto; apply sha256_length. Qed.

Lemma rep_lookup db log (i : nat) r :
  represents db log → log !! i = Some r →
  ∃ now l, stored_envelope db !! rq_event_id r =
             Some (new_envelope r (i + 1) (stream_pos log i r) now) ∧
           lifecycle_state db !! rq_event_id r = Some l ∧
           lifecycle_ok (rq_event_id r) l ∧ req_typed r.
Proof.
  intros Hr Hi. destruct (rep_env _ _ Hr i r Hi) as [now He].
  assert (Hd : rq_event_id r ∈ dom (lifecycle_state db)).
  { rewrite (rep_life_dom _ _ Hr). apply elem_of_list_to_set, list_elem_of_fmap.
    exists r. split; [done|by eapply list_elem_of_lookup_2]. }
  apply elem_of_dom in Hd as [l Hl]. exists now, l.
  split; [done|]. split; [done|]. split.
  - apply (rep_life _ _ Hr _ _ Hl).
  - by apply (Forall_lookup_1 _ _ _ _ (rep_typed _ _ Hr) Hi).
Qed.

Lemma rep_env_inv db log eid e :
  represents db log → stored_envelope db !! eid = Some e →
  ∃ (i : nat) r now, log !! i = Some r ∧ rq_event_id r = eid ∧
             e = new_envelope r (i + 1) (stream_pos log i r) now.
Proof.
  intros Hr He. assert (Hd : eid ∈ dom (stored_envelope db)) by (apply elem_of_dom; eauto).
  rewrite (rep_env_dom _ _ Hr), elem_of_list_to_set in Hd.
  apply list_elem_of_fmap in Hd as (r & -> & [i Hi]%list_elem_of_lookup).
  destruct (rep_env _ _ Hr i r Hi) as [now He']. exists i, r, now.
  repeat split; [done|]. congruence.
Qed.

(** ** Allocation *)

(** The maximum is attained and bounds every row. *)
Lemma max_js_spec (t : gmap string EnvelopeRow) :
  match max_journal_sequence t with
  | Some m => (∃ eid e, t !! eid = Some e ∧ e_journal_sequence e = m) ∧
              ∀ eid e, t !! eid = Some e → e_journal_sequence e ≤ m
  | None => t = ∅
  end.
Proof.
  unfold max_journal_sequence.
  assert (Hl : ∀ l : list (string * EnvelopeRow),
    match foldr (λ p m, Some (Z.max (e_journal_sequence p.2) (default (e_journal_sequence p.2) m))) None l with
    | Some m => (∃ p, p ∈ l ∧ e_journal_sequence p.2 = m) ∧ ∀ p, p ∈ l → e_journal_sequence p.2 ≤ m
    | None => l = []
    end).
  { induction l as [|p l IH]; [done|]. simpl. destruct (foldr _ None l) as [m|]; simpl.
    - destruct IH as [(q & Hq & <-) Hub]. split; [|intros x [->|Hx]%elem_of_cons; [lia|specialize (Hub _ Hx); lia]].
      destruct (Z.max_spec (e_journal_sequence p.2) (e_journal_sequence q.2)) as [[_ ->]|[_ ->]];
        [exists q|exists p]; set_solver.
    - subst. split; [exists p; split; [by left|lia]|]. intros x ->%list_elem_of_singleton. lia. }
  specialize (Hl (map_to_list t)). destruct (foldr _ None _) as [m|].
  - destruct Hl as [([eid e] & Hin%elem_of_map_to_list & Hm) Hub]. split; [by exists eid, e|].
    intros eid' e' He. apply (Hub (eid', e')). by apply elem_of_map_to_list.
  - by apply map_to_list_empty_iff.
Qed.

Lemma rep_js_le db log eid e :
  represents db log → stored_envelope db !! eid = Some e →
  1 ≤ e_journal_sequence e ≤ length log.
Proof.
  intros Hr He. destruct (rep_env_inv _ _ _ _ Hr He) as (i & r & now & Hi & _ & ->).
  apply lookup_lt_Some in Hi. simpl. lia.
Qed.

Lemma rep_next_js db log :
  represents db log → length log < i64_max →
  next_journal_sequence (stored_envelope db) = Some (length log + 1).
Proof.
  intros Hr Hl. unfold next_journal_sequence. pose proof (max_js_spec (stored_envelope db)) as Hm.
  assert (Hmax : default 0 (max_journal_sequence (stored_envelope db)) = length log).
  { destruct (max_journal_sequence (stored_envelope db)) as [m|]; simpl.
    - destruct Hm as [(eid & e & He & <-) Hub]. pose proof (rep_js_le _ _ _ _ Hr He) as Hb.
      destruct (lookup_lt_is_Some_2 log (pred (length log))) as [r Hi]; [lia|].
      destruct (rep_env _ _ Hr _ _ Hi) as [now He']. apply Hub in He'. simpl in He'. lia.
    - destruct log as [|r log]; [done|]. destruct (rep_env _ _ Hr 0%nat r eq_refl) as [now He].
      by rewrite Hm in He. }
  rewrite Hmax. by destruct (Z.ltb_spec (length log) i64_max); [|lia].
Qed.

Lemma rep_envelopes_at db log js :
  represents db log → length log < js → envelopes_at js (stored_envelope db) = [].
Proof.
  intros Hr Hjs. unfold envelopes_at.
  destruct (filter _ _) as [|[eid e] l] eqn:Hf; [done|].
  assert (Hin : (eid, e) ∈ (eid, e) :: l) by by left.
  rewrite <- Hf, list_elem_of_filter in Hin. destruct Hin as [Hj Hin].
  apply elem_of_map_to_list, (rep_js_le _ _ _ _ Hr) in Hin. simpl in Hj. lia.
Qed.

(** ** The database after an accepted event *)
Definition event_db (req : AcceptRequest) (js ss now : Z) (db : Db) : Db :=
  let eid := rq_event_id req in
  set_producer_sequence
    (<[producer_key req := mkProducer (rq_producer_operation_sequence req) eid]>
       (producer_sequence db))
  (set_dedup_fingerprint (<[eid := rq_request_fingerprint req]> (dedup_fingerprint db))
  (set_lifecycle_state (<[eid := new_lifecycle req now]> (lifecycle_state db))
  (set_payload_blob
    (<[eid := mkPayload (rq_payload req) (compute_sha256 (rq_payload req))]>
       (payload_blob db))
  (set_stored_envelope (<[eid := new_envelope req js ss now]> (stored_envelope db))
  (set_stream_head (<[scoped_stream_key req := ss]> (stream_head db)) db))))).

Lemma new_lifecycle_ok req now : lifecycle_ok (rq_event_id req) (new_lifecycle req now).
Proof. constructor; try done. apply sha256_length. Qed.

Lemma event_ids_snoc log r : event_ids (log ++ [r]) = event_ids log ++ [rq_event_id r].
Proof. unfold event_ids. by rewrite fmap_app. Qed.

Lemma dom_snoc {V} (t : gmap string V) log r v :
  dom t = list_to_set (event_ids log) →
  dom (<[rq_event_id r := v]> t) = list_to_set (C := gset string) (event_ids (log ++ [r])).
Proof. intros Ht. rewrite event_ids_snoc, dom_insert_L, Ht. set_solver. Qed.

Lemma not_new_id log r0 r : r0 ∈ log → rq_event_id r ∉ event_ids log → rq_event_id r0 ≠ rq_event_id r.
Proof. intros Hin Hn Heq. apply Hn. rewrite <- Heq. apply list_elem_of_fmap. eauto. Qed.

(** Appending a request to the log is what the inserts of [accept] do. *)
Lemma represents_snoc db log req now :
  represents db log → req_typed req → rq_event_id req ∉ event_ids log →
  represents (event_db req (length log + 1)
                (stream_count (scoped_stream_key req) log + 1) now db) (log ++ [req]).
Proof.
  intros Hr Ht Hn. destruct Hr. constructor; simpl.
  - rewrite event_ids_snoc. apply NoDup_app. split; [done|].
    split; [|apply NoDup_singleton]. set_solver.
  - by apply Forall_app_2; [|apply Forall_singleton].
  - intros i r Hi. apply lookup_app_Some in Hi as [Hi|[Hge Hi]].
    + rewrite stream_pos_app by (by eapply lookup_lt_Some).
      rewrite lookup_insert_ne; [by apply rep_env0|].
      apply not_eq_sym, not_new_id with log; [by eapply list_elem_of_lookup_2|done].
    + apply list_lookup_singleton_Some in Hi as [Hi <-].
      assert (i = length log) as -> by lia.
      rewrite stream_pos_last, lookup_insert_eq. by exists now.
  - by apply dom_snoc.
  - intros r [Hin| ->%list_elem_of_singleton]%elem_of_app; [|by rewrite lookup_insert_eq].
    rewrite lookup_insert_ne by (by apply not_eq_sym, not_new_id with log). by apply rep_payload0.
  - by apply dom_snoc.
  - intros eid l [[<- <-]|[Hne Hl]]%lookup_insert_Some; [apply new_lifecycle_ok|by apply rep_life0].
  - by apply dom_snoc.
  - intros r [Hin| ->%list_elem_of_singleton]%elem_of_app; [|by rewrite lookup_insert_eq].
    rewrite lookup_insert_ne by (by apply not_eq_sym, not_new_id with log). by apply rep_dedup0.
  - by apply dom_snoc.
  - intros k. rewrite stream_count_snoc, lookup_insert. case_decide; simpl; [by subst|].
    rewrite rep_head0. lia.
  - intros k. rewrite last_of_producer_snoc, lookup_insert. case_decide; [done|by apply rep_producer0].
  - rewrite event_ids_snoc. set_solver.
Qed.

(** ** What acceptance promises *)

(** What [accept] does on a log: its answer, and the log after it.  The lifecycle
    row only shows in the answer to a duplicate. *)
Inductive accepts_as (db : Db) (log : list AcceptRequest) (req : AcceptRequest)
  : AcceptResult → list AcceptRequest → Prop :=
| as_accepted :
    rq_event_id req ∉ event_ids log →
    (∀ r0, last_of_producer (producer_key req) log = Some r0 →
       rq_producer_operation_sequence r0 < rq_producer_operation_sequence req) →
    let js := length log + 1 in
    let ss := stream_count (scoped_stream_key req) log + 1 in
    accepts_as db log req
      (Accepted (mkAccepted (rq_event_id req) js ss 1
         (e_envelope_checksum (new_envelope req js ss 0)) LocalAccepted))
      (log ++ [req])
| as_duplicate (i : nat) r0 l :
    log !! i = Some r0 → rq_event_id r0 = rq_event_id req →
    rq_request_fingerprint r0 = rq_request_fingerprint req →
    lifecycle_state db !! rq_event_id req = Some l →
    let js := i + 1 in
    let ss := stream_pos log i r0 in
    accepts_as db log req
      (ExistingDuplicate (mkAccepted (rq_event_id req) js ss (l_revision l)
         (e_envelope_checksum (new_envelope r0 js ss 0))
         (duplicate_delivery_status (l_delivery_status l)))) log
| as_conflict r0 :
    r0 ∈ log → rq_event_id r0 = rq_event_id req →
    rq_request_fingerprint r0 ≠ rq_request_fingerprint req →
    accepts_as db log req (FingerprintConflict (rq_event_id req)) log
| as_sequence r0 :
    rq_event_id req ∉ event_ids log →
    last_of_producer (producer_key req) log = Some r0 →
    rq_producer_operation_sequence req ≤ rq_producer_operation_sequence r0 →
    accepts_as db log req
      (SequenceConflict (sequence_conflict_detail (rq_producer_operation_sequence req)
         (rq_producer_operation_sequence r0) (rq_event_id r0))) log.

(** An answer that reports a failure of the store: an error, a corruption, or
    a panic. *)
Definition accept_failure (r : option AcceptResult) : Prop :=
  match r with
  | None | Some (AcceptError _) | Some (AcceptCorrupted _ _) => True
  | _ => False
  end.

Context `{E : Engine}.

(** The rows that belong to other operations: a new event gets its first
    lifecycle row, nothing else moves. *)
Definition accept_frame (now : Z) (req : AcceptRequest) (res : AcceptResult) (db db' : Db) : Prop :=
  delivery_state db' = delivery_state db ∧
  lifecycle_state db' =
    match res with
    | Accepted _ => <[rq_event_id req := new_lifecycle req now]> (lifecycle_state db)
    | _ => lifecycle_state db
    end.

(** Either the specification holds, or the engine failed and nothing
    happened. *)
Definition accept_post (now : Z) (db : Db) (log : list AcceptRequest) (req : AcceptRequest)
    (r : option AcceptResult) (db' : Db) : Prop :=
  (∃ res log', r = Some res ∧ accepts_as db log req res log' ∧ represents db' log' ∧
     accept_frame now req res db db') ∨
  (faulty E ∧ accept_failure r ∧ db' = db).

(** An answer that appends nothing. *)
Lemma accept_post_same now db log req res db' :
  represents db log → accepts_as db log req res log → (∀ ev, res ≠ Accepted ev) →
  db ≡ db' → accept_post now db log req (Some res) db'.
Proof.
  intros Hr Hs Hres Heq. left. exists res, log. split; [done|]. split; [done|].
  split; [by rewrite <- Heq|]. destruct Heq. split; [done|].
  destruct res; try done. by destruct (Hres ev).
Qed.

Lemma wp_record_attempt eid outcome detail now (Q : unit → Sess → Prop) s :
  (∀ s', s_work s ≡ s_work s' → s_base s' = s_base s → Q tt s') →
  wp (record_attempt eid outcome detail now) Q s.
Proof.
  intros HQ. unfold record_attempt.
  repeat first [wp_step | progress cbn [insert_write_attempt prune_write_attempt]];
    apply HQ; done.
Qed.

Lemma last_of_producer_elem k log r : last_of_producer k log = Some r → r ∈ log.
Proof.
  intros Hl. apply last_Some_elem_of in Hl. by apply list_elem_of_filter in Hl as [_ ?].
Qed.

Lemma wp_accept_duplicate req now log (i : nat) r0 s :
  represents (s_work s) log → s_base s = s_work s →
  log !! i = Some r0 → rq_event_id r0 = rq_event_id req →
  rq_request_fingerprint r0 = rq_request_fingerprint req →
  wp (accept_duplicate req now)
     (λ r s', accept_post now (s_work s) log req (Some r) (s_base s')) s.
Proof.
  intros Hr Hb Hi Hid Hfp.
  destruct (rep_lookup _ _ _ _ Hr Hi) as (t & l & He & Hl & Hlok & Ht).
  rewrite Hid in He, Hl, Hlok. unfold accept_duplicate.
  apply wp_bind, (wp_get_status_ok _ _ _ _ _ He Hl); [|done|..].
  { rewrite <- Hid. by apply new_envelope_ok. }
  { intros d s' Hf [Hw' Hb']. apply wp_ret. right. repeat split; [done|congruence]. }
  intros s1 [Hw1 Hb1]. unfold verify_payload_digest. do 2 apply wp_bind. wp_step.
  { repeat wp_step. right. simpl. repeat split; [done|congruence]. }
  pose proof (rep_payload _ _ Hr r0 ltac:(by eapply list_elem_of_lookup_2)) as Hp.
  rewrite Hid in Hp. unfold payload_row. rewrite Hw1, Hp.
  simpl. rewrite (sha256_length (rq_payload r0)). simpl.
  rewrite decide_True by done. apply wp_ret, wp_bind, wp_record_attempt.
  intros s2 Hw2 Hb2. simpl in Hw2, Hb2.
  assert (Hspec : accepts_as (s_work s) log req
      (ExistingDuplicate (mkAccepted (rq_event_id req) (i + 1) (stream_pos log i r0)
         (l_revision l) (e_envelope_checksum (new_envelope r0 (i + 1) (stream_pos log i r0) 0))
         (duplicate_delivery_status (l_delivery_status l)))) log)
    by by econstructor.
  repeat wp_step; (apply accept_post_same; [done|exact Hspec|done|]); simpl.
  - by rewrite Hb2, Hb1, Hb.
  - by rewrite <- Hw2, Hw1.
Qed.

(** The inserts of a new event on a database that represents a log. *)
Lemma insert_rows_ok db log req now :
  represents db log → rq_event_id req ∉ event_ids log →
  let js := length log + 1 in
  let ss := stream_count (scoped_stream_key req) log + 1 in
  let eid := rq_event_id req in
  let db0 := set_stream_head (<[scoped_stream_key req := ss]> (stream_head db)) db in
  let db1 := set_stored_envelope (<[eid := new_envelope req js ss now]> (stored_envelope db)) db0 in
  let db2 := set_payload_blob
    (<[eid := mkPayload (rq_payload req) (compute_sha256 (rq_payload req))]> (payload_blob db)) db1 in
  let db3 := set_lifecycle_state (<[eid := new_lifecycle req now]> (lifecycle_state db)) db2 in
  let db4 := set_dedup_fingerprint (<[eid := rq_request_fingerprint req]> (dedup_fingerprint db)) db3 in
  insert_envelope eid (new_envelope req js ss now) db0 = Ok (1, db1) ∧
  insert_payload eid (mkPayload (rq_payload req) (compute_sha256 (rq_payload req))) db1 = Ok (1, db2) ∧
  insert_lifecycle eid (new_lifecycle req now) db2 = Ok (1, db3) ∧
  insert_dedup eid (rq_request_fingerprint req) db3 = Ok (1, db4).
Proof.
  intros Hr Hn js ss eid db0 db1 db2 db3 db4.
  assert (Hdom : ∀ V (t : gmap string V), dom t = list_to_set (event_ids log) → t !! eid = None).
  { intros V t Ht. apply not_elem_of_dom. rewrite Ht. set_solver. }
  repeat split.
  - unfold insert_envelope, insert_new. simpl.
    rewrite (rep_envelopes_at _ _ _ Hr) by lia.
    by rewrite (Hdom _ _ (rep_env_dom _ _ Hr)).
  - unfold insert_payload, insert_new, references_envelope. simpl. rewrite lookup_insert_eq.
    by rewrite (Hdom _ _ (rep_payload_dom _ _ Hr)).
  - unfold insert_lifecycle, insert_new, references_envelope. simpl. rewrite lookup_insert_eq.
    by rewrite (Hdom _ _ (rep_life_dom _ _ Hr)).
  - unfold insert_dedup, insert_new, references_envelope. simpl. rewrite lookup_insert_eq.
    by rewrite (Hdom _ _ (rep_dedup_dom _ _ Hr)).
Qed.

Lemma accept_post_fault now db log req r s' :
  faulty E → accept_failure r → s_base s' = db → accept_post now db log req r (s_base s').
Proof. intros. by right. Qed.

(** The rest of a call after a fault: nothing is committed. *)
Ltac fault_branch :=
  repeat wp_step; apply accept_post_fault; [assumption|exact I|simpl; congruence].

Lemma wp_accept_insert req now log db s :
  represents db log → s_work s = db → s_base s = db → req_typed req →
  length log < i64_max → rq_event_id req ∉ event_ids log →
  (∀ r0, last_of_producer (producer_key req) log = Some r0 →
     rq_producer_operation_sequence r0 < rq_producer_operation_sequence req) →
  wp (accept_insert req now) (λ r s', accept_post now db log req r (s_base s')) s.
Proof.
  intros Hr <- Hb Ht Hlen Hn Hp. unfold accept_insert, allocate_journal_sequence.
  do 2 apply wp_bind. wp_step; [fault_branch|].
  rewrite (rep_next_js _ _ Hr Hlen). apply wp_ret. unfold allocate_stream_sequence.
  do 2 apply wp_bind. wp_step; [fault_branch|]. simpl. rewrite (rep_head _ _ Hr).
  pose proof (stream_count_le (scoped_stream_key req) log).
  rewrite i64_add_id by rlia.
  apply wp_bind. wp_step; [fault_branch|]. simpl. apply wp_ret.
  destruct (insert_rows_ok _ _ _ now Hr Hn) as (Hi1 & Hi2 & Hi3 & Hi4).
  apply wp_bind. wp_step; [fault_branch|]. simpl. rewrite Hi1. simpl.
  apply wp_bind. wp_step; [fault_branch|]. simpl. rewrite Hi2. simpl.
  apply wp_bind. wp_step; [fault_branch|]. simpl. rewrite Hi3. simpl.
  apply wp_bind. wp_step; [fault_branch|]. simpl. rewrite Hi4. simpl.
  apply wp_bind. wp_step; [fault_branch|]. simpl.
  apply wp_bind, wp_record_attempt. intros s1 Hw1 Hb1. simpl in Hw1, Hb1.
  apply wp_bind. wp_step; [fault_branch|]. apply wp_ret. left.
  eexists _, (log ++ [req]). split; [done|]. split; [by apply as_accepted|].
  simpl. split; [rewrite <- Hw1; by apply (represents_snoc _ _ _ now Hr)|].
  destruct Hw1 as [_ _ Hlc _ _ _ Hd _]. by split; symmetry.
Qed.

Lemma wp_accept_new req now log db s :
  represents db log → s_work s = db → s_base s = db → req_typed req →
  length log < i64_max → rq_event_id req ∉ event_ids log →
  wp (accept_new req now) (λ r s', accept_post now db log req r (s_base s')) s.
Proof.
  intros Hr <- Hb Ht Hlen Hn. unfold accept_new, check_producer_sequence.
  do 2 apply wp_bind. wp_step; [fault_branch|].
  rewrite (rep_producer _ _ Hr). apply wp_ret.
  destruct (last_of_producer (producer_key req) log) as [r0|] eqn:Hlast; simpl.
  2: { apply (wp_accept_insert _ _ log); auto. intros r0 Hr0. congruence. }
  destruct (Z.leb_spec (rq_producer_operation_sequence req)
                       (rq_producer_operation_sequence r0)) as [Hle|Hgt]; simpl.
  2: { apply (wp_accept_insert _ _ log); auto. intros r1 Hr1. by simplify_eq. }
  rewrite bool_decide_eq_false_2.
  2: { apply (not_new_id log); [by eapply last_of_producer_elem|done]. }
  simpl. apply wp_bind, wp_record_attempt. intros s1 Hw1 Hb1. simpl in *.
  repeat wp_step; (apply accept_post_same; [done|by apply (as_sequence _ _ _ r0)|done|]);
    simpl; [by rewrite Hb1, Hb|by rewrite <- Hw1].
Qed.

Lemma wp_accept_tx req now log db :
  represents db log → req_typed req → length log < i64_max →
  wp (accept_tx req now) (λ r s', accept_post now db log req r (s_base s')) (mkSess db db 0).
Proof.
  intros Hr Ht Hlen. unfold accept_tx, check_dedup.
  apply wp_bind. wp_step; [fault_branch|]. simpl.
  do 2 apply wp_bind. wp_step; [fault_branch|]. apply wp_ret. simpl.
  destruct (decide (rq_event_id req ∈ event_ids log)) as [Hin|Hn].
  - apply list_elem_of_fmap in Hin as (r0 & Hid & [i Hi]%list_elem_of_lookup).
    rewrite Hid, (rep_dedup _ _ Hr r0) by (by eapply list_elem_of_lookup_2).
    case_decide as Hfp.
    + apply wp_bind. eapply wp_mono.
      { apply (wp_accept_duplicate req now log i r0); by simpl. }
      intros r s' Hpost. apply wp_ret, Hpost.
    + apply wp_bind, wp_record_attempt. intros s1 Hw1 Hb1. simpl in *.
      repeat wp_step; (apply accept_post_same; [done| |done|]);
        try (rewrite <- Hid; apply (as_conflict _ _ _ r0); [by eapply list_elem_of_lookup_2|done..]);
        simpl; [by rewrite Hb1|by rewrite <- Hw1].
  - replace (dedup_fingerprint db !! rq_event_id req) with (@None (list byte)).
    2: { symmetry. apply not_elem_of_dom. rewrite (rep_dedup_dom _ _ Hr). set_solver. }
    by apply (wp_accept_new req now log).
Qed.
End Log.

(** ** Acceptance refines the log *)

(** The checks [accept] makes before it touches the database. *)
Definition admissible (j : LocalJournal) (disk_safe : bool) (req : AcceptRequest) : Prop :=
  is_shutdown j = false ∧ disk_safe = true ∧ j_poisoned j = false ∧
  length (rq_payload req) ≤ max_payload_bytes (j_config j) ∧
  rq_event_id req ≠ "" ∧ rq_installation_id req ≠ "".

Lemma accept_admissible `{Sha256} `{Engine} j disk_safe now req :
  admissible j disk_safe req →
  accept j disk_safe now req =
  ((run_tx (accept_tx req now) (j_conn j)).1,
   unlocked j (run_tx (accept_tx req now) (j_conn j)).1 (run_tx (accept_tx req now) (j_conn j)).2).
Proof.
  intros (Hs & -> & Hpo & Hp & Hid & Hinst). unfold accept. rewrite Hs, Hpo. simpl.
  destruct (Z.ltb_spec (max_payload_bytes (j_config j)) (length (rq_payload req))); [lia|].
  destruct (str_is_empty (rq_event_id req)) eqn:Hq1; [by apply str_is_empty_true in Hq1|].
  destruct (str_is_empty (rq_installation_id req)) eqn:Hq2; [by apply str_is_empty_true in Hq2|].
  simpl. by destruct (run_tx (accept_tx req now) (j_conn j)).
Qed.

Lemma accept_cases `{Sha256} `{Engine} j disk_safe now req :
  admissible j disk_safe req ∨
  ((accept j disk_safe now req).2 = j ∧ ∀ ev, (accept j disk_safe now req).1 ≠ Some (Accepted ev)).
Proof.
  unfold accept. destruct (is_shutdown j) eqn:Hs; [by right|].
  destruct disk_safe; simpl; [|by right].
  destruct (Z.ltb_spec (max_payload_bytes (j_config j)) (length (rq_payload req))); [by right|].
  destruct (str_is_empty (rq_event_id req)) eqn:Hq1; simpl; [by right|].
  destruct (str_is_empty (rq_installation_id req)) eqn:Hq2; [by right|].
  destruct (j_poisoned j) eqn:Hpo; [by right|].
  left. repeat split; auto; intros He; by rewrite He in *.
Qed.

Lemma accept_post_run `{Sha256} `{!Sha256Ok} `{E : Engine} db log req now :
  represents db log → req_typed req → length log < i64_max →
  accept_post now db log req (run_tx (accept_tx req now) db).1 (run_tx (accept_tx req now) db).2.
Proof.
  intros Hr Ht Hl. apply (wp_run_tx _ (λ r db', accept_post now db log req r db')).
  by apply wp_accept_tx.
Qed.

(** Sample data for the witnesses. *)
Definition sample_request (eid : string) (seq : Z) : AcceptRequest :=
  mkAcceptRequest "inst-a" eid "producer-a" "instance-1" seq "economy" "account"
    "player-1" "transfer" 1 (bytes_of "test-payload")
    (@sha256 sample_sha256 (bytes_of "test-payload")) 1.

Definition sample_journal : LocalJournal := mkJournal empty_db default_config false false.

Lemma sample_reliable : reliable sample_engine.
Proof. done. Qed.

(** The event is in the journal exactly if the call answered so. *)
Lemma accept_outcome (S : Sha256) (E : Engine) (j : LocalJournal) (disk_safe : bool)
    (now : Z) (req : AcceptRequest) (log : list AcceptRequest) :
  @Sha256Ok S → represents (j_conn j) log → req_typed req → length log < i64_max →
  let r := (accept j disk_safe now req).1 in
  let db' := j_conn (accept j disk_safe now req).2 in
  ((∃ ev, r = Some (Accepted ev)) ∧ rq_event_id req ∉ event_ids log ∧
     represents db' (log ++ [req])) ∨
  ((∀ ev, r ≠ Some (Accepted ev)) ∧ represents db' log).
Proof.
  intros HS Hr Ht Hl r db'. unfold r, db'.
  destruct (accept_cases j disk_safe now req) as [Ha|[-> Hno]].
  2: { by right. }
  rewrite accept_admissible by done. simpl.
  destruct (accept_post_run (j_conn j) log req now Hr Ht Hl)
    as [(res & log' & -> & Hspec & Hrep & _)|(_ & Hfail & ->)].
  - destruct Hspec; [left|right..]; eauto.
  - right. split; [|done]. intros ev Hev. by rewrite Hev in Hfail.
Qed.

(** ** The specification of acceptance

    Section 20 of the master plan: an event is named by its installation and its
    identifier.  The same request again gets the latest status, a different one
    under the same name is a conflict. *)
Definition same_event (r req : AcceptRequest) : Prop :=
  rq_installation_id r = rq_installation_id req ∧ rq_event_id r = rq_event_id req.

Definition status_of (text : string) : option DeliveryStatus :=
  if decide (text = "LOCAL_ACCEPTED") then Some LocalAccepted
  else if decide (text = "DELIVERY_PENDING") then Some DeliveryPending
  else if decide (text = "DELIVERY_RETRYING") then Some DeliveryRetrying
  else if decide (text = "REPLICATED") then Some Replicated
  else if decide (text = "DELIVERY_BLOCKED") then Some DeliveryBlocked
  else None.

(** The latest revision and status of an event. *)
Definition latest_state (db : Db) (eid : string) : option (Z * DeliveryStatus) :=
  l ← lifecycle_state db !! eid; st ← status_of (l_delivery_status l); Some (l_revision l, st).

Inductive accept_spec `{Sha256} (latest : string → option (Z * DeliveryStatus))
    (log : list AcceptRequest) (req : AcceptRequest) : AcceptResult → list AcceptRequest → Prop :=
| spec_accepted :
    Forall (λ r, ¬ same_event r req) log →
    (∀ r0, last_of_producer (producer_key req) log = Some r0 →
       rq_producer_operation_sequence r0 < rq_producer_operation_sequence req) →
    let js := length log + 1 in
    let ss := stream_count (scoped_stream_key req) log + 1 in
    accept_spec latest log req
      (Accepted (mkAccepted (rq_event_id req) js ss 1
         (e_envelope_checksum (new_envelope req js ss 0)) LocalAccepted))
      (log ++ [req])
| spec_duplicate (i : nat) r0 revision status :
    log !! i = Some r0 → same_event r0 req →
    rq_request_fingerprint r0 = rq_request_fingerprint req →
    latest (rq_event_id req) = Some (revision, status) →
    let js := i + 1 in
    let ss := stream_pos log i r0 in
    accept_spec latest log req
      (ExistingDuplicate (mkAccepted (rq_event_id req) js ss revision
         (e_envelope_checksum (new_envelope r0 js ss 0)) status)) log
| spec_conflict r0 :
    r0 ∈ log → same_event r0 req → rq_request_fingerprint r0 ≠ rq_request_fingerprint req →
    accept_spec latest log req (FingerprintConflict (rq_event_id req)) log
| spec_sequence r0 :
    Forall (λ r, ¬ same_event r req) log →
    last_of_producer (producer_key req) log = Some r0 →
    rq_producer_operation_sequence req ≤ rq_producer_operation_sequence r0 →
    accept_spec latest log req
      (SequenceConflict (sequence_conflict_detail (rq_producer_operation_sequence req)
         (rq_producer_operation_sequence r0) (rq_event_id r0))) log.

(** No other installation used the identifier: a journal belongs to one
    installation. *)
Definition identifier_unshared (log : list AcceptRequest) (req : AcceptRequest) : Prop :=
  Forall (λ r, rq_event_id r = rq_event_id req → rq_installation_id r = rq_installation_id req) log.

(** The event is neither being retried nor replicated. *)
Definition status_answerable (db : Db) (eid : string) : Prop :=
  ∀ l, lifecycle_state db !! eid = Some l →
    l_delivery_status l ∈ ["LOCAL_ACCEPTED"; "DELIVERY_PENDING"; "DELIVERY_BLOCKED"].

Lemma duplicate_status_latest text :
  text ∈ ["LOCAL_ACCEPTED"; "DELIVERY_PENDING"; "DELIVERY_BLOCKED"] →
  status_of text = Some (duplicate_delivery_status text).
Proof. intros [->|[->|[->|?%not_elem_of_nil]%elem_of_cons]%elem_of_cons]%elem_of_cons; done. Qed.

Lemma unknown_id_new log req : rq_event_id req ∉ event_ids log → Forall (λ r, ¬ same_event r req) log.
Proof.
  intros Hn. apply Forall_forall. intros r Hr [_ Hid]. apply Hn. rewrite <- Hid. by apply list_elem_of_fmap_2.
Qed.

Lemma accepts_as_spec `{Sha256} db log req res log' :
  accepts_as db log req res log' → identifier_unshared log req → status_answerable db (rq_event_id req) →
  accept_spec (latest_state db) log req res log'.
Proof.
  intros Has Hun Hst. unfold identifier_unshared in Hun. rewrite Forall_forall in Hun.
  destruct Has as [Hn Hp js ss|i r0 l Hi Hid Hfp Hl js ss|r0 Hr Hid Hfp|r0 Hn Hp Hle].
  - apply spec_accepted; [by apply unknown_id_new|done].
  - apply (spec_duplicate _ _ _ i r0); try done.
    + split; [|done]. apply Hun; [by eapply list_elem_of_lookup_2|done].
    + unfold latest_state. rewrite Hl. simpl. by rewrite duplicate_status_latest by by apply Hst.
  - apply (spec_conflict _ _ _ r0); [done|split; [by apply Hun|done]|done].
  - apply (spec_sequence _ _ _ r0); [by apply unknown_id_new|done..].
Qed.

(** C3. Acceptance implements the specification of section 20 of the plan.  Let
    the database represent a log, the store not fail, the request be admissible,
    its identifier not be used by another installation, and the event, if it was
    accepted before, be neither retrying nor replicated.  Then the request is
    answered exactly as the specification says -- accepted with journal sequence
    [length log + 1] and the next sequence of its stream, recognised as a
    duplicate with its original sequences and its latest revision and status,
    refused for a different fingerprint, or refused for a producer sequence that
    does not advance -- and the new database represents the log of the
    specification. *)
Theorem accept_refines_log (S : Sha256) (E : Engine) (j : LocalJournal) (disk_safe : bool)
    (now : Z) (req : AcceptRequest) (log : list AcceptRequest) :
  @Sha256Ok S → reliable E → represents (j_conn j) log →
  req_typed req → length log < i64_max → admissible j disk_safe req →
  identifier_unshared log req → status_answerable (j_conn j) (rq_event_id req) →
  ∃ res log',
    (accept j disk_safe now req).1 = Some res ∧
    accept_spec (latest_state (j_conn j)) log req res log' ∧
    represents (j_conn (accept j disk_safe now req).2) log'.
Proof.
  intros HS HE Hr Ht Hl Ha Hun Hst. rewrite accept_admissible by done. simpl.
  destruct (accept_post_run (j_conn j) log req now Hr Ht Hl)
    as [(res & log' & Hres & Has & Hrep & _)|(Hf & _ & _)].
  - exists res, log'. split; [done|]. split; [by apply accepts_as_spec|done].
  - by apply reliable_not_faulty in HE.
Qed.

(** The same request twice. *)
Definition once_accepted : LocalJournal :=
  (@accept sample_sha256 sample_engine sample_journal true 7 (sample_request "e1" 1)).2.

Lemma once_accepted_represents :
  @represents sample_sha256 (j_conn once_accepted) [sample_request "e1" 1].
Proof.
  destruct (accept_outcome sample_sha256 sample_engine sample_journal true 7 (sample_request "e1" 1) []
    sample_sha256_ok (@represents_empty sample_sha256 sample_sha256_ok) eq_refl eq_refl)
    as [(_ & _ & Hr)|[Hno _]]; [exact Hr|].
  destruct (@accept sample_sha256 sample_engine sample_journal true 7 (sample_request "e1" 1)).1
    as [[ev| | | | | | |]|] eqn:Ha; try (vm_compute in Ha; discriminate Ha). by destruct (Hno ev).
Qed.

Lemma accept_refines_log_witness :
  ∃ res log',
    (@accept sample_sha256 sample_engine once_accepted true 8 (sample_request "e1" 1)).1 = Some res ∧
    @accept_spec sample_sha256 (latest_state (j_conn once_accepted)) [sample_request "e1" 1]
      (sample_request "e1" 1) res log' ∧
    @represents sample_sha256 (j_conn (@accept sample_sha256 sample_engine once_accepted true 8
                                         (sample_request "e1" 1)).2) log'.
Proof.
  apply (accept_refines_log sample_sha256 sample_engine once_accepted true 8
           (sample_request "e1" 1) [sample_request "e1" 1]).
  - exact sample_sha256_ok.
  - exact sample_reliable.
  - exact once_accepted_represents.
  - reflexivity.
  - reflexivity.
  - repeat split; done.
  - repeat constructor.
  - intros l Hl. vm_compute in Hl. injection Hl as <-. left.
Defined.

(** C4. Acceptance is atomic whatever fails.  For every engine -- any statement
    may fail at any point, and the call may panic -- and every request, the
    event is in the journal after the call if and only if the call answered
    [Accepted]: then the database represents the log with the request appended,
    and in every other case it still represents the old log. *)
Theorem accept_atomic (S : Sha256) (E : Engine) (j : LocalJournal) (disk_safe : bool)
    (now : Z) (req : AcceptRequest) (log : list AcceptRequest) :
  @Sha256Ok S → represents (j_conn j) log → req_typed req → length log < i64_max →
  let r := (accept j disk_safe now req).1 in
  let db' := j_conn (accept j disk_safe now req).2 in
  ((∃ ev, r = Some (Accepted ev)) ∧ rq_event_id req ∉ event_ids log ∧
     represents db' (log ++ [req])) ∨
  ((∀ ev, r ≠ Some (Accepted ev)) ∧ represents db' log).
Proof. apply accept_outcome. Qed.

(** An engine that fails at one statement: here the commit. *)
Definition failing_engine (n : nat) : Engine := {|
  sql_fault := λ k, if (k =? n)%nat then Some "database or disk is full" else None;
  sql_constraint := λ c, c
|}.

Lemma accept_atomic_witness :
  let r := (@accept sample_sha256 (failing_engine 13) sample_journal true 7 (sample_request "e1" 1)).1 in
  let db' := j_conn (@accept sample_sha256 (failing_engine 13) sample_journal true 7
                       (sample_request "e1" 1)).2 in
  ((∃ ev, r = Some (Accepted ev)) ∧ rq_event_id (sample_request "e1" 1) ∉ event_ids [] ∧
     @represents sample_sha256 db' ([] ++ [sample_request "e1" 1])) ∨
  ((∀ ev, r ≠ Some (Accepted ev)) ∧ @represents sample_sha256 db' []).
Proof.
  apply (accept_atomic sample_sha256 (failing_engine 13) sample_journal true 7
           (sample_request "e1" 1) []).
  - exact sample_sha256_ok.
  - exact (@represents_empty sample_sha256 sample_sha256_ok).
  - reflexivity.
  - reflexivity.
Defined.
