(* ===== verification/JournalReads.v ===== *)
(** * Reading back what was accepted

    Round trips of the journal: an accepted event can be looked up and its
    payload read with every checksum verified, a repeated request is recognised,
    and the sequences of the journal and of every stream are dense. *)
From S2P Require Import Prelude Checksum JournalDb JournalCore JournalAccept SqlLogic.
From S2P Require Import JournalLog.
Open Scope Z_scope.
#[local] Coercion Z.of_nat : nat >-> Z.

Section Reads.
Context `{Sha256} `{!Sha256Ok} `{E : Engine}.

(** A read of a database that represents a log, on a store that does not
    fail. *)
Lemma represented_status db log (i : nat) r :
  reliable E → represents db log → log !! i = Some r →
  ∃ now l, lifecycle_state db !! rq_event_id r = Some l ∧
    get_status (rq_event_id r) db =
    StatusFound (status_of_rows (rq_event_id r)
      (new_envelope r (i + 1) (stream_pos log i r) now) l).
Proof.
  intros HE Hr Hi. destruct (rep_lookup _ _ _ _ Hr Hi) as (now & l & He & Hl & Hok & Ht).
  exists now, l. split; [done|]. unfold get_status.
  apply (wp_run_auto _ (λ res _, res = _)).
  apply (wp_get_status_ok _ _ _ _ (mkSess db db 0) He Hl);
    [by apply new_envelope_ok|done|..]; [|done].
  intros d s' Hf. by apply reliable_not_faulty in HE.
Qed.

Lemma represented_payload db log r :
  reliable E → represents db log → r ∈ log →
  read_verified_payload (rq_event_id r) db = PayloadFound (rq_payload r).
Proof.
  intros HE Hr Hin. apply list_elem_of_lookup in Hin as Hin'. destruct Hin' as [i Hi].
  destruct (rep_env _ _ Hr i r Hi) as [now He].
  pose proof (rep_payload _ _ Hr r Hin) as Hp. apply reliable_not_faulty in HE.
  unfold read_verified_payload. apply (wp_run_auto _ (λ res _, res = _)).
  unfold read_verified_payload_impl. apply wp_bind, wp_query; [done|].
  simpl. rewrite He. simpl. rewrite (sha256_length (rq_payload r)). simpl.
  apply wp_bind, wp_query; [done|].
  unfold payload_row. simpl. rewrite Hp. simpl. rewrite (sha256_length (rq_payload r)). simpl.
  unfold compute_sha256. rewrite !bool_decide_eq_true_2 by done. by apply wp_ret.
Qed.

Lemma represented_by_sequence db log (i : nat) r :
  reliable E → represents db log → log !! i = Some r →
  get_status_by_journal_seq (i + 1) db = get_status (rq_event_id r) db.
Proof.
  intros HE Hr Hi. destruct (rep_env _ _ Hr i r Hi) as [now He].
  destruct (represented_status _ _ _ _ HE Hr Hi) as (now' & l & Hl & Hst).
  rewrite Hst. destruct (rep_lookup _ _ _ _ Hr Hi) as (now'' & l' & He' & Hl' & Hok & Ht).
  assert (Hat : envelopes_at (i + 1) (stored_envelope db) = [rq_event_id r]).
  { unfold envelopes_at.
    set (f := filter _ (map_to_list (stored_envelope db))).
    assert (Hf : ∀ p, p ∈ f ↔ p = (rq_event_id r, new_envelope r (i + 1) (stream_pos log i r) now)).
    { intros [eid e]. unfold f. rewrite list_elem_of_filter, elem_of_map_to_list. simpl. split.
      - intros [Hj He1]. destruct (rep_env_inv _ _ _ _ Hr He1) as (i' & r' & n' & Hi' & <- & ->).
        simpl in Hj. assert (i' = i) as -> by lia.
        assert (r' = r) as -> by congruence. congruence.
      - intros [= -> ->]. done. }
    assert (Hnd : NoDup f) by (apply NoDup_filter, NoDup_map_to_list).
    destruct f as [|p [|q f']].
    - exfalso. by apply (not_elem_of_nil (A := string * EnvelopeRow) (rq_event_id r,
        new_envelope r (i + 1) (stream_pos log i r) now)), Hf.
    - assert (Hp : p ∈ [p]) by by left. apply Hf in Hp as ->. done.
    - exfalso. assert (Hp : p ∈ p :: q :: f') by by left.
      assert (Hq : q ∈ p :: q :: f') by by right; left.
      apply Hf in Hp as ->. apply Hf in Hq as ->.
      apply NoDup_cons_1_1 in Hnd. apply Hnd. by left. }
  unfold get_status_by_journal_seq. apply (wp_run_auto _ (λ res _, res = _)).
  apply reliable_not_faulty in HE.
  apply wp_bind, wp_query; [done|]. simpl. rewrite Hat. simpl.
  apply (wp_get_status_ok _ _ l _ (tick (mkSess db db 0)) He Hl);
    [by apply new_envelope_ok|by apply (rep_life _ _ Hr)|done|done].
Qed.
End Reads.

(** ** Round trips *)

(** What an accepted call leaves behind. *)
Lemma accepted_inv `{Sha256} `{!Sha256Ok} `{E : Engine} j disk_safe now req log ev :
  represents (j_conn j) log → req_typed req → length log < i64_max →
  (accept j disk_safe now req).1 = Some (Accepted ev) →
  let db' := j_conn (accept j disk_safe now req).2 in
  let ss := stream_count (scoped_stream_key req) log + 1 in
  admissible j disk_safe req ∧
  ev = mkAccepted (rq_event_id req) (length log + 1) ss 1
         (e_envelope_checksum (new_envelope req (length log + 1) ss 0)) LocalAccepted ∧
  represents db' (log ++ [req]) ∧
  lifecycle_state db' !! rq_event_id req = Some (new_lifecycle req now) ∧
  (accept j disk_safe now req).2 = set_conn j db'.
Proof.
  intros Hr Ht Hl Hacc.
  destruct (accept_cases j disk_safe now req) as [Ha|[_ Hno]]; [|by destruct (Hno ev)].
  assert (Hpo : j_poisoned j = false) by apply Ha.
  rewrite accept_admissible in * by done. simpl in *.
  destruct (accept_post_run (j_conn j) log req now Hr Ht Hl)
    as [(res & log' & Hres & Hspec & Hrep & _ & Hlc)|(_ & Hfail & _)].
  2: { by rewrite Hacc in Hfail. }
  rewrite Hacc in Hres. injection Hres as <-. simpl in Hlc.
  assert (Hlk := lookup_insert_eq (lifecycle_state (j_conn j)) (rq_event_id req)
                   (new_lifecycle req now)).
  rewrite <- Hlc in Hlk. rewrite Hacc. unfold unlocked, set_conn. rewrite Hpo. by inversion Hspec; subst.
Qed.

(** The position of a snoc'ed request in its log. *)
Lemma lookup_snoc (log : list AcceptRequest) r : (log ++ [r]) !! length log = Some r.
Proof. rewrite lookup_app_r by done. by rewrite Nat.sub_diag. Qed.

(** C20. What was accepted can be read back.  After [accept] answered
    [Accepted], under whatever engine, a working store answers a status lookup
    by event id and by journal sequence with the sequences and the envelope
    checksum of the receipt, lifecycle revision 1, [LOCAL_ACCEPTED] and
    [PRESENT], and returns the payload of the request, all checksums verified. *)
Theorem accept_then_read (S : Sha256) (E E' : Engine) (j : LocalJournal) (disk_safe : bool)
    (now : Z) (req : AcceptRequest) (log : list AcceptRequest) (ev : AcceptedEvent) :
  @Sha256Ok S → represents (j_conn j) log → req_typed req → length log < i64_max →
  (@accept S E j disk_safe now req).1 = Some (Accepted ev) → reliable E' →
  let db' := j_conn (@accept S E j disk_safe now req).2 in
  let status := StatusFound (mkStatus (rq_event_id req) (ae_journal_sequence ev)
     (ae_stream_sequence ev) 1
     (compute_lifecycle_checksum (rq_event_id req) 1 "LOCAL_ACCEPTED" "PRESENT")
     "LOCAL_ACCEPTED" "PRESENT" (sha256 (rq_payload req)) (ae_envelope_checksum ev)) in
  @get_status S E' (rq_event_id req) db' = status ∧
  @get_status_by_journal_seq S E' (ae_journal_sequence ev) db' = status ∧
  @read_verified_payload S E' (rq_event_id req) db' = PayloadFound (rq_payload req).
Proof.
  intros HS Hr Ht Hl Hacc HE db' status.
  destruct (accepted_inv _ _ _ _ _ _ Hr Ht Hl Hacc) as (_ & -> & Hrep & Hlc & _).
  fold db' in Hrep, Hlc. pose proof (lookup_snoc log req) as Hi.
  destruct (represented_status (E := E') _ _ _ _ HE Hrep Hi) as (t & l & Hl' & Hst).
  rewrite Hlc in Hl'. injection Hl' as <-. rewrite stream_pos_last in Hst.
  split; [exact Hst|]. split.
  - simpl. by rewrite (represented_by_sequence (E := E') _ _ _ _ HE Hrep Hi).
  - apply (represented_payload (E := E') _ (log ++ [req])); [done..|].
    by eapply list_elem_of_lookup_2.
Qed.

Lemma accept_then_read_witness :
  let db' := j_conn (@accept sample_sha256 sample_engine sample_journal true 7 (sample_request "e1" 1)).2 in
  @read_verified_payload sample_sha256 sample_engine "e1" db' = PayloadFound (bytes_of "test-payload").
Proof.
  refine (proj2 (proj2 (accept_then_read sample_sha256 sample_engine sample_engine
    sample_journal true 7 (sample_request "e1" 1) [] _ _ _ _ _ _ _))).
  - exact sample_sha256_ok.
  - exact (@represents_empty sample_sha256 sample_sha256_ok).
  - reflexivity.
  - reflexivity.
  - vm_compute. reflexivity.
  - exact sample_reliable.
Defined.

Lemma event_id_index log (i k : nat) r r' :
  NoDup (event_ids log) → log !! i = Some r → log !! k = Some r' →
  rq_event_id r = rq_event_id r' → i = k.
Proof.
  intros Hnd Hi Hk Heq. apply (NoDup_lookup (event_ids log) i k (rq_event_id r) Hnd).
  - unfold event_ids. by rewrite list_lookup_fmap, Hi.
  - unfold event_ids. by rewrite list_lookup_fmap, Hk, Heq.
Qed.

(** Acceptance is idempotent: repeating an accepted request -- after a lost
    answer, say -- yields [ExistingDuplicate] with the very receipt of the first
    call, and the journal still holds the event once. *)
Theorem accept_idempotent (S : Sha256) (E E' : Engine) (j : LocalJournal)
    (disk_safe : bool) (now now' : Z) (req : AcceptRequest) (log : list AcceptRequest)
    (ev : AcceptedEvent) :
  @Sha256Ok S → represents (j_conn j) log → req_typed req → length log + 1 < i64_max →
  (@accept S E j disk_safe now req).1 = Some (Accepted ev) → reliable E' →
  let j' := (@accept S E j disk_safe now req).2 in
  (@accept S E' j' true now' req).1 = Some (ExistingDuplicate ev) ∧
  represents (j_conn (@accept S E' j' true now' req).2) (log ++ [req]).
Proof.
  intros HS Hr Ht Hl Hacc HE j'.
  destruct (accepted_inv _ _ _ _ _ _ Hr Ht ltac:(lia) Hacc) as (Ha & -> & Hrep & Hlc & Hj).
  fold j' in Hrep, Hlc, Hj.
  assert (Ha' : admissible j' true req).
  { destruct Ha as (Hs & _ & Hpo & Hp & Hid & Hin). unfold admissible, is_shutdown.
    rewrite Hj. by repeat split. }
  rewrite !accept_admissible by done. simpl.
  destruct (accept_post_run (E := E') (j_conn j') (log ++ [req]) req now' Hrep Ht
              ltac:(rewrite length_app; simpl; lia))
    as [(res & log' & -> & Hspec & Hrep' & _)|(Hf & _ & _)];
    [|by apply reliable_not_faulty in HE].
  assert (Hin : rq_event_id req ∈ event_ids (log ++ [req])) by (rewrite event_ids_snoc; set_solver).
  destruct Hspec as [Hn _|i r0 l Hi Hid Hfp Hl'|r0 Hin0 Hid Hfp|r0 Hn _ _].
  - done.
  - assert (i = length log) as -> by
      (apply (event_id_index (log ++ [req]) _ _ r0 req (rep_nodup _ _ Hrep)); auto using lookup_snoc).
    rewrite lookup_snoc in Hi. injection Hi as <-. rewrite Hlc in Hl'. injection Hl' as <-.
    unfold ss, js. by rewrite stream_pos_last.
  - exfalso. apply Hfp. apply list_elem_of_lookup in Hin0 as [i Hi].
    assert (i = length log) as -> by
      (apply (event_id_index (log ++ [req]) _ _ r0 req (rep_nodup _ _ Hrep)); auto using lookup_snoc).
    rewrite lookup_snoc in Hi. by injection Hi as <-.
  - done.
Qed.

Lemma accept_idempotent_witness :
  let j' := (@accept sample_sha256 sample_engine sample_journal true 7 (sample_request "e1" 1)).2 in
  ∃ ev, (@accept sample_sha256 sample_engine j' true 8 (sample_request "e1" 1)).1
        = Some (ExistingDuplicate ev).
Proof.
  eexists. refine (proj1 (accept_idempotent sample_sha256 sample_engine sample_engine
    sample_journal true 7 8 (sample_request "e1" 1) [] _ _ _ _ _ _ _)).
  - exact sample_sha256_ok.
  - exact (@represents_empty sample_sha256 sample_sha256_ok).
  - reflexivity.
  - reflexivity.
  - vm_compute. reflexivity.
  - exact sample_reliable.
Defined.

(** ** Dense sequences *)
Lemma stream_count_take_mono k log (i j : nat) :
  (i ≤ j)%nat → stream_count k (take i log) ≤ stream_count k (take j log).
Proof.
  intros Hij. rewrite <- (take_drop i (take j log)), take_take, Nat.min_l by done.
  unfold stream_count, in_stream. rewrite filter_app, length_app. lia.
Qed.

(** Within a stream the positions grow with the journal. *)
Lemma stream_pos_mono log (i j : nat) ri rj :
  log !! i = Some ri → log !! j = Some rj → scoped_stream_key ri = scoped_stream_key rj →
  (i < j)%nat → stream_pos log i ri < stream_pos log j rj.
Proof.
  intros Hi Hj Hk Hij. unfold stream_pos. rewrite Hk.
  rewrite (take_S_r log j rj Hj), stream_count_snoc, decide_True by done.
  pose proof (stream_count_take_mono (scoped_stream_key rj) log (S i) j ltac:(lia)). lia.
Qed.

Lemma stream_pos_bounds log (i : nat) r :
  log !! i = Some r → 1 ≤ stream_pos log i r ≤ stream_count (scoped_stream_key r) log.
Proof.
  intros Hi. unfold stream_pos. split.
  - rewrite (take_S_r log i r Hi), stream_count_snoc, decide_True by done.
    pose proof (stream_count_le (scoped_stream_key r) (take i log)). lia.
  - pose proof (stream_count_take_mono (scoped_stream_key r) log (S i) (length log)) as Hm.
    rewrite (take_ge log (length log)) in Hm by done. apply Hm. by eapply lookup_lt_Some.
Qed.

(** Every position of a stream is taken. *)
Lemma stream_pos_exists k log n :
  1 ≤ n ≤ stream_count k log →
  ∃ (i : nat) r, log !! i = Some r ∧ scoped_stream_key r = k ∧ stream_pos log i r = n.
Proof.
  induction log as [|r log IH] using rev_ind; [change (stream_count k []) with 0; lia|].
  rewrite stream_count_snoc. intros Hn. case_decide as Hk.
  2: { destruct IH as (i & r' & Hi & Hk' & Hp); [lia|]. exists i, r'.
       pose proof (lookup_lt_Some _ _ _ Hi).
       by rewrite stream_pos_app, lookup_app_l. }
  destruct (decide (n = stream_count k log + 1)) as [->|Hne].
  - exists (length log), r. rewrite lookup_snoc, stream_pos_last, Hk. done.
  - destruct IH as (i & r' & Hi & Hk' & Hp); [lia|]. exists i, r'.
    pose proof (lookup_lt_Some _ _ _ Hi).
    by rewrite stream_pos_app, lookup_app_l.
Qed.

(** The sequences a status lookup reports for the event of [r]. *)
Definition reported_sequences `{Sha256} `{Engine} (db : Db) (r : AcceptRequest) : option (Z * Z) :=
  match get_status (rq_event_id r) db with
  | StatusFound st => Some (ps_journal_sequence st, ps_stream_sequence st)
  | _ => None
  end.

Lemma reported_sequences_eq `{Sha256} `{!Sha256Ok} `{E : Engine} db log (i : nat) r :
  reliable E → represents db log → log !! i = Some r →
  reported_sequences db r = Some (i + 1, stream_pos log i r).
Proof.
  intros HE Hr Hi. unfold reported_sequences.
  by destruct (represented_status _ _ _ _ HE Hr Hi) as (t & l & _ & ->).
Qed.

(** C21. Sequences are dense.  In a journal that represents a log, the events
    of any one stream carry exactly the stream sequences 1 to the number of its
    events, each once, in the order of their journal sequences; and the journal
    sequences are exactly 1 to the length of the log. *)
Theorem sequences_dense (S : Sha256) (E : Engine) (db : Db) (log : list AcceptRequest) (k : string) :
  @Sha256Ok S → reliable E → represents db log →
  (∀ js, 1 ≤ js ≤ length log ↔ ∃ r ss, r ∈ log ∧ reported_sequences db r = Some (js, ss)) ∧
  (∀ n, 1 ≤ n ≤ stream_count k log ↔
        ∃ r js, r ∈ log ∧ scoped_stream_key r = k ∧ reported_sequences db r = Some (js, n)) ∧
  (∀ r r' js js' n n', r ∈ log → r' ∈ log →
     scoped_stream_key r = k → scoped_stream_key r' = k →
     reported_sequences db r = Some (js, n) → reported_sequences db r' = Some (js', n') →
     (n < n' ↔ js < js') ∧ (n = n' → r = r')).
Proof.
  intros HS HE Hr. split; [|split].
  - intros js. split.
    + intros Hjs. destruct (lookup_lt_is_Some_2 log (Z.to_nat (js - 1))) as [r Hi]; [lia|].
      exists r, (stream_pos log (Z.to_nat (js - 1)) r). split; [by eapply list_elem_of_lookup_2|].
      rewrite (reported_sequences_eq _ _ _ _ HE Hr Hi). do 2 f_equal. lia.
    + intros (r & ss & [i Hi]%list_elem_of_lookup & Hs).
      rewrite (reported_sequences_eq _ _ _ _ HE Hr Hi) in Hs. injection Hs as <- <-.
      apply lookup_lt_Some in Hi. lia.
  - intros n. split.
    + intros (i & r & Hi & Hk & <-)%stream_pos_exists. exists r, (i + 1).
      split; [by eapply list_elem_of_lookup_2|]. split; [done|].
      by apply reported_sequences_eq.
    + intros (r & js & [i Hi]%list_elem_of_lookup & <- & Hs).
      rewrite (reported_sequences_eq _ _ _ _ HE Hr Hi) in Hs. injection Hs as _ <-.
      by apply stream_pos_bounds.
  - intros r r' js js' n n' [i Hi]%list_elem_of_lookup [i' Hi']%list_elem_of_lookup Hk Hk'.
    rewrite (reported_sequences_eq _ _ _ _ HE Hr Hi), (reported_sequences_eq _ _ _ _ HE Hr Hi').
    intros [= <- <-] [= <- <-]. destruct (Nat.lt_total i i') as [Hlt|[<-|Hlt]].
    + pose proof (stream_pos_mono _ _ _ _ _ Hi Hi' ltac:(congruence) Hlt). split; lia.
    + rewrite Hi in Hi'. injection Hi' as <-. split; [lia|done].
    + pose proof (stream_pos_mono _ _ _ _ _ Hi' Hi ltac:(congruence) Hlt). split; lia.
Qed.

(** A database that represents a log of one event. *)
Definition sample_db : Db :=
  @event_db sample_sha256 (sample_request "e1" 1) 1 1 7 empty_db.

Lemma sample_db_represents : @represents sample_sha256 sample_db [sample_request "e1" 1].
Proof.
  apply (@represents_snoc sample_sha256 sample_sha256_ok empty_db [] (sample_request "e1" 1) 7);
    [apply (@represents_empty sample_sha256 sample_sha256_ok)|done|apply not_elem_of_nil].
Qed.

Lemma sequences_dense_witness :
  ∃ r ss, r ∈ [sample_request "e1" 1] ∧
          @reported_sequences sample_sha256 sample_engine sample_db r = Some (1, ss).
Proof.
  refine (proj1 (proj1 (sequences_dense sample_sha256 sample_engine sample_db
                          [sample_request "e1" 1] "k" _ _ _) 1) _).
  - exact sample_sha256_ok.
  - exact sample_reliable.
  - exact sample_db_represents.
  - split; discriminate.
Defined.
