(* ===== verification/JournalDelivery.v ===== *)
(** * Delivery transitions (crates/craftrelay-journal/src/lib.rs)

    The operations that move an event through its delivery after it was
    accepted: the compare-and-swap of the lifecycle row, the creation of the
    delivery row, attempts, confirmation, blocking and retry.  As in the source
    some are transactions and some a single autocommitted statement. *)
From S2P Require Import Prelude Checksum JournalDb JournalCore JournalAccept.
Open Scope Z_scope.

Section Delivery.
Context `{Sha256} `{Engine}.

(** ** Lifecycle compare-and-swap *)
Definition update_lifecycle_body (event_id : string) (expected_revision : Z)
    (new_delivery : LocalDeliveryStatus) (new_retention : LocalRetentionStatus)
    (now_ms : Z) : Sql CasResult :=
  st ← get_status_impl event_id;
  match st with
  | StatusNotFound => mret CasNotFound
  | StatusCorrupted event_id detail => mret (CasCorrupted event_id detail)
  | StatusFound status =>
      if negb (ps_lifecycle_revision status =? expected_revision) then mret StaleRevision
      else
        let new_rev := i64_add expected_revision 1 in
        let ds := local_delivery_as_str new_delivery in
        let rs := local_retention_as_str new_retention in
        let checksum := compute_lifecycle_checksum event_id new_rev ds rs in
        try affected ← execute (update_lifecycle_row event_id expected_revision
                         (λ _, mkLifecycle new_rev checksum ds rs now_ms))
          catch e => mret (CasError e) in
        mret (match affected with
              | 1 => Updated
              | 0 => StaleRevision
              | n => CasError ("lifecycle update affected " +:+ to_string n +:+
                               " rows, expected 1")
              end)
  end.

Definition update_lifecycle (event_id : string) (expected_revision : Z)
    (new_delivery : LocalDeliveryStatus) (new_retention : LocalRetentionStatus)
    (now_ms : Z) (db : Db) : CasResult * Db :=
  run_auto (update_lifecycle_body event_id expected_revision new_delivery new_retention
              now_ms) db.

(** ** Creation of the delivery row *)
Definition pending_record (event_id : string) (routing_fingerprint : Checksum)
    (profile_id : string) (profile_version : Z) (kafka_topic : string)
    (checksum : Checksum) (now_ms : Z) : DeliveryStateRecord :=
  mkDelivery event_id "DELIVERY_PENDING" 0 None None None (Some kafka_topic) None None
    (Some routing_fingerprint) (Some profile_id) (Some profile_version) 1 checksum None
    now_ms now_ms.

Definition create_delivery_pending_body (event_id : string) (routing_fingerprint : Checksum)
    (profile_id : string) (profile_version : Z) (kafka_topic : string) (now_ms : Z)
  : Sql CasResult :=
  try exists_ ← query_row (λ db, stored_envelope db !! event_id)
    catch e => mret (CasError e) in
  match exists_ with
  | None => mret CasNotFound
  | Some _ =>
      let pending := pending_record event_id routing_fingerprint profile_id profile_version
                       kafka_topic (replicate 32 x00) now_ms in
      let checksum := compute_delivery_checksum pending in
      try _ ← execute (insert_delivery event_id
                 (pending_record event_id routing_fingerprint profile_id profile_version
                    kafka_topic checksum now_ms))
        catch e => mret (CasError e) in
      mret Updated
  end.

Definition create_delivery_pending (event_id : string) (routing_fingerprint : Checksum)
    (profile_id : string) (profile_version : Z) (kafka_topic : string) (now_ms : Z)
    (db : Db) : CasResult * Db :=
  run_auto (create_delivery_pending_body event_id routing_fingerprint profile_id
              profile_version kafka_topic now_ms) db.

(** A delivery state that was loaded, or the answer of an operation that could
    not load it. *)
Definition loaded (r : DeliveryStateResult) : result DeliveryStateRecord CasResult :=
  match r with
  | DeliveryFound st => Ok st
  | DeliveryNotFound => Err CasNotFound
  | DeliveryCorrupted event_id detail => Err (CasCorrupted event_id detail)
  | DeliveryError e => Err (CasError e)
  end.

(** ** Attempts *)

(** The state whose checksum [record_delivery_attempt] computes: the counter
    is an [i32]. *)
Definition attempted_state (state : DeliveryStateRecord) (error_code : option string)
    (now_ms : Z) : DeliveryStateRecord :=
  mkDelivery (d_event_id state) (d_delivery_status state) (i32_add (d_attempt_count state) 1)
    (d_next_retry_at_ms state) error_code (d_blocked_reason state) (d_kafka_topic state)
    (d_kafka_partition state) (d_kafka_offset state) (d_routing_fingerprint state)
    (d_profile_id state) (d_profile_version state) (d_delivery_revision state)
    (d_delivery_checksum state) (d_confirmed_at_ms state) (d_created_at_ms state) now_ms.

(** [SET attempt_count = attempt_count + 1, last_error, delivery_checksum,
    updated_at_ms]: the column is a 64-bit integer of the engine. *)
Definition attempted_row (error_code : option string) (checksum : Checksum) (now_ms : Z)
    (row : DeliveryStateRecord) : DeliveryStateRecord :=
  mkDelivery (d_event_id row) (d_delivery_status row) (d_attempt_count row + 1)
    (d_next_retry_at_ms row) error_code (d_blocked_reason row) (d_kafka_topic row)
    (d_kafka_partition row) (d_kafka_offset row) (d_routing_fingerprint row)
    (d_profile_id row) (d_profile_version row) (d_delivery_revision row)
    checksum (d_confirmed_at_ms row) (d_created_at_ms row) now_ms.

Definition record_delivery_attempt_body (attempt : DeliveryAttemptRecord) (now_ms : Z)
  : Sql CasResult :=
  try _ ← begin_tx catch e => mret (CasError e) in
  ds ← load_delivery_state (at_event_id attempt);
  match loaded ds with
  | Err r => mret r
  | Ok state =>
      try _ ← execute (insert_delivery_attempt attempt) catch e => mret (CasError e) in
      try _ ← execute (prune_delivery_attempt (at_event_id attempt) MAX_DELIVERY_ATTEMPTS)
        catch e => mret (CasError e) in
      let state := attempted_state state (at_error_code attempt) now_ms in
      let checksum := compute_delivery_checksum state in
      try affected ← execute (update_delivery (at_event_id attempt) (d_delivery_revision state)
                       (attempted_row (at_error_code attempt) checksum now_ms))
        catch e => mret (CasError e) in
      match affected with
      | 1 => try _ ← commit catch e => mret (CasError e) in mret Updated
      | 0 => mret StaleRevision
      | n => mret (CasError ("delivery attempt state update affected " +:+ to_string n +:+
                             " rows, expected 1"))
      end
  end.

Definition record_delivery_attempt (attempt : DeliveryAttemptRecord) (now_ms : Z) (db : Db)
  : CasResult * Db :=
  run_tx (record_delivery_attempt_body attempt now_ms) db.

(** ** Transitions of both rows *)
Definition load_verified_lifecycle_for_transition (event_id : string)
  : Sql (result PersistedStatus CasResult) :=
  st ← get_status_impl event_id;
  mret (match st with
        | StatusFound status => Ok status
        | StatusNotFound =>
            Err (CasCorrupted event_id "lifecycle state missing for delivery transition")
        | StatusCorrupted event_id detail => Err (CasCorrupted event_id detail)
        end).

Definition update_lifecycle_delivery_status (event_id : string) (current : PersistedStatus)
    (new_delivery_status : string) (now_ms : Z) : Sql CasResult :=
  let new_revision := i64_add (ps_lifecycle_revision current) 1 in
  let checksum := compute_lifecycle_checksum event_id new_revision new_delivery_status
                    (ps_retention_status current) in
  try affected ← execute (update_lifecycle_row event_id (ps_lifecycle_revision current)
                   (λ row, mkLifecycle new_revision checksum new_delivery_status
                             (l_retention_status row) now_ms))
    catch e => mret (CasError e) in
  mret (match affected with
        | 1 => Updated
        | 0 => StaleRevision
        | n => CasError ("lifecycle delivery update affected " +:+ to_string n +:+
                         " rows, expected 1")
        end).

(** ** Confirmation *)
Definition same_confirmation (current : DeliveryStateRecord)
    (c : ReplicatedDeliveryConfirmation) : bool :=
  bool_decide (d_kafka_topic current = Some (c_kafka_topic c)) &&
  bool_decide (d_kafka_partition current = Some (c_kafka_partition c)) &&
  bool_decide (d_kafka_offset current = Some (c_kafka_offset c)) &&
  bool_decide (d_routing_fingerprint current = Some (c_expected_routing_fingerprint c)) &&
  bool_decide (d_profile_id current = Some (c_expected_profile_id c)) &&
  bool_decide (d_profile_version current = Some (c_expected_profile_version c)).

(** The mutated [next] and the columns of the UPDATE are the same. *)
Definition confirmed_state (current : DeliveryStateRecord)
    (c : ReplicatedDeliveryConfirmation) (new_rev : Z) (checksum : Checksum) (now_ms : Z)
  : DeliveryStateRecord :=
  mkDelivery (d_event_id current) "REPLICATED" (d_attempt_count current) None None None
    (Some (c_kafka_topic c)) (Some (c_kafka_partition c)) (Some (c_kafka_offset c))
    (d_routing_fingerprint current) (d_profile_id current) (d_profile_version current)
    new_rev checksum (Some now_ms) (d_created_at_ms current) now_ms.

(** The transition of both rows: the UPDATE of the delivery row, that of the
    lifecycle row, and the commit. *)
Definition transition (event_id : string) (expected_delivery_revision : Z)
    (lifecycle : PersistedStatus) (new_status : string)
    (f : DeliveryStateRecord → DeliveryStateRecord) (now_ms : Z) : Sql CasResult :=
  try affected ← execute (update_delivery event_id expected_delivery_revision f)
    catch e => mret (CasError e) in
  if negb (affected =? 1) then mret StaleRevision
  else
    r ← update_lifecycle_delivery_status event_id lifecycle new_status now_ms;
    match r with
    | Updated => try _ ← commit catch e => mret (CasError e) in mret Updated
    | other => mret other
    end.

(** The answer for a delivery that is already replicated. *)
Definition confirm_again (event_id : string) (current : DeliveryStateRecord)
    (confirmation : ReplicatedDeliveryConfirmation) : Sql CasResult :=
  try lifecycle ← load_verified_lifecycle_for_transition event_id
    catch result => mret result in
  if negb (bool_decide (ps_delivery_status lifecycle = "REPLICATED")) then
    mret (CasCorrupted event_id "replicated delivery state without replicated lifecycle")
  else if same_confirmation current confirmation then mret AlreadyConfirmed
  else mret (CasCorrupted event_id "conflicting replicated confirmation metadata").

Definition confirm_replicated_delivery_body (event_id : string)
    (expected_delivery_revision : Z) (confirmation : ReplicatedDeliveryConfirmation)
    (now_ms : Z) : Sql CasResult :=
  try _ ← begin_tx catch e => mret (CasError e) in
  ds ← load_delivery_state event_id;
  match loaded ds with
  | Err r => mret r
  | Ok current =>
      if bool_decide (d_delivery_status current = "REPLICATED") then
        confirm_again event_id current confirmation
      else
        try lifecycle ← load_verified_lifecycle_for_transition event_id
          catch result => mret result in
        if negb (d_delivery_revision current =? expected_delivery_revision) then
          mret StaleRevision
        else if negb (bool_decide (d_routing_fingerprint current =
                        Some (c_expected_routing_fingerprint confirmation))) then
          mret (CasCorrupted event_id "routing fingerprint mismatch")
        else if negb (bool_decide (d_profile_id current =
                        Some (c_expected_profile_id confirmation)))
             || negb (bool_decide (d_profile_version current =
                        Some (c_expected_profile_version confirmation))) then
          mret (CasCorrupted event_id "profile mismatch")
        else if negb (bool_decide (d_kafka_topic current =
                        Some (c_kafka_topic confirmation))) then
          mret (CasCorrupted event_id "kafka topic mismatch")
        else
          let new_rev := i64_add expected_delivery_revision 1 in
          let checksum := compute_delivery_checksum
                (confirmed_state current confirmation new_rev
                   (d_delivery_checksum current) now_ms) in
          transition event_id expected_delivery_revision lifecycle "REPLICATED"
            (λ row, confirmed_state row confirmation new_rev checksum now_ms) now_ms
  end.

Definition confirm_replicated_delivery (event_id : string) (expected_delivery_revision : Z)
    (confirmation : ReplicatedDeliveryConfirmation) (now_ms : Z) (db : Db)
  : CasResult * Db :=
  run_tx (confirm_replicated_delivery_body event_id expected_delivery_revision confirmation
            now_ms) db.

(** ** Blocking *)
Definition blocked_state (current : DeliveryStateRecord) (reason : string) (new_rev : Z)
    (checksum : Checksum) (now_ms : Z) : DeliveryStateRecord :=
  mkDelivery (d_event_id current) "DELIVERY_BLOCKED" (d_attempt_count current) None
    (d_last_error current) (Some reason) (d_kafka_topic current)
    (d_kafka_partition current) (d_kafka_offset current) (d_routing_fingerprint current)
    (d_profile_id current) (d_profile_version current) new_rev checksum
    (d_confirmed_at_ms current) (d_created_at_ms current) now_ms.

Definition block_delivery_body (event_id : string) (expected_delivery_revision : Z)
    (reason : string) (now_ms : Z) : Sql CasResult :=
  try _ ← begin_tx catch e => mret (CasError e) in
  ds ← load_delivery_state event_id;
  match loaded ds with
  | Err r => mret r
  | Ok current =>
      try lifecycle ← load_verified_lifecycle_for_transition event_id
        catch result => mret result in
      if negb (d_delivery_revision current =? expected_delivery_revision) then
        mret StaleRevision
      else if bool_decide (d_delivery_status current = "REPLICATED") then
        mret InvalidTransition
      else
        let new_rev := i64_add expected_delivery_revision 1 in
        let checksum := compute_delivery_checksum
              (blocked_state current reason new_rev (d_delivery_checksum current) now_ms) in
        transition event_id expected_delivery_revision lifecycle "DELIVERY_BLOCKED"
          (λ row, blocked_state row reason new_rev checksum now_ms) now_ms
  end.

Definition block_delivery (event_id : string) (expected_delivery_revision : Z)
    (reason : string) (now_ms : Z) (db : Db) : CasResult * Db :=
  run_tx (block_delivery_body event_id expected_delivery_revision reason now_ms) db.

(** ** Retry *)
Definition retrying_state (current : DeliveryStateRecord) (next_retry_at_ms new_rev : Z)
    (checksum : Checksum) (now_ms : Z) : DeliveryStateRecord :=
  mkDelivery (d_event_id current) "DELIVERY_RETRYING" (d_attempt_count current)
    (Some next_retry_at_ms) (d_last_error current) (d_blocked_reason current)
    (d_kafka_topic current) (d_kafka_partition current) (d_kafka_offset current)
    (d_routing_fingerprint current) (d_profile_id current) (d_profile_version current)
    new_rev checksum (d_confirmed_at_ms current) (d_created_at_ms current) now_ms.

Definition update_delivery_retry_body (event_id : string) (expected_delivery_revision
    next_retry_at_ms : Z) (now_ms : Z) : Sql CasResult :=
  ds ← load_delivery_state event_id;
  match loaded ds with
  | Err r => mret r
  | Ok current =>
      if negb (d_delivery_revision current =? expected_delivery_revision) then
        mret StaleRevision
      else if bool_decide (d_delivery_status current = "REPLICATED") then
        mret InvalidTransition
      else
        let new_rev := i64_add expected_delivery_revision 1 in
        let checksum := compute_delivery_checksum
              (retrying_state current next_retry_at_ms new_rev
                 (d_delivery_checksum current) now_ms) in
        try affected ← execute (update_delivery event_id expected_delivery_revision
                         (λ row, retrying_state row next_retry_at_ms new_rev checksum now_ms))
          catch e => mret (CasError e) in
        mret (match affected with
              | 1 => Updated
              | 0 => StaleRevision
              | n => CasError ("delivery retry update affected " +:+ to_string n +:+
                               " rows, expected 1")
              end)
  end.

Definition update_delivery_retry (event_id : string) (expected_delivery_revision
    next_retry_at_ms : Z) (now_ms : Z) (db : Db) : CasResult * Db :=
  run_auto (update_delivery_retry_body event_id expected_delivery_revision next_retry_at_ms
              now_ms) db.
End Delivery.
