(* ===== verification/JournalTransitions.v ===== *)
(** * The delivery state machine

    The abstract transition system behind the operations of [JournalDelivery]:
    [cas_effect op now db db'] is what an operation does when it succeeds.  The
    operations implement it exactly ([cas_refines]), whatever the engine does,
    and the properties of the state machine are proved on the relation. *)
From S2P Require Import Prelude Checksum JournalDb JournalCore JournalAccept SqlLogic.
From S2P Require Import JournalLog JournalReads JournalDelivery.
Open Scope Z_scope.
#[local] Coercion Z.of_nat : nat >-> Z.

(** The calls of the journal that change an accepted event. *)
Inductive DeliveryOp : Type :=
| OpLifecycle (event_id : string) (expected_revision : Z)
    (nd : LocalDeliveryStatus) (nr : LocalRetentionStatus)
| OpCreate (event_id : string) (fp : Checksum) (profile_id : string) (profile_version : Z)
    (topic : string)
| OpAttempt (attempt : DeliveryAttemptRecord)
| OpConfirm (event_id : string) (expected_revision : Z) (c : ReplicatedDeliveryConfirmation)
| OpBlock (event_id : string) (expected_revision : Z) (reason : string)
| OpRetry (event_id : string) (expected_revision next_retry_at_ms : Z).

Definition run_op `{Sha256} `{Engine} (op : DeliveryOp) (now : Z) (db : Db) : CasResult * Db :=
  match op with
  | OpLifecycle eid rev nd nr => update_lifecycle eid rev nd nr now db
  | OpCreate eid fp pid pv topic => create_delivery_pending eid fp pid pv topic now db
  | OpAttempt a => record_delivery_attempt a now db
  | OpConfirm eid rev c => confirm_replicated_delivery eid rev c now db
  | OpBlock eid rev reason => block_delivery eid rev reason now db
  | OpRetry eid rev t => update_delivery_retry eid rev t now db
  end.

Section Transitions.
Context `{Sha256}.

(** A delivery row that passes the checks of [load_delivery_state]. *)
Record delivery_ok (eid : string) (row : DeliveryStateRecord) : Prop := {
  dl_range : in_i32 (d_attempt_count row);
  dl_length : is_checksum (d_delivery_checksum row);
  dl_fingerprint : from_option is_checksum True (d_routing_fingerprint row);
  dl_status : d_delivery_status row ∈ delivery_statuses;
  dl_checksum : d_delivery_checksum row = compute_delivery_checksum (delivery_of_row eid row);
  dl_valid : validate_delivery_state_invariants (delivery_of_row eid row) = Ok tt
}.

(** ** The abstract transitions *)

(** The rows an operation on [eid] needs: the verified envelope and lifecycle,
    and the verified delivery row at the expected revision, not replicated. *)
Record event_rows (db : Db) (eid : string) (e : EnvelopeRow) (l : LifecycleRow) : Prop := {
  er_env : stored_envelope db !! eid = Some e;
  er_life : lifecycle_state db !! eid = Some l;
  er_env_ok : envelope_ok eid e;
  er_life_ok : lifecycle_ok eid l
}.

Record delivery_row (db : Db) (eid : string) (row : DeliveryStateRecord) : Prop := {
  dr_row : delivery_state db !! eid = Some row;
  dr_ok : delivery_ok eid row
}.

Definition open_row (db : Db) (eid : string) (rev : Z) (row : DeliveryStateRecord) : Prop :=
  delivery_row db eid row ∧ d_delivery_revision row = rev ∧ d_delivery_status row ≠ "REPLICATED".

Definition confirmation_matches (row : DeliveryStateRecord) (c : ReplicatedDeliveryConfirmation)
  : Prop :=
  d_routing_fingerprint row = Some (c_expected_routing_fingerprint c) ∧
  d_profile_id row = Some (c_expected_profile_id c) ∧
  d_profile_version row = Some (c_expected_profile_version c) ∧
  d_kafka_topic row = Some (c_kafka_topic c).

(** A row with its checksum computed over the rest. *)
Definition sealed (eid : string) (f : Checksum → DeliveryStateRecord) : DeliveryStateRecord :=
  f (compute_delivery_checksum (delivery_of_row eid (f []))).

Definition set_delivery (eid : string) (row : DeliveryStateRecord) (db : Db) : Db :=
  set_delivery_state (<[eid := row]> (delivery_state db)) db.

Definition set_lifecycle (eid : string) (l : LifecycleRow) (db : Db) : Db :=
  set_lifecycle_state (<[eid := l]> (lifecycle_state db)) db.

Definition moved_lifecycle (eid : string) (l : LifecycleRow) (status : string) (now : Z)
  : LifecycleRow :=
  let rev := i64_add (l_revision l) 1 in
  mkLifecycle rev (compute_lifecycle_checksum eid rev status "PRESENT") status "PRESENT" now.

(** The attempts of the event after one more was recorded. *)
Definition attempts_after (a : DeliveryAttemptRecord) (db : Db) : Db :=
  let id := delivery_attempt_seq db + 1 in
  set_delivery_attempt
    (prune (λ r, at_event_id (da_record r)) da_id (at_event_id a) MAX_DELIVERY_ATTEMPTS
       (delivery_attempt db ++ [mkAttemptRow id a])) id db.

Inductive cas_effect (now : Z) (db : Db) : DeliveryOp → Db → Prop :=
| eff_lifecycle eid rev nd nr e l :
    event_rows db eid e l → l_revision l = rev →
    cas_effect now db (OpLifecycle eid rev nd nr)
      (set_lifecycle eid (moved_lifecycle eid l (local_delivery_as_str nd) now) db)
| eff_create eid fp pid pv topic e :
    stored_envelope db !! eid = Some e → delivery_state db !! eid = None →
    cas_effect now db (OpCreate eid fp pid pv topic)
      (set_delivery eid (sealed eid (λ c, pending_record eid fp pid pv topic c now)) db)
| eff_attempt a e row :
    stored_envelope db !! at_event_id a = Some e → delivery_row db (at_event_id a) row →
    let checksum := compute_delivery_checksum (delivery_of_row (at_event_id a)
                      (attempted_state row (at_error_code a) now)) in
    cas_effect now db (OpAttempt a)
      (set_delivery (at_event_id a) (attempted_row (at_error_code a) checksum now row)
         (attempts_after a db))
| eff_confirm eid rev c e l row :
    event_rows db eid e l → open_row db eid rev row → confirmation_matches row c →
    cas_effect now db (OpConfirm eid rev c)
      (set_lifecycle eid (moved_lifecycle eid l "REPLICATED" now)
         (set_delivery eid (sealed eid (λ s, confirmed_state row c (i64_add rev 1) s now)) db))
| eff_block eid rev reason e l row :
    event_rows db eid e l → open_row db eid rev row →
    cas_effect now db (OpBlock eid rev reason)
      (set_lifecycle eid (moved_lifecycle eid l "DELIVERY_BLOCKED" now)
         (set_delivery eid (sealed eid (λ s, blocked_state row reason (i64_add rev 1) s now)) db))
| eff_retry eid rev t row :
    open_row db eid rev row →
    cas_effect now db (OpRetry eid rev t)
      (set_delivery eid (sealed eid (λ s, retrying_state row t (i64_add rev 1) s now)) db).

Context `{E : Engine}.

(** ** Loading *)
Lemma wp_load_delivery_ok eid row (Q : DeliveryStateResult → Sess → Prop) s :
  delivery_row (s_work s) eid row →
  (∀ e s', faulty E → same_data s s' → Q (DeliveryError e) s') →
  (∀ s', same_data s s' → Q (DeliveryFound (delivery_of_row eid row)) s') →
  wp (load_delivery_state eid) Q s.
Proof.
  intros [Hrow [Hn Hl Hf Hs Hc Hv]] Hfault Hok. unfold load_delivery_state.
  apply wp_bind, wp_query; [intros e He; apply wp_ret, Hfault; done|].
  rewrite Hrow, (bool_decide_eq_true_2 _ Hn). simpl. unfold is_checksum in *. rewrite Hl. simpl.
  replace (from_option (λ v, negb (length v =? 32)%nat) false (d_routing_fingerprint row))
    with false by (destruct (d_routing_fingerprint row); simpl in *; [by rewrite Hf|done]).
  rewrite (bool_decide_eq_true_2 _ Hs). simpl.
  rewrite (bool_decide_eq_true_2 _ Hc). simpl. rewrite Hv. apply wp_ret, Hok; done.
Qed.

Lemma load_delivery_sound eid s st :
  (load_delivery_state eid s).1 = DeliveryFound st →
  ∃ row, delivery_row (s_work s) eid row ∧ st = delivery_of_row eid row.
Proof.
  set (P r := ∀ st, r = DeliveryFound st →
    ∃ row, delivery_row (s_work s) eid row ∧ st = delivery_of_row eid row).
  assert (Hw : wp (load_delivery_state eid) (λ r _, P r) s); [|by apply Hw].
  unfold load_delivery_state. apply wp_bind, wp_query; [by intros; apply wp_ret|].
  destruct (delivery_state (s_work s) !! eid) as [row|] eqn:Hr; [|by apply wp_ret].
  do 5 (wp_step; [by apply wp_ret|]). wp_step; [|by apply wp_ret].
  apply wp_ret. intros st' [= <-]. exists row. split; [|done].
  rewrite negb_len32 in *. rewrite negb_false_iff in *.
  repeat match goal with H : bool_decide _ = true |- _ => apply bool_decide_eq_true_1 in H end.
  destruct a. split; [done|]. constructor; auto.
  destruct (d_routing_fingerprint row); simpl in *; [by apply negb_len32|done].
Qed.

End Transitions.

(** A read either finds rows that verify, or the engine failed, or there are no
    such rows.  Which of the two is decided by a read on a store that does not
    fail. *)
Section Outcomes.
Context `{Sha256} `{E : Engine}.

Lemma sample_not_faulty : ¬ faulty sample_engine.
Proof. by apply reliable_not_faulty. Qed.

Lemma delivery_row_or_not db eid :
  (∃ row, delivery_row db eid row) ∨ (∀ row, ¬ delivery_row db eid row).
Proof.
  destruct (@load_delivery_state _ sample_engine eid (mkSess db db 0)).1 as [st| | |] eqn:Hld.
  { left. apply load_delivery_sound in Hld as (row & Hrow & _). by exists row. }
  all: right; intros row Hrow.
  all: assert (Hw : wp (@load_delivery_state _ sample_engine eid)
         (λ r _, r = DeliveryFound (delivery_of_row eid row)) (mkSess db db 0))
    by (apply (wp_load_delivery_ok (E := sample_engine) eid row); [done|by intros ?? ?%sample_not_faulty|done]).
  all: unfold wp in Hw; congruence.
Qed.

Lemma wp_load_delivery eid (Q : DeliveryStateResult → Sess → Prop) s :
  (∀ row s', delivery_row (s_work s) eid row → same_data s s' →
     Q (DeliveryFound (delivery_of_row eid row)) s') →
  (∀ r s', same_data s s' → (∀ st, r ≠ DeliveryFound st) →
     faulty E ∨ (∀ row, ¬ delivery_row (s_work s) eid row) → Q r s') →
  wp (load_delivery_state eid) Q s.
Proof.
  intros Hok Hno. destruct (delivery_row_or_not (s_work s) eid) as [(row & Hrow)|Hn].
  - apply (wp_load_delivery_ok eid row); [done|..].
    + intros e s' Hf Hs. apply Hno; [done|done|by left].
    + intros s' Hs. by apply Hok.
  - apply wp_reads; [apply reads_load_delivery|]. intros s' Hs.
    apply Hno; [done| |by right]. intros st Hst.
    apply load_delivery_sound in Hst as (row & Hrow & _). by apply (Hn row).
Qed.

Lemma event_rows_or_not db eid :
  (∃ e l, event_rows db eid e l) ∨ (∀ e l, ¬ event_rows db eid e l).
Proof.
  destruct (@get_status_impl _ sample_engine eid (mkSess db db 0)).1 as [st| |] eqn:Hst.
  { left. apply get_status_sound in Hst as (e & l & He & Hl & _ & Hev & Hlc).
    by exists e, l. }
  all: right; intros e l [He Hl Hev Hlc].
  all: assert (Hw : wp (@get_status_impl _ sample_engine eid)
         (λ r _, r = StatusFound (status_of_rows eid e l)) (mkSess db db 0))
    by (apply (wp_get_status_ok (E := sample_engine) eid e l); [done..|by intros ?? ?%sample_not_faulty|done]).
  all: unfold wp in Hw; congruence.
Qed.

Lemma wp_get_status eid (Q : StatusResult → Sess → Prop) s :
  (∀ e l s', event_rows (s_work s) eid e l → same_data s s' →
     Q (StatusFound (status_of_rows eid e l)) s') →
  (∀ r s', same_data s s' → (∀ st, r ≠ StatusFound st) →
     faulty E ∨ (∀ e l, ¬ event_rows (s_work s) eid e l) → Q r s') →
  wp (get_status_impl eid) Q s.
Proof.
  intros Hok Hno. destruct (event_rows_or_not (s_work s) eid) as [(e & l & Hrow)|Hn].
  - destruct Hrow as [He Hl Hev Hlc]. apply (wp_get_status_ok eid e l); [done..| |].
    + intros d s' Hf Hs. apply Hno; [done|done|by left].
    + intros s' Hs. by apply Hok.
  - apply wp_reads; [apply reads_get_status|]. intros s' Hs.
    apply Hno; [done| |by right]. intros st Hst.
    apply get_status_sound in Hst as (e & l & He & Hl & _ & Hev & Hlc). by apply (Hn e l).
Qed.

Lemma wp_load_lifecycle eid (Q : result PersistedStatus CasResult → Sess → Prop) s :
  (∀ e l s', event_rows (s_work s) eid e l → same_data s s' →
     Q (Ok (status_of_rows eid e l)) s') →
  (∀ r s', same_data s s' → r ≠ Updated →
     faulty E ∨ (∀ e l, ¬ event_rows (s_work s) eid e l) → Q (Err r) s') →
  wp (load_verified_lifecycle_for_transition eid) Q s.
Proof.
  intros Hok Hno. unfold load_verified_lifecycle_for_transition.
  apply wp_bind, wp_get_status.
  - intros e l s' Hr Hs. by apply wp_ret, Hok.
  - intros r s' Hs Hr Hf. apply wp_ret.
    destruct r as [st| |]; [by destruct (Hr st)|by apply Hno|by apply Hno].
Qed.

(** ** The operations implement the transitions *)

(** A call succeeds with the effect of the transition, or leaves the database
    alone -- because the engine failed or the transition is not enabled. *)
Definition cas_post (op : DeliveryOp) (now : Z) (db : Db) (r : CasResult) (db' : Db) : Prop :=
  (r = Updated ∧ cas_effect now db op db') ∨
  (r ≠ Updated ∧ db' = db ∧ (faulty E ∨ ∀ db1, ¬ cas_effect now db op db1)).

Lemma post_fault op now db r db' :
  faulty E → r ≠ Updated → db' = db → cas_post op now db r db'.
Proof. right. auto. Qed.

Lemma post_rejected op now db r db' :
  r ≠ Updated → db' = db → faulty E ∨ (∀ db1, ¬ cas_effect now db op db1) →
  cas_post op now db r db'.
Proof. right. auto. Qed.

Lemma wp_transition eid rev e l st row f now (Q : CasResult → Sess → Prop) s :
  event_rows (s_work s) eid e l → delivery_state (s_work s) !! eid = Some row →
  d_delivery_revision row = rev →
  (∀ r s', faulty E → r ≠ Updated → s_base s' = s_base s → Q r s') →
  (∀ s', s_base s' = set_lifecycle eid (moved_lifecycle eid l st now)
                       (set_delivery eid (f row) (s_work s)) → Q Updated s') →
  wp (transition eid rev (status_of_rows eid e l) st f now) Q s.
Proof.
  intros [He Hl Hev [_ _ _ Hret]] Hrow Hrev Hf Hok. unfold transition.
  apply wp_bind. wp_step; [by apply wp_ret, Hf|].
  unfold update_delivery. rewrite Hrow, decide_True by done. simpl.
  unfold update_lifecycle_delivery_status. do 2 apply wp_bind.
  wp_step; [by apply wp_ret, wp_ret, Hf|].
  unfold update_lifecycle_row. simpl. rewrite Hl, decide_True by done. simpl.
  rewrite Hret. apply wp_ret, wp_bind. wp_step; [by apply wp_ret, Hf|].
  by apply wp_ret, Hok.
Qed.

(** Closes the branch of a failed statement: nothing has survived. *)
Ltac cas_fault := apply wp_ret, post_fault; [assumption|done|simpl; congruence].

Lemma wp_update_lifecycle eid rev nd nr now db :
  wp (update_lifecycle_body eid rev nd nr now)
     (λ r s', cas_post (OpLifecycle eid rev nd nr) now db r (s_work s')) (mkSess db db 0).
Proof.
  unfold update_lifecycle_body. apply wp_bind, wp_get_status.
  2: { intros r s' [Hw _] Hr Hf. simpl in Hw, Hf.
       assert (Hpost : faulty E ∨ ∀ d, ¬ cas_effect now db (OpLifecycle eid rev nd nr) d).
       { destruct Hf as [|Hno]; [by left|right]. inversion 1; naive_solver. }
       destruct r as [st| |]; [by destruct (Hr st)|..]; by apply wp_ret, post_rejected. }
  intros e l s' Hrows [Hw _]. simpl in Hrows, Hw. simpl.
  destruct (Z.eqb_spec (l_revision l) rev) as [Hrev|Hrev]; simpl.
  2: { apply wp_ret, post_rejected; [done|done|right].
       inversion 1 as [????? l' [_ Hl _ _] Hr' | | | | |]; subst.
       destruct Hrows as [_ Hl' _ _]. congruence. }
  apply wp_bind. wp_step; [cas_fault|].
  unfold update_lifecycle_row. rewrite Hw. destruct Hrows as [He Hl Hev Hlc].
  rewrite Hl, decide_True by done. simpl. apply wp_ret. left. split; [done|]. subst rev.
  by apply (eff_lifecycle now db eid _ nd nr e l).
Qed.

Lemma wp_create eid fp pid pv topic now db :
  wp (create_delivery_pending_body eid fp pid pv topic now)
     (λ r s', cas_post (OpCreate eid fp pid pv topic) now db r (s_work s')) (mkSess db db 0).
Proof.
  unfold create_delivery_pending_body. apply wp_bind.
  wp_step; [cas_fault|]. simpl.
  destruct (stored_envelope db !! eid) as [e|] eqn:He.
  2: { apply wp_ret, post_rejected; [done|simpl; congruence|right]. inversion 1; congruence. }
  apply wp_bind. wp_step; [cas_fault|].
  unfold insert_delivery, references_envelope, insert_new. simpl. rewrite He.
  destruct (delivery_state db !! eid) as [row|] eqn:Hd.
  { apply wp_ret, post_rejected; [done|simpl; congruence|right]. inversion 1; congruence. }
  apply wp_ret. left. split; [done|]. by apply (eff_create now db eid fp pid pv topic e).
Qed.

Lemma loaded_not_updated r :
  (∀ st, r ≠ DeliveryFound st) → ∃ c, loaded r = Err c ∧ c ≠ Updated.
Proof. intros Hr. destruct r as [st| | |]; [by destruct (Hr st)|eexists; split; done..]. Qed.

Lemma wp_attempt a now db :
  wp (record_delivery_attempt_body a now)
     (λ r s', cas_post (OpAttempt a) now db r (s_base s')) (mkSess db db 0).
Proof.
  unfold record_delivery_attempt_body. apply wp_bind.
  wp_step; [cas_fault|].
  apply wp_bind, wp_load_delivery; simpl.
  2: { intros r s' [_ Hb] (c & -> & Hc)%loaded_not_updated Hf.
       apply wp_ret, post_rejected; [done|simpl in *; congruence|]. destruct Hf as [|Hno]; [by left|right].
       inversion 1; naive_solver. }
  intros row s' Hrow [Hw Hb]. simpl in Hw, Hb.
  apply wp_bind. wp_step; [cas_fault|].
  unfold insert_delivery_attempt, references_envelope. rewrite Hw.
  destruct (stored_envelope db !! at_event_id a) as [e|] eqn:He.
  2: { apply wp_ret, post_rejected; [done|simpl in *; congruence|right]. inversion 1; congruence. }
  apply wp_bind. wp_step; [cas_fault|].
  simpl. apply wp_bind. wp_step; [cas_fault|].
  unfold update_delivery. simpl. destruct Hrow as [Hrow Hok].
  rewrite Hrow, decide_True by done. simpl.
  apply wp_bind. wp_step; [cas_fault|].
  apply wp_ret. left. split; [done|]. simpl.
  by apply (eff_attempt now db a e row).
Qed.

Lemma wp_block eid rev reason now db :
  wp (block_delivery_body eid rev reason now)
     (λ r s', cas_post (OpBlock eid rev reason) now db r (s_base s')) (mkSess db db 0).
Proof.
  unfold block_delivery_body. apply wp_bind.
  wp_step; [cas_fault|].
  apply wp_bind, wp_load_delivery; simpl.
  2: { intros r s' [_ Hb] (c & -> & Hc)%loaded_not_updated Hf.
       apply wp_ret, post_rejected; [done|simpl in *; congruence|]. destruct Hf as [|Hno]; [by left|right].
       inversion 1 as [| | | |????? row ? [? _]|]; naive_solver. }
  intros row s' Hrow [Hw Hb]. simpl in Hw, Hb.
  apply wp_bind, wp_load_lifecycle.
  2: { intros r s1 [_ Hb1] Hr Hf. rewrite Hw in Hf.
       apply wp_ret, post_rejected; [done|simpl in *; congruence|]. destruct Hf as [|Hno]; [by left|right].
       inversion 1; naive_solver. }
  intros e l s1 Hrows [Hw1 Hb1]. rewrite Hw in *. simpl.
  destruct (Z.eqb_spec (d_delivery_revision row) rev) as [Hrev|Hrev]; simpl.
  2: { apply wp_ret, post_rejected; [done|simpl in *; congruence|right].
       inversion 1 as [| | | |????? row' ? [[Hrow' _] [? _]]|]; subst.
       destruct Hrow as [Hrow _]. congruence. }
  case_bool_decide as Hst.
  { apply wp_ret, post_rejected; [done|simpl in *; congruence|right].
    inversion 1 as [| | | |????? row' ? [[Hrow' _] [_ ?]]|]; subst.
    destruct Hrow as [Hrow _]. congruence. }
  apply (wp_transition _ _ _ _ _ row); rewrite ?Hw1; [done|by destruct Hrow|done|..].
  - intros r s2 Hf Hr Hb2. apply post_fault; [done..|simpl in *; congruence].
  - intros s2 ->. left. split; [done|].
    by apply (eff_block now db eid rev reason e l row).
Qed.

(** A confirmation that fails one of its comparisons is not enabled. *)
Lemma confirm_disabled now db eid rev c row :
  delivery_row db eid row →
  d_delivery_status row = "REPLICATED" ∨ d_delivery_revision row ≠ rev ∨
  ¬ confirmation_matches row c →
  ∀ db1, ¬ cas_effect now db (OpConfirm eid rev c) db1.
Proof.
  intros [Hrow _] Hno db1. inversion 1 as [| | |???? l row' ? [[Hrow' _] [? ?]] ?| |]; subst.
  rewrite Hrow in Hrow'. injection Hrow' as <-. naive_solver.
Qed.

Lemma wp_confirm_again eid rev c row now db s :
  delivery_row db eid row → d_delivery_status row = "REPLICATED" →
  s_work s = db → s_base s = db →
  wp (confirm_again eid (delivery_of_row eid row) c)
     (λ r s', cas_post (OpConfirm eid rev c) now db r (s_base s')) s.
Proof.
  intros Hrow Hst Hw Hb.
  assert (Hno : ∀ db1, ¬ cas_effect now db (OpConfirm eid rev c) db1)
    by (apply (confirm_disabled now db eid rev c row); auto).
  unfold confirm_again. apply wp_bind, wp_load_lifecycle.
  2: { intros r s1 [_ Hb1] Hr _. apply wp_ret, post_rejected; [done|congruence|by right]. }
  intros e l s1 _ [_ Hb1].
  repeat wp_step; (apply post_rejected; [done|congruence|by right]).
Qed.

Lemma wp_confirm eid rev c now db :
  wp (confirm_replicated_delivery_body eid rev c now)
     (λ r s', cas_post (OpConfirm eid rev c) now db r (s_base s')) (mkSess db db 0).
Proof.
  unfold confirm_replicated_delivery_body. apply wp_bind. wp_step; [cas_fault|].
  apply wp_bind, wp_load_delivery; simpl.
  2: { intros r s' [_ Hb] (x & -> & Hx)%loaded_not_updated Hf.
       apply wp_ret, post_rejected; [done|simpl in *; congruence|].
       destruct Hf as [|Hno]; [by left|right].
       inversion 1 as [| | |????? row ? [? _]| |]; naive_solver. }
  intros row s' Hrow [Hw Hb]. simpl in Hw, Hb.
  case_bool_decide as Hst; [by apply wp_confirm_again|].
  apply wp_bind, wp_load_lifecycle.
  2: { intros r s1 [_ Hb1] Hr Hf. rewrite Hw in Hf.
       apply wp_ret, post_rejected; [done|congruence|]. destruct Hf as [|Hno]; [by left|right].
       inversion 1; naive_solver. }
  intros e l s1 Hrows [Hw1 Hb1]. rewrite Hw in *. simpl.
  pose proof (confirm_disabled now db eid rev c row Hrow) as Hno.
  destruct (Z.eqb_spec (d_delivery_revision row) rev) as [Hrev|Hrev]; simpl.
  2: { apply wp_ret, post_rejected; [done|congruence|right; auto]. }
  repeat (case_bool_decide; simpl;
    [|apply wp_ret, post_rejected; [done|congruence|right; apply Hno; right; right;
       intros (? & ? & ? & ?); done]]).
  apply (wp_transition _ _ _ _ _ row); rewrite ?Hw1; [done|by destruct Hrow|done|..].
  - intros r s2 Hf Hr Hb2. apply post_fault; [done..|congruence].
  - intros s2 ->. left. split; [done|].
    by apply (eff_confirm now db eid rev c e l row).
Qed.

Lemma wp_retry eid rev t now db :
  wp (update_delivery_retry_body eid rev t now)
     (λ r s', cas_post (OpRetry eid rev t) now db r (s_work s')) (mkSess db db 0).
Proof.
  unfold update_delivery_retry_body. apply wp_bind, wp_load_delivery; simpl.
  2: { intros r s' [Hw _] (x & -> & Hx)%loaded_not_updated Hf.
       apply wp_ret, post_rejected; [done|simpl in *; congruence|].
       destruct Hf as [|Hno]; [by left|right].
       inversion 1 as [| | | | |??? row [? _]]; naive_solver. }
  intros row s' Hrow [Hw _]. simpl in Hw. simpl.
  destruct (Z.eqb_spec (d_delivery_revision row) rev) as [Hrev|Hrev]; simpl.
  2: { apply wp_ret, post_rejected; [done|congruence|right].
       inversion 1 as [| | | | |??? row' [[Hrow' _] [? _]]]; subst.
       destruct Hrow as [Hrow _]. congruence. }
  case_bool_decide as Hst.
  { apply wp_ret, post_rejected; [done|congruence|right].
    inversion 1 as [| | | | |??? row' [[Hrow' _] [_ ?]]]; subst.
    destruct Hrow as [Hrow _]. congruence. }
  apply wp_bind. wp_step; [cas_fault|]. unfold update_delivery. rewrite Hw.
  destruct Hrow as [Hrow Hok]. rewrite Hrow, decide_True by done. simpl.
  apply wp_ret. left. split; [done|]. by apply (eff_retry now db eid rev t row).
Qed.

Lemma run_op_post op now db : cas_post op now db (run_op op now db).1 (run_op op now db).2.
Proof.
  destruct op; simpl.
  - apply (wp_run_auto _ (λ r d, cas_post _ now db r d)), wp_update_lifecycle.
  - apply (wp_run_auto _ (λ r d, cas_post _ now db r d)), wp_create.
  - apply (wp_run_tx _ (λ r d, cas_post _ now db r d)), wp_attempt.
  - apply (wp_run_tx _ (λ r d, cas_post _ now db r d)), wp_confirm.
  - apply (wp_run_tx _ (λ r d, cas_post _ now db r d)), wp_block.
  - apply (wp_run_auto _ (λ r d, cas_post _ now db r d)), wp_retry.
Qed.

Lemma run_op_cases op now db :
  ((run_op op now db).1 = Updated ∧ cas_effect now db op (run_op op now db).2) ∨
  ((run_op op now db).1 ≠ Updated ∧ (run_op op now db).2 = db).
Proof. destruct (run_op_post op now db) as [?|(? & ? & _)]; auto. Qed.
End Outcomes.

(** C6. The delivery operations implement the delivery state machine.  For
    every engine a call answers [Updated] and has exactly the effect of an
    enabled transition -- both rows of a transition moved together -- or it
    answers otherwise and changes nothing; on a store that does not fail, every
    enabled transition is taken. *)
Theorem cas_refines (S : Sha256) (E : Engine) (op : DeliveryOp) (now : Z) (db : Db) :
  ((run_op op now db).1 = Updated ∧ cas_effect now db op (run_op op now db).2 ∨
   (run_op op now db).1 ≠ Updated ∧ (run_op op now db).2 = db) ∧
  (reliable E → ∀ db', cas_effect now db op db' →
     (run_op op now db).1 = Updated).
Proof.
  split; [apply run_op_cases|]. intros HE db' Heff.
  destruct (run_op_post op now db) as [[-> _]|(_ & _ & [Hf|Hno])]; [done|..].
  - by apply reliable_not_faulty in HE.
  - by destruct (Hno db').
Qed.
