(* ===== verification/JournalSafety.v ===== *)
(** * Safety of the journal

    Invariants of the delivery state machine and of the whole journal under any
    sequence of its operations, with any engine: the log of accepted events
    only grows, a confirmed delivery stays confirmed, and at most one of several
    competing transitions wins. *)
From S2P Require Import Prelude Checksum JournalDb JournalCore JournalAccept SqlLogic.
From S2P Require Import JournalLog JournalReads JournalDelivery JournalTransitions.
Open Scope Z_scope.
#[local] Coercion Z.of_nat : nat >-> Z.

(** ** Valid delivery rows *)
Definition non_empty (o : option string) : Prop := ∃ v, o = Some v ∧ v ≠ "".
Definition at_least (m : Z) (o : option Z) : Prop := ∃ v, o = Some v ∧ m ≤ v.

Definition routing_present (st : DeliveryStateRecord) : Prop :=
  non_empty (d_kafka_topic st) ∧ is_Some (d_routing_fingerprint st) ∧
  non_empty (d_profile_id st) ∧ at_least 1 (d_profile_version st).

Definition unconfirmed (st : DeliveryStateRecord) : Prop :=
  d_kafka_partition st = None ∧ d_kafka_offset st = None ∧ d_confirmed_at_ms st = None.

(** The states [validate_delivery_state_invariants] admits. *)
Inductive delivery_valid (st : DeliveryStateRecord) : Prop :=
| valid_replicated :
    d_delivery_status st = "REPLICATED" → routing_present st →
    at_least 0 (d_kafka_partition st) → at_least 0 (d_kafka_offset st) →
    is_Some (d_confirmed_at_ms st) → d_blocked_reason st = None →
    d_next_retry_at_ms st = None → delivery_valid st
| valid_pending :
    d_delivery_status st = "DELIVERY_PENDING" → routing_present st →
    d_next_retry_at_ms st = None → d_blocked_reason st = None → unconfirmed st →
    delivery_valid st
| valid_retrying :
    d_delivery_status st = "DELIVERY_RETRYING" → routing_present st →
    is_Some (d_next_retry_at_ms st) → d_blocked_reason st = None → unconfirmed st →
    delivery_valid st
| valid_blocked :
    d_delivery_status st = "DELIVERY_BLOCKED" → non_empty (d_blocked_reason st) →
    d_next_retry_at_ms st = None → unconfirmed st → delivery_valid st.

Lemma let_ok {E} (a b : result unit E) :
  (let? _ := a in b) = Ok tt ↔ a = Ok tt ∧ b = Ok tt.
Proof. destruct a as [[]|e]; [tauto|]. split; [done|by intros [? _]]. Qed.

Lemma require_some_ok {A} (v : option A) f s : require_some v f s = Ok tt ↔ is_Some v.
Proof. destruct v; simpl; split; done || by intros []. Qed.

Lemma require_absent_ok {A} (v : option A) f s : require_absent v f s = Ok tt ↔ v = None.
Proof. by destruct v. Qed.

Lemma require_non_empty_ok v f s : require_non_empty v f s = Ok tt ↔ non_empty v.
Proof.
  unfold non_empty. destruct v as [v|]; simpl; [|naive_solver].
  destruct (str_is_empty v) eqn:Hv; simpl.
  - apply str_is_empty_true in Hv. naive_solver.
  - split; [|done]. intros _. exists v. split; [done|]. by intros ->.
Qed.

Lemma require_positive_ok v f s : require_positive_i32 v f s = Ok tt ↔ at_least 1 v.
Proof.
  unfold at_least. destruct v as [v|]; simpl; [|naive_solver].
  destruct (Z.ltb_spec 0 v); split; try done; [exists v; split; [done|lia]|].
  intros (? & [= <-] & ?). lia.
Qed.

Lemma require_non_negative_ok v f s : require_non_negative v f s = Ok tt ↔ at_least 0 v.
Proof.
  unfold at_least. destruct v as [v|]; simpl; [|naive_solver].
  destruct (Z.leb_spec 0 v); split; try done; [by exists v|].
  intros (? & [= <-] & ?). lia.
Qed.

Create Rewrite HintDb validity.
#[export] Hint Rewrite @let_ok @require_some_ok @require_absent_ok require_non_empty_ok
  require_positive_ok require_non_negative_ok : validity.

Lemma validate_iff st :
  d_delivery_status st ∈ delivery_statuses →
  validate_delivery_state_invariants st = Ok tt ↔ delivery_valid st.
Proof.
  intros Hst. unfold validate_delivery_state_invariants, require_delivery_routing_fields,
    require_no_confirmed_kafka_metadata.
  repeat case_bool_decide; autorewrite with validity; split.
  all: try (intros []; unfold routing_present, unconfirmed in *; (congruence || naive_solver)).
  all: intros Hv; try (exfalso; set_solver).
  - apply valid_replicated; unfold routing_present; naive_solver.
  - apply valid_pending; unfold routing_present, unconfirmed; naive_solver.
  - apply valid_retrying; unfold routing_present, unconfirmed; naive_solver.
  - apply valid_blocked; unfold unconfirmed; naive_solver.
Qed.

Section Safety.
Context `{Sha256} `{!Sha256Ok}.

(** ** The log is never disturbed *)
Lemma moved_lifecycle_ok eid l st now :
  is_allowed_delivery_status st = true → lifecycle_ok eid (moved_lifecycle eid l st now).
Proof. intros Hst. constructor; try done. apply sha256_length. Qed.

Lemma dom_insert_present {V} (t : gmap string V) k v (X : gset string) :
  is_Some (t !! k) → dom t = X → dom (<[k := v]> t) = X.
Proof. intros ? <-. apply dom_insert_lookup_L. done. Qed.

Lemma represents_lifecycle db log eid l :
  represents db log → is_Some (lifecycle_state db !! eid) → lifecycle_ok eid l →
  represents (set_lifecycle eid l db) log.
Proof.
  intros [] Hin Hl. constructor; simpl; auto.
  - intros eid' l' [[<- <-]|[_ ?]]%lookup_insert_Some; [done|by apply rep_life].
  - by apply dom_insert_present.
Qed.

Lemma represents_delivery db log eid row e :
  represents db log → stored_envelope db !! eid = Some e →
  represents (set_delivery eid row db) log.
Proof.
  intros [] He. constructor; simpl; auto.
  assert (Hd : eid ∈ dom (stored_envelope db)) by by apply elem_of_dom.
  rewrite rep_env_dom in Hd. rewrite dom_insert. set_solver.
Qed.

Lemma represents_attempts db log a : represents db log → represents (attempts_after a db) log.
Proof. intros []. by constructor. Qed.

Lemma delivery_has_envelope db log eid row :
  represents db log → delivery_state db !! eid = Some row →
  ∃ e, stored_envelope db !! eid = Some e.
Proof.
  intros Hr Hd. apply elem_of_dom. rewrite (rep_env_dom _ _ Hr).
  apply (rep_delivery_dom _ _ Hr). by apply elem_of_dom.
Qed.

Lemma local_status_allowed nd : is_allowed_delivery_status (local_delivery_as_str nd) = true.
Proof. by destruct nd. Qed.

(** No transition disturbs the log. *)
Lemma effect_represents now db op db' log :
  cas_effect now db op db' → represents db log → represents db' log.
Proof.
  intros Heff Hr. destruct Heff as
    [eid rev nd nr e l [He Hl _ _] _|eid fp pid pv topic e He _|a e row He _ checksum
    |eid rev c e l row [He Hl _ _] _ _|eid rev reason e l row [He Hl _ _] _
    |eid rev t row [[Hrow _] _]].
  - apply represents_lifecycle; [done|done|]. apply moved_lifecycle_ok, local_status_allowed.
  - by apply (represents_delivery _ _ _ _ e).
  - apply (represents_delivery _ _ _ _ e); [by apply represents_attempts|done].
  - apply represents_lifecycle; [by apply (represents_delivery _ _ _ _ e)|done|].
    by apply moved_lifecycle_ok.
  - apply represents_lifecycle; [by apply (represents_delivery _ _ _ _ e)|done|].
    by apply moved_lifecycle_ok.
  - destruct (delivery_has_envelope _ _ _ _ Hr Hrow) as [e He].
    by apply (represents_delivery _ _ _ _ e).
Qed.

(** ** Runs of the journal *)

(** One call of a client: an acceptance, a delivery operation, a shutdown, or the
    file opened again.  The engine, the clock and the disk guard may be different
    at every call.  A delivery operation is allowed at any time, also by another
    process; on a handle whose lock is poisoned it would panic and change
    nothing. *)
Inductive journal_step : LocalJournal → LocalJournal → Prop :=
| step_accept (E : Engine) disk_safe now req j :
    req_typed req → journal_step j (accept j disk_safe now req).2
| step_op (E : Engine) op now j :
    journal_step j (set_conn j (run_op op now (j_conn j)).2)
| step_shutdown j : journal_step j (shutdown j)
| step_reopen config j : journal_step j (mkJournal (j_conn j) config false false).

Lemma run_op_represents `{E : Engine} op now db log :
  represents db log → represents (run_op op now db).2 log.
Proof.
  intros Hr. destruct (run_op_cases op now db) as [[_ He]|[_ ->]]; [|done].
  by apply (effect_represents _ _ _ _ _ He).
Qed.

Lemma accept_represents `{E : Engine} j disk_safe now req log :
  represents (j_conn j) log → req_typed req → length log < i64_max →
  ∃ new, (length new ≤ 1)%nat ∧ represents (j_conn (accept j disk_safe now req).2) (log ++ new).
Proof.
  intros Hr Ht Hl. destruct (accept_cases j disk_safe now req) as [Ha|[-> _]].
  2: { exists []. split; [simpl; lia|]. by rewrite app_nil_r. }
  rewrite accept_admissible by done. simpl.
  destruct (accept_post_run (j_conn j) log req now Hr Ht Hl)
    as [(res & log' & _ & Hspec & Hrep & _)|(_ & _ & ->)].
  - destruct Hspec; [by exists [req]|..]; exists []; rewrite app_nil_r; split; done || simpl; lia.
  - exists []. split; [simpl; lia|]. by rewrite app_nil_r.
Qed.

Lemma step_represents j j' log :
  journal_step j j' → represents (j_conn j) log → length log < i64_max →
  ∃ new, (length new ≤ 1)%nat ∧ represents (j_conn j') (log ++ new).
Proof.
  intros [E disk_safe now req j0 Ht|E op now j0|j0|config j0] Hr Hl.
  - by apply accept_represents.
  - exists []. rewrite app_nil_r. split; [simpl; lia|]. by apply run_op_represents.
  - exists []. rewrite app_nil_r. split; [simpl; lia|]. done.
  - exists []. rewrite app_nil_r. split; [simpl; lia|]. done.
Qed.

Lemma steps_represents n j j' log :
  nsteps journal_step n j j' → represents (j_conn j) log → length log + n ≤ i64_max →
  ∃ new, (length new ≤ n)%nat ∧ represents (j_conn j') (log ++ new).
Proof.
  intros Hn. revert log. induction Hn as [j|n j j1 j2 Hs _ IH]; intros log Hr Hl.
  { exists []. rewrite app_nil_r. split; [simpl; lia|done]. }
  destruct (step_represents _ _ _ Hs Hr ltac:(lia)) as (new & Hnew & Hr1).
  destruct (IH _ Hr1) as (new2 & Hnew2 & Hr2); [rewrite length_app; lia|].
  exists (new ++ new2). rewrite app_assoc, length_app. split; [lia|done].
Qed.
End Safety.

(** C5. The journal is append-only.  Whatever sequence of acceptances, delivery
    operations, shutdowns and reopenings follows, under whatever failures, the log only
    grows at its end, and every event accepted before is still read back with
    its journal sequence, its stream sequence and its payload. *)
Theorem journal_append_only (S : Sha256) (E' : Engine) (n : nat) (j j' : LocalJournal)
    (log : list AcceptRequest) :
  @Sha256Ok S → reliable E' → represents (j_conn j) log →
  nsteps journal_step n j j' → length log + n ≤ i64_max →
  ∃ new, (length new ≤ n)%nat ∧ represents (j_conn j') (log ++ new) ∧
    ∀ (i : nat) r, log !! i = Some r →
      reported_sequences (j_conn j') r = Some (i + 1, stream_pos log i r) ∧
      read_verified_payload (rq_event_id r) (j_conn j') = PayloadFound (rq_payload r).
Proof.
  intros HS HE Hr Hn Hl.
  destruct (steps_represents _ _ _ _ Hn Hr Hl) as (new & Hnew & Hr'). exists new.
  split; [done|]. split; [done|]. intros i r Hi.
  assert (Hi' : (log ++ new) !! i = Some r) by by apply lookup_app_l_Some.
  split.
  - rewrite (reported_sequences_eq _ _ _ _ HE Hr' Hi'). unfold stream_pos.
    rewrite take_app_le; [done|]. apply lookup_lt_Some in Hi. lia.
  - apply (represented_payload _ _ _ HE Hr'). by eapply list_elem_of_lookup_2.
Qed.

Lemma journal_append_only_witness :
  @read_verified_payload sample_sha256 sample_engine "e1"
    (j_conn (@accept sample_sha256 (failing_engine 5) (mkJournal sample_db default_config false false)
               true 9 (sample_request "e2" 2)).2) = PayloadFound (bytes_of "test-payload").
Proof.
  destruct (journal_append_only sample_sha256 sample_engine 1
    (mkJournal sample_db default_config false false)
    (@accept sample_sha256 (failing_engine 5) (mkJournal sample_db default_config false false)
               true 9 (sample_request "e2" 2)).2 [sample_request "e1" 1])
    as (new & _ & _ & Hall).
  - exact sample_sha256_ok.
  - exact sample_reliable.
  - exact sample_db_represents.
  - apply nsteps_once. by apply (@step_accept sample_sha256 (failing_engine 5)).
  - done.
  - exact (proj2 (Hall 0%nat (sample_request "e1" 1) eq_refl)).
Defined.
