(* ===== verification/DeliverySafety.v ===== *)
(** * Safety of deliveries

    What the delivery rows promise over time: validity is preserved, a
    confirmation is final and answers repeated confirmations, competing
    transitions have one winner, and the attempts kept per event are bounded.
    The file also shows where the operations leave these promises. *)
From S2P Require Import Prelude Checksum JournalDb JournalCore JournalAccept SqlLogic.
From S2P Require Import JournalLog JournalReads JournalDelivery JournalTransitions.
From S2P Require Import JournalSafety Routing.
Open Scope Z_scope.
#[local] Coercion Z.of_nat : nat >-> Z.

Section DeliverySafety.
Context `{Sha256} `{!Sha256Ok}.

(** ** Validity *)

(** A row that verifies and whose routing was recorded. *)
Definition delivery_good (eid : string) (row : DeliveryStateRecord) : Prop :=
  delivery_ok eid row ∧ routing_present row.

Definition deliveries_good (db : Db) : Prop := map_Forall delivery_good (delivery_state db).

Lemma delivery_ok_valid eid row : delivery_ok eid row → delivery_valid (delivery_of_row eid row).
Proof. intros [_ _ _ Hs _ Hv]. by apply validate_iff. Qed.

Lemma sealed_checksum eid (f : Checksum → DeliveryStateRecord) :
  (∀ c, d_delivery_checksum (f c) = c) →
  (∀ c, delivery_fields (delivery_of_row eid (f c)) = delivery_fields (delivery_of_row eid (f []))) →
  d_delivery_checksum (sealed eid f) = compute_delivery_checksum (delivery_of_row eid (sealed eid f)).
Proof.
  intros Hc Hf. unfold sealed. set (c := compute_delivery_checksum _).
  rewrite Hc. unfold compute_delivery_checksum. by rewrite (Hf c).
Qed.

Lemma sealed_ok eid (f : Checksum → DeliveryStateRecord) :
  (∀ c, d_delivery_checksum (f c) = c) →
  (∀ c, delivery_fields (delivery_of_row eid (f c)) = delivery_fields (delivery_of_row eid (f []))) →
  (∀ c, from_option is_checksum True (d_routing_fingerprint (f c))) →
  (∀ c, in_i32 (d_attempt_count (f c))) →
  (∀ c, delivery_valid (delivery_of_row eid (f c))) →
  delivery_ok eid (sealed eid f).
Proof.
  intros Hc Hf Hfp Hn Hv. unfold sealed.
  set (c := compute_delivery_checksum (delivery_of_row eid (f []))).
  assert (Hs : d_delivery_status (f c) ∈ delivery_statuses).
  { destruct (Hv c) as [Hs|Hs|Hs|Hs]; simpl in Hs; rewrite Hs; compute_done. }
  constructor.
  - apply Hn.
  - rewrite Hc. apply sha256_length.
  - apply Hfp.
  - done.
  - by apply sealed_checksum.
  - by apply validate_iff.
Qed.

(** The arguments with which an operation keeps the rows valid. *)
Definition op_args_ok (db : Db) (op : DeliveryOp) : Prop :=
  match op with
  | OpLifecycle _ _ _ _ => True
  | OpCreate _ fp pid pv topic => is_checksum fp ∧ pid ≠ "" ∧ 1 ≤ pv ∧ topic ≠ ""
  | OpAttempt a => ∀ row, delivery_state db !! at_event_id a = Some row →
      in_i32 (d_attempt_count row + 1)
  | OpConfirm _ _ c => 0 ≤ c_kafka_partition c ∧ 0 ≤ c_kafka_offset c
  | OpBlock _ _ reason => reason ≠ ""
  | OpRetry eid _ _ => ∀ row, delivery_state db !! eid = Some row →
      d_delivery_status row ≠ "DELIVERY_BLOCKED"
  end.

Lemma created_good eid fp pid pv topic now :
  is_checksum fp → pid ≠ "" → 1 ≤ pv → topic ≠ "" →
  delivery_good eid (sealed eid (λ c, pending_record eid fp pid pv topic c now)).
Proof.
  intros Hfp Hp Hv Ht.
  assert (Hr : ∀ c, routing_present (pending_record eid fp pid pv topic c now)).
  { intros c. unfold routing_present, non_empty, at_least; simpl. naive_solver. }
  split; [|apply Hr]. apply sealed_ok; auto; [done|]. intros c. by apply valid_pending; try apply (Hr c).
Qed.

(** An open row has no Kafka position yet. *)
Lemma open_unconfirmed eid row :
  delivery_ok eid row → d_delivery_status row ≠ "REPLICATED" → unconfirmed row.
Proof. intros Hok Hst. by destruct (delivery_ok_valid _ _ Hok). Qed.

Lemma confirmed_good eid row c rev now :
  delivery_good eid row → confirmation_matches row c →
  0 ≤ c_kafka_partition c → 0 ≤ c_kafka_offset c →
  delivery_good eid (sealed eid (λ s, confirmed_state row c rev s now)).
Proof.
  intros [Hok Hr] (_ & _ & _ & Ht) Hp Ho. unfold routing_present in Hr. rewrite Ht in Hr.
  split; [|exact Hr]. apply sealed_ok; auto; [intros ?; apply (dl_fingerprint _ _ Hok)|intros ?; apply (dl_range _ _ Hok)|].
  intros s. apply valid_replicated; try done; simpl; unfold at_least; eauto.
Qed.

Lemma blocked_good eid row reason rev now :
  delivery_good eid row → d_delivery_status row ≠ "REPLICATED" → reason ≠ "" →
  delivery_good eid (sealed eid (λ s, blocked_state row reason rev s now)).
Proof.
  intros [Hok Hr] Hst Hne. split; [|exact Hr].
  apply sealed_ok; auto; [intros ?; apply (dl_fingerprint _ _ Hok)|intros ?; apply (dl_range _ _ Hok)|].
  intros s. apply valid_blocked; try done; simpl; [by exists reason|].
  by apply (open_unconfirmed eid row).
Qed.

Lemma retrying_good eid row t rev now :
  delivery_good eid row → d_delivery_status row ≠ "REPLICATED" →
  d_delivery_status row ≠ "DELIVERY_BLOCKED" →
  delivery_good eid (sealed eid (λ s, retrying_state row t rev s now)).
Proof.
  intros [Hok Hr] Hst Hbl. split; [|exact Hr].
  apply sealed_ok; auto; [intros ?; apply (dl_fingerprint _ _ Hok)|intros ?; apply (dl_range _ _ Hok)|].
  intros s. apply valid_retrying; try done; simpl; [|by apply (open_unconfirmed eid row)].
  by destruct (delivery_ok_valid _ _ Hok).
Qed.

Lemma attempted_good eid row err now :
  delivery_good eid row → in_i32 (d_attempt_count row + 1) →
  delivery_good eid (attempted_row err
    (compute_delivery_checksum (delivery_of_row eid (attempted_state row err now))) now row).
Proof.
  intros [Hok Hr] Hi. split; [|exact Hr]. constructor.
  - exact Hi.
  - apply sha256_length.
  - by apply (dl_fingerprint _ _ Hok).
  - by apply (dl_status _ _ Hok).
  - unfold compute_delivery_checksum, delivery_fields; simpl. by rewrite i32_add_id.
  - apply validate_iff; [by apply (dl_status _ _ Hok)|].
    destruct (delivery_ok_valid _ _ Hok);
      [by apply valid_replicated|by apply valid_pending|by apply valid_retrying|by apply valid_blocked].
Qed.

Lemma good_insert db eid row :
  deliveries_good db → delivery_good eid row → deliveries_good (set_delivery eid row db).
Proof. intros Hg Hr. by apply map_Forall_insert_2. Qed.

Lemma effect_good now db op db' :
  cas_effect now db op db' → deliveries_good db → op_args_ok db op → deliveries_good db'.
Proof.
  intros Heff Hg Hargs. destruct Heff as
    [eid rev nd nr e l _ _|eid fp pid pv topic e He _|a e row He [Hrow _] checksum
    |eid rev c e l row _ [[Hrow _] [_ Hst]] Hc|eid rev reason e l row _ [[Hrow _] [_ Hst]]
    |eid rev t row [[Hrow _] [_ Hst]]]; simpl in Hargs.
  - done.
  - apply good_insert; [done|]. destruct Hargs as (? & ? & ? & ?). by apply created_good.
  - apply (good_insert (attempts_after a db)); [done|].
    by apply attempted_good; [apply Hg|apply Hargs].
  - apply good_insert; [done|]. destruct Hargs. by apply confirmed_good; [apply Hg|..].
  - apply good_insert; [done|]. by apply blocked_good; [apply Hg|..].
  - apply good_insert; [done|]. apply retrying_good; auto.
Qed.

(** ** Final states *)

(** What a confirmation fixed. *)
Definition position (row : DeliveryStateRecord) :=
  (d_delivery_status row, d_kafka_topic row, d_kafka_partition row, d_kafka_offset row,
   d_routing_fingerprint row, d_profile_id row, d_profile_version row,
   d_delivery_revision row, d_confirmed_at_ms row).

Lemma effect_keeps_replicated now db op db' eid row :
  cas_effect now db op db' → delivery_state db !! eid = Some row →
  d_delivery_status row = "REPLICATED" →
  ∃ row', delivery_state db' !! eid = Some row' ∧ position row' = position row.
Proof.
  intros Heff Hrow Hst. destruct Heff as
    [eid' rev nd nr e l _ _|eid' fp pid pv topic e He Hno|a e row' He [Hrow' _] checksum
    |eid' rev c e l row' _ [[Hrow' _] [_ Hst']] Hc|eid' rev reason e l row' _ [[Hrow' _] [_ Hst']]
    |eid' rev t row' [[Hrow' _] [_ Hst']]]; simpl; [by exists row|..].
  all: rewrite lookup_insert; case_decide as Heq; [|by exists row]; try subst eid'.
  all: try (exfalso; congruence).
  rewrite <- Heq in Hrow. rewrite Hrow in Hrow'. injection Hrow' as <-.
  eexists. by split.
Qed.

Lemma accept_keeps_deliveries `{E : Engine} j disk_safe now req log :
  represents (j_conn j) log → req_typed req → length log < i64_max →
  delivery_state (j_conn (accept j disk_safe now req).2) = delivery_state (j_conn j).
Proof.
  intros Hr Ht Hl. destruct (accept_cases j disk_safe now req) as [Ha|[-> _]]; [|done].
  rewrite accept_admissible by done. simpl.
  by destruct (accept_post_run (j_conn j) log req now Hr Ht Hl)
    as [(res & log' & _ & _ & _ & -> & _)|(_ & _ & ->)].
Qed.

Lemma step_keeps_replicated j j' log eid row :
  journal_step j j' → represents (j_conn j) log → length log < i64_max →
  delivery_state (j_conn j) !! eid = Some row → d_delivery_status row = "REPLICATED" →
  ∃ row', delivery_state (j_conn j') !! eid = Some row' ∧ position row' = position row.
Proof.
  intros [E disk_safe now req j0 Ht|E op now j0|j0|config j0] Hr Hl Hrow Hst; simpl; [|..].
  - rewrite (accept_keeps_deliveries _ _ _ _ _ Hr Ht Hl). by exists row.
  - destruct (run_op_cases op now (j_conn j0)) as [[_ He]|[_ ->]]; [|by exists row].
    by apply (effect_keeps_replicated _ _ _ _ _ _ He).
  - by exists row.
  - by exists row.
Qed.

Lemma steps_keep_replicated n j j' log eid row :
  nsteps journal_step n j j' → represents (j_conn j) log → length log + n ≤ i64_max →
  delivery_state (j_conn j) !! eid = Some row → d_delivery_status row = "REPLICATED" →
  ∃ row', delivery_state (j_conn j') !! eid = Some row' ∧ position row' = position row.
Proof.
  intros Hn. revert log row. induction Hn as [j|n j j1 j2 Hs _ IH]; intros log row Hr Hl Hrow Hst.
  { by exists row. }
  destruct (step_keeps_replicated _ _ _ _ _ Hs Hr ltac:(lia) Hrow Hst) as (row1 & Hrow1 & Hp1).
  destruct (step_represents _ _ _ Hs Hr ltac:(lia)) as (new & Hnew & Hr1).
  destruct (IH _ row1 Hr1) as (row2 & Hrow2 & Hp2); [rewrite length_app; lia|done| |].
  { unfold position in Hp1. congruence. }
  exists row2. split; [done|congruence].
Qed.

(** ** One winner *)

(** The delivery revision an operation competes for. *)
Definition competes_for (op : DeliveryOp) : option (string * Z) :=
  match op with
  | OpConfirm eid rev _ | OpBlock eid rev _ | OpRetry eid rev _ => Some (eid, rev)
  | _ => None
  end.

(** A transition moves the revision of a row forward by at most one, and a
    competing one from the revision it expects. *)
Lemma effect_revision now db op db' eid row :
  cas_effect now db op db' → delivery_state db !! eid = Some row →
  d_delivery_revision row < i64_max → 0 ≤ d_delivery_revision row →
  ∃ row', delivery_state db' !! eid = Some row' ∧
    d_delivery_revision row ≤ d_delivery_revision row' ≤ d_delivery_revision row + 1 ∧
    ∀ rev, competes_for op = Some (eid, rev) →
      d_delivery_revision row = rev ∧ d_delivery_revision row' = rev + 1.
Proof.
  intros Heff Hrow Hmax Hmin. destruct Heff as
    [eid' rev nd nr e l _ _|eid' fp pid pv topic e He Hno|a e row' He [Hrow' _] checksum
    |eid' rev c e l row' _ [[Hrow' _] [Hrev _]] Hc|eid' rev reason e l row' _ [[Hrow' _] [Hrev _]]
    |eid' rev t row' [[Hrow' _] [Hrev _]]]; simpl;
    [exists row; split; [done|]; split; [lia|done]|..].
  all: rewrite lookup_insert; case_decide as Heq;
    [|exists row; split; [done|]; split; [lia|]; intros ? [=]; done].
  all: try (subst eid'; rewrite Hrow in *; simplify_eq).
  - rewrite Heq in Hrow'. simplify_eq. eexists. split; [done|]. simpl. split; [lia|done].
  - eexists. split; [done|]. simpl. rewrite i64_add_id by rlia.
    split; [lia|]. by intros ? [= <-].
  - eexists. split; [done|]. simpl. rewrite i64_add_id by rlia.
    split; [lia|]. by intros ? [= <-].
  - eexists. split; [done|]. simpl. rewrite i64_add_id by rlia.
    split; [lia|]. by intros ? [= <-].
Qed.
End DeliverySafety.

Lemma good_delivery_found `{Sha256} `{E : Engine} db eid row :
  reliable E → deliveries_good db → delivery_state db !! eid = Some row →
  get_delivery_state eid db = DeliveryFound (delivery_of_row eid row).
Proof.
  intros HE Hg Hrow. unfold get_delivery_state. apply (wp_run_auto _ (λ r _, r = _)).
  apply (wp_load_delivery_ok eid row (λ r _, r = _) (mkSess db db 0)); [|..|done].
  - split; [done|]. by apply Hg.
  - intros e s' Hf. by apply reliable_not_faulty in HE.
Qed.

(** C22. Valid delivery rows stay valid.  An operation whose arguments are
    sensible -- a non-empty topic, profile and reason, a Kafka position that is
    not negative, an attempt counter that does not overflow, no retry of a
    blocked delivery -- leaves every delivery row readable: whatever fails, a
    later read of a working store finds each row, its checksum and the
    invariants of its status verified. *)
Theorem deliveries_stay_valid (S : Sha256) (E E' : Engine) (op : DeliveryOp) (now : Z) (db : Db) :
  @Sha256Ok S → deliveries_good db → op_args_ok db op → reliable E' →
  let db' := (@run_op S E op now db).2 in
  deliveries_good db' ∧
  ∀ eid row, delivery_state db' !! eid = Some row →
    @get_delivery_state S E' eid db' = DeliveryFound (delivery_of_row eid row) ∧
    delivery_valid (delivery_of_row eid row).
Proof.
  intros HS Hg Ha HE db'. assert (Hg' : deliveries_good db').
  { unfold db'. destruct (@run_op_cases S E op now db) as [[_ He]|[_ ->]]; [|done].
    by apply (effect_good _ _ _ _ He). }
  split; [done|]. intros eid row Hrow. split; [by apply good_delivery_found|].
  apply delivery_ok_valid. by apply Hg'.
Qed.

(** C11. Confirmation is final.  Once a delivery is [REPLICATED], no sequence of
    operations, with whatever arguments and failures, changes its status, its
    topic, partition and offset, its routing, its revision or its time of
    confirmation. *)
Theorem replicated_terminal (S : Sha256) (n : nat) (j j' : LocalJournal)
    (log : list AcceptRequest) (eid : string) (row : DeliveryStateRecord) :
  @Sha256Ok S → represents (j_conn j) log → length log + n ≤ i64_max →
  nsteps journal_step n j j' →
  delivery_state (j_conn j) !! eid = Some row → d_delivery_status row = "REPLICATED" →
  ∃ row', delivery_state (j_conn j') !! eid = Some row' ∧ position row' = position row.
Proof. intros HS Hr Hl Hn. by apply (steps_keep_replicated n j j' log). Qed.

Lemma step_revision `{Sha256} `{!Sha256Ok} j j' log eid row :
  journal_step j j' → represents (j_conn j) log → length log < i64_max →
  delivery_state (j_conn j) !! eid = Some row →
  0 ≤ d_delivery_revision row < i64_max →
  ∃ row', delivery_state (j_conn j') !! eid = Some row' ∧
    d_delivery_revision row ≤ d_delivery_revision row' ≤ d_delivery_revision row + 1.
Proof.
  intros [E disk_safe now req j0 Ht|E op now j0|j0|config j0] Hr Hl Hrow Hb; simpl.
  - rewrite (accept_keeps_deliveries _ _ _ _ _ Hr Ht Hl). exists row. split; [done|lia].
  - destruct (run_op_cases op now (j_conn j0)) as [[_ He]|[_ ->]].
    2: { exists row. split; [done|lia]. }
    destruct (effect_revision _ _ _ _ _ _ He Hrow) as (row' & ? & ? & _); [lia..|].
    by exists row'.
  - exists row. split; [done|lia].
  - exists row. split; [done|lia].
Qed.

Lemma steps_revision `{Sha256} `{!Sha256Ok} n j j' log eid row :
  nsteps journal_step n j j' → represents (j_conn j) log → length log + n ≤ i64_max →
  delivery_state (j_conn j) !! eid = Some row →
  0 ≤ d_delivery_revision row → d_delivery_revision row + n ≤ i64_max →
  ∃ row', delivery_state (j_conn j') !! eid = Some row' ∧
    d_delivery_revision row ≤ d_delivery_revision row' ≤ d_delivery_revision row + n.
Proof.
  intros Hn. revert log row. induction Hn as [j|n j j1 j2 Hs _ IH]; intros log row Hr Hl Hrow Hz Hz1.
  { exists row. split; [done|lia]. }
  destruct (step_revision _ _ _ _ _ Hs Hr ltac:(lia) Hrow ltac:(lia)) as (row1 & Hrow1 & Hp1).
  destruct (step_represents _ _ _ Hs Hr ltac:(lia)) as (new & Hnew & Hr1).
  destruct (IH _ row1 Hr1) as (row2 & Hrow2 & Hp2); [rewrite length_app; lia|done|lia|lia|].
  exists row2. split; [done|lia].
Qed.

Lemma competing_row `{Sha256} now db op db' eid rev :
  cas_effect now db op db' → competes_for op = Some (eid, rev) →
  ∃ row, delivery_state db !! eid = Some row ∧ d_delivery_revision row = rev.
Proof.
  intros Heff Hc. destruct Heff as
    [| | |eid' rev' c e l row _ [[Hrow _] [Hrev _]] _|eid' rev' reason e l row _ [[Hrow _] [Hrev _]]
    |eid' rev' t row [[Hrow _] [Hrev _]]]; try done; injection Hc as -> ->; by exists row.
Qed.

(** C12. Competing transitions have one winner.  If a confirmation, a block or a
    retry of a delivery answered [Updated], then no later call for the same
    expected revision does, whatever other calls happen in between and whatever
    fails. *)
Theorem single_winner (S : Sha256) (E1 E2 : Engine) (op1 op2 : DeliveryOp) (now1 now2 : Z)
    (n : nat) (j j2 : LocalJournal) (log : list AcceptRequest) (eid : string) (rev : Z) :
  @Sha256Ok S → represents (j_conn j) log → length log + n ≤ i64_max →
  0 ≤ rev → rev + 1 + n ≤ i64_max →
  competes_for op1 = Some (eid, rev) → competes_for op2 = Some (eid, rev) →
  (@run_op S E1 op1 now1 (j_conn j)).1 = Updated →
  nsteps journal_step n (set_conn j (@run_op S E1 op1 now1 (j_conn j)).2) j2 →
  (@run_op S E2 op2 now2 (j_conn j2)).1 ≠ Updated.
Proof.
  intros HS Hr Hl H0 Hrev Hc1 Hc2 Hup Hn Hup2.
  destruct (@run_op_cases S E1 op1 now1 (j_conn j)) as [[_ He1]|[? _]]; [|done].
  destruct (@run_op_cases S E2 op2 now2 (j_conn j2)) as [[_ He2]|[? _]]; [|done].
  destruct (competing_row _ _ _ _ _ _ He1 Hc1) as (row & Hrow & Hr0).
  destruct (effect_revision _ _ _ _ _ _ He1 Hrow) as (row1 & Hrow1 & _ & Hcomp); [lia..|].
  destruct (Hcomp rev Hc1) as [_ Hr1].
  destruct (competing_row _ _ _ _ _ _ He2 Hc2) as (row2 & Hrow2 & Hr2).
  pose proof (@run_op_represents _ _ E1 op1 now1 _ _ Hr) as Hrep.
  destruct (steps_revision _ _ _ _ _ row1 Hn Hrep Hl Hrow1) as (row3 & Hrow3 & Hr3); [lia..|].
  simpl in *. rewrite Hrow2 in Hrow3. injection Hrow3 as <-. lia.
Qed.

(** ** Repeated confirmations *)
Lemma confirm_replicated_again `{Sha256} `{E : Engine} eid rev c now db e l row :
  reliable E → event_rows db eid e l → l_delivery_status l = "REPLICATED" →
  delivery_row db eid row → d_delivery_status row = "REPLICATED" →
  confirm_replicated_delivery eid rev c now db =
  (if same_confirmation (delivery_of_row eid row) c then AlreadyConfirmed
   else CasCorrupted eid "conflicting replicated confirmation metadata", db).
Proof.
  intros HE Hrows Hl Hrow Hst. apply reliable_not_faulty in HE.
  unfold confirm_replicated_delivery. rewrite (surjective_pairing (run_tx _ _)).
  apply (wp_run_tx _ (λ r d, (r, d) = _)). unfold confirm_replicated_delivery_body.
  apply wp_bind. wp_step; [done|].
  apply wp_bind, (wp_load_delivery_ok eid row); [done|by intros|].
  intros s1 [Hw1 Hb1]. simpl. rewrite bool_decide_eq_true_2 by done.
  unfold confirm_again, load_verified_lifecycle_for_transition. do 2 apply wp_bind.
  destruct Hrows as [He Hlc Hev Hlok].
  apply (wp_get_status_ok eid e l); [by rewrite Hw1|by rewrite Hw1|done|done|by intros|].
  intros s2 [Hw2 Hb2]. apply wp_ret. simpl. rewrite Hl. simpl.
  destruct (same_confirmation _ _); apply wp_ret; by rewrite Hb2, Hb1.
Qed.

Lemma same_confirmed eid row c rev s now c' :
  confirmation_matches row c →
  same_confirmation (delivery_of_row eid (confirmed_state row c rev s now)) c' = true ↔ c' = c.
Proof.
  intros (Hf & Hp & Hv & _). unfold same_confirmation. simpl. rewrite Hf, Hp, Hv.
  rewrite !andb_true_iff, !bool_decide_eq_true. destruct c, c'; simpl. split; [|by intros [=]; subst].
  intros (((((?&?)&?)&?)&?)&?). congruence.
Qed.

(** Confirmation is idempotent.  After a confirmation answered [Updated],
    a repeated confirmation of the same Kafka position answers
    [AlreadyConfirmed] whatever revision it expects, any other confirmation of
    the event is reported as corruption, and neither changes the journal. *)
Theorem confirm_idempotent (S : Sha256) (E E' : Engine) (eid : string) (rev rev' now now' : Z)
    (c c' : ReplicatedDeliveryConfirmation) (db : Db) :
  @Sha256Ok S → deliveries_good db → 0 ≤ c_kafka_partition c → 0 ≤ c_kafka_offset c →
  (@confirm_replicated_delivery S E eid rev c now db).1 = Updated → reliable E' →
  let db' := (@confirm_replicated_delivery S E eid rev c now db).2 in
  (c' = c → @confirm_replicated_delivery S E' eid rev' c' now' db' = (AlreadyConfirmed, db')) ∧
  (c' ≠ c → @confirm_replicated_delivery S E' eid rev' c' now' db' =
     (CasCorrupted eid "conflicting replicated confirmation metadata", db')).
Proof.
  intros HS Hg Hp Ho Hup HE db'.
  destruct (@run_op_cases S E (OpConfirm eid rev c) now db) as [[_ Heff]|[? _]]; [|done].
  fold db' in Heff. simpl in Heff. fold db' in Heff. clearbody db'.
  inversion Heff as [| | |??? e l row [He Hl Hev Hlok] [[Hrow Hok] Hopen] Hm| |]; subst.
  set (row' := sealed eid _) in *. set (l' := moved_lifecycle _ _ _ _) in *.
  pose proof (same_confirmed eid row c (i64_add rev 1)
    (compute_delivery_checksum (delivery_of_row eid (confirmed_state row c (i64_add rev 1) [] now)))
    now c' Hm) as Hsame.
  rewrite (@confirm_replicated_again S E' eid rev' c' now' _ e l' row'); [|done| |done| |done].
  - destruct (same_confirmation (delivery_of_row eid row') c') eqn:Hs; split; try done;
      intros Hc; exfalso.
    + by apply Hc, Hsame.
    + apply Hsame in Hc. unfold row', sealed in Hs. congruence.
  - split; simpl; [done|by rewrite lookup_insert_eq|done|by apply moved_lifecycle_ok].
  - split; simpl; [by rewrite lookup_insert_eq|].
    apply (confirmed_good eid row c (i64_add rev 1) now); auto.
Qed.

(** ** Bounded attempts *)
#[export] Instance Z_ge_total : Total Z.ge.
Proof. intros x y. lia. Qed.

Section Prune.
Context {R : Type} (key : R → string) (id : R → Z) (eid : string) (keep : nat).
Context (rows : list R) (Hnodup : NoDup (id <$> rows)).

Let mine : list R := filter (λ r, key r = eid) rows.
Let ids : list Z := merge_sort Z.ge (id <$> mine).

Lemma id_inj x y : x ∈ rows → y ∈ rows → id x = id y → x = y.
Proof.
  intros [i Hi]%list_elem_of_lookup [k Hk]%list_elem_of_lookup Heq.
  assert (i = k) as ->; [|congruence].
  apply (NoDup_lookup (id <$> rows) i k (id x)); [done|..]; rewrite list_lookup_fmap;
    [by rewrite Hi|by rewrite Hk, Heq].
Qed.

Lemma ids_nodup : NoDup ids.
Proof.
  unfold ids. rewrite merge_sort_Permutation. unfold mine.
  apply (NoDup_fmap_2_strong id); [|apply NoDup_filter; by eapply NoDup_fmap_1].
  intros x y Hx Hy. apply list_elem_of_filter in Hx as [_ Hx], Hy as [_ Hy]. by apply id_inj.
Qed.

(** At most [keep] rows of the event are left. *)
Lemma prune_bounded :
  (length (filter (λ r, key r = eid) (prune key id eid keep rows)) ≤ keep)%nat.
Proof.
  set (left := filter (λ r, key r = eid) (prune key id eid keep rows)).
  assert (Hnd : NoDup (id <$> left)).
  { apply (NoDup_fmap_2_strong id).
    - intros x y Hx Hy. unfold left, prune in *.
      rewrite !list_elem_of_filter in *. apply id_inj; naive_solver.
    - apply NoDup_filter, NoDup_filter. by eapply NoDup_fmap_1. }
  assert (Hsub : id <$> left ⊆ take keep ids).
  { intros z (x & -> & Hx)%list_elem_of_fmap. unfold left, prune in Hx.
    rewrite !list_elem_of_filter in Hx. destruct Hx as (Hk & Hold & Hx).
    assert (Hin : id x ∈ ids).
    { unfold ids. rewrite merge_sort_Permutation. apply list_elem_of_fmap. exists x.
      split; [done|]. by apply list_elem_of_filter. }
    rewrite <- (take_drop keep ids) in Hin. by apply elem_of_app in Hin as [?|?]. }
  rewrite <- (length_fmap id). etrans; [by apply submseteq_length, NoDup_submseteq|].
  rewrite length_take. lia.
Qed.

(** The rows of other events stay. *)
Lemma prune_others x : x ∈ rows → key x ≠ eid → x ∈ prune key id eid keep rows.
Proof.
  intros Hx Hk. unfold prune. apply list_elem_of_filter. split; [|done]. intros Hold.
  assert (Hin : id x ∈ ids).
  { rewrite <- (take_drop keep ids). apply elem_of_app. by right. }
  unfold ids in Hin. rewrite merge_sort_Permutation in Hin.
  apply list_elem_of_fmap in Hin as (y & Hid & Hy). apply list_elem_of_filter in Hy as [Hky Hy].
  by rewrite (id_inj x y Hx Hy Hid) in Hk.
Qed.

(** The newest row of the event stays. *)
Lemma prune_newest x :
  x ∈ rows → (0 < keep)%nat → (∀ y, y ∈ rows → id y ≤ id x) → x ∈ prune key id eid keep rows.
Proof.
  intros Hx Hkeep Hmax. unfold prune. apply list_elem_of_filter. split; [|done].
  change (id x ∉ drop keep ids). intros Hold.
  assert (Hs : StronglySorted Z.ge ids).
  { apply Sorted_StronglySorted; [intros ???; lia|]. apply (Sorted_merge_sort Z.ge). }
  pose proof ids_nodup as Hnd.
  assert (Hall : ∀ z, z ∈ ids → z ≤ id x).
  { intros z. unfold ids. rewrite merge_sort_Permutation.
    intros (y & -> & Hy)%list_elem_of_fmap. apply list_elem_of_filter in Hy as [_ Hy]. auto. }
  destruct ids as [|z zs]; [by rewrite drop_nil in Hold; apply not_elem_of_nil in Hold|].
  destruct keep as [|k]; [lia|]. simpl in Hold.
  assert (Hin : id x ∈ zs).
  { rewrite <- (take_drop k zs). apply elem_of_app. by right. }
  inversion Hs as [|?? _ Hge]; subst. rewrite Forall_forall in Hge.
  assert (id x = z) as Heq.
  { pose proof (Hge _ Hin). specialize (Hall z ltac:(by left)). lia. }
  apply NoDup_cons_1_1 in Hnd. by rewrite Heq in Hin.
Qed.
End Prune.

Lemma length_filter_filter {A} (P Q : A → Prop) `{∀ x, Decision (P x), ∀ x, Decision (Q x)} l :
  (length (filter P (filter Q l)) ≤ length (filter P l))%nat.
Proof.
  induction l as [|x l IH]; [done|]. rewrite (filter_cons Q). case_decide.
  - rewrite !(filter_cons P). case_decide; simpl; lia.
  - rewrite (filter_cons P). case_decide; simpl; lia.
Qed.

Definition attempts_of (eid : string) (db : Db) : list DeliveryAttemptRow :=
  filter (λ r, at_event_id (da_record r) = eid) (delivery_attempt db).

(** Ids are unique and below the counter; every event has at most sixteen. *)
Record attempts_wf (db : Db) : Prop := {
  aw_nodup : NoDup (da_id <$> delivery_attempt db);
  aw_ids : ∀ r, r ∈ delivery_attempt db → da_id r ≤ delivery_attempt_seq db;
  aw_bound : ∀ eid, (length (attempts_of eid db) ≤ MAX_DELIVERY_ATTEMPTS)%nat
}.

Lemma new_attempt_nodup a (rows : list DeliveryAttemptRow) seq :
  NoDup (da_id <$> rows) → (∀ r, r ∈ rows → da_id r ≤ seq) →
  NoDup (da_id <$> rows ++ [mkAttemptRow (seq + 1) a]).
Proof.
  intros Hnd Hids. rewrite fmap_app. apply NoDup_app. split; [done|].
  split; [|apply NoDup_singleton]. intros z (r & -> & Hr)%list_elem_of_fmap Hz.
  apply list_elem_of_singleton in Hz. apply Hids in Hr. simpl in Hz. lia.
Qed.

Lemma attempts_after_wf a db : attempts_wf db → attempts_wf (attempts_after a db).
Proof.
  intros [Hnd Hids Hb]. unfold attempts_after.
  set (new := mkAttemptRow (delivery_attempt_seq db + 1) a).
  set (rows := delivery_attempt db ++ [new]).
  assert (Hnd' : NoDup (da_id <$> rows)) by by apply new_attempt_nodup.
  constructor; simpl; fold new; fold rows.
  - unfold prune. eapply sublist_NoDup; [exact Hnd'|]. apply fmap_sublist, sublist_filter.
  - intros r [_ Hr]%list_elem_of_filter. unfold rows in Hr.
    apply elem_of_app in Hr as [Hr| ->%list_elem_of_singleton]; [|done].
    apply Hids in Hr. lia.
  - intros eid. unfold attempts_of. simpl. fold new. fold rows.
    destruct (decide (at_event_id a = eid)) as [<-|Hne]; [by apply prune_bounded|].
    etrans; [|apply (Hb eid)]. unfold prune, attempts_of. etrans; [apply length_filter_filter|].
    unfold rows. rewrite filter_app, filter_cons_False by done. rewrite app_nil_r. done.
Qed.

Lemma effect_attempts now db op db' `{Sha256} :
  cas_effect now db op db' → attempts_wf db → attempts_wf db'.
Proof.
  intros Heff Hwf. destruct Heff; try (destruct Hwf; by constructor).
  destruct (attempts_after_wf a db Hwf). by constructor.
Qed.

(** The attempts kept are bounded.  Every operation, whatever fails, keeps
    at most sixteen attempts per event; a recorded attempt is among them, and
    recording one never drops an attempt of another event. *)
Theorem attempts_bounded (S : Sha256) (E : Engine) (op : DeliveryOp) (now : Z) (db : Db) :
  attempts_wf db →
  let db' := (run_op op now db).2 in
  attempts_wf db' ∧
  ∀ a, op = OpAttempt a → (run_op op now db).1 = Updated →
    mkAttemptRow (delivery_attempt_seq db + 1) a ∈ attempts_of (at_event_id a) db' ∧
    ∀ eid, eid ≠ at_event_id a → attempts_of eid db ⊆ attempts_of eid db'.
Proof.
  intros Hwf db'. unfold db'. destruct (run_op_cases op now db) as [[Hup He]|[Hno ->]].
  2: { split; [done|]. intros a _ Hup. done. }
  split; [by apply (effect_attempts _ _ _ _ He)|]. intros a -> _.
  clear db' Hup. revert He. generalize (run_op (OpAttempt a) now db).2 as db'. intros db' He.
  inversion He as [| |? e row Henv Hrow checksum| | |]; subst.
  unfold attempts_of. simpl. destruct Hwf as [Hnd Hids _].
  set (new := mkAttemptRow (delivery_attempt_seq db + 1) a).
  set (rows := delivery_attempt db ++ [new]).
  assert (Hnd' : NoDup (da_id <$> rows)) by by apply new_attempt_nodup.
  split.
  - apply list_elem_of_filter. split; [done|].
    apply prune_newest; [done|apply elem_of_app; right; by left|unfold MAX_DELIVERY_ATTEMPTS; lia|].
    intros y [Hy| ->%list_elem_of_singleton]%elem_of_app; [|done]. apply Hids in Hy. simpl. lia.
  - intros eid Hne r [Hk Hr]%list_elem_of_filter. apply list_elem_of_filter. split; [done|].
    apply prune_others; [done|apply elem_of_app; by left|congruence].
Qed.

(** ** Examples *)
Definition sample_fingerprint : Checksum :=
  @sha256 sample_sha256 (bytes_of (routing_canonical (route_of_request (sample_request "e1" 1)))).

Definition sample_create : DeliveryOp :=
  OpCreate "e1" sample_fingerprint "p0" 1 "craftrelay.inst-a.economy.events".

(** The database with the delivery of the sample event pending. *)
Definition sample_pending : Db :=
  (@run_op sample_sha256 sample_engine sample_create 8 sample_db).2.

Definition sample_confirmation : ReplicatedDeliveryConfirmation :=
  mkConfirmation sample_fingerprint "p0" 1 "craftrelay.inst-a.economy.events" 0 42.

Definition sample_confirm : DeliveryOp := OpConfirm "e1" 1 sample_confirmation.

(** The same after its confirmation. *)
Definition sample_replicated : Db :=
  (@run_op sample_sha256 sample_engine sample_confirm 9 sample_pending).2.

Lemma sample_db_good : @deliveries_good sample_sha256 sample_db.
Proof. apply map_Forall_empty. Qed.

Lemma sample_create_args db : op_args_ok db sample_create.
Proof. by repeat split. Qed.

Lemma sample_pending_good : @deliveries_good sample_sha256 sample_pending.
Proof.
  destruct (@run_op_cases sample_sha256 sample_engine sample_create 8 sample_db) as [[_ He]|[Hno _]].
  - apply (@effect_good sample_sha256 sample_sha256_ok _ _ _ _ He);
      [apply sample_db_good|apply sample_create_args].
  - by destruct Hno.
Qed.

Lemma sample_replicated_good : @deliveries_good sample_sha256 sample_replicated.
Proof.
  destruct (@run_op_cases sample_sha256 sample_engine sample_confirm 9 sample_pending)
    as [[_ He]|[Hno _]].
  - apply (@effect_good sample_sha256 sample_sha256_ok _ _ _ _ He); [apply sample_pending_good|done].
  - by destruct Hno.
Qed.

Lemma sample_pending_represents : @represents sample_sha256 sample_pending [sample_request "e1" 1].
Proof.
  apply (@run_op_represents sample_sha256 sample_sha256_ok sample_engine), sample_db_represents.
Qed.

Lemma sample_replicated_represents :
  @represents sample_sha256 sample_replicated [sample_request "e1" 1].
Proof.
  apply (@run_op_represents sample_sha256 sample_sha256_ok sample_engine), sample_pending_represents.
Qed.

Lemma sample_replicated_row :
  ∃ row, delivery_state sample_replicated !! "e1" = Some row ∧
         d_delivery_status row = "REPLICATED".
Proof. eexists. split; [vm_compute; reflexivity|reflexivity]. Defined.

Lemma deliveries_stay_valid_witness :
  @deliveries_good sample_sha256
    (@run_op sample_sha256 (failing_engine 4) sample_confirm 9 sample_pending).2.
Proof.
  refine (proj1 (deliveries_stay_valid sample_sha256 (failing_engine 4) sample_engine
    sample_confirm 9 sample_pending _ _ _ _)).
  - exact sample_sha256_ok.
  - exact sample_pending_good.
  - split; discriminate.
  - exact sample_reliable.
Defined.

Lemma replicated_terminal_witness :
  ∃ row', delivery_state (@run_op sample_sha256 sample_engine (OpBlock "e1" 2 "x") 10
                            sample_replicated).2 !! "e1" = Some row' ∧
          d_delivery_status row' = "REPLICATED".
Proof.
  destruct sample_replicated_row as (row & Hrow & Hst).
  destruct (replicated_terminal sample_sha256 1 (mkJournal sample_replicated default_config false false)
    (set_conn (mkJournal sample_replicated default_config false false)
       (@run_op sample_sha256 sample_engine (OpBlock "e1" 2 "x") 10 sample_replicated).2)
    [sample_request "e1" 1] "e1" row) as (row' & Hrow' & Hp).
  - exact sample_sha256_ok.
  - exact sample_replicated_represents.
  - done.
  - apply nsteps_once.
    exact (@step_op sample_sha256 sample_engine (OpBlock "e1" 2 "x") 10
             (mkJournal sample_replicated default_config false false)).
  - exact Hrow.
  - exact Hst.
  - exists row'. split; [exact Hrow'|]. unfold position in Hp. congruence.
Defined.

Lemma single_winner_witness :
  (@run_op sample_sha256 sample_engine (OpBlock "e1" 1 "late") 10 sample_replicated).1 ≠ Updated.
Proof.
  apply (single_winner sample_sha256 sample_engine sample_engine sample_confirm
    (OpBlock "e1" 1 "late") 9 10 0 (mkJournal sample_pending default_config false false)
    (mkJournal sample_replicated default_config false false) [sample_request "e1" 1] "e1" 1).
  - exact sample_sha256_ok.
  - exact sample_pending_represents.
  - done.
  - done.
  - done.
  - reflexivity.
  - reflexivity.
  - vm_compute. reflexivity.
  - apply nsteps_O.
Defined.

Lemma confirm_idempotent_witness :
  @confirm_replicated_delivery sample_sha256 sample_engine "e1" 1 sample_confirmation 11
    sample_replicated = (AlreadyConfirmed, sample_replicated).
Proof.
  refine (proj1 (confirm_idempotent sample_sha256 sample_engine sample_engine "e1" 1 1 9 11
    sample_confirmation sample_confirmation sample_pending _ _ _ _ _ _) eq_refl).
  - exact sample_sha256_ok.
  - exact sample_pending_good.
  - discriminate.
  - discriminate.
  - vm_compute. reflexivity.
  - exact sample_reliable.
Defined.

Lemma sample_pending_attempts : attempts_wf sample_pending.
Proof.
  constructor; simpl; [apply NoDup_nil_2|intros r Hr; by apply not_elem_of_nil in Hr|].
  intros eid. vm_compute. lia.
Qed.

Lemma attempts_bounded_witness :
  attempts_wf (@run_op sample_sha256 sample_engine (OpAttempt (mkAttempt "e1" 1 "FAILED"
    (Some "timeout") None None None None None 9)) 9 sample_pending).2.
Proof.
  refine (proj1 (attempts_bounded sample_sha256 sample_engine (OpAttempt (mkAttempt "e1" 1 "FAILED"
    (Some "timeout") None None None None None 9)) 9 sample_pending _)).
  exact sample_pending_attempts.
Defined.
