(* ===== verification/JournalScan.v ===== *)
(** * Delivery scans (crates/craftrelay-journal/src/lib.rs)

    The three scans that feed the delivery loop: pending deliveries, retries
    that are due, and the states the ordering gate is rebuilt from.  Each joins
    the delivery rows with their envelopes, orders and limits them in SQL and
    verifies every row it returns.

    SQL leaves the order of rows that compare equal to the engine; the order in
    which the engine visits the delivery rows is the class [RowOrder]. *)
From S2P Require Import Prelude Checksum JournalDb JournalCore JournalAccept SqlLogic.
From S2P Require Import JournalLog JournalReads JournalDelivery JournalTransitions.
From S2P Require Import JournalSafety DeliverySafety.
Open Scope Z_scope.
#[local] Coercion Z.of_nat : nat >-> Z.

Class RowOrder :=
  row_order : gmap string DeliveryStateRecord → list (string * DeliveryStateRecord).
Class RowOrderOk `{RowOrder} := row_order_perm t : row_order t ≡ₚ map_to_list t.

(** [DeliveryScanRow]: the columns of the envelope are NULL when the LEFT JOIN
    finds none. *)
Record DeliveryScanRow : Type := mkScanRow {
  sr_event_id : string;
  sr_journal_sequence : option Z;
  sr_stream_key : option string;
  sr_stream_sequence : option Z;
  sr_envelope_checksum : option (list byte);
  sr_delivery_status : string;
  sr_attempt_count : Z;
  sr_next_retry_at_ms : option Z
}.

(** [delivery_state d LEFT JOIN stored_envelope e ON d.event_id = e.event_id] *)
Definition left_join (db : Db) (p : string * DeliveryStateRecord) : DeliveryScanRow :=
  let e := stored_envelope db !! p.1 in
  mkScanRow p.1 (e_journal_sequence <$> e) (e_stream_key <$> e) (e_stream_sequence <$> e)
    (e_envelope_checksum <$> e) (d_delivery_status p.2) (d_attempt_count p.2)
    (d_next_retry_at_ms p.2).

(** [ORDER BY .. ASC]: NULL comes first. *)
Definition null_first (a b : option Z) : Prop :=
  match a, b with
  | None, _ => True
  | Some _, None => False
  | Some x, Some y => x ≤ y
  end.

#[export] Instance null_first_dec a b : Decision (null_first a b).
Proof. destruct a, b; simpl; apply _. Defined.

#[export] Instance null_first_total : Total null_first.
Proof. intros [a|] [b|]; simpl; try tauto. lia. Qed.

#[export] Instance null_first_trans : Transitive null_first.
Proof. intros [a|] [b|] [c|]; simpl; try tauto. lia. Qed.

(** [LIMIT n]: a negative limit is no limit. *)
Definition sql_limit {A} (n : Z) (l : list A) : list A :=
  if n <? 0 then l else take (Z.to_nat n) l.

Section Scan.
Context `{Sha256} `{Engine} `{RowOrder}.

(** [SELECT .. WHERE sel ORDER BY key ASC LIMIT limit] *)
Definition select_rows (sel : DeliveryScanRow → bool) (key : DeliveryScanRow → option Z)
    (limit : Z) (db : Db) : list DeliveryScanRow :=
  sql_limit limit
    (merge_sort (λ a b, null_first (key a) (key b))
       (filter sel (left_join db <$> row_order (delivery_state db)))).

Definition missing_envelope : string := "stored envelope missing for delivery scan".

Definition verify_delivery_scan_envelope (row : DeliveryScanRow)
  : Sql (result PendingDelivery (string * string)) :=
  let event_id := sr_event_id row in
  match sr_journal_sequence row, sr_stream_key row, sr_stream_sequence row,
        sr_envelope_checksum row with
  | Some journal_sequence, Some stream_key, Some stream_sequence, Some envelope_checksum =>
      if negb (length envelope_checksum =? 32)%nat then
        mret (Err (event_id, "envelope checksum length " +:+
                    to_string (length envelope_checksum) +:+ ", expected 32"))
      else
        try expected ← recompute_envelope_checksum_from_row event_id
          catch detail => mret (Err (event_id, detail)) in
        if bool_decide (envelope_checksum = expected) then
          mret (Ok (mkPending event_id journal_sequence stream_key stream_sequence
            (sr_delivery_status row) (sr_attempt_count row) (sr_next_retry_at_ms row)))
        else mret (Err (event_id, "envelope checksum mismatch"))
  | _, _, _, _ => mret (Err (event_id, missing_envelope))
  end.

(** The step of the row iterator; it may fail, also after the last row. *)
Definition next_row : Sql (result unit string) := statement (λ db, Ok (tt, db)).

(** The loop of [collect_delivery_scan]. *)
Fixpoint collect_rows (rows : list DeliveryScanRow) (deliveries : list PendingDelivery)
  : Sql DeliveryScanResult :=
  try _ ← next_row
    catch e => mret (ScanCorrupted None ("delivery scan row conversion error: " +:+ e)) in
  match rows with
  | [] => mret (ScanOk deliveries)
  | pending :: rest =>
      ds ← load_delivery_state (sr_event_id pending);
      match ds with
      | DeliveryNotFound =>
          mret (ScanCorrupted (Some (sr_event_id pending))
                  "delivery state disappeared during scan")
      | DeliveryCorrupted event_id detail => mret (ScanCorrupted (Some event_id) detail)
      | DeliveryError e => mret (ScanError e)
      | DeliveryFound _ =>
          v ← verify_delivery_scan_envelope pending;
          match v with
          | Ok p => collect_rows rest (deliveries ++ [p])
          | Err (event_id, detail) => mret (ScanCorrupted (Some event_id) detail)
          end
      end
  end.

Definition collect_delivery_scan (rows : result (list DeliveryScanRow) string)
  : Sql DeliveryScanResult :=
  match rows with
  | Err e => mret (ScanError e)
  | Ok rows => collect_rows rows []
  end.

(** [prepare], [query_map] and the collection. *)
Definition scan_body (sel : DeliveryScanRow → bool) (key : DeliveryScanRow → option Z)
    (limit : Z) : Sql DeliveryScanResult :=
  try _ ← statement (λ db, Ok (tt, db)) catch e => mret (ScanError e) in
  rows ← statement (λ db, Ok (select_rows sel key limit db, db));
  collect_delivery_scan rows.

Definition scan_pending_deliveries (limit : Z) (db : Db) : DeliveryScanResult :=
  (run_auto (scan_body (λ r, bool_decide (sr_delivery_status r = "DELIVERY_PENDING"))
               sr_journal_sequence limit) db).1.

Definition scan_retrying_deliveries (now_ms limit : Z) (db : Db) : DeliveryScanResult :=
  (run_auto (scan_body (λ r, bool_decide (sr_delivery_status r = "DELIVERY_RETRYING") &&
                             from_option (λ t, t <=? now_ms) false (sr_next_retry_at_ms r))
               sr_next_retry_at_ms limit) db).1.

Definition scan_delivery_gate_states (limit : Z) (db : Db) : DeliveryScanResult :=
  (run_auto (scan_body (λ _, true) sr_journal_sequence limit) db).1.
End Scan.

(** ** What a scan returns *)
Section ScanSpec.
Context `{Sha256} `{!Sha256Ok} `{E : Engine} `{RO : RowOrder} `{!RowOrderOk}.

(** The delivery of a row and its envelope. *)
Definition pending_of (eid : string) (row : DeliveryStateRecord) (e : EnvelopeRow)
  : PendingDelivery :=
  mkPending eid (e_journal_sequence e) (e_stream_key e) (e_stream_sequence e)
    (d_delivery_status row) (d_attempt_count row) (d_next_retry_at_ms row).

Definition pending_of_row (r : DeliveryScanRow) : PendingDelivery :=
  mkPending (sr_event_id r) (default 0 (sr_journal_sequence r)) (default "" (sr_stream_key r))
    (default 0 (sr_stream_sequence r)) (sr_delivery_status r) (sr_attempt_count r)
    (sr_next_retry_at_ms r).

(** A joined row of the database, as the scan sees it. *)
Definition joined (db : Db) (r : DeliveryScanRow) : Prop :=
  ∃ row, delivery_state db !! sr_event_id r = Some row ∧ r = left_join db (sr_event_id r, row).

Lemma joined_iff db r : r ∈ left_join db <$> row_order (delivery_state db) ↔ joined db r.
Proof.
  unfold joined. rewrite list_elem_of_fmap. split.
  - intros ([eid row] & -> & Hin). rewrite row_order_perm in Hin.
    apply elem_of_map_to_list in Hin. by exists row.
  - intros (row & Hrow & Hr). exists (sr_event_id r, row). split; [done|].
    rewrite row_order_perm. by apply elem_of_map_to_list.
Qed.

(** A joined row of a sound database passes the verification. *)
Lemma wp_verify_scan db log r (Q : result PendingDelivery (string * string) → Sess → Prop) s :
  ¬ faulty E → represents db log → s_work s = db → joined db r →
  (∀ s', s_work s' = db → Q (Ok (pending_of_row r)) s') →
  wp (verify_delivery_scan_envelope r) Q s.
Proof.
  intros HE Hr Hw (row & Hrow & Hj) Hok.
  destruct (delivery_has_envelope _ _ _ _ Hr Hrow) as [e He].
  destruct (rep_env_inv _ _ _ _ Hr He) as (i & rq & now & Hi & Hid & Heq).
  assert (Hev : envelope_ok (sr_event_id r) e).
  { rewrite Heq, <- Hid. apply new_envelope_ok.
    by apply (Forall_lookup_1 _ _ _ _ (rep_typed _ _ Hr) Hi). }
  unfold verify_delivery_scan_envelope. rewrite Hj in *. unfold left_join in *. simpl in *.
  rewrite He in *. simpl in *. pose proof (ev_length _ _ Hev) as Hlen. unfold is_checksum in Hlen.
  rewrite Hlen. simpl. apply wp_bind, (wp_recompute_ok _ e); [by rewrite Hw|done|done|].
  intros s' [Hw' _]. rewrite bool_decide_eq_true_2 by done. apply wp_ret, Hok. congruence.
Qed.

Lemma wp_collect db log rows acc s :
  ¬ faulty E → represents db log → deliveries_good db → s_work s = db →
  Forall (joined db) rows →
  wp (collect_rows rows acc) (λ r _, r = ScanOk (acc ++ (pending_of_row <$> rows))) s.
Proof.
  intros HE Hr Hg. revert acc s. induction rows as [|r rows IH]; intros acc s Hw Hall.
  - simpl. apply wp_bind, wp_statement; [done|]. apply wp_ret. by rewrite app_nil_r.
  - inversion Hall as [|?? Hj Hall']; subst. simpl.
    apply wp_bind, wp_statement; [done|]. pose proof Hj as (row & Hrow & _).
    apply wp_bind, (wp_load_delivery_ok (sr_event_id r) row); [|done|].
    { split; [done|]. by apply Hg. }
    intros s1 [Hw1 _]. simpl in Hw1.
    apply wp_bind, (wp_verify_scan (s_work s) log); [done..|].
    intros s2 Hw2. eapply wp_mono; [by apply IH|]. simpl. intros x _ ->.
    by rewrite <- app_assoc.
Qed.

Lemma scan_rows_ok db log sel key limit :
  reliable E → represents db log → deliveries_good db →
  (run_auto (scan_body sel key limit) db).1 =
  ScanOk (pending_of_row <$> select_rows sel key limit db).
Proof.
  intros HE Hr Hg. apply reliable_not_faulty in HE.
  apply (wp_run_auto _ (λ r _, r = _)). unfold scan_body.
  apply wp_bind, wp_statement; [done|]. apply wp_bind, wp_statement; [done|]. simpl.
  apply (wp_collect db log _ []); [done..|].
  apply Forall_forall. intros r Hin. apply joined_iff. unfold select_rows in Hin.
  assert (Hin' : r ∈ merge_sort (λ a b, null_first (key a) (key b))
    (filter sel (left_join db <$> row_order (delivery_state db)))).
  { unfold sql_limit in Hin. case_match; [done|]. by apply subseteq_take in Hin. }
  rewrite merge_sort_Permutation in Hin'. by apply list_elem_of_filter in Hin' as [_ ?].
Qed.

(** The deliveries of the database that satisfy [sel]. *)
Definition selected (db : Db) (sel : PendingDelivery → Prop) (p : PendingDelivery) : Prop :=
  ∃ row e, delivery_state db !! pd_event_id p = Some row ∧
    stored_envelope db !! pd_event_id p = Some e ∧
    p = pending_of (pd_event_id p) row e ∧ sel p.

(** [l] lists the [limit] first of [all] in the order of [key]. *)
Record first_of (all : PendingDelivery → Prop) (key : PendingDelivery → Z) (limit : Z)
    (l : list PendingDelivery) : Prop := {
  fo_nodup : NoDup (pd_event_id <$> l);
  fo_sound : ∀ p, p ∈ l → all p;
  fo_sorted : StronglySorted (λ p q, key p ≤ key q) l;
  fo_limit : 0 ≤ limit → length l ≤ limit;
  fo_complete : ∀ p, all p →
    p ∈ l ∨ (0 ≤ limit ∧ length l = limit :> Z ∧ ∀ q, q ∈ l → key q ≤ key p)
}.

Lemma sorted_limit_split {A} (R : relation A) n (l : list A) :
  StronglySorted R l →
  StronglySorted R (sql_limit n l) ∧
  ∀ x, x ∈ l → x ∈ sql_limit n l ∨
    (0 ≤ n ∧ length (sql_limit n l) = n :> Z ∧ ∀ y, y ∈ sql_limit n l → R y x).
Proof.
  intros Hs. unfold sql_limit. destruct (Z.ltb_spec n 0); [split; [done|by left]|].
  rewrite <- (take_drop (Z.to_nat n) l) in Hs at 1. apply StronglySorted_app in Hs as (Hall & Hs & _).
  split; [done|]. intros x Hx. rewrite <- (take_drop (Z.to_nat n) l) in Hx.
  apply elem_of_app in Hx as [?|Hx]; [by left|right].
  split; [done|]. split; [|intros y Hy; by apply Hall].
  rewrite length_take_le; [lia|]. destruct (decide (Z.to_nat n ≤ length l)%nat); [done|].
  rewrite drop_ge in Hx by lia. by apply not_elem_of_nil in Hx.
Qed.

Context (db : Db) (log : list AcceptRequest) (Hrep : represents db log).

Lemma pending_of_joined r : joined db r →
  ∃ row e, delivery_state db !! sr_event_id r = Some row ∧
    stored_envelope db !! sr_event_id r = Some e ∧
    sr_journal_sequence r = Some (e_journal_sequence e) ∧
    pending_of_row r = pending_of (sr_event_id r) row e.
Proof.
  intros (row & Hrow & Hj). destruct (delivery_has_envelope _ _ _ _ Hrep Hrow) as [e He].
  exists row, e. rewrite Hj. unfold left_join. simpl. rewrite He. done.
Qed.

Lemma joined_of_selected sel p : selected db sel p →
  ∃ r, joined db r ∧ pending_of_row r = p.
Proof.
  intros (row & e & Hrow & He & Hp & _). exists (left_join db (pd_event_id p, row)). split.
  - by exists row.
  - rewrite Hp. unfold left_join, pending_of_row. simpl. by rewrite He.
Qed.

Lemma select_nodup selr key limit : NoDup (sr_event_id <$> select_rows selr key limit db).
Proof.
  assert (Hnd : NoDup (sr_event_id <$> merge_sort (λ a b, null_first (key a) (key b))
    (filter selr (left_join db <$> row_order (delivery_state db))))).
  { rewrite merge_sort_Permutation. eapply sublist_NoDup; [|apply fmap_sublist, sublist_filter].
    rewrite <- list_fmap_compose. change (NoDup ((row_order (delivery_state db)).*1)).
    rewrite row_order_perm. apply NoDup_fst_map_to_list. }
  unfold select_rows, sql_limit. case_match; [done|]. rewrite fmap_take.
  eapply sublist_NoDup; [exact Hnd|apply sublist_take].
Qed.

Lemma fmap_sorted {A B} (f : A → B) (R : relation A) (T : relation B) l :
  StronglySorted R l → (∀ a b, a ∈ l → b ∈ l → R a b → T (f a) (f b)) →
  StronglySorted T (f <$> l).
Proof.
  induction 1 as [|a l Hs IH Hall]; intros HT; [constructor|]. simpl. constructor.
  - apply IH. intros x y Hx Hy. apply HT; by right.
  - apply Forall_fmap, Forall_forall. intros b Hb. rewrite Forall_forall in Hall.
    apply HT; [by left|by right|by apply Hall].
Qed.

(** The selection of a scan, on rows and on deliveries. *)
Lemma select_first_of selr key sel keyp limit :
  (∀ r, joined db r → selr r = true ↔ sel (pending_of_row r)) →
  (∀ r, joined db r → selr r = true → key r = Some (keyp (pending_of_row r))) →
  first_of (selected db sel) keyp limit (pending_of_row <$> select_rows selr key limit db).
Proof.
  intros Hsel Hkey. unfold select_rows.
  set (full := merge_sort _ _).
  assert (Hfull : ∀ r, r ∈ full ↔ joined db r ∧ selr r = true).
  { intros r. unfold full. rewrite merge_sort_Permutation, list_elem_of_filter, joined_iff.
    rewrite Is_true_true. tauto. }
  assert (Hs : StronglySorted (λ a b, null_first (key a) (key b)) full).
  { assert (Htot : Total (λ a b, null_first (key a) (key b))) by (intros a b; apply null_first_total).
    apply Sorted_StronglySorted; [intros a b c; apply null_first_trans|]. by apply Sorted_merge_sort. }
  assert (Hsub : ∀ r, r ∈ sql_limit limit full → r ∈ full).
  { intros r. unfold sql_limit. case_match; [done|]. apply subseteq_take. }
  assert (Hk : ∀ a b, a ∈ full → b ∈ full → null_first (key a) (key b) →
     keyp (pending_of_row a) ≤ keyp (pending_of_row b)).
  { intros a b [Ha Ha']%Hfull [Hb Hb']%Hfull. by rewrite (Hkey a), (Hkey b). }
  destruct (sorted_limit_split _ limit full Hs) as [Hsl Hcompl]. constructor.
  - rewrite <- list_fmap_compose. apply (select_nodup selr key limit).
  - intros p (r & -> & Hr)%list_elem_of_fmap. apply Hsub, Hfull in Hr as [Hj Hr].
    destruct (pending_of_joined r Hj) as (row & e & Hrow & He & _ & Hp).
    exists row, e. rewrite Hp at 3. repeat split; try done. by apply Hsel.
  - eapply fmap_sorted; [exact Hsl|]. intros a b Ha Hb. by apply Hk; apply Hsub.
  - intros Hl. rewrite length_fmap. unfold sql_limit.
    destruct (Z.ltb_spec limit 0); [lia|]. rewrite length_take. lia.
  - intros p Hp. destruct (joined_of_selected _ _ Hp) as (r & Hj & <-).
    assert (Hr : r ∈ full).
    { apply Hfull. split; [done|]. apply Hsel; [done|]. by destruct Hp as (? & ? & _ & _ & _ & ?). }
    destruct (Hcompl r Hr) as [Hin|(Hl & Hlen & Hall)]; [left|right].
    + apply list_elem_of_fmap. by exists r.
    + rewrite length_fmap. split; [done|]. split; [done|].
      intros q (r' & -> & Hr')%list_elem_of_fmap. apply Hk; [by apply Hsub|done|by apply Hall].
Qed.
End ScanSpec.

(** What the scans look for. *)
Definition is_pending (p : PendingDelivery) : Prop := pd_delivery_status p = "DELIVERY_PENDING".
Definition is_due (now_ms : Z) (p : PendingDelivery) : Prop :=
  pd_delivery_status p = "DELIVERY_RETRYING" ∧
  ∃ t, pd_next_retry_at_ms p = Some t ∧ t ≤ now_ms.

(** C23. The scans are exact.  On a journal whose rows are valid, a working
    store returns, for the pending scan, the first [limit] pending deliveries in
    journal order; for the retry scan, the [limit] retries due by [now_ms] with
    the earliest times; and for the gate scan, the first [limit] deliveries of
    any status in journal order -- none twice, none made up, and, when fewer
    than [limit] come back, none missing. *)
Theorem scans_exact (S : Sha256) (E : Engine) (RO : RowOrder) (db : Db) (log : list AcceptRequest)
    (now_ms limit : Z) :
  @Sha256Ok S → @RowOrderOk RO → reliable E → represents db log → deliveries_good db →
  (∃ l, scan_pending_deliveries limit db = ScanOk l ∧
        first_of (selected db is_pending) pd_journal_sequence limit l) ∧
  (∃ l, scan_retrying_deliveries now_ms limit db = ScanOk l ∧
        first_of (selected db (is_due now_ms)) (λ p, default 0 (pd_next_retry_at_ms p)) limit l) ∧
  (∃ l, scan_delivery_gate_states limit db = ScanOk l ∧
        first_of (selected db (λ _, True)) pd_journal_sequence limit l).
Proof.
  intros HS HR HE Hr Hg.
  assert (Hjs : ∀ r, joined db r → sr_journal_sequence r = Some (pd_journal_sequence (pending_of_row r))).
  { intros r Hj. destruct (pending_of_joined db log Hr r Hj) as (row & e & _ & _ & -> & ->). done. }
  split; [|split]; (eexists; split; [by apply (scan_rows_ok db log)|]);
    apply (select_first_of db log Hr).
  - intros r _. by rewrite bool_decide_eq_true.
  - auto.
  - intros r _. rewrite andb_true_iff, bool_decide_eq_true. unfold is_due. simpl.
    destruct (sr_next_retry_at_ms r) as [t|]; simpl; [rewrite Z.leb_le|]; naive_solver.
  - intros r _. rewrite andb_true_iff. simpl.
    destruct (sr_next_retry_at_ms r); simpl; naive_solver.
  - done.
  - auto.
Qed.

(** A concrete order of the rows. *)
Definition sample_row_order : RowOrder := λ t, map_to_list t.

Lemma scans_exact_witness :
  ∃ l, @scan_pending_deliveries sample_sha256 sample_engine sample_row_order 10 sample_pending = ScanOk l ∧
       first_of (selected sample_pending is_pending) pd_journal_sequence 10 l.
Proof.
  refine (proj1 (scans_exact sample_sha256 sample_engine sample_row_order sample_pending
    [sample_request "e1" 1] 0 10 _ _ _ _ _)).
  - exact sample_sha256_ok.
  - intros t. reflexivity.
  - exact sample_reliable.
  - exact sample_pending_represents.
  - exact sample_pending_good.
Defined.
