(* ===== verification/Integrity.v ===== *)
(** * Tamper evidence

    The canonical texts behind the three checksums of the journal determine
    what they cover: two rows that verify with the same checksum agree on every
    covered column, unless the very texts hashed for them are a collision of
    SHA-256.  The texts separate their fields by NUL and write an absent text as
    an empty one, so the statements are about NUL-free fields, and say where
    absent and empty are not told apart; nothing is assumed about the hash. *)
From S2P Require Import Prelude Checksum JournalDb JournalCore JournalAccept SqlLogic.
From S2P Require Import JournalLog JournalReads JournalDelivery JournalTransitions.
From S2P Require Import JournalSafety DeliverySafety.
Open Scope Z_scope.
#[local] Coercion Z.of_nat : nat >-> Z.

(** ** Envelopes *)

(** The ranges of the Rust types and NUL-free texts. *)
Record envelope_typed (eid : string) (e : EnvelopeRow) : Prop := {
  et_js : in_i64 (e_journal_sequence e);
  et_seq : in_i64 (e_producer_op_seq e);
  et_schema : in_i32 (e_schema_version e);
  et_ss : in_i64 (e_stream_sequence e);
  et_len : in_i64 (e_payload_length e);
  et_routing : in_i64 (e_routing_version e);
  et_texts : Forall nul_free [eid; e_installation_id e; e_producer_id e;
    e_producer_instance_id e; e_namespace e; e_logical_stream_type e; e_stream_key e;
    e_event_type e; e_payload_ref_id e]
}.

(** The columns the envelope checksum covers. *)
Definition envelope_covered (eid : string) (e : EnvelopeRow) :=
  (eid, e_journal_sequence e, e_installation_id e, e_producer_id e, e_producer_instance_id e,
   e_producer_op_seq e, e_namespace e, e_logical_stream_type e, e_stream_key e,
   (e_event_type e, e_schema_version e, e_stream_sequence e, e_payload_digest e,
    e_request_fingerprint e, e_payload_ref_id e, e_payload_length e, e_routing_version e)).

Lemma fixed_sep_inj {A} (x : A) (l1 l2 k1 k2 : list A) :
  length l1 = length k1 → l1 ++ x :: l2 = k1 ++ x :: k2 → l1 = k1 ∧ l2 = k2.
Proof. intros Hl Heq. apply app_inj_1 in Heq as [-> Heq]; [|done]. by injection Heq. Qed.

(** Splits an equation of two preimages at the next separator. *)
Ltac split_field :=
  match goal with
  | Heq : bytes_of _ ++ x00 :: _ = bytes_of _ ++ x00 :: _ |- _ =>
      apply sep_app_inj in Heq as [?%(inj bytes_of) Heq]; [|assumption|assumption]
  | Heq : _ ++ x00 :: _ = _ ++ x00 :: _ |- _ =>
      apply fixed_sep_inj in Heq as [? Heq];
        [|unfold i64_to_be_bytes, i32_to_be_bytes, is_checksum in *;
          rewrite ?be_bytes_length; congruence]
  end.

Lemma row_preimage_inj eid e eid' e' :
  envelope_typed eid e → envelope_typed eid' e' →
  is_checksum (e_payload_digest e) → is_checksum (e_payload_digest e') →
  is_checksum (e_request_fingerprint e) → is_checksum (e_request_fingerprint e') →
  row_preimage eid e = row_preimage eid' e' → envelope_covered eid e = envelope_covered eid' e'.
Proof.
  intros [] [] Hd Hd' Hf Hf' Heq. unfold row_preimage, envelope_preimage in Heq.
  repeat match goal with H : Forall nul_free (_ :: _) |- _ => apply Forall_cons in H as [? H] end.
  repeat split_field.
  repeat match goal with
  | H : i64_to_be_bytes _ = i64_to_be_bytes _ |- _ =>
      apply i64_to_be_bytes_inj in H; [|assumption|assumption]
  | H : i32_to_be_bytes _ = i32_to_be_bytes _ |- _ =>
      apply i32_to_be_bytes_inj in H; [|assumption|assumption]
  end.
  unfold envelope_covered. congruence.
Qed.

(** A read that found the payload: the stored row, its digest and the blob
    agree. *)
Lemma read_payload_sound `{Sha256} `{E : Engine} eid db payload :
  read_verified_payload eid db = PayloadFound payload →
  ∃ e p, stored_envelope db !! eid = Some e ∧ e_payload_digest e = sha256 payload ∧
    payload_blob db !! eid = Some p ∧ p_payload p = payload.
Proof.
  unfold read_verified_payload.
  apply (wp_run_auto _ (λ r _, r = PayloadFound payload →
    ∃ e p, stored_envelope db !! eid = Some e ∧ e_payload_digest e = sha256 payload ∧
      payload_blob db !! eid = Some p ∧ p_payload p = payload)).
  unfold read_verified_payload_impl. apply wp_bind, wp_query; [by intros; apply wp_ret|].
  destruct (stored_envelope db !! eid) as [e|] eqn:He; simpl; rewrite He; simpl; [|by apply wp_ret].
  wp_step; [by apply wp_ret|]. apply wp_bind, wp_query; [by intros; apply wp_ret|].
  unfold payload_row. simpl. destruct (payload_blob db !! eid) as [p|]; simpl; [|by apply wp_ret].
  do 3 (wp_step; [by apply wp_ret|]). apply wp_ret. intros [= <-]. exists e, p. split; [done|].
  apply negb_false_iff, bool_decide_eq_true_1 in Heqb2. done.
Qed.

(** C25. A receipt binds the event.  The envelope checksum that [accept] returns
    determines the event, for texts without NUL: if a status lookup in any two
    journals finds events with the same envelope checksum, their rows agree on
    every covered column -- id, sequences, producer, stream, schema, fingerprint,
    payload digest and length, routing version -- unless the canonical texts of
    these two rows are a collision of SHA-256; and when they agree, verified
    reads return the same payload, unless these two payloads are a collision. *)
Theorem receipt_binds_event (S : Sha256) (E E' : Engine) (eid eid' : string) (db db' : Db)
    (st st' : PersistedStatus) :
  @get_status S E eid db = StatusFound st → @get_status S E' eid' db' = StatusFound st' →
  ps_envelope_checksum st = ps_envelope_checksum st' →
  map_Forall envelope_typed (stored_envelope db) →
  map_Forall envelope_typed (stored_envelope db') →
  ∃ e e', stored_envelope db !! eid = Some e ∧ stored_envelope db' !! eid' = Some e' ∧
    (collides (row_preimage eid e) (row_preimage eid' e') ∨
     envelope_covered eid e = envelope_covered eid' e' ∧
     ∀ p p', @read_verified_payload S E eid db = PayloadFound p →
       @read_verified_payload S E' eid' db' = PayloadFound p' → p = p' ∨ collides p p').
Proof.
  unfold get_status, run_auto. intros Hst Hst' Hc Ht Ht'.
  destruct (get_status_impl eid (mkSess db db 0)) as [r s0] eqn:Hr. simpl in Hst. subst r.
  destruct (@get_status_impl S E' eid' (mkSess db' db' 0)) as [r s0'] eqn:Hr'. simpl in Hst'. subst r.
  apply (f_equal fst) in Hr, Hr'.
  apply get_status_sound in Hr as (e & l & He & _ & -> & Hev & _).
  apply get_status_sound in Hr' as (e' & l' & He' & _ & -> & Hev' & _).
  simpl in *. destruct Hev as [Hcs _ Hd Hf], Hev' as [Hcs' _ Hd' Hf'].
  exists e, e'. split; [done|]. split; [done|].
  rewrite Hcs, Hcs' in Hc. apply same_or_collides in Hc as [Hpre|Hcol]; [right|by left].
  apply row_preimage_inj in Hpre; [|by apply (Ht eid e)|by apply (Ht' eid' e')|done..].
  split; [done|]. intros p p' Hp Hp'.
  apply read_payload_sound in Hp as (e1 & _ & He1 & Hd1 & _), Hp' as (e2 & _ & He2 & Hd2 & _).
  rewrite He in He1; injection He1 as <-. rewrite He' in He2; injection He2 as <-.
  apply same_or_collides. rewrite <- Hd1, <- Hd2. unfold envelope_covered in Hpre. congruence.
Qed.

Lemma receipt_binds_event_witness :
  ∃ e e', stored_envelope sample_db !! "e1" = Some e ∧ stored_envelope sample_db !! "e1" = Some e' ∧
    (@collides sample_sha256 (row_preimage "e1" e) (row_preimage "e1" e') ∨
     envelope_covered "e1" e = envelope_covered "e1" e').
Proof.
  destruct (receipt_binds_event sample_sha256 sample_engine sample_engine "e1" "e1" sample_db sample_db
    (status_of_rows "e1" (@new_envelope sample_sha256 (sample_request "e1" 1) 1 1 7)
       (@new_lifecycle sample_sha256 (sample_request "e1" 1) 7))
    (status_of_rows "e1" (@new_envelope sample_sha256 (sample_request "e1" 1) 1 1 7)
       (@new_lifecycle sample_sha256 (sample_request "e1" 1) 7))) as (e & e' & He & He' & [Hcol|[Hrows _]]).
  - vm_compute. reflexivity.
  - vm_compute. reflexivity.
  - reflexivity.
  - apply map_Forall_singleton. constructor; try (split; discriminate). compute_done.
  - apply map_Forall_singleton. constructor; try (split; discriminate). compute_done.
  - exists e, e'. split; [exact He|]. split; [exact He'|]. left. exact Hcol.
  - exists e, e'. split; [exact He|]. split; [exact He'|]. right. exact Hrows.
Defined.

(** ** Delivery rows *)

(** The columns the delivery checksum covers; an absent text is hashed as the
    empty one, but for a verified row the blocked reason is told apart by the
    status. *)
Definition delivery_covered (st : DeliveryStateRecord) :=
  (d_event_id st, d_delivery_status st, d_attempt_count st, d_next_retry_at_ms st,
   default "" (d_last_error st), d_blocked_reason st,
   default "" (d_kafka_topic st), d_kafka_partition st, d_kafka_offset st,
   (d_routing_fingerprint st, default "" (d_profile_id st), d_profile_version st,
    d_delivery_revision st, d_confirmed_at_ms st, d_created_at_ms st)).

Definition delivery_texts_ok (st : DeliveryStateRecord) : Prop :=
  Forall nul_free [d_event_id st; d_delivery_status st; default "" (d_last_error st);
    default "" (d_blocked_reason st); default "" (d_kafka_topic st); default "" (d_profile_id st)].

Lemma opt_hex_inj (a b : option Checksum) :
  from_option is_checksum True a → from_option is_checksum True b →
  from_option checksum_hex "" a = from_option checksum_hex "" b → a = b.
Proof.
  destruct a as [a|], b as [b|]; simpl; intros Ha Hb Heq; [by apply (inj checksum_hex) in Heq as ->|..|done].
  - by destruct a.
  - by destruct b.
Qed.

Lemma delivery_fields_nul_free st : delivery_texts_ok st → Forall nul_free (delivery_fields st).
Proof.
  unfold delivery_texts_ok, delivery_fields. rewrite !Forall_cons. intros (? & ? & ? & ? & ? & ? & _).
  repeat match goal with |- _ ∧ _ => split end;
    auto using to_string_nul_free, opt_to_string_nul_free.
  destruct (d_routing_fingerprint st); [apply checksum_hex_nul_free|compute_done].
Qed.

Lemma default_non_empty (a b : option string) :
  non_empty a → non_empty b → default "" a = default "" b → a = b.
Proof. intros (x & -> & _) (y & -> & _). simpl. by intros ->. Qed.

(** Two valid rows of one status: the blocked reason is there in both or in
    neither, and so are the topic and the profile outside the blocked status. *)
Lemma blocked_reason_told st st' :
  delivery_valid st → delivery_valid st' → d_delivery_status st = d_delivery_status st' →
  default "" (d_blocked_reason st) = default "" (d_blocked_reason st') →
  d_blocked_reason st = d_blocked_reason st'.
Proof. intros [] [] Hs Hb; try congruence. by apply default_non_empty. Qed.

Lemma routing_present_valid st :
  delivery_valid st → d_delivery_status st ≠ "DELIVERY_BLOCKED" → routing_present st.
Proof. by intros [] ?. Qed.

(** The texts behind equal preimages. *)
Lemma delivery_fields_inj st st' :
  from_option is_checksum True (d_routing_fingerprint st) →
  from_option is_checksum True (d_routing_fingerprint st') →
  delivery_valid st → delivery_valid st' → delivery_fields st = delivery_fields st' →
  delivery_covered st = delivery_covered st' ∧
  (d_delivery_status st ≠ "DELIVERY_BLOCKED" →
     d_kafka_topic st = d_kafka_topic st' ∧ d_profile_id st = d_profile_id st').
Proof.
  intros Hf Hf' Hv Hv' Heq. unfold delivery_fields in Heq.
  injection Heq as Hid Hstatus Hn Hretry Herr Hblock Htopic Hpart Hoff Hfp Hprof Hver Hrev Hconf Hcre.
  repeat match goal with
  | H : to_string _ = to_string _ |- _ => apply (inj to_string) in H
  | H : opt_to_string _ = opt_to_string _ |- _ => apply (inj opt_to_string) in H
  | H : from_option checksum_hex _ _ = _ |- _ => apply opt_hex_inj in H; [|done..]
  end.
  pose proof (blocked_reason_told _ _ Hv Hv' Hstatus Hblock).
  split; [unfold delivery_covered; congruence|]. intros Hs.
  destruct (routing_present_valid _ Hv Hs) as (? & _ & ? & _).
  destruct (routing_present_valid _ Hv' ltac:(congruence)) as (? & _ & ? & _).
  split; by apply default_non_empty.
Qed.

(** The text hashed for a delivery row. *)
Definition delivery_preimage (st : DeliveryStateRecord) : list byte :=
  bytes_of (join_nul (delivery_fields st)).

(** C26. A delivery row cannot be altered unnoticed.  If two delivery rows
    whose texts hold no NUL are found -- read and verified -- with the same
    delivery checksum, then either the two texts hashed for these rows are a
    collision of SHA-256, or the rows agree on the event, the status, the
    counters, the Kafka position, the routing and every other column but
    [updated_at_ms], which the checksum does not cover.  An absent and an empty
    text share their encoding: in a verified row this leaves [last_error] and, in
    a blocked row, the topic and the profile id, which agree up to that. *)
Theorem delivery_tamper_evident (S : Sha256) (E E' : Engine) (eid eid' : string) (db db' : Db)
    (st st' : DeliveryStateRecord) :
  @get_delivery_state S E eid db = DeliveryFound st →
  @get_delivery_state S E' eid' db' = DeliveryFound st' →
  d_delivery_checksum st = d_delivery_checksum st' →
  delivery_texts_ok st → delivery_texts_ok st' →
  collides (delivery_preimage st) (delivery_preimage st') ∨
  delivery_covered st = delivery_covered st' ∧
  (d_delivery_status st ≠ "DELIVERY_BLOCKED" →
     d_kafka_topic st = d_kafka_topic st' ∧ d_profile_id st = d_profile_id st').
Proof.
  unfold get_delivery_state, run_auto. intros Hst Hst' Hc Ht Ht'.
  destruct (load_delivery_state eid (mkSess db db 0)) as [r s0] eqn:Hr. simpl in Hst. subst r.
  destruct (@load_delivery_state S E' eid' (mkSess db' db' 0)) as [r s0'] eqn:Hr'.
  simpl in Hst'. subst r. apply (f_equal fst) in Hr, Hr'.
  apply load_delivery_sound in Hr as (row & [_ [_ _ Hf Hs Hcs Hv]] & ->).
  apply load_delivery_sound in Hr' as (row' & [_ [_ _ Hf' Hs' Hcs' Hv']] & ->).
  simpl in Hc. rewrite Hcs, Hcs' in Hc. unfold compute_delivery_checksum in Hc.
  apply same_or_collides in Hc as [Hpre|Hcol]; [right|by left].
  apply validate_iff in Hv, Hv'; [|done..].
  apply (inj bytes_of), join_nul_inj in Hpre; [by apply delivery_fields_inj|done|..];
    by apply delivery_fields_nul_free.
Qed.

Lemma delivery_tamper_evident_witness :
  ∃ st, @get_delivery_state sample_sha256 sample_engine "e1" sample_replicated = DeliveryFound st ∧
    (@collides sample_sha256 (delivery_preimage st) (delivery_preimage st) ∨
     delivery_covered st = delivery_covered st).
Proof.
  eexists. split; [vm_compute; reflexivity|].
  edestruct (delivery_tamper_evident sample_sha256 sample_engine sample_engine "e1" "e1"
            sample_replicated sample_replicated) as [Hcol|[Hrow _]].
  - vm_compute. reflexivity.
  - vm_compute. reflexivity.
  - reflexivity.
  - compute_done.
  - compute_done.
  - left. exact Hcol.
  - right. exact Hrow.
Defined.
