(* ===== verification/DeliveryFindings.v ===== *)
(** * Where the journal leaves its own promises

    Three behaviours of the journal operations that the properties of
    [DeliverySafety] have to exclude, each for every event in the state
    described and not only for one example. *)
From S2P Require Import Prelude Checksum JournalDb JournalCore JournalAccept SqlLogic.
From S2P Require Import JournalLog JournalReads JournalDelivery JournalTransitions.
From S2P Require Import JournalSafety DeliverySafety.
Open Scope Z_scope.
#[local] Coercion Z.of_nat : nat >-> Z.


(** An identifier is taken for all installations.  When another installation used
    the identifier of a request, [accept] does not accept the request, although
    the specification, which names events by installation and identifier, has no
    event of that name. *)
Lemma foreign_identifier_refused (S : Sha256) (E : Engine) (j : LocalJournal) (now : Z)
    (req r0 : AcceptRequest) (log : list AcceptRequest) :
  @Sha256Ok S → represents (j_conn j) log → req_typed req → length log < i64_max →
  r0 ∈ log → rq_event_id r0 = rq_event_id req → rq_installation_id r0 ≠ rq_installation_id req →
  (∀ ev, (accept j true now req).1 ≠ Some (Accepted ev)) ∧ Forall (λ r, ¬ same_event r req) log.
Proof.
  intros HS Hr Ht Hlen Hin Hid Hne. split.
  - destruct (accept_outcome S E j true now req log HS Hr Ht Hlen) as [(_ & Hn & _)|[Hno _]]; [|exact Hno].
    destruct Hn. rewrite <- Hid. by apply list_elem_of_fmap_2.
  - apply Forall_forall. intros r Hr' [Hinst Heid]. destruct Hne. rewrite <- Hinst. f_equal.
    apply list_elem_of_lookup in Hin as [i Hi], Hr' as [i' Hi'].
    assert (i' = i) as -> by (apply (event_id_index log _ _ r r0 (rep_nodup _ _ Hr)); congruence).
    congruence.
Qed.



(** A retrying state that still carries the reason of a block. *)
Lemma retrying_with_reason st :
  d_delivery_status st = "DELIVERY_RETRYING" → routing_present st →
  is_Some (d_next_retry_at_ms st) → is_Some (d_blocked_reason st) →
  validate_delivery_state_invariants st =
    Err "DELIVERY_RETRYING delivery state must not contain blocked_reason".
Proof.
  intros Hst (Ht & Hf & Hp & Hv) Hn [reason Hb].
  unfold validate_delivery_state_invariants, require_delivery_routing_fields.
  rewrite Hst. simpl. rewrite Hb.
  rewrite (proj2 (require_non_empty_ok _ "kafka_topic" _) Ht),
    (proj2 (require_some_ok _ "routing_fingerprint" _) Hf),
    (proj2 (require_non_empty_ok _ "profile_id" _) Hp),
    (proj2 (require_positive_ok _ "profile_version" _) Hv),
    (proj2 (require_some_ok _ "next_retry_at_ms" _) Hn). done.
Qed.

(** A row whose checksum verifies but whose fields are not valid. *)
Lemma invalid_row_reported `{Sha256} `{!Sha256Ok} `{E : Engine} db eid f detail :
  reliable E →
  (∀ c, d_delivery_checksum (f c) = c) →
  (∀ c, delivery_fields (delivery_of_row eid (f c)) = delivery_fields (delivery_of_row eid (f []))) →
  from_option is_checksum True (d_routing_fingerprint (sealed eid f)) →
  in_i32 (d_attempt_count (sealed eid f)) →
  d_delivery_status (sealed eid f) ∈ delivery_statuses →
  validate_delivery_state_invariants (delivery_of_row eid (sealed eid f)) = Err detail →
  get_delivery_state eid (set_delivery eid (sealed eid f) db) = DeliveryCorrupted eid detail.
Proof.
  intros HE Hc Hfields Hfp Hn Hst Hv. apply reliable_not_faulty in HE.
  unfold get_delivery_state. apply (wp_run_auto _ (λ x _, x = _)). unfold load_delivery_state.
  apply wp_bind, wp_query; [done|]. simpl. rewrite lookup_insert_eq.
  set (row := sealed eid f) in *.
  assert (Hck : d_delivery_checksum row = compute_delivery_checksum (delivery_of_row eid row))
    by by apply sealed_checksum.
  assert (Hlen : length (d_delivery_checksum row) = 32%nat) by (rewrite Hck; apply sha256_length).
  rewrite (bool_decide_eq_true_2 _ Hn). simpl. rewrite Hlen. simpl.
  replace (from_option (λ v, negb (length v =? 32)%nat) false (d_routing_fingerprint row))
    with false by (destruct (d_routing_fingerprint row); simpl in *; [by rewrite Hfp|done]).
  rewrite (bool_decide_eq_true_2 _ Hst). simpl.
  rewrite (bool_decide_eq_true_2 _ Hck). simpl. by rewrite Hv.
Qed.

(** C39. A retry of a blocked delivery corrupts it.  For a delivery that is
    validly [DELIVERY_BLOCKED], [update_delivery_retry] with the right revision
    answers [Updated] but keeps the blocked reason, and from then on every read
    of the row reports corruption. *)
Theorem retry_of_blocked_corrupts (S : Sha256) (E : Engine) (eid : string) (t now : Z)
    (db : Db) (row : DeliveryStateRecord) :
  @Sha256Ok S → reliable E → delivery_row db eid row → routing_present row →
  d_delivery_status row = "DELIVERY_BLOCKED" →
  let r := update_delivery_retry eid (d_delivery_revision row) t now db in
  r.1 = Updated ∧
  get_delivery_state eid r.2 =
    DeliveryCorrupted eid "DELIVERY_RETRYING delivery state must not contain blocked_reason".
Proof.
  intros HS HE Hrow Hr Hst r. pose (op := OpRetry eid (d_delivery_revision row) t).
  assert (Hopen : open_row db eid (d_delivery_revision row) row).
  { split; [done|]. by rewrite Hst. }
  change r with (run_op op now db). destruct (run_op_post op now db) as [[Hup Heff]|(_ & _ & Hno)].
  2: { exfalso. destruct Hno as [Hf|Hno]; [by apply reliable_not_faulty in HE|].
       eapply Hno, (eff_retry now db eid _ t row Hopen). }
  split; [done|]. revert Heff. generalize (run_op op now db).2 as db'. intros db' Heff.
  inversion Heff as [| | | | |? ? ? row' [[Hrow' Hok] [_ _]]]; subst.
  rewrite (dr_row _ _ _ Hrow) in Hrow'. injection Hrow' as <-.
  apply invalid_row_reported;
    [done|done|done|apply (dl_fingerprint _ _ Hok)|apply (dl_range _ _ Hok)|compute_done|].
  apply retrying_with_reason; [done|done|done|].
  destruct (delivery_ok_valid _ _ Hok) as [| | |_ (reason & Hb & _)]; [simpl in *; congruence..|].
  by exists reason.
Qed.

(** The sample delivery, blocked. *)
Definition sample_blocked : Db :=
  (@run_op sample_sha256 sample_engine (OpBlock "e1" 1 "topic missing") 9 sample_pending).2.

Lemma sample_blocked_good : @deliveries_good sample_sha256 sample_blocked.
Proof.
  destruct (@run_op_cases sample_sha256 sample_engine (OpBlock "e1" 1 "topic missing") 9
              sample_pending) as [[_ He]|[Hno _]].
  - apply (@effect_good sample_sha256 sample_sha256_ok _ _ _ _ He); [apply sample_pending_good|done].
  - by destruct Hno.
Qed.

Lemma retry_of_blocked_corrupts_witness :
  ∃ row, delivery_state sample_blocked !! "e1" = Some row ∧
  @get_delivery_state sample_sha256 sample_engine "e1"
    (@update_delivery_retry sample_sha256 sample_engine "e1" (d_delivery_revision row) 99 10
       sample_blocked).2 =
    DeliveryCorrupted "e1" "DELIVERY_RETRYING delivery state must not contain blocked_reason".
Proof.
  eexists. split; [vm_compute; reflexivity|].
  refine (proj2 (retry_of_blocked_corrupts sample_sha256 sample_engine "e1" 99 10 sample_blocked
    _ _ _ _ _ _)).
  - exact sample_sha256_ok.
  - exact sample_reliable.
  - split; [vm_compute; reflexivity|].
    apply (sample_blocked_good "e1"). vm_compute. reflexivity.
  - apply (sample_blocked_good "e1"). vm_compute. reflexivity.
  - reflexivity.
Defined.

(** A lifecycle update can undo a confirmation.  After a delivery was
    confirmed, [update_lifecycle] with the current revision moves the lifecycle
    of the event back to [LOCAL_ACCEPTED]; the delivery row stays [REPLICATED],
    and repeating the confirmation is answered with corruption. *)
Theorem lifecycle_update_undoes_replicated (S : Sha256) (E : Engine) (eid : string)
    (rev now : Z) (c : ReplicatedDeliveryConfirmation) (db : Db)
    (e : EnvelopeRow) (l : LifecycleRow) (row : DeliveryStateRecord) :
  @Sha256Ok S → reliable E → event_rows db eid e l → l_delivery_status l = "REPLICATED" →
  delivery_row db eid row → d_delivery_status row = "REPLICATED" →
  let r := update_lifecycle eid (l_revision l) LdLocalAccepted LrPresent now db in
  r.1 = Updated ∧ delivery_state r.2 !! eid = Some row ∧
  (confirm_replicated_delivery eid rev c now r.2).1 =
    CasCorrupted eid "replicated delivery state without replicated lifecycle".
Proof.
  intros HS HE Hrows Hl Hrow Hst r.
  pose (op := OpLifecycle eid (l_revision l) LdLocalAccepted LrPresent).
  change r with (run_op op now db). destruct (run_op_post op now db) as [[Hup Heff]|(_ & _ & Hno)].
  2: { exfalso. destruct Hno as [Hf|Hno]; [by apply reliable_not_faulty in HE|].
       eapply Hno, (eff_lifecycle now db eid _ _ _ e l Hrows eq_refl). }
  split; [done|]. revert Heff. generalize (run_op op now db).2 as db'. intros db' Heff.
  inversion Heff as [???? e' l' [He Hl' Hev Hlok]| | | | |]; subst.
  split; [apply (dr_row _ _ _ Hrow)|]. apply reliable_not_faulty in HE.
  unfold confirm_replicated_delivery. set (db1 := set_lifecycle _ _ _).
  apply (wp_run_tx _ (λ x _, x = _)). unfold confirm_replicated_delivery_body.
  apply wp_bind. wp_step; [done|].
  apply wp_bind, (wp_load_delivery_ok eid row); [|by intros|].
  { destruct Hrow as [Hrow Hok]. by split. }
  intros s1 [Hw1 Hb1]. simpl. rewrite bool_decide_eq_true_2 by done.
  unfold confirm_again, load_verified_lifecycle_for_transition. do 2 apply wp_bind.
  apply (wp_get_status_ok eid e' (moved_lifecycle eid l' "LOCAL_ACCEPTED" now));
    [by rewrite Hw1|by rewrite Hw1; apply lookup_insert_eq|done
    |by apply moved_lifecycle_ok|by intros|].
  intros s2 _. by apply wp_ret.
Qed.

Lemma lifecycle_update_undoes_replicated_witness :
  ∃ l, lifecycle_state sample_replicated !! "e1" = Some l ∧
    (@confirm_replicated_delivery sample_sha256 sample_engine "e1" 1 sample_confirmation 10
       (@update_lifecycle sample_sha256 sample_engine "e1" (l_revision l) LdLocalAccepted LrPresent 10
          sample_replicated).2).1 =
    CasCorrupted "e1" "replicated delivery state without replicated lifecycle".
Proof.
  destruct sample_replicated_row as (row & Hrow & Hst).
  eexists. split; [vm_compute; reflexivity|].
  refine (proj2 (proj2 (lifecycle_update_undoes_replicated sample_sha256 sample_engine "e1" 1 10
    sample_confirmation sample_replicated
    (@new_envelope sample_sha256 (sample_request "e1" 1) 1 1 7) _ row _ _ _ _ _ _))).
  - exact sample_sha256_ok.
  - exact sample_reliable.
  - split; [vm_compute; reflexivity|vm_compute; reflexivity|by constructor|by constructor].
  - reflexivity.
  - split; [exact Hrow|]. apply (sample_replicated_good "e1"). exact Hrow.
  - exact Hst.
Defined.
