(* ===== verification/Profiles.v ===== *)
(** * Kafka profiles (craftrelay-domain/src/lib.rs, craftrelay-kafka-delivery/src/profile.rs)

    The durability profile a delivery is bound to: its validation, the stronger
    requirements of P0, and the detection of drift between two versions.  The
    theorems order profiles by the durability they promise and show that the
    drift check and the P0 check together keep that promise. *)
From S2P Require Import Prelude.
Open Scope Z_scope.

(** ** Data *)
Record KafkaDurabilityProfile : Type := mkDurability {
  kd_profile_id : string;
  kd_replication_factor : Z;
  kd_min_insync_replicas : Z;
  kd_required_acks : string;
  kd_topic_reference : string;
  kd_profile_version : Z
}.

Inductive ProfileValidationError : Type :=
| UnknownProfile
| InvalidRf
| InvalidMinIsr
| InvalidAcks
| WeakenedDurability.

Record KafkaProductionProfile : Type := mkProfile {
  kp_profile_id : string;
  kp_profile_version : Z;
  kp_replication_factor : Z;
  kp_min_insync_replicas : Z;
  kp_required_acks : string;
  kp_enable_idempotence : bool;
  kp_delivery_timeout_ms : Z;
  kp_request_timeout_ms : Z;
  kp_linger_ms : Z;
  kp_max_in_flight : Z;
  kp_compression : string;
  kp_retention_ms : Z;
  kp_retention_bytes : Z;
  kp_cleanup_policy : string;
  kp_unclean_leader_election : bool;
  kp_topic_deletion_policy : string
}.

Inductive ExtendedProfileValidationError : Type :=
| Base (e : ProfileValidationError)
| IdempotenceRequired
| InvalidCleanupPolicy
| UncleanElectionForbidden
| InvalidDeliveryTimeout
| InvalidRequestTimeout
| InvalidLingerMs
| InvalidMaxInFlight
| InvalidCompression
| InvalidRetentionMs
| InvalidRetentionBytes
| TopicDeletionForbidden.

Inductive ProfileDriftKind : Type :=
| VersionDowngrade
| RfWeakened
| MinIsrWeakened
| IdempotenceDisabled
| UncleanElectionEnabled
| AcksWeakened.

#[export] Instance ProfileDriftKind_eq_dec : EqDecision ProfileDriftKind.
Proof. solve_decision. Defined.

(** ** Validation *)

(** The early return [if c { return Err(e); }]. *)
Definition reject_if {E} (c : bool) (e : E) : result unit E := if c then Err e else Ok tt.

Definition acks_all (acks : string) : bool :=
  bool_decide (acks = "all") || bool_decide (acks = "-1").

Definition validate_kafka_profile (p : KafkaDurabilityProfile)
  : result unit ProfileValidationError :=
  let? _ := reject_if (kd_replication_factor p <=? 0) InvalidRf in
  let? _ := reject_if (kd_min_insync_replicas p <=? 0) InvalidMinIsr in
  let? _ := reject_if (kd_replication_factor p <? kd_min_insync_replicas p) InvalidMinIsr in
  reject_if (negb (acks_all (kd_required_acks p))) InvalidAcks.

Definition validate_p0_kafka_profile (p : KafkaDurabilityProfile)
  : result unit ProfileValidationError :=
  let? _ := validate_kafka_profile p in
  let? _ := reject_if (kd_replication_factor p <? 5) WeakenedDurability in
  reject_if (kd_min_insync_replicas p <? 5) WeakenedDurability.

Definition validate_production_base (p : KafkaProductionProfile)
  : result unit ExtendedProfileValidationError :=
  let base := mkDurability (kp_profile_id p) (kp_replication_factor p)
                (kp_min_insync_replicas p) (kp_required_acks p) "" (kp_profile_version p) in
  let? _ := map_err Base (validate_kafka_profile base) in
  let? _ := reject_if (negb (kp_enable_idempotence p)) IdempotenceRequired in
  let? _ := reject_if (kp_delivery_timeout_ms p <=? 0) InvalidDeliveryTimeout in
  let? _ := reject_if (kp_request_timeout_ms p <=? 0) InvalidRequestTimeout in
  let? _ := reject_if (kp_linger_ms p <? 0) InvalidLingerMs in
  let? _ := reject_if (negb ((1 <=? kp_max_in_flight p) && (kp_max_in_flight p <=? 5)))
              InvalidMaxInFlight in
  let? _ := reject_if (negb (bool_decide
              (kp_compression p ∈ ["none"; "gzip"; "snappy"; "lz4"; "zstd"])))
              InvalidCompression in
  let? _ := reject_if (kp_retention_ms p <=? 0) InvalidRetentionMs in
  let? _ := reject_if (kp_retention_bytes p <=? 0) InvalidRetentionBytes in
  let? _ := reject_if (negb (bool_decide
              (kp_cleanup_policy p ∈ ["delete"; "compact"; "delete,compact"])))
              InvalidCleanupPolicy in
  let? _ := reject_if (kp_unclean_leader_election p) UncleanElectionForbidden in
  reject_if (negb (bool_decide (kp_topic_deletion_policy p = "PROTECTED")))
    TopicDeletionForbidden.

Definition validate_production_profile (p : KafkaProductionProfile)
  : result unit ExtendedProfileValidationError := validate_production_base p.

Definition validate_p0_production_profile (p : KafkaProductionProfile)
  : result unit ExtendedProfileValidationError :=
  let? _ := validate_production_base p in
  let? _ := reject_if (kp_replication_factor p <? 5) (Base WeakenedDurability) in
  reject_if (kp_min_insync_replicas p <? 5) (Base WeakenedDurability).

Definition is_profile_safe_for_delivery (p : KafkaProductionProfile)
  : result unit ExtendedProfileValidationError := validate_p0_production_profile p.

(** ** Drift *)

(** [if c { drifts.push(k); }] *)
Definition push_if {A} (c : bool) (k : A) : list A := if c then [k] else [].

Definition detect_profile_drift (current previous : KafkaProductionProfile)
  : list ProfileDriftKind :=
  push_if (kp_profile_version current <? kp_profile_version previous) VersionDowngrade ++
  push_if (kp_replication_factor current <? kp_replication_factor previous) RfWeakened ++
  push_if (kp_min_insync_replicas current <? kp_min_insync_replicas previous) MinIsrWeakened ++
  push_if (negb (kp_enable_idempotence current) && kp_enable_idempotence previous)
    IdempotenceDisabled ++
  push_if (kp_unclean_leader_election current && negb (kp_unclean_leader_election previous))
    UncleanElectionEnabled ++
  push_if (negb (acks_all (kp_required_acks current)) && acks_all (kp_required_acks previous))
    AcksWeakened.

(** ** The order of durability *)
Record as_durable_as (current previous : KafkaProductionProfile) : Prop := {
  ad_version : kp_profile_version previous ≤ kp_profile_version current;
  ad_rf : kp_replication_factor previous ≤ kp_replication_factor current;
  ad_isr : kp_min_insync_replicas previous ≤ kp_min_insync_replicas current;
  ad_idem : kp_enable_idempotence previous = true → kp_enable_idempotence current = true;
  ad_unclean : kp_unclean_leader_election previous = false →
    kp_unclean_leader_election current = false;
  ad_acks : acks_all (kp_required_acks previous) = true →
    acks_all (kp_required_acks current) = true
}.

#[export] Instance as_durable_as_preorder : PreOrder as_durable_as.
Proof.
  split.
  - intros p. by constructor.
  - intros a b c [] []. constructor; auto; lia.
Qed.

(** A write survives the loss of four of its replicas.  These are the durability
    settings among the points of [validate_p0_production_profile]; topic
    protection, retention and the like are not among them. *)
Record p0_durable (p : KafkaProductionProfile) : Prop := {
  pd_rf : 5 ≤ kp_replication_factor p;
  pd_isr : 5 ≤ kp_min_insync_replicas p;
  pd_acks : acks_all (kp_required_acks p) = true;
  pd_idem : kp_enable_idempotence p = true;
  pd_unclean : kp_unclean_leader_election p = false
}.

Lemma push_if_nil {A} c (k : A) : push_if c k = [] ↔ c = false.
Proof. by destruct c. Qed.

Lemma reject_if_ok {E} c (e : E) : reject_if c e = Ok tt ↔ c = false.
Proof. by destruct c. Qed.

Lemma bind_ok {E} (a b : result unit E) :
  (let? _ := a in b) = Ok tt ↔ a = Ok tt ∧ b = Ok tt.
Proof. destruct a as [[]|e]; [tauto|]. split; [done|by intros [? _]]. Qed.

Lemma map_err_ok {A E F} (f : E → F) (r : result A E) a : map_err f r = Ok a ↔ r = Ok a.
Proof. destruct r; simpl; naive_solver. Qed.

Create Rewrite HintDb profile.
#[export] Hint Rewrite @push_if_nil @reject_if_ok @bind_ok @map_err_ok @app_nil
  Z.leb_gt Z.ltb_ge andb_false_iff negb_false_iff negb_true_iff andb_true_iff Z.leb_le : profile.

Lemma drift_nil_iff current previous :
  detect_profile_drift current previous = [] ↔ as_durable_as current previous.
Proof.
  unfold detect_profile_drift. autorewrite with profile. split.
  - intros (? & ? & ? & Hi & Hu & Ha). constructor; auto.
    + intros Hp. destruct Hi; congruence.
    + intros Hp. destruct Hu; congruence.
    + intros Hp. destruct Ha; congruence.
  - intros [? ? ? Hi Hu Ha]. repeat split; auto.
    + destruct (kp_enable_idempotence previous); auto.
    + destruct (kp_unclean_leader_election previous); auto.
    + destruct (acks_all (kp_required_acks previous)); auto.
Qed.

Lemma p0_profile_durable p : validate_p0_production_profile p = Ok tt → p0_durable p.
Proof.
  unfold validate_p0_production_profile, validate_production_base, validate_kafka_profile.
  autorewrite with profile. intros H. constructor; simpl in *; tauto || lia.
Qed.

Lemma p0_durable_mono current previous :
  as_durable_as current previous → p0_durable previous → p0_durable current.
Proof. intros [] []. constructor; auto; lia. Qed.

(** C30. No drift keeps P0 durable.  [detect_profile_drift] reports nothing
    exactly when the new profile is at least as durable as the old one on every
    point; this is a preorder, so a chain of versions without reported drift
    from a profile that passed the P0 check ends in a profile that still needs
    five in-sync replicas, all acknowledgements, idempotence and no unclean
    election.  (The other points of the P0 check, such as topic protection, are
    not part of the drift.) *)
Theorem no_drift_keeps_p0 (first : KafkaProductionProfile) (versions : list KafkaProductionProfile)
    (final : KafkaProductionProfile) :
  validate_p0_production_profile first = Ok tt →
  (∀ i p q, (first :: versions) !! i = Some p → (first :: versions) !! S i = Some q →
     detect_profile_drift q p = []) →
  last (first :: versions) = Some final →
  as_durable_as final first ∧ p0_durable final.
Proof.
  intros Hok Hdrift Hlast.
  assert (Has : as_durable_as final first); [|split; [done|]].
  2: { apply (p0_durable_mono _ first Has). by apply p0_profile_durable. }
  clear Hok. revert first Hdrift Hlast.
  induction versions as [|v versions IH]; intros first Hdrift Hlast.
  - simpl in Hlast. by injection Hlast as ->.
  - etrans; [apply (IH v)|].
    + intros i p q Hp Hq. apply (Hdrift (S i)); done.
    + by rewrite last_cons_cons in Hlast.
    + apply drift_nil_iff. by apply (Hdrift 0%nat).
Qed.

Definition sample_profile : KafkaProductionProfile :=
  mkProfile "p0" 1 5 5 "all" true 120000 30000 5 5 "zstd" 604800000 1073741824 "delete"
    false "PROTECTED".

Lemma no_drift_keeps_p0_witness : as_durable_as sample_profile sample_profile ∧ p0_durable sample_profile.
Proof.
  apply (no_drift_keeps_p0 sample_profile [sample_profile] sample_profile).
  - reflexivity.
  - intros [|[|i]] p q Hp Hq; simpl in *; simplify_eq; reflexivity.
  - reflexivity.
Defined.

(** The delivery service refuses unsafe profiles.  A profile is safe for
    delivery exactly when it passes the checks of a production profile and asks
    for a replication factor and an in-sync minimum of at least five; the two
    P0 checks of the domain agree on what both cover. *)
Theorem safe_for_delivery_exact (p : KafkaProductionProfile) :
  (is_profile_safe_for_delivery p = Ok tt ↔
     validate_production_profile p = Ok tt ∧
     5 ≤ kp_replication_factor p ∧ 5 ≤ kp_min_insync_replicas p) ∧
  (is_profile_safe_for_delivery p = Ok tt →
     p0_durable p ∧ kp_min_insync_replicas p ≤ kp_replication_factor p ∧
     1 ≤ kp_max_in_flight p ≤ 5 ∧
     validate_p0_kafka_profile (mkDurability (kp_profile_id p) (kp_replication_factor p)
       (kp_min_insync_replicas p) (kp_required_acks p) "" (kp_profile_version p)) = Ok tt).
Proof.
  split.
  - unfold is_profile_safe_for_delivery, validate_p0_production_profile,
      validate_production_profile. autorewrite with profile. tauto.
  - intros Hok. pose proof (p0_profile_durable p Hok) as Hd. revert Hok.
    unfold is_profile_safe_for_delivery, validate_p0_production_profile,
      validate_production_base, validate_p0_kafka_profile.
    unfold validate_kafka_profile. autorewrite with profile. simpl. intros Hok.
    split; [done|]. tauto.
Qed.
