(* ===== verification/Repair.v ===== *)
(** * Repair and the transition table (craftrelay-kafka-delivery/src/repair.rs, replicated.rs)

    The classification of deliveries that need attention, and the table of the
    status changes the delivery crate calls valid, which is compared with the
    changes the journal makes. *)
From S2P Require Import Prelude Checksum JournalDb JournalCore JournalAccept SqlLogic.
From S2P Require Import JournalLog JournalReads JournalDelivery JournalTransitions.
From S2P Require Import JournalSafety DeliverySafety DeliveryFindings Retry Profiles.
Open Scope Z_scope.

(** ** repair.rs *)
Inductive RepairClassification : Type :=
| EligibleForRetry
| ProfileDrift (drift_kinds : list ProfileDriftKind)
| Stuck (reason : string)
| Inconsistent (detail : string).

Record RepairCandidate : Type := mkRepair {
  rc_event_id : string;
  rc_stream_key : string;
  rc_classification : RepairClassification;
  rc_attempt_count : Z;
  rc_blocked_reason : option string
}.

Definition classify_for_repair (delivery_status : string) (attempt_count : Z)
    (blocked_reason : option string) (profile_drifts : list ProfileDriftKind)
    (delivery_checksum_valid : bool) : RepairClassification :=
  if negb delivery_checksum_valid then
    Inconsistent ("delivery checksum invalid for status=" +:+ delivery_status +:+
                  ", reason=" +:+ debug_opt_str blocked_reason)
  else if negb (bool_decide (profile_drifts = [])) then ProfileDrift profile_drifts
  else if bool_decide (delivery_status = "DELIVERY_BLOCKED") then EligibleForRetry
  else if bool_decide (delivery_status = "DELIVERY_RETRYING")
       && (MAX_RETRY_ATTEMPTS <=? attempt_count) then
    Stuck ("retry attempts exhausted: " +:+ to_string attempt_count +:+ " >= " +:+
           to_string MAX_RETRY_ATTEMPTS)
  else
    Stuck ("unresolvable delivery state: status=" +:+ delivery_status +:+ ", attempts=" +:+
           to_string attempt_count +:+ ", reason=" +:+ debug_opt_str blocked_reason).

(** ** replicated.rs *)
Inductive TransitionError : Type :=
| TransitionInvalid (from to : DeliveryStatus).

Definition validate_transition (from to : DeliveryStatus) : result unit TransitionError :=
  match from, to with
  | DeliveryPending, DeliveryRetrying
  | DeliveryPending, Replicated
  | DeliveryPending, DeliveryBlocked
  | DeliveryRetrying, Replicated
  | DeliveryRetrying, DeliveryBlocked
  | DeliveryBlocked, DeliveryRetrying => Ok tt
  | _, _ => Err (TransitionInvalid from to)
  end.

(** The status texts of the journal. *)
Definition status_text (s : DeliveryStatus) : string :=
  match s with
  | LocalAccepted => "LOCAL_ACCEPTED"
  | DeliveryPending => "DELIVERY_PENDING"
  | DeliveryRetrying => "DELIVERY_RETRYING"
  | Replicated => "REPLICATED"
  | DeliveryBlocked => "DELIVERY_BLOCKED"
  end.

#[export] Instance status_text_inj : Inj (=) (=) status_text.
Proof. by intros [] []. Qed.

(** The changes of a delivery row the journal makes beyond the table. *)
Definition beyond_table (from to : DeliveryStatus) : Prop :=
  (from, to) = (DeliveryBlocked, Replicated) ∨
  (from, to) = (DeliveryBlocked, DeliveryBlocked) ∨
  (from, to) = (DeliveryRetrying, DeliveryRetrying).

Lemma valid_status `{Sha256} eid row :
  delivery_ok eid row → d_delivery_status row ≠ "REPLICATED" →
  ∃ s, d_delivery_status row = status_text s ∧ (s = DeliveryPending ∨ s = DeliveryRetrying ∨
       s = DeliveryBlocked).
Proof.
  intros Hok Hst. destruct (delivery_ok_valid _ _ Hok) as [Hs|Hs|Hs|Hs]; simpl in Hs; [done|..].
  - exists DeliveryPending. auto.
  - exists DeliveryRetrying. auto.
  - exists DeliveryBlocked. auto.
Qed.

(** C31. The journal's status changes against the transition table.  Whenever
    a journal operation changes the status of a delivery row, under whatever
    failures, the change is one the table calls valid, or it is one of exactly
    three: a blocked delivery is confirmed, a blocked one is blocked again, a
    retrying one gets another retry time.  A replicated row is never changed. *)
Theorem journal_against_table (S : Sha256) (E : Engine) (op : DeliveryOp) (now : Z) (db : Db)
    (eid : string) (row row' : DeliveryStateRecord) :
  delivery_state db !! eid = Some row →
  delivery_state (run_op op now db).2 !! eid = Some row' →
  d_delivery_revision row ≠ d_delivery_revision row' →
  ∃ from to, d_delivery_status row = status_text from ∧ d_delivery_status row' = status_text to ∧
    from ≠ Replicated ∧ (validate_transition from to = Ok tt ∨ beyond_table from to).
Proof.
  intros Hrow Hrow' Hrev. destruct (run_op_cases op now db) as [[_ He]|[_ Heq]].
  2: { rewrite Heq in Hrow'. congruence. }
  revert He Hrow'. generalize (run_op op now db).2 as db'. intros db' Heff Hrow'.
  destruct Heff as
    [eid' rev nd nr e l _ _|eid' fp pid pv topic e _ Hno|a e row1 _ [Hrow1 _] checksum
    |eid' rev c e l row1 _ [[Hrow1 Hok] [_ Hst]] _|eid' rev reason e l row1 _ [[Hrow1 Hok] [_ Hst]]
    |eid' rev t row1 [[Hrow1 Hok] [_ Hst]]]; simpl in Hrow'; [congruence|..].
  all: apply lookup_insert_Some in Hrow' as [[Heid Heq]|[_ ?]]; [|congruence]; subst row'.
  - congruence.
  - rewrite Heid in Hrow1. simplify_eq.
  - subst eid'. rewrite Hrow in Hrow1. injection Hrow1 as <-.
    destruct (valid_status _ _ Hok Hst) as (s & Hs & Hcases). exists s, Replicated.
    unfold beyond_table. destruct Hcases as [->|[->| ->]]; eauto 10.
  - subst eid'. rewrite Hrow in Hrow1. injection Hrow1 as <-.
    destruct (valid_status _ _ Hok Hst) as (s & Hs & Hcases). exists s, DeliveryBlocked.
    unfold beyond_table. destruct Hcases as [->|[->| ->]]; eauto 10.
  - subst eid'. rewrite Hrow in Hrow1. injection Hrow1 as <-.
    destruct (valid_status _ _ Hok Hst) as (s & Hs & Hcases). exists s, DeliveryRetrying.
    unfold beyond_table. destruct Hcases as [->|[->| ->]]; eauto 10.
Qed.

(** A blocked delivery is confirmed: the change is beyond the table. *)
Definition sample_confirm_blocked : DeliveryOp := OpConfirm "e1" 2 sample_confirmation.

Lemma journal_against_table_witness :
  ∃ row row', delivery_state sample_blocked !! "e1" = Some row ∧
    delivery_state (@run_op sample_sha256 sample_engine sample_confirm_blocked 10
                      sample_blocked).2 !! "e1" = Some row' ∧
    d_delivery_status row = "DELIVERY_BLOCKED" ∧ d_delivery_status row' = "REPLICATED" ∧
    ∃ from to, d_delivery_status row = status_text from ∧ d_delivery_status row' = status_text to ∧
      from ≠ Replicated ∧ (validate_transition from to = Ok tt ∨ beyond_table from to).
Proof.
  eexists _, _. split; [vm_compute; reflexivity|]. split; [vm_compute; reflexivity|].
  split; [reflexivity|]. split; [reflexivity|].
  apply (journal_against_table sample_sha256 sample_engine sample_confirm_blocked 10
           sample_blocked "e1").
  - vm_compute. reflexivity.
  - vm_compute. reflexivity.
  - discriminate.
Defined.

(** What repair offers.  A delivery is offered for retry exactly when its
    checksum is valid, its profile has not drifted and it is blocked -- so only
    where the table allows a retry; an invalid checksum always comes first and
    drift second. *)
Theorem repair_offers (status : string) (attempts : Z) (reason : option string)
    (drifts : list ProfileDriftKind) (valid : bool) :
  (classify_for_repair status attempts reason drifts valid = EligibleForRetry ↔
     valid = true ∧ drifts = [] ∧ status = "DELIVERY_BLOCKED") ∧
  ((∃ d, classify_for_repair status attempts reason drifts valid = Inconsistent d) ↔ valid = false) ∧
  (∀ ds, classify_for_repair status attempts reason drifts valid = ProfileDrift ds ↔
     valid = true ∧ drifts ≠ [] ∧ ds = drifts) ∧
  (classify_for_repair status attempts reason drifts valid = EligibleForRetry →
     ∀ from, status = status_text from → validate_transition from DeliveryRetrying = Ok tt).
Proof.
  unfold classify_for_repair. destruct valid; simpl; [|naive_solver].
  repeat case_bool_decide; simpl; repeat case_match; subst;
    (split; [naive_solver|]); (split; [naive_solver|]); (split; [naive_solver|]); try done.
  intros _ from Hf. apply (inj status_text DeliveryBlocked from) in Hf. by subst from.
Qed.
