(* ===== verification/Service.v ===== *)
(** * The delivery service (craftrelay-kafka-delivery/src/service.rs, producer.rs)

    One attempt to deliver an event: the journal names the candidate, the gate
    decides whether it is its turn, routing and profile are checked, the payload
    is read and verified, the producer sends, and the outcome is persisted in
    the journal and the gate.

    The trait [KafkaProducer] is a type class; its state is a parameter.  Every
    call of the journal runs on an engine of its own and with a clock of its
    own, so that any combination of failures is covered. *)
From S2P Require Import Prelude Checksum JournalDb JournalCore JournalAccept SqlLogic.
From S2P Require Import JournalDelivery JournalScan Retry Gate Profiles Routing.
Open Scope Z_scope.

(** ** producer.rs *)
Record SendRequest : Type := mkSend {
  sq_event_id : string;
  sq_topic : string;
  sq_partition_key : string;
  sq_payload : list byte;
  sq_headers : list (string * string)
}.

Record SendSuccess : Type := mkSuccess {
  ss_topic : string;
  ss_partition : Z;
  ss_offset : Z
}.

Class KafkaProducer (P : Type) :=
  send : SendRequest → P → result SendSuccess SendError * P.

(** [FakeProducer]: the queued results and the requests it was given. *)
Record FakeProducer : Type := mkFake {
  fp_results : list (result SendSuccess SendError);
  fp_sent : list SendRequest
}.

Definition fake_new : FakeProducer := mkFake [] [].
Definition enqueue_success (s : SendSuccess) (p : FakeProducer) : FakeProducer :=
  mkFake (fp_results p ++ [Ok s]) (fp_sent p).
Definition enqueue_error (e : SendError) (p : FakeProducer) : FakeProducer :=
  mkFake (fp_results p ++ [Err e]) (fp_sent p).
Definition sent_requests (p : FakeProducer) : list SendRequest := fp_sent p.

#[export] Instance fake_send : KafkaProducer FakeProducer := λ request p,
  let sent := fp_sent p ++ [request] in
  match fp_results p with
  | [] => (Err (Unknown "no more enqueued results"), mkFake [] sent)
  | r :: rest => (r, mkFake rest sent)
  end.

(** ** Debug texts *)
Definition debug_cas (r : CasResult) : string :=
  match r with
  | Updated => "Updated"
  | AlreadyConfirmed => "AlreadyConfirmed"
  | StaleRevision => "StaleRevision"
  | CasNotFound => "NotFound"
  | InvalidTransition => "InvalidTransition"
  | CasCorrupted event_id detail =>
      "Corrupted { event_id: " +:+ debug_str event_id +:+ ", detail: " +:+
      debug_str detail +:+ " }"
  | CasError e => "Error(" +:+ debug_str e +:+ ")"
  end.

Definition debug_send_error (e : SendError) : string :=
  match e with
  | BrokerUnavailable => "BrokerUnavailable"
  | TopicNotFound => "TopicNotFound"
  | AuthorizationFailed => "AuthorizationFailed"
  | MessageTooLarge => "MessageTooLarge"
  | Timeout => "Timeout"
  | QueueFull => "QueueFull"
  | Unknown d => "Unknown(" +:+ debug_str d +:+ ")"
  end.

Definition debug_routing_error (e : RoutingError) : string :=
  match e with
  | UnsupportedRoutingVersion => "UnsupportedRoutingVersion"
  | EmptyField => "EmptyField"
  end.

Definition debug_profile_error (e : ExtendedProfileValidationError) : string :=
  match e with
  | Base UnknownProfile => "Base(UnknownProfile)"
  | Base InvalidRf => "Base(InvalidRf)"
  | Base InvalidMinIsr => "Base(InvalidMinIsr)"
  | Base InvalidAcks => "Base(InvalidAcks)"
  | Base WeakenedDurability => "Base(WeakenedDurability)"
  | IdempotenceRequired => "IdempotenceRequired"
  | InvalidCleanupPolicy => "InvalidCleanupPolicy"
  | UncleanElectionForbidden => "UncleanElectionForbidden"
  | InvalidDeliveryTimeout => "InvalidDeliveryTimeout"
  | InvalidRequestTimeout => "InvalidRequestTimeout"
  | InvalidLingerMs => "InvalidLingerMs"
  | InvalidMaxInFlight => "InvalidMaxInFlight"
  | InvalidCompression => "InvalidCompression"
  | InvalidRetentionMs => "InvalidRetentionMs"
  | InvalidRetentionBytes => "InvalidRetentionBytes"
  | TopicDeletionForbidden => "TopicDeletionForbidden"
  end.

(** ** service.rs *)
Inductive DeliveryOutcome : Type :=
| OutReplicated (kafka_partition kafka_offset : Z)
| OutRetrying (next_retry_at_ms : Z)
| OutBlocked (reason : string)
| GateHeld (waiting_for_sequence : Z)
| OutError (e : string).

Record DeliveryService (P : Type) : Type := mkService {
  ds_journal : LocalJournal;
  ds_producer : P;
  ds_gate : OrderingGate;
  ds_profile : KafkaProductionProfile;
  ds_shutdown : bool
}.
Arguments mkService {P}.
Arguments ds_journal {P}.
Arguments ds_producer {P}.
Arguments ds_gate {P}.
Arguments ds_profile {P}.
Arguments ds_shutdown {P}.

(** The engines and the clocks of the journal calls of one attempt, and the
    clock the service itself reads. *)
Record Env : Type := mkEnv {
  env_candidate : Engine;
  env_payload : Engine;
  env_confirm : Engine;
  env_attempt : Engine;
  env_retry : Engine;
  env_block : Engine;
  env_now : Z;
  env_confirm_now : Z;
  env_attempt_now : Z;
  env_retry_now : Z;
  env_block_now : Z
}.

Section Service.
Context `{Sha256} {P : Type} `{KafkaProducer P}.

(** [DeliveryService::new] *)
Definition service_new (journal : LocalJournal) (producer : P)
    (profile : KafkaProductionProfile) : DeliveryService P :=
  mkService journal producer gate_new profile false.

Definition set_gate (svc : DeliveryService P) (g : OrderingGate) : DeliveryService P :=
  mkService (ds_journal svc) (ds_producer svc) g (ds_profile svc) (ds_shutdown svc).

Definition set_journal (svc : DeliveryService P) (db : Db) : DeliveryService P :=
  mkService (set_conn (ds_journal svc) db) (ds_producer svc) (ds_gate svc) (ds_profile svc)
    (ds_shutdown svc).

Definition set_producer (svc : DeliveryService P) (p : P) : DeliveryService P :=
  mkService (ds_journal svc) p (ds_gate svc) (ds_profile svc) (ds_shutdown svc).

Definition service_db (svc : DeliveryService P) : Db := j_conn (ds_journal svc).

Definition service_shutdown (svc : DeliveryService P) : DeliveryService P :=
  mkService (ds_journal svc) (ds_producer svc) (ds_gate svc) (ds_profile svc) true.

Definition service_is_shutdown (svc : DeliveryService P) : bool := ds_shutdown svc.

(** The state [recover] builds from a scanned delivery. *)
Definition recovered_of (p : PendingDelivery) : RecoveredStreamState :=
  mkRecovered (pd_stream_key p) (pd_stream_sequence p)
    (bool_decide (pd_delivery_status p = "REPLICATED"))
    (negb (bool_decide (pd_delivery_status p = "REPLICATED"))) false.

Definition recover `{Engine} `{RowOrder} (svc : DeliveryService P)
  : result unit string * DeliveryService P :=
  match scan_delivery_gate_states 10000 (service_db svc) with
  | ScanCorrupted event_id detail =>
      (Err ("delivery gate recovery scan corrupted event_id=" +:+ debug_opt_str event_id +:+
            ": " +:+ detail), svc)
  | ScanError e => (Err ("delivery gate recovery scan failed: " +:+ e), svc)
  | ScanOk persisted =>
      (Ok tt, set_gate svc (recover_from_scan (ds_gate svc) (recovered_of <$> persisted)))
  end.

Definition persist_block_before_send (env : Env) (svc : DeliveryService P)
    (event_id stream_key : string) (stream_sequence delivery_revision : Z) (reason : string)
  : DeliveryOutcome * DeliveryService P :=
  let '(r, db) := @block_delivery _ (env_block env) event_id delivery_revision reason
                    (env_block_now env) (service_db svc) in
  let svc := set_journal svc db in
  match r with
  | Updated =>
      (OutBlocked reason,
       set_gate svc (mark_blocking (ds_gate svc) stream_key stream_sequence))
  | other => (OutError ("delivery block persistence failed: " +:+ debug_cas other), svc)
  end.

Definition routing_input (c : DeliveryCandidate) : RoutingInput :=
  mkRoutingInput (dc_installation_id c) (dc_namespace c) (dc_logical_stream_type c)
    (dc_stream_key c) (dc_event_type c) (dc_routing_version c).

(** The checks before a send: the routing of the candidate, or the reason for
    which it is blocked. *)
Definition check_binding (profile : KafkaProductionProfile) (c : DeliveryCandidate)
  : result RoutingResolution string :=
  let state := dc_delivery_state c in
  match resolve_routing (routing_input c) with
  | Err e => Err ("routing error: " +:+ debug_routing_error e)
  | Ok routing =>
      if negb (bool_decide (d_routing_fingerprint state = Some (rr_routing_checksum routing)))
      then Err "routing fingerprint mismatch"
      else if negb (bool_decide (d_profile_id state = Some (kp_profile_id profile)))
      then Err "profile ID mismatch"
      else if negb (bool_decide (d_profile_version state = Some (kp_profile_version profile)))
      then Err "profile version mismatch"
      else if negb (bool_decide (d_kafka_topic state = Some (rr_topic routing)))
      then Err "routing topic mismatch"
      else match is_profile_safe_for_delivery profile with
           | Err e => Err ("unsafe Kafka production profile: " +:+ debug_profile_error e)
           | Ok _ => Ok routing
           end
  end.

Definition send_request (profile : KafkaProductionProfile) (event_id : string)
    (routing : RoutingResolution) (payload : list byte) : SendRequest :=
  mkSend event_id (rr_topic routing) (rr_partition_key routing) payload
    [("routing_version", to_string (rr_routing_version routing));
     ("profile_id", kp_profile_id profile)].

(** The producer acknowledged. *)
Definition on_success (env : Env) (svc : DeliveryService P) (event_id : string)
    (c : DeliveryCandidate) (routing : RoutingResolution) (success : SendSuccess)
  : DeliveryOutcome * DeliveryService P :=
  let profile := ds_profile svc in
  let '(result, db) := @confirm_replicated_delivery _ (env_confirm env) event_id
        (d_delivery_revision (dc_delivery_state c))
        (mkConfirmation (rr_routing_checksum routing) (kp_profile_id profile)
           (kp_profile_version profile) (ss_topic success) (ss_partition success)
           (ss_offset success)) (env_confirm_now env) (service_db svc) in
  let svc := set_journal svc db in
  match result with
  | Updated | AlreadyConfirmed =>
      (OutReplicated (ss_partition success) (ss_offset success),
       set_gate svc (mark_completed (ds_gate svc) (dc_stream_key c) (dc_stream_sequence c)))
  | other =>
      (OutError ("journal confirm failed: " +:+ debug_cas other),
       set_gate svc (mark_blocking (ds_gate svc) (dc_stream_key c) (dc_stream_sequence c)))
  end.

(** A failed send that is blocked. *)
Definition block_after_send (env : Env) (svc : DeliveryService P) (event_id : string)
    (c : DeliveryCandidate) (reason : string) : DeliveryOutcome * DeliveryService P :=
  let '(r, db) := @block_delivery _ (env_block env) event_id
        (d_delivery_revision (dc_delivery_state c)) reason (env_block_now env)
        (service_db svc) in
  let svc := set_journal svc db in
  match r with
  | Updated =>
      (OutBlocked reason,
       set_gate svc (mark_blocking (ds_gate svc) (dc_stream_key c) (dc_stream_sequence c)))
  | other => (OutError ("delivery block persistence failed: " +:+ debug_cas other), svc)
  end.

(** The attempt that is recorded for a failed send. *)
Definition failed_attempt (env : Env) (profile : KafkaProductionProfile) (event_id : string)
    (c : DeliveryCandidate) (routing : RoutingResolution) (send_err : SendError)
  : DeliveryAttemptRecord :=
  mkAttempt event_id (i32_add (d_attempt_count (dc_delivery_state c)) 1)
    (if is_permanent send_err then "PERMANENT_FAILURE" else "TRANSIENT_FAILURE")
    (Some (debug_send_error send_err)) (Some (rr_topic routing)) None None
    (Some (kp_profile_id profile)) (Some (kp_profile_version profile)) (env_now env).

(** The producer failed. *)
Definition on_failure (env : Env) (svc : DeliveryService P) (event_id : string)
    (c : DeliveryCandidate) (routing : RoutingResolution) (send_err : SendError)
  : DeliveryOutcome * DeliveryService P :=
  let state := dc_delivery_state c in
  let attempts := i32_add (d_attempt_count state) 1 in
  let '(r, db) := @record_delivery_attempt _ (env_attempt env)
        (failed_attempt env (ds_profile svc) event_id c routing send_err)
        (env_attempt_now env) (service_db svc) in
  let svc := set_journal svc db in
  match r with
  | Updated =>
      if should_retry send_err attempts then
        match compute_next_retry attempts (env_now env) with
        | Retry next_retry_at_ms =>
            let '(r, db) := @update_delivery_retry _ (env_retry env) event_id
                  (d_delivery_revision state) next_retry_at_ms (env_retry_now env)
                  (service_db svc) in
            let svc := set_journal svc db in
            match r with
            | Updated =>
                (OutRetrying next_retry_at_ms,
                 set_gate svc (mark_blocking (ds_gate svc) (dc_stream_key c)
                                 (dc_stream_sequence c)))
            | other =>
                (OutError ("delivery retry persistence failed: " +:+ debug_cas other), svc)
            end
        | Exhausted => block_after_send env svc event_id c "retry exhausted"
        end
      else
        block_after_send env svc event_id c
          ("permanent failure: " +:+ debug_send_error send_err)
  | other => (OutError ("delivery attempt persistence failed: " +:+ debug_cas other), svc)
  end.

(** From the verified payload to the outcome of the send. *)
Definition send_payload (env : Env) (svc : DeliveryService P) (event_id : string)
    (c : DeliveryCandidate) (routing : RoutingResolution) (payload : list byte)
  : DeliveryOutcome * DeliveryService P :=
  let svc := set_gate svc (mark_in_flight (ds_gate svc) (dc_stream_key c)
                             (dc_stream_sequence c)) in
  let '(r, p) := send (send_request (ds_profile svc) event_id routing payload)
                   (ds_producer svc) in
  let svc := set_producer svc p in
  match r with
  | Ok success => on_success env svc event_id c routing success
  | Err send_err => on_failure env svc event_id c routing send_err
  end.

(** The part of [attempt_delivery] behind the gate. *)
Definition deliver_candidate (env : Env) (svc : DeliveryService P) (event_id : string)
    (c : DeliveryCandidate) : DeliveryOutcome * DeliveryService P :=
  let state := dc_delivery_state c in
  let key := dc_stream_key c in
  let seq := dc_stream_sequence c in
  if bool_decide (d_delivery_status state = "REPLICATED") then
    match d_kafka_partition state, d_kafka_offset state with
    | Some kafka_partition, Some kafka_offset =>
        (OutReplicated kafka_partition kafka_offset,
         set_gate svc (mark_completed (ds_gate svc) key seq))
    | _, _ => (OutError "replicated delivery missing Kafka confirmation metadata", svc)
    end
  else if bool_decide (d_delivery_status state = "DELIVERY_BLOCKED") then
    (OutBlocked (default "delivery blocked" (d_blocked_reason state)),
     set_gate svc (mark_blocking (ds_gate svc) key seq))
  else
    match check_binding (ds_profile svc) c with
    | Err reason =>
        persist_block_before_send env svc event_id key seq (d_delivery_revision state) reason
    | Ok routing =>
        let hold e := (OutError e, set_gate svc (mark_blocking (ds_gate svc) key seq)) in
        match @read_verified_payload _ (env_payload env) event_id (service_db svc) with
        | PayloadNotFound => hold "stored payload not found"
        | PayloadCorrupted _ detail => hold ("stored payload corrupted: " +:+ detail)
        | PayloadError e => hold ("stored payload read failed: " +:+ e)
        | PayloadFound payload => send_payload env svc event_id c routing payload
        end
    end.

(** [DeliveryService::attempt_delivery].  Its calls to the journal see the
    database the call before left: other clients come before or after the
    attempt. *)
Definition attempt_delivery (env : Env) (svc : DeliveryService P) (event_id : string)
  : DeliveryOutcome * DeliveryService P :=
  if ds_shutdown svc then (OutError "delivery service is shut down", svc)
  else
    match @get_delivery_candidate _ (env_candidate env) event_id (service_db svc) with
    | CandidateNotFound => (OutError "delivery candidate not found", svc)
    | CandidateCorrupted _ detail =>
        (OutError ("delivery candidate corrupted: " +:+ detail), svc)
    | CandidateError e => (OutError e, svc)
    | CandidateFound c =>
        match check (ds_gate svc) (dc_stream_key c) (dc_stream_sequence c) with
        | Blocked waiting_for_sequence => (GateHeld waiting_for_sequence, svc)
        | Allowed => deliver_candidate env svc event_id c
        end
    end.
End Service.
