(* ===== verification/ServiceSafety.v ===== *)
(** * Safety of the delivery service

    What one attempt may do -- which requests reach the producer, what an
    outcome promises about the journal -- and what any run of attempts and
    other journal calls keeps: each stream is completed in order, and every
    completed event is replicated in the journal. *)
From S2P Require Import Prelude Checksum JournalDb JournalCore JournalAccept SqlLogic.
From S2P Require Import JournalLog JournalReads JournalDelivery JournalTransitions.
From S2P Require Import JournalSafety DeliverySafety JournalScan Retry Gate Profiles Routing.
From S2P Require Import Integrity Service.
Open Scope Z_scope.
#[local] Coercion Z.of_nat : nat >-> Z.

(** ** Candidates *)
Definition candidate_of (eid : string) (e : EnvelopeRow) (row : DeliveryStateRecord)
  : DeliveryCandidate :=
  mkCandidate eid (e_installation_id e) (e_namespace e) (e_logical_stream_type e)
    (e_stream_key e) (e_stream_sequence e) (e_event_type e) (e_routing_version e)
    (delivery_of_row eid row).

(** A candidate that is found comes from a verified delivery row and a verified
    envelope. *)
Lemma candidate_sound `{Sha256} `{E : Engine} eid db c :
  get_delivery_candidate eid db = CandidateFound c →
  ∃ e row, stored_envelope db !! eid = Some e ∧ envelope_ok eid e ∧ delivery_row db eid row ∧
    c = candidate_of eid e row.
Proof.
  unfold get_delivery_candidate.
  apply (wp_run_auto _ (λ r _, r = CandidateFound c → ∃ e row, stored_envelope db !! eid = Some e ∧
    envelope_ok eid e ∧ delivery_row db eid row ∧ c = candidate_of eid e row)).
  unfold load_delivery_candidate. apply wp_bind, wp_load_delivery; simpl.
  2: { intros r s' _ Hr _. destruct r as [st| | |]; [by destruct (Hr st)|by apply wp_ret..]. }
  intros row s1 Hrow [Hw1 _]. apply wp_bind, wp_query; [by intros; apply wp_ret|].
  simpl in Hw1. rewrite Hw1. destruct (stored_envelope db !! eid) as [e|] eqn:He; [|by apply wp_ret].
  wp_step; [by apply wp_ret|]. apply wp_bind, wp_reads; [apply reads_recompute|]. intros s2 _.
  destruct (recompute_envelope_checksum_from_row eid (tick s1)).1 as [x|d] eqn:Hx; [|by apply wp_ret].
  apply recompute_sound in Hx as (e' & He' & -> & Hd & Hf). simpl in He'.
  rewrite Hw1, He in He'. injection He' as <-.
  case_bool_decide as Hc; apply wp_ret; [|done]. intros [= <-]. exists e, row.
  apply negb_len32 in Heqb. split; [done|]. split; [by constructor|]. done.
Qed.

(** ** What an attempt does to its parts *)
Section Attempt.
Context `{Sha256} {P : Type} `{KP : KafkaProducer P} {g0 : OrderingGate}.
Implicit Types (svc : DeliveryService P).

(** The journal calls of an attempt: operations on accepted events. *)
Inductive op_step : LocalJournal → LocalJournal → Prop :=
| op_run (E : Engine) op now j : op_step j (set_conn j (run_op op now (j_conn j)).2).

Definition ops_reach (svc svc' : DeliveryService P) : Prop :=
  ∃ n, (n ≤ 2)%nat ∧ nsteps op_step n (ds_journal svc) (ds_journal svc').

Lemma reaches_refl svc svc' : ds_journal svc' = ds_journal svc → ops_reach svc svc'.
Proof. intros Hj. exists 0%nat. rewrite Hj. split; [lia|constructor]. Qed.

Lemma block_reaches (E : Engine) eid rev reason now svc svc' :
  ds_journal svc' = set_conn (ds_journal svc) (block_delivery eid rev reason now (service_db svc)).2 →
  nsteps op_step 1 (ds_journal svc) (ds_journal svc').
Proof. intros ->. apply nsteps_once. apply (op_run E (OpBlock eid rev reason)). Qed.

Lemma on_failure_journal env svc eid c routing err :
  ops_reach svc (on_failure env svc eid c routing err).2.
Proof.
  unfold on_failure. destruct (record_delivery_attempt _ _ _) as [r db] eqn:Hr.
  assert (Hstep : op_step (ds_journal svc) (set_conn (ds_journal svc) db)).
  { pose proof (op_run (env_attempt env) (OpAttempt (failed_attempt env (ds_profile svc) eid c
      routing err)) (env_attempt_now env) (ds_journal svc)) as Hs. simpl in Hs.
    unfold service_db in Hr. by rewrite Hr in Hs. }
  assert (H1 : ∀ o svc', ds_journal svc' = set_conn (ds_journal svc) db →
     ops_reach svc ((o : DeliveryOutcome, svc') : _ * _).2).
  { intros o svc' Hj. exists 1%nat. split; [lia|]. simpl. rewrite Hj. by apply nsteps_once. }
  assert (H2 : ∀ reason, ops_reach svc
     (block_after_send env (set_journal svc db) eid c reason).2).
  { intros reason. exists 2%nat. split; [lia|]. eapply nsteps_l; [exact Hstep|].
    unfold block_after_send. destruct (block_delivery _ _ _ _ _) as [r2 db2] eqn:Hb.
    apply (block_reaches (env_block env) eid (d_delivery_revision (dc_delivery_state c)) reason
      (env_block_now env) (set_journal svc db)). rewrite Hb. by destruct r2. }
  destruct r; try (by apply H1). destruct (should_retry _ _); [|apply H2].
  destruct (compute_next_retry _ _) as [t|]; [|apply H2].
  destruct (update_delivery_retry _ _ _ _ _) as [r2 db2] eqn:Hu.
  exists 2%nat. split; [lia|]. eapply nsteps_l; [exact Hstep|]. apply nsteps_once.
  pose proof (op_run (env_retry env) (OpRetry eid (d_delivery_revision (dc_delivery_state c)) t)
    (env_retry_now env) (set_conn (ds_journal svc) db)) as Hs. simpl in Hs.
  unfold service_db in Hu. simpl in Hu. rewrite Hu in Hs. by destruct r2.
Qed.

Lemma on_success_journal env svc eid c routing s :
  ops_reach svc (on_success env svc eid c routing s).2.
Proof.
  unfold on_success. destruct (confirm_replicated_delivery _ _ _ _ _) as [r db] eqn:Hr.
  exists 1%nat. split; [lia|]. apply nsteps_once.
  pose proof (op_run (env_confirm env) (OpConfirm eid (d_delivery_revision (dc_delivery_state c))
    (mkConfirmation (rr_routing_checksum routing) (kp_profile_id (ds_profile svc))
       (kp_profile_version (ds_profile svc)) (ss_topic s) (ss_partition s) (ss_offset s)))
    (env_confirm_now env) (ds_journal svc)) as Hs. simpl in Hs.
  unfold service_db in Hr. rewrite Hr in Hs. by destruct r.
Qed.

(** An attempt makes at most two of them. *)
Lemma attempt_ops env svc eid : ops_reach svc (attempt_delivery env svc eid).2.
Proof.
  unfold attempt_delivery. destruct (ds_shutdown svc); [by apply reaches_refl|].
  destruct (get_delivery_candidate eid (service_db svc)) as [c| | |]; try (by apply reaches_refl).
  destruct (check _ _ _); [|by apply reaches_refl]. unfold deliver_candidate.
  case_bool_decide; [repeat case_match; by apply reaches_refl|].
  case_bool_decide; [by apply reaches_refl|].
  destruct (check_binding _ _) as [routing|reason].
  - destruct (read_verified_payload _ _); try (by apply reaches_refl).
    unfold send_payload. destruct (send _ _) as [[s|err] p].
    + apply (on_success_journal env (set_producer (set_gate svc _) p)).
    + apply (on_failure_journal env (set_producer (set_gate svc _) p)).
  - unfold persist_block_before_send. destruct (block_delivery _ _ _ _ _) as [r db] eqn:Hb.
    exists 1%nat. split; [lia|]. eapply (block_reaches (env_block env)). rewrite Hb. by destruct r.
Qed.

(** They are steps of the journal. *)
Lemma attempt_journal env svc eid :
  ∃ n, (n ≤ 2)%nat ∧
    nsteps journal_step n (ds_journal svc) (ds_journal (attempt_delivery env svc eid).2).
Proof.
  destruct (attempt_ops env svc eid) as (n & Hn & Hs). exists n. split; [done|].
  eapply (nsteps_congruence id); [|exact Hs]. intros ?? []. apply step_op.
Qed.

(** They leave the log alone. *)
Lemma attempt_represents `{!Sha256Ok} env svc eid log :
  represents (service_db svc) log → represents (service_db (attempt_delivery env svc eid).2) log.
Proof.
  destruct (attempt_ops env svc eid) as (n & _ & Hs). unfold service_db. revert Hs.
  generalize (ds_journal (attempt_delivery env svc eid).2) as j'. generalize (ds_journal svc) as j.
  induction 1 as [j|n j j1 j2 [E op now j0] _ IH]; [done|]. intros Hr.
  by apply IH, run_op_represents.
Qed.

(** ** What an attempt does to the gate *)

(** The gate after the attempt, as a run that continues the one before, from
    whatever gate [g0] it started; a completion is reported as
    [OutReplicated]. *)
Definition gate_continues (k : string) (s : Z) (tr : list gate_event)
    (r : DeliveryOutcome * DeliveryService P) : Prop :=
  ∃ new, (length new ≤ 2)%nat ∧ gate_run_from g0 (new ++ tr) (ds_gate r.2) ∧
    ∀ k' s', Completed k' s' ∈ new → k' = k ∧ s' = s ∧ ∃ p o, r.1 = OutReplicated p o.

Lemma continues_same k s tr o svc : gate_run_from g0 tr (ds_gate svc) → gate_continues k s tr (o, svc).
Proof.
  intros Hg. exists []. split; [simpl; lia|]. split; [done|]. intros ?? Hin.
  by apply not_elem_of_nil in Hin.
Qed.

(** A sequence that was sent before: its outcome is a completion, a hold, or
    nothing. *)
Lemma in_flight_after tr g k s :
  gate_run_from g0 tr g → check g k s = Allowed →
  gate_run_from g0 (Sent k s :: tr) (mark_in_flight g k s) ∧
  in_flight (stream_entry (mark_in_flight g k s) k) = Some s.
Proof.
  intros Hg Hc. split; [by apply run_send|]. unfold mark_in_flight. by rewrite stream_entry_set.
Qed.

Lemma sent_nothing tr g k s o svc :
  gate_run_from g0 tr g → check g k s = Allowed → ds_gate svc = mark_in_flight g k s →
  gate_continues k s tr (o, svc).
Proof.
  intros Hg Hc Hgate. destruct (in_flight_after tr g k s Hg Hc) as [Hrun _].
  exists [Sent k s]. simpl. split; [lia|]. rewrite Hgate. split; [done|].
  intros ?? Hin%list_elem_of_singleton. done.
Qed.

Lemma sent_held tr g k s o svc :
  gate_run_from g0 tr g → check g k s = Allowed →
  ds_gate svc = mark_blocking (mark_in_flight g k s) k s → gate_continues k s tr (o, svc).
Proof.
  intros Hg Hc Hgate. destruct (in_flight_after tr g k s Hg Hc) as [Hrun Hf].
  exists [Held k s; Sent k s]. simpl. split; [lia|]. rewrite Hgate. split; [by apply run_fail|].
  intros ?? Hin. set_solver.
Qed.

Lemma sent_completed tr g k s p o svc :
  gate_run_from g0 tr g → check g k s = Allowed →
  ds_gate svc = mark_completed (mark_in_flight g k s) k s →
  gate_continues k s tr (OutReplicated p o, svc).
Proof.
  intros Hg Hc Hgate. destruct (in_flight_after tr g k s Hg Hc) as [Hrun Hf].
  exists [Completed k s; Sent k s]. simpl. split; [lia|]. rewrite Hgate.
  split; [by apply run_confirm|]. intros k' s' Hin.
  assert (Completed k' s' = Completed k s) as [= -> ->] by set_solver. eauto.
Qed.

Lemma held_unsent tr k s o svc g :
  gate_run_from g0 tr g → check g k s = Allowed → ds_gate svc = mark_blocking g k s →
  gate_continues k s tr (o, svc).
Proof.
  intros Hg Hc Hgate. exists [Held k s]. simpl. split; [lia|]. rewrite Hgate.
  split; [by apply run_block|]. intros ?? Hin%list_elem_of_singleton. done.
Qed.

Lemma on_failure_gate env svc eid c routing err tr g :
  gate_run_from g0 tr g → check g (dc_stream_key c) (dc_stream_sequence c) = Allowed →
  ds_gate svc = mark_in_flight g (dc_stream_key c) (dc_stream_sequence c) →
  gate_continues (dc_stream_key c) (dc_stream_sequence c) tr (on_failure env svc eid c routing err).
Proof.
  intros Hg Hc Hgate. unfold on_failure, block_after_send.
  destruct (record_delivery_attempt _ _ _) as [[] db]; try by apply (sent_nothing tr g).
  destruct (should_retry _ _); [destruct (compute_next_retry _ _)|].
  - destruct (update_delivery_retry _ _ _ _ _) as [[] db2]; try by apply (sent_nothing tr g).
    apply (sent_held tr g); [done..|]. simpl. by rewrite Hgate.
  - destruct (block_delivery _ _ _ _ _) as [[] db2]; try by apply (sent_nothing tr g).
    apply (sent_held tr g); [done..|]. simpl. by rewrite Hgate.
  - destruct (block_delivery _ _ _ _ _) as [[] db2]; try by apply (sent_nothing tr g).
    apply (sent_held tr g); [done..|]. simpl. by rewrite Hgate.
Qed.

Lemma deliver_gate env svc eid c tr :
  gate_run_from g0 tr (ds_gate svc) → check (ds_gate svc) (dc_stream_key c) (dc_stream_sequence c) = Allowed →
  gate_continues (dc_stream_key c) (dc_stream_sequence c) tr (deliver_candidate env svc eid c).
Proof.
  intros Hg Hc. unfold deliver_candidate. case_bool_decide.
  { destruct (d_kafka_partition (dc_delivery_state c)) as [p|],
      (d_kafka_offset (dc_delivery_state c)) as [o|]; try by apply continues_same.
    exists [Completed (dc_stream_key c) (dc_stream_sequence c)]. simpl. split; [lia|].
    split; [by apply run_already|]. intros k' s' [= -> ->]%list_elem_of_singleton. eauto. }
  case_bool_decide; [by apply (held_unsent tr _ _ _ _ (ds_gate svc))|].
  destruct (check_binding _ _) as [routing|reason].
  - destruct (read_verified_payload _ _); try by apply (held_unsent tr _ _ _ _ (ds_gate svc)).
    unfold send_payload. destruct (send _ _) as [[s|err] p].
    + unfold on_success. destruct (confirm_replicated_delivery _ _ _ _ _) as [r db].
      destruct r; (by apply (sent_completed tr (ds_gate svc))) || by apply (sent_held tr (ds_gate svc)).
    + by apply (on_failure_gate _ _ _ _ _ _ _ (ds_gate svc)).
  - unfold persist_block_before_send. destruct (block_delivery _ _ _ _ _) as [[] db];
      (by apply (held_unsent tr _ _ _ _ (ds_gate svc))) || by apply continues_same.
Qed.

(** ** What a reported replication means *)

(** A lifecycle that could not be loaded is reported as corruption. *)
Lemma wp_load_lifecycle_answer (E : Engine) eid (Q : result PersistedStatus CasResult → Sess → Prop) s :
  (∀ st s', Q (Ok st) s') → (∀ e d s', Q (Err (CasCorrupted e d)) s') →
  wp (load_verified_lifecycle_for_transition eid) Q s.
Proof.
  intros Hok Herr. unfold load_verified_lifecycle_for_transition. apply wp_bind, wp_reads;
    [apply reads_get_status|]. intros s' _. apply wp_ret. by case_match.
Qed.

Lemma wp_transition_answer (E : Engine) eid rev st status f now s :
  wp (transition eid rev st status f now) (λ r _, r ≠ AlreadyConfirmed) s.
Proof.
  unfold transition, update_lifecycle_delivery_status.
  apply wp_bind. wp_step; [by apply wp_ret|].
  destruct (update_delivery _ _ _ _) as [[n db]|d]; [|by apply wp_ret].
  wp_step; [by apply wp_ret|]. do 2 apply wp_bind. wp_step; [by repeat wp_step|].
  repeat case_match; repeat wp_step; done.
Qed.

Lemma already_confirmed_row (E : Engine) eid rev cf now db :
  (confirm_replicated_delivery eid rev cf now db).1 = AlreadyConfirmed →
  ∃ row, delivery_row db eid row ∧ d_delivery_status row = "REPLICATED" ∧
    same_confirmation (delivery_of_row eid row) cf = true.
Proof.
  unfold confirm_replicated_delivery.
  apply (wp_run_tx _ (λ r _, r = AlreadyConfirmed → ∃ row, delivery_row db eid row ∧
    d_delivery_status row = "REPLICATED" ∧ same_confirmation (delivery_of_row eid row) cf = true)).
  unfold confirm_replicated_delivery_body. apply wp_bind. wp_step; [by apply wp_ret|].
  apply wp_bind, wp_load_delivery; simpl.
  2: { intros r s' _ Hr _. destruct r as [st| | |]; [by destruct (Hr st)|by apply wp_ret..]. }
  intros row s1 Hrow _. case_bool_decide as Hst.
  - unfold confirm_again. apply wp_bind, wp_load_lifecycle_answer; [|by intros; apply wp_ret].
    intros st s2. wp_step; [by apply wp_ret|]. wp_step; apply wp_ret; [|done].
    intros _. by exists row.
  - apply wp_bind, wp_load_lifecycle_answer; [|by intros; apply wp_ret].
    intros st s2. do 4 (wp_step; [by apply wp_ret|]).
    eapply wp_mono; [apply wp_transition_answer|]. done.
Qed.

Lemma confirmed_row (E : Engine) eid rev cf now db :
  (confirm_replicated_delivery eid rev cf now db).1 = Updated →
  ∃ row, delivery_state (confirm_replicated_delivery eid rev cf now db).2 !! eid = Some row ∧
    d_delivery_status row = "REPLICATED" ∧ d_kafka_partition row = Some (c_kafka_partition cf) ∧
    d_kafka_offset row = Some (c_kafka_offset cf).
Proof.
  intros Hup. destruct (run_op_cases (OpConfirm eid rev cf) now db) as [[_ Heff]|[Hno _]]; [|done].
  simpl in Heff. revert Heff. generalize (confirm_replicated_delivery eid rev cf now db).2 as db'.
  intros db' Heff. inversion Heff; subst. eexists. split; [apply lookup_insert_eq|]. done.
Qed.

Lemma not_updated_same (E : Engine) op now db :
  (run_op op now db).1 ≠ Updated → (run_op op now db).2 = db.
Proof. by destruct (run_op_cases op now db) as [[-> _]|[_ ->]]. Qed.

(** The event of an outcome [OutReplicated] is replicated in the journal at the
    reported position. *)
Lemma on_success_replicated env svc eid c routing s p o :
  (on_success env svc eid c routing s).1 = OutReplicated p o →
  ∃ row, delivery_state (service_db (on_success env svc eid c routing s).2) !! eid = Some row ∧
    d_delivery_status row = "REPLICATED" ∧ d_kafka_partition row = Some p ∧
    d_kafka_offset row = Some o.
Proof.
  unfold on_success. set (cf := mkConfirmation _ _ _ _ _ _). set (rev := d_delivery_revision _).
  destruct (confirm_replicated_delivery _ _ _ _ _) as [r db] eqn:Hr.
  pose proof (confirmed_row (env_confirm env) eid rev cf (env_confirm_now env) (service_db svc)) as Hup.
  pose proof (already_confirmed_row (env_confirm env) eid rev cf (env_confirm_now env)
    (service_db svc)) as Hal.
  pose proof (not_updated_same (env_confirm env) (OpConfirm eid rev cf) (env_confirm_now env)
    (service_db svc)) as Hsame. simpl in Hsame.
  rewrite Hr in Hup, Hal, Hsame. simpl in *.
  destruct r; try done; intros [= <- <-]; [by apply Hup|].
  destruct (Hal eq_refl) as (row & [Hrow _] & Hst & Hc). rewrite Hsame by done.
  exists row. split; [done|]. split; [done|]. unfold same_confirmation in Hc.
  rewrite !andb_true_iff, !bool_decide_eq_true in Hc. simpl in Hc. tauto.
Qed.

Lemma attempt_replicated env svc eid p o :
  (attempt_delivery env svc eid).1 = OutReplicated p o →
  ∃ row, delivery_state (service_db (attempt_delivery env svc eid).2) !! eid = Some row ∧
    d_delivery_status row = "REPLICATED" ∧ d_kafka_partition row = Some p ∧
    d_kafka_offset row = Some o.
Proof.
  unfold attempt_delivery. destruct (ds_shutdown svc); [done|].
  destruct (get_delivery_candidate eid (service_db svc)) as [c| | |] eqn:Hcand; try done.
  destruct (check _ _ _); [|done]. unfold deliver_candidate.
  apply candidate_sound in Hcand as (e & row & _ & _ & [Hrow _] & ->).
  case_bool_decide as Hst.
  { simpl. destruct (d_kafka_partition row) as [p'|] eqn:Hp, (d_kafka_offset row) as [o'|] eqn:Ho; try done.
    intros [= <- <-]. by exists row. }
  case_bool_decide; [done|]. destruct (check_binding _ _) as [routing|reason].
  - destruct (read_verified_payload _ _); try done. unfold send_payload.
    destruct (send _ _) as [[s|err] pr]; [apply on_success_replicated|].
    unfold on_failure, block_after_send. repeat case_match; done.
  - unfold persist_block_before_send. repeat case_match; done.
Qed.

(** ** What reaches the producer *)

(** Everything that was checked before the request was handed over. *)
Record guarded_send (svc : DeliveryService P) (eid : string) (req : SendRequest) : Prop := {
  gs_running : ds_shutdown svc = false;
  gs_rows : ∃ e row, stored_envelope (service_db svc) !! eid = Some e ∧ envelope_ok eid e ∧
    delivery_row (service_db svc) eid row ∧
    (* its turn *)
    check (ds_gate svc) (e_stream_key e) (e_stream_sequence e) = Allowed ∧
    (* still to be delivered *)
    (d_delivery_status row = "DELIVERY_PENDING" ∨ d_delivery_status row = "DELIVERY_RETRYING") ∧
    (* bound to this profile and this route *)
    d_profile_id row = Some (kp_profile_id (ds_profile svc)) ∧
    d_profile_version row = Some (kp_profile_version (ds_profile svc)) ∧
    d_kafka_topic row = Some (sq_topic req) ∧
    sq_topic req = routing_topic (e_installation_id e) (e_namespace e) ∧
    sq_partition_key req = join_nul [e_installation_id e; e_namespace e; e_logical_stream_type e;
                                     e_stream_key e] ∧
    (* the payload that was accepted *)
    sha256 (sq_payload req) = e_payload_digest e ∧
    p_payload <$> payload_blob (service_db svc) !! eid = Some (sq_payload req);
  gs_profile : p0_durable (ds_profile svc);
  gs_event : sq_event_id req = eid
}.

Lemma on_success_producer env svc eid c routing s :
  ds_producer (on_success env svc eid c routing s).2 = ds_producer svc.
Proof. unfold on_success. by repeat case_match. Qed.

Lemma on_failure_producer env svc eid c routing err :
  ds_producer (on_failure env svc eid c routing err).2 = ds_producer svc.
Proof. unfold on_failure, block_after_send. by repeat case_match. Qed.

Lemma check_binding_ok profile c routing :
  check_binding profile c = Ok routing →
  resolve_routing (routing_input c) = Ok routing ∧ p0_durable profile ∧
  d_profile_id (dc_delivery_state c) = Some (kp_profile_id profile) ∧
  d_profile_version (dc_delivery_state c) = Some (kp_profile_version profile) ∧
  d_kafka_topic (dc_delivery_state c) = Some (rr_topic routing).
Proof.
  unfold check_binding. destruct (resolve_routing _) as [r|]; [|done].
  repeat (case_bool_decide; simpl; [|done]).
  destruct (is_profile_safe_for_delivery profile) as [[]|] eqn:Hs; [|done].
  intros [= <-]. split; [done|]. split; [by apply p0_profile_durable|]. done.
Qed.

Lemma attempt_sends env svc eid :
  ds_producer (attempt_delivery env svc eid).2 = ds_producer svc ∨
  ∃ req, ds_producer (attempt_delivery env svc eid).2 = (send req (ds_producer svc)).2 ∧
         guarded_send svc eid req.
Proof.
  unfold attempt_delivery. destruct (ds_shutdown svc) eqn:Hsh; [by left|].
  destruct (get_delivery_candidate eid (service_db svc)) as [c| | |] eqn:Hcand; try by left.
  destruct (check _ _ _) eqn:Hchk; [|by left]. unfold deliver_candidate.
  case_bool_decide as Hrep; [left; by repeat case_match|].
  case_bool_decide as Hbl; [by left|].
  destruct (check_binding _ _) as [routing|reason] eqn:Hbind.
  2: { left. unfold persist_block_before_send. by repeat case_match. }
  destruct (read_verified_payload _ _) as [payload| | |] eqn:Hpay; try by left.
  right. exists (send_request (ds_profile svc) eid routing payload). split.
  { unfold send_payload. simpl. destruct (send _ _) as [[s|err] p]; simpl;
      [apply on_success_producer|apply on_failure_producer]. }
  apply candidate_sound in Hcand as (e & row & He & Hev & Hrow & ->). simpl in *.
  apply check_binding_ok in Hbind as (Hroute & Hp & Hpid & Hpv & Htopic). simpl in *.
  apply resolve_routing_ok in Hroute as [_ ->]. simpl in *.
  apply read_payload_sound in Hpay as (e' & b & He' & Hd & Hb & <-). rewrite He in He'. injection He' as <-.
  constructor; try done. exists e, row. repeat (split; [done|]). split; [|by rewrite Hb; repeat split].
  destruct (delivery_ok_valid _ _ (dr_ok _ _ _ Hrow)); simpl in *; auto; done.
Qed.
End Attempt.

(** C9. Only guarded requests reach the producer.  An attempt hands the producer
    at most one request, and only when the service runs, both rows of the event
    verify, it is the event's turn in its stream, the delivery is pending or
    retrying, its profile is the service's and durable enough for P0, its topic
    and partition key are those of its route, and the payload is the stored one
    and has the digest under which it was accepted. *)
Theorem sends_are_guarded (S : Sha256) (P : Type) (KP : KafkaProducer P) (env : Env)
    (svc : DeliveryService P) (eid : string) :
  ds_producer (attempt_delivery env svc eid).2 = ds_producer svc ∨
  ∃ req, ds_producer (attempt_delivery env svc eid).2 = (send req (ds_producer svc)).2 ∧
         guarded_send svc eid req.
Proof. apply attempt_sends. Qed.

(** C10. A reported replication is in the journal.  When an attempt answers
    [OutReplicated] with a partition and an offset, then -- whatever failed on
    the way -- the journal holds the event's delivery as [REPLICATED] at exactly
    this position. *)
Theorem replicated_is_durable (S : Sha256) (P : Type) (KP : KafkaProducer P) (env : Env)
    (svc : DeliveryService P) (eid : string) (partition offset : Z) :
  (attempt_delivery env svc eid).1 = OutReplicated partition offset →
  ∃ row, delivery_state (service_db (attempt_delivery env svc eid).2) !! eid = Some row ∧
    d_delivery_status row = "REPLICATED" ∧ d_kafka_partition row = Some partition ∧
    d_kafka_offset row = Some offset.
Proof. apply attempt_replicated. Qed.

(** ** Runs of the service *)
Section Runs.
Context `{Sha256} `{!Sha256Ok} {P : Type} `{KP : KafkaProducer P} {g0 : OrderingGate}.

(** One step: an attempt on some event, a call of another client of the journal,
    or a shutdown. *)
Inductive service_step : DeliveryService P → DeliveryService P → Prop :=
| service_attempt env eid svc : service_step svc (attempt_delivery env svc eid).2
| service_journal svc j' : journal_step (ds_journal svc) j' →
    service_step svc (mkService j' (ds_producer svc) (ds_gate svc) (ds_profile svc) (ds_shutdown svc))
| service_stop svc : service_step svc (service_shutdown svc).

(** Some event at sequence [s] of the stream key [k] is replicated. *)
Definition replicated_at (db : Db) (k : string) (s : Z) : Prop :=
  ∃ eid e row, stored_envelope db !! eid = Some e ∧ e_stream_key e = k ∧ e_stream_sequence e = s ∧
    delivery_state db !! eid = Some row ∧ d_delivery_status row = "REPLICATED".

Lemma envelope_persists db db' log new eid e :
  represents db log → represents db' (log ++ new) → stored_envelope db !! eid = Some e →
  ∃ e', stored_envelope db' !! eid = Some e' ∧ e_stream_key e' = e_stream_key e ∧
        e_stream_sequence e' = e_stream_sequence e.
Proof.
  intros Hr Hr' He. destruct (rep_env_inv _ _ _ _ Hr He) as (i & r & now & Hi & <- & ->).
  assert (Hi' : (log ++ new) !! i = Some r) by by apply lookup_app_l_Some.
  destruct (rep_env _ _ Hr' i r Hi') as [now' He']. eexists. split; [exact He'|]. simpl.
  split; [done|]. unfold stream_pos. rewrite take_app_le; [done|].
  apply lookup_lt_Some in Hi. lia.
Qed.

Lemma replicated_persists n j j' log k s :
  nsteps journal_step n j j' → represents (j_conn j) log → length log + n ≤ i64_max →
  replicated_at (j_conn j) k s → replicated_at (j_conn j') k s.
Proof.
  intros Hn Hr Hl (eid & e & row & He & Hk & Hs & Hrow & Hst).
  destruct (steps_represents _ _ _ _ Hn Hr Hl) as (new & _ & Hr').
  destruct (envelope_persists _ _ _ _ _ _ Hr Hr' He) as (e' & He' & Hk' & Hs').
  destruct (steps_keep_replicated _ _ _ _ _ _ Hn Hr Hl Hrow Hst) as (row' & Hrow' & Hp).
  exists eid, e', row'. repeat split; try congruence. unfold position in Hp. congruence.
Qed.

(** A run of the service is a run of its journal. *)
Lemma service_journal_steps n svc svc' :
  nsteps service_step n svc svc' →
  ∃ m, (m ≤ 2 * n)%nat ∧ nsteps journal_step m (ds_journal svc) (ds_journal svc').
Proof.
  induction 1 as [svc|n svc svc1 svc2 Hs _ (m & Hm & IH)]; [exists 0%nat; split; [lia|constructor]|].
  destruct Hs as [env eid svc|svc j' Hj|svc].
  - destruct (attempt_journal env svc eid) as (m' & Hm' & Hsteps).
    exists (m' + m)%nat. split; [lia|]. by eapply nsteps_trans.
  - exists (S m). split; [lia|]. by eapply nsteps_l.
  - exists m. split; [lia|done].
Qed.

(** The trace of the gate so far, the log, and the journal's evidence for every
    completion. *)
Record service_ok (tr : list gate_event) (log : list AcceptRequest) (svc : DeliveryService P)
  : Prop := {
  so_gate : gate_run_from g0 tr (ds_gate svc);
  so_log : represents (service_db svc) log;
  so_done : ∀ k s, Completed k s ∈ tr → replicated_at (service_db svc) k s
}.

Lemma attempt_completes env svc eid tr :
  gate_run_from g0 tr (ds_gate svc) →
  ∃ new, (length new ≤ 2)%nat ∧ gate_run_from g0 (new ++ tr) (ds_gate (attempt_delivery env svc eid).2) ∧
    ∀ k s, Completed k s ∈ new → ∃ e p o, stored_envelope (service_db svc) !! eid = Some e ∧
      e_stream_key e = k ∧ e_stream_sequence e = s ∧
      (attempt_delivery env svc eid).1 = OutReplicated p o.
Proof.
  intros Hg. assert (Hsame : gate_run_from g0 ([] ++ tr) (ds_gate svc)) by done.
  unfold attempt_delivery. destruct (ds_shutdown svc).
  { exists []. split; [simpl; lia|]. split; [done|]. intros ?? ?%not_elem_of_nil. done. }
  destruct (get_delivery_candidate eid (service_db svc)) as [cd| | |] eqn:Hcand;
    try (exists []; split; [simpl; lia|]; split; [done|]; by intros ?? ?%not_elem_of_nil).
  destruct (check _ _ _) eqn:Hchk;
    [|exists []; split; [simpl; lia|]; split; [done|]; by intros ?? ?%not_elem_of_nil].
  destruct (deliver_gate env svc eid cd tr Hg Hchk) as (new & Hlen & Hrun & Hnew).
  exists new. split; [done|]. split; [done|]. intros k s Hin.
  destruct (Hnew k s Hin) as (-> & -> & p & o & Ho).
  apply candidate_sound in Hcand as (e & row & He & _ & _ & ->). exists e, p, o. done.
Qed.

Lemma service_step_ok tr log svc svc' :
  service_step svc svc' → service_ok tr log svc → length log + 2 ≤ i64_max →
  ∃ new newlog, (length new ≤ 2)%nat ∧ (length newlog ≤ 2)%nat ∧
    service_ok (new ++ tr) (log ++ newlog) svc'.
Proof.
  intros Hstep [Hg Hr Hd] Hl. destruct Hstep as [env eid svc|svc j' Hj|svc].
  - destruct (attempt_journal env svc eid) as (n & Hn & Hsteps).
    destruct (steps_represents _ _ _ _ Hsteps Hr ltac:(lia)) as (newlog & Hnl & Hr').
    destruct (attempt_completes env svc eid tr Hg) as (new & Hlen & Hrun & Hnew).
    exists new, newlog. split; [done|]. split; [lia|]. constructor; [done|done|].
    intros k s [Hin|Hin]%elem_of_app.
    2: { apply (replicated_persists _ _ _ _ _ _ Hsteps Hr); [lia|]. by apply Hd. }
    destruct (Hnew k s Hin) as (e & p & o & He & Hk & Hs & Ho).
    destruct (attempt_replicated env svc eid p o Ho) as (row & Hrow & Hst & _).
    destruct (envelope_persists _ _ _ _ _ _ Hr Hr' He) as (e' & He' & Hk' & Hs').
    exists eid, e', row. repeat split; done || congruence.
  - destruct (step_represents _ _ _ Hj Hr ltac:(lia)) as (newlog & Hnl & Hr').
    exists [], newlog. split; [simpl; lia|]. split; [lia|]. constructor; [done|done|].
    intros k s Hin. apply (replicated_persists 1 (ds_journal svc) j' log); [by apply nsteps_once|done|lia|].
    by apply Hd.
  - exists [], []. rewrite app_nil_r. split; [simpl; lia|]. split; [simpl; lia|]. done.
Qed.

Lemma service_steps_ok n tr log svc svc' :
  nsteps service_step n svc svc' → service_ok tr log svc → length log + 2 * n ≤ i64_max →
  ∃ new newlog, (length new ≤ 2 * n)%nat ∧ service_ok (new ++ tr) (log ++ newlog) svc'.
Proof.
  intros Hn. revert tr log. induction Hn as [svc|n svc svc1 svc2 Hs _ IH]; intros tr log Hok Hl.
  { exists [], []. rewrite app_nil_r. split; [simpl; lia|done]. }
  destruct (service_step_ok _ _ _ _ Hs Hok ltac:(lia)) as (new & newlog & Hnew & Hnl & Hok1).
  destruct (IH _ _ Hok1) as (new2 & newlog2 & Hnew2 & Hok2); [rewrite length_app; lia|].
  exists (new2 ++ new), (newlog ++ newlog2). rewrite length_app.
  rewrite <- (app_assoc new2), (app_assoc log). split; [lia|done].
Qed.
End Runs.

(** C7. The service delivers every stream in order.  Start a service with an
    empty gate on a sound journal and let it attempt any events in any order,
    with other clients using the journal in between and any statement failing:
    for every stream key the gate has completed exactly the sequences 1 to n for
    some n, in this order, and for each of them the journal holds an event of
    that key and sequence as [REPLICATED]. *)
Theorem service_in_order (S : Sha256) (P : Type) (KP : KafkaProducer P) (n : nat)
    (j : LocalJournal) (p : P) (profile : KafkaProductionProfile) (svc : DeliveryService P)
    (log : list AcceptRequest) (k : string) :
  @Sha256Ok S → represents (j_conn j) log → length log + 2 * n < i64_max →
  nsteps service_step n (service_new j p profile) svc →
  ∃ tr, gate_run tr (ds_gate svc) ∧
    let h := highest_completed (stream_entry (ds_gate svc) k) in
    completions k tr = seqZ 1 h ∧
    ∀ s, 1 ≤ s ≤ h → replicated_at (service_db svc) k s.
Proof.
  intros HS Hr Hl Hn.
  assert (Hok : service_ok (g0 := gate_new) [] log (service_new j p profile)).
  { constructor; [constructor|done|]. by intros ?? ?%not_elem_of_nil. }
  destruct (service_steps_ok n [] log _ _ Hn Hok ltac:(lia)) as (new & newlog & Hnew & [Hg _ Hd]).
  rewrite app_nil_r in *. exists new. split; [done|].
  pose proof (gate_run_ok new _ Hg ltac:(lia) k) as [_ Hseq].
  rewrite (gate_run_highest new _ k Hg) by lia. split; [done|]. intros s Hs.
  apply Hd, completed_in. rewrite Hseq. apply elem_of_seqZ. rewrite awaited_new. lia.
Qed.

(** ** Examples *)

(** Everything works. *)
Definition good_env : Env :=
  mkEnv sample_engine sample_engine sample_engine sample_engine sample_engine sample_engine
    100 101 102 103 104.

Definition sample_producer : FakeProducer :=
  enqueue_success (mkSuccess "craftrelay.inst-a.economy.events" 3 42) fake_new.

Definition sample_service : DeliveryService FakeProducer :=
  service_new (mkJournal sample_pending default_config false false) sample_producer sample_profile.

Lemma replicated_is_durable_witness :
  ∃ row, delivery_state (service_db (@attempt_delivery sample_sha256 _ _ good_env sample_service "e1").2)
           !! "e1" = Some row ∧
    d_delivery_status row = "REPLICATED" ∧ d_kafka_partition row = Some 3 ∧
    d_kafka_offset row = Some 42.
Proof.
  apply (replicated_is_durable sample_sha256 FakeProducer _ good_env sample_service "e1" 3 42).
  vm_compute. reflexivity.
Defined.

Lemma service_in_order_witness :
  ∃ tr, gate_run tr (ds_gate (@attempt_delivery sample_sha256 _ _ good_env sample_service "e1").2) ∧
    completions "player-1" tr = seqZ 1 1.
Proof.
  destruct (service_in_order sample_sha256 FakeProducer _ 1
    (mkJournal sample_pending default_config false false) sample_producer sample_profile
    (@attempt_delivery sample_sha256 _ _ good_env sample_service "e1").2
    [sample_request "e1" 1] "player-1") as (tr & Hg & Hc & _).
  - exact sample_sha256_ok.
  - exact sample_pending_represents.
  - reflexivity.
  - apply nsteps_once. exact (service_attempt good_env "e1" sample_service).
  - exists tr. split; [exact Hg|exact Hc].
Defined.
