(* ===== verification/Recovery.v ===== *)
(** * Recovery of the delivery service

    After a restart [recover] rebuilds the gate from the journal.  The file
    shows what the rebuilt gate lets through, that the service goes on in order
    from there, over any further failures, and on which assumption this rests:
    no event may have a delivery row while an earlier event of its stream has
    none. *)
From S2P Require Import Prelude Checksum JournalDb JournalCore JournalAccept SqlLogic.
From S2P Require Import JournalLog JournalReads JournalDelivery JournalTransitions.
From S2P Require Import JournalSafety DeliverySafety JournalScan Gate Profiles Routing.
From S2P Require Import Service ServiceSafety.
Open Scope Z_scope.
#[local] Coercion Z.of_nat : nat >-> Z.

(** ** A scan that answers is exact, whatever failed *)
Section ScanAnswer.
Context `{Sha256} `{E : Engine} `{RO : RowOrder}.

Lemma wp_verify_answer r s :
  wp (verify_delivery_scan_envelope r) (λ v _, ∀ p, v = Ok p → p = pending_of_row r) s.
Proof.
  unfold verify_delivery_scan_envelope, pending_of_row.
  destruct (sr_journal_sequence r), (sr_stream_key r), (sr_stream_sequence r),
    (sr_envelope_checksum r); simpl; try by apply wp_ret.
  case_match; [by apply wp_ret|]. apply wp_bind, wp_reads; [apply reads_recompute|]. intros s' _.
  destruct (recompute_envelope_checksum_from_row _ s).1; [|by apply wp_ret].
  case_match; apply wp_ret; [|done]. by intros p [= <-].
Qed.

Lemma wp_collect_answer rows acc s :
  wp (collect_rows rows acc) (λ v _, ∀ l, v = ScanOk l → l = acc ++ (pending_of_row <$> rows)) s.
Proof.
  revert acc s. induction rows as [|r rows IH]; intros acc s; simpl;
    (apply wp_bind, wp_statement; [by intros; apply wp_ret|]).
  - apply wp_ret. intros l [= <-]. by rewrite app_nil_r.
  - apply wp_bind, wp_reads; [apply reads_load_delivery|]. intros s1 _.
    destruct (load_delivery_state _ _).1; try by apply wp_ret.
    apply wp_bind. eapply wp_mono; [apply wp_verify_answer|]. simpl. intros [p|[eid d]] s2 Hp;
      [|by apply wp_ret]. rewrite (Hp p eq_refl).
    eapply wp_mono; [apply IH|]. simpl. intros v _ Hv l Hl. rewrite (Hv l Hl).
    by rewrite <- app_assoc.
Qed.

Lemma scan_answer sel key limit db l :
  (run_auto (scan_body sel key limit) db).1 = ScanOk l →
  l = pending_of_row <$> select_rows sel key limit db.
Proof.
  apply (wp_run_auto _ (λ v _, v = ScanOk l → l = _)). unfold scan_body.
  apply wp_bind, wp_statement; [by intros; apply wp_ret|].
  apply wp_bind, wp_statement; [by intros; apply wp_ret|]. simpl.
  eapply wp_mono; [apply (wp_collect_answer _ [])|]. simpl. auto.
Qed.

Lemma gate_scan_answer `{!RowOrderOk} db log limit l :
  represents db log → scan_delivery_gate_states limit db = ScanOk l →
  first_of (selected db (λ _, True)) pd_journal_sequence limit l.
Proof.
  intros Hr ->%scan_answer. apply (select_first_of db log Hr); [done|].
  intros r Hj _. destruct (pending_of_joined db log Hr r Hj) as (row & e & _ & _ & -> & ->). done.
Qed.
End ScanAnswer.

(** ** The recovered entry of a stream *)
Lemma blocking_min_some rs : ∀ o b, blocking_min o rs = Some b →
  (o = Some b ∨ ∃ r, r ∈ rs ∧ rs_blocking r = true ∧ rs_stream_sequence r = b) ∧
  (∀ b', o = Some b' → b ≤ b') ∧
  ∀ r, r ∈ rs → rs_blocking r = true → b ≤ rs_stream_sequence r.
Proof.
  induction rs as [|r rs IH]; intros o b Hb; simpl in Hb.
  { split; [by left|]. split; [intros; simplify_eq; lia|]. by intros ? ?%not_elem_of_nil. }
  destruct (IH _ _ Hb) as (Hin & Hle & Hall). destruct (rs_blocking r) eqn:Hr.
  - unfold min_option in *. specialize (Hle _ eq_refl). split; [|split].
    + destruct Hin as [[= Hin]|(r' & Hr' & ?)]; [|right; exists r'; split; [by right|done]].
      destruct o as [b'|]; [|right; exists r; split; [by left|done]].
      destruct (Z.min_spec b' (rs_stream_sequence r)) as [[_ Hm]|[_ Hm]].
      * left. congruence.
      * right. exists r. split; [by left|]. split; [done|congruence].
    + intros b' ->. lia.
    + intros r' [->|Hr']%elem_of_cons Hbl; [|by apply Hall]. destruct o; lia.
  - split; [|split; [done|]].
    + destruct Hin as [Hin|(r' & Hr' & ?)]; [by left|right; exists r'; split; [by right|done]].
    + intros r' [->|Hr']%elem_of_cons Hbl; [congruence|by apply Hall].
Qed.

Lemma blocking_min_none rs o :
  blocking_min o rs = None → o = None ∧ ∀ r, r ∈ rs → rs_blocking r = false.
Proof.
  revert o. induction rs as [|r rs IH]; intros o Hb; simpl in Hb.
  { split; [done|]. by intros ? ?%not_elem_of_nil. }
  destruct (IH _ Hb) as [Ho Hall]. destruct (rs_blocking r) eqn:Hr; [done|].
  split; [done|]. by intros r' [->|Hr']%elem_of_cons; [|apply Hall].
Qed.

Lemma replicated_max_in h rs :
  replicated_max h rs = h ∨
  ∃ r, r ∈ rs ∧ rs_replicated r = true ∧ rs_stream_sequence r = replicated_max h rs.
Proof.
  revert h. induction rs as [|r rs IH]; intros h; simpl; [by left|].
  destruct (IH (if rs_replicated r then Z.max h (rs_stream_sequence r) else h))
    as [->|(r' & Hr' & ?)]; [|right; exists r'; split; [by right|done]].
  destruct (rs_replicated r) eqn:Hr; [|by left].
  destruct (Z.max_spec h (rs_stream_sequence r)) as [[_ ->]|[_ ->]]; [right|by left].
  exists r. split; [by left|done].
Qed.

Lemma replicated_max_ge r rs h :
  h ≤ replicated_max h rs ∧ (r ∈ rs → rs_replicated r = true → rs_stream_sequence r ≤ replicated_max h rs).
Proof.
  revert h. induction rs as [|x rs IH]; intros h; simpl.
  { split; [lia|]. by intros ?%not_elem_of_nil. }
  destruct (IH (if rs_replicated x then Z.max h (rs_stream_sequence x) else h)) as [Hh Hr].
  split; [destruct (rs_replicated x); lia|]. intros [->|Hin]%elem_of_cons Hrep; [|by apply Hr].
  rewrite Hrep in Hh |- *. lia.
Qed.

(** The states of one stream key among the scanned deliveries. *)
Lemma of_stream_recovered k l r :
  r ∈ of_stream k (recovered_of <$> l) ↔
  ∃ p, p ∈ l ∧ pd_stream_key p = k ∧ r = recovered_of p.
Proof.
  unfold of_stream. rewrite list_elem_of_filter, list_elem_of_fmap.
  split; [intros [Hk (p & -> & Hp)]|intros (p & Hp & Hk & ->)]; eauto.
Qed.

Lemma recovered_settled g l : settled (recover_from_scan g (recovered_of <$> l)).
Proof.
  intros k. rewrite recover_exact. simpl.
  assert (Hf : ∀ r, r ∈ of_stream k (recovered_of <$> l) → rs_in_flight r = false).
  { intros r (p & _ & _ & ->)%of_stream_recovered. done. }
  revert Hf. generalize (of_stream k (recovered_of <$> l)) as rs.
  induction rs as [|r rs IH]; intros Hf; [done|]. simpl.
  rewrite (Hf r) by by left. apply IH. intros; apply Hf; by right.
Qed.

(** ** What the recovered gate waits for *)

(** Two rows of one stream: the fields [scoped_stream_key] is made of agree. *)
Definition same_stream (e e' : EnvelopeRow) : Prop :=
  e_installation_id e = e_installation_id e' ∧ e_namespace e = e_namespace e' ∧
  e_logical_stream_type e = e_logical_stream_type e' ∧ e_stream_key e = e_stream_key e'.

#[export] Instance same_stream_dec e e' : Decision (same_stream e e').
Proof. unfold same_stream. apply _. Defined.

(** Deliveries are scheduled in the order of their stream: an event with a
    delivery row has no predecessor in its stream without one. *)
Definition scheduled_in_order (db : Db) : Prop :=
  map_Forall (λ eid _, from_option (λ e,
    map_Forall (λ eid' e', same_stream e' e → e_stream_sequence e' < e_stream_sequence e →
      is_Some (delivery_state db !! eid')) (stored_envelope db)) True (stored_envelope db !! eid))
    (delivery_state db).

#[export] Instance scheduled_in_order_dec db : Decision (scheduled_in_order db).
Proof.
  unfold scheduled_in_order. apply map_Forall_dec. intros eid row.
  destruct (stored_envelope db !! eid); apply _.
Defined.

(** Every accepted event has a delivery row. *)
Definition all_scheduled (db : Db) : Prop :=
  dom (stored_envelope db) ⊆ dom (delivery_state db).

Lemma all_scheduled_in_order db : all_scheduled db → scheduled_in_order db.
Proof.
  intros Hall eid row _. destruct (stored_envelope db !! eid) as [e|]; [|done].
  intros eid' e' He' _ _. apply elem_of_dom, Hall, elem_of_dom. eauto.
Qed.

(** The texts that name a stream have no NUL, the separator of its key. *)
Definition stream_texts_ok (r : AcceptRequest) : Prop :=
  Forall nul_free [rq_installation_id r; rq_namespace r; rq_logical_stream_type r; rq_stream_key r].

#[export] Instance stream_texts_ok_dec r : Decision (stream_texts_ok r).
Proof. unfold stream_texts_ok. apply _. Defined.

Lemma scoped_key_fields r r' :
  stream_texts_ok r → stream_texts_ok r' → scoped_stream_key r = scoped_stream_key r' →
  rq_installation_id r = rq_installation_id r' ∧ rq_namespace r = rq_namespace r' ∧
  rq_logical_stream_type r = rq_logical_stream_type r' ∧ rq_stream_key r = rq_stream_key r'.
Proof. intros Hr Hr' Hk. apply join_nul_inj in Hk; by simplify_eq. Qed.

Lemma scoped_key_stream r r' :
  stream_texts_ok r → stream_texts_ok r' → scoped_stream_key r = scoped_stream_key r' →
  rq_stream_key r = rq_stream_key r'.
Proof. intros. by apply scoped_key_fields. Qed.

(** Every stream key is used in one scope of installation, namespace and type:
    the gate of the service goes by the stream key alone. *)
Definition one_scope (log : list AcceptRequest) : Prop :=
  Forall (λ r, Forall (λ r', rq_stream_key r = rq_stream_key r' →
                             scoped_stream_key r = scoped_stream_key r') log) log.

#[export] Instance one_scope_dec log : Decision (one_scope log).
Proof. unfold one_scope. apply _. Defined.

Lemma one_scope_at log (i i' : nat) r r' :
  one_scope log → log !! i = Some r → log !! i' = Some r' →
  rq_stream_key r = rq_stream_key r' → scoped_stream_key r = scoped_stream_key r'.
Proof.
  intros Hone Hi Hi'. eapply Forall_lookup_1 in Hone; [|exact Hi].
  eapply Forall_lookup_1 in Hone; [|exact Hi']. exact Hone.
Qed.

(** In one scope, a stream key and a sequence name one event. *)
Lemma stream_pos_unique log (i i' : nat) r r' :
  log !! i = Some r → log !! i' = Some r' → scoped_stream_key r = scoped_stream_key r' →
  stream_pos log i r = stream_pos log i' r' → i = i'.
Proof.
  intros Hi Hi' Hsc Heq. destruct (Nat.lt_total i i') as [Hlt|[?|Hlt]]; [|done|].
  - pose proof (stream_pos_mono _ _ _ _ _ Hi Hi' Hsc Hlt). lia.
  - pose proof (stream_pos_mono _ _ _ _ _ Hi' Hi (eq_sym Hsc) Hlt). lia.
Qed.

(** A scan below its limit returns every delivery. *)
Lemma scan_below_limit db limit l p :
  first_of (selected db (λ _, True)) pd_journal_sequence limit l →
  size (delivery_state db) < limit → selected db (λ _, True) p → p ∈ l.
Proof.
  intros Hf Hsz Hp. destruct (fo_complete _ _ _ _ Hf p Hp) as [?|(_ & Hlen & _)]; [done|].
  assert (Hsub : list_to_set (pd_event_id <$> l) ⊆ dom (delivery_state db)).
  { intros eid (q & -> & Hq)%elem_of_list_to_set%list_elem_of_fmap.
    destruct (fo_sound _ _ _ _ Hf q Hq) as (row & _ & Hrow & _). apply elem_of_dom. eauto. }
  apply subseteq_size in Hsub. rewrite size_list_to_set in Hsub by apply Hf.
  rewrite length_fmap, size_dom in Hsub. lia.
Qed.

Section Recovered.
Context `{Sha256} (db : Db) (log : list AcceptRequest) (l : list PendingDelivery) (limit : Z).
Context (Hrep : represents db log) (Hord : scheduled_in_order db) (Htexts : Forall stream_texts_ok log).
Context (Hscan : first_of (selected db (λ _, True)) pd_journal_sequence limit l).

Lemma scanned_bounds p : p ∈ l → 1 ≤ pd_stream_sequence p ≤ length log.
Proof.
  intros Hp. destruct (fo_sound _ _ _ _ Hscan p Hp) as (row & e & _ & He & -> & _).
  destruct (rep_env_inv _ _ _ _ Hrep He) as (i & r & now & Hi & _ & ->). simpl.
  pose proof (stream_pos_bounds log i r Hi). pose proof (stream_count_le (scoped_stream_key r) log). lia.
Qed.

(** With a delivery the scan returns all its predecessors in the stream. *)
Lemma scanned_prefix p s :
  p ∈ l → 1 ≤ s ≤ pd_stream_sequence p →
  ∃ q, q ∈ l ∧ pd_stream_key q = pd_stream_key p ∧ pd_stream_sequence q = s.
Proof.
  intros Hp Hs. destruct (decide (s = pd_stream_sequence p)) as [->|Hne]; [by exists p|].
  destruct (fo_sound _ _ _ _ Hscan p Hp) as (row & e & Hrow & He & Heq & _).
  pose proof (Hord _ _ Hrow) as Hpred. simpl in Hpred. rewrite He in Hpred. simpl in Hpred.
  destruct (rep_env_inv _ _ _ _ Hrep He) as (i & r & now & Hi & _ & ->).
  rewrite Heq in Hs, Hne |- *. simpl in *. pose proof (stream_pos_bounds log i r Hi) as Hpos.
  destruct (stream_pos_exists (scoped_stream_key r) log s ltac:(lia)) as (i' & r' & Hi' & Hk' & Hs').
  destruct (rep_env _ _ Hrep i' r' Hi') as [now' He'].
  assert (Hfields : same_stream (new_envelope r' (i' + 1) (stream_pos log i' r') now')
                      (new_envelope r (i + 1) (stream_pos log i r) now)).
  { apply scoped_key_fields; [..|done]; eapply Forall_lookup_1; done. }
  destruct (Hpred _ _ He' Hfields ltac:(simpl; lia)) as [row' Hrow'].
  set (q := pending_of (rq_event_id r') row' (new_envelope r' (i' + 1) (stream_pos log i' r') now')).
  exists q. split; [|split; [|done]].
  - destruct (fo_complete _ _ _ _ Hscan q) as [?|(_ & _ & Hle)]; [by eexists _, _|done|].
    specialize (Hle p Hp). rewrite Heq in Hle. simpl in Hle.
    destruct (Nat.lt_total i i') as [Hlt|[<-|Hlt]]; [|congruence|lia].
    pose proof (stream_pos_mono _ _ _ _ _ Hi Hi' ltac:(done) Hlt). lia.
  - simpl. apply Hfields.
Qed.

(** The journal holds the scanned status. *)
Lemma scanned_replicated p :
  p ∈ l → rs_blocking (recovered_of p) = false →
  replicated_at db (pd_stream_key p) (pd_stream_sequence p).
Proof.
  intros Hp Hst. destruct (fo_sound _ _ _ _ Hscan p Hp) as (row & e & Hrow & He & Heq & _).
  rewrite Heq. exists (pd_event_id p), e, row. split; [done|]. simpl. repeat (split; [done|]).
  simpl in Hst. apply negb_false_iff, bool_decide_eq_true in Hst. by rewrite Heq in Hst.
Qed.

(** Everything before the sequence the recovered gate waits for is replicated. *)
Lemma recovered_front g k :
  length log < i64_max →
  let a := awaited (recover_from_scan g (recovered_of <$> l)) k in
  1 ≤ a ≤ length log + 1 ∧ ∀ s, 1 ≤ s < a → replicated_at db k s.
Proof.
  intros Hl a. unfold a, awaited. rewrite recover_exact. simpl.
  set (rs := of_stream k (recovered_of <$> l)).
  assert (Hdone : ∀ p, p ∈ l → pd_stream_key p = k →
    (∀ q, q ∈ l → pd_stream_key q = k → pd_stream_sequence q < pd_stream_sequence p →
       rs_blocking (recovered_of q) = false) →
    ∀ s, 1 ≤ s < pd_stream_sequence p → replicated_at db k s).
  { intros p Hp <- Hq s Hs. destruct (scanned_prefix p s Hp ltac:(lia)) as (q & Hql & Hk & <-).
    rewrite <- Hk. apply scanned_replicated; [done|]. apply Hq; [done..|lia]. }
  destruct (blocking_min None rs) as [b|] eqn:Hb; simpl.
  - apply blocking_min_some in Hb as ([?|(r & Hr & _ & <-)] & _ & Hmin); [done|].
    apply of_stream_recovered in Hr as (p & Hp & Hk & ->). simpl in *.
    split; [pose proof (scanned_bounds p Hp); lia|]. apply (Hdone p Hp Hk).
    intros q Hq Hkq Hlt. destruct (rs_blocking (recovered_of q)) eqn:Hbq; [|done].
    assert (Hqr : recovered_of q ∈ rs) by (apply of_stream_recovered; eauto).
    specialize (Hmin _ Hqr Hbq). simpl in Hmin. lia.
  - apply blocking_min_none in Hb as [_ Hnone].
    assert (Hq : ∀ q, q ∈ l → pd_stream_key q = k → rs_blocking (recovered_of q) = false).
    { intros q Hq Hk. apply Hnone, of_stream_recovered. eauto. }
    destruct (replicated_max_in 0 rs) as [->|(r & Hr & _ & <-)].
    + rewrite i64_add_id by rlia. split; [lia|]. intros s Hs. lia.
    + apply of_stream_recovered in Hr as (p & Hp & Hk & ->). simpl.
      pose proof (scanned_bounds p Hp). rewrite i64_add_id by rlia. split; [lia|].
      intros s Hs. destruct (decide (s = pd_stream_sequence p)) as [->|Hne].
      * rewrite <- Hk. by apply scanned_replicated, Hq.
      * apply (Hdone p Hp Hk); [|lia]. intros q Hql Hkq _. by apply Hq.
Qed.

(** When the scan returned every delivery, the gate waits for a sequence that is
    not replicated. *)
Lemma front_not_replicated g k :
  one_scope log → size (delivery_state db) < limit → length log < i64_max →
  ¬ replicated_at db k (awaited (recover_from_scan g (recovered_of <$> l)) k).
Proof.
  intros Hone Hsz Hl (eid & e & row & He & Hk & Hs & Hrow & Hst).
  assert (Hp : pending_of eid row e ∈ l).
  { apply (scan_below_limit db limit); [done..|]. by exists row, e. }
  revert Hs. unfold awaited. rewrite recover_exact. simpl.
  set (rs := of_stream k (recovered_of <$> l)).
  assert (Hin : recovered_of (pending_of eid row e) ∈ rs) by (apply of_stream_recovered; eauto).
  destruct (blocking_min None rs) as [b|] eqn:Hb; simpl; intros Hs.
  - apply blocking_min_some in Hb as ([?|(x & Hx & Hblk & <-)] & _); [done|].
    apply of_stream_recovered in Hx as (q & Hq & Hkq & ->).
    destruct (fo_sound _ _ _ _ Hscan q Hq) as (row' & e' & Hrow' & He' & Heq & _).
    destruct (rep_env_inv _ _ _ _ Hrep He) as (i & r & now & Hi & <- & ->).
    destruct (rep_env_inv _ _ _ _ Hrep He') as (i' & r' & now' & Hi' & Hid & ->).
    rewrite Heq in Hblk, Hkq, Hs. simpl in *.
    assert (i = i') as <-.
    { eapply stream_pos_unique; [done..| |done].
      eapply (one_scope_at log i i'); [done..|congruence]. }
    rewrite Hi in Hi'. injection Hi' as <-. rewrite Hid, Hrow' in Hrow. injection Hrow as <-.
    by rewrite Hst in Hblk.
  - destruct (replicated_max_ge (recovered_of (pending_of eid row e)) rs 0) as [H0 Hge].
    specialize (Hge Hin). simpl in Hge. rewrite Hst in Hge. specialize (Hge eq_refl).
    rewrite i64_add_id in Hs; [lia|].
    destruct (replicated_max_in 0 rs) as [->|(x & Hx & _ & <-)]; [split; rlia|].
    apply of_stream_recovered in Hx as (q & Hq & _ & ->). pose proof (scanned_bounds q Hq).
    simpl. split; rlia.
Qed.
End Recovered.

(** C8. A restarted service goes on in order.  Let the deliveries of the journal
    be scheduled in the order of their streams (no delivery row behind an event
    of its stream without one), the texts that name streams be free of NUL, and
    let [recover] answer [Ok], whatever failed.  Then, over any further attempts,
    calls of other clients and failures, the service completes of every stream
    key exactly the sequences from the one the recovered gate waits for, one
    after the other; the gate lets through only the next of them; and everything
    before it is held as [REPLICATED] by the journal, what was delivered before
    the restart included.  When moreover the journal holds fewer than 10,000
    delivery rows, the limit of the scan, and every stream key belongs to one
    scope, the sequence the gate waits for is the first that is not replicated. *)
Theorem recovered_in_order (S : Sha256) (P : Type) (KP : KafkaProducer P) (E : Engine)
    (RO : RowOrder) (n : nat) (svc0 svc1 svc : DeliveryService P) (log : list AcceptRequest)
    (k : string) :
  @Sha256Ok S → @RowOrderOk RO →
  represents (service_db svc0) log → Forall stream_texts_ok log →
  scheduled_in_order (service_db svc0) → length log + 2 * n < i64_max →
  recover svc0 = (Ok tt, svc1) → nsteps service_step n svc1 svc →
  ∃ tr, gate_run_from (ds_gate svc1) tr (ds_gate svc) ∧
    let first := awaited (ds_gate svc1) k in
    let next := first + length (completions k tr) in
    completions k tr = seqZ first (length (completions k tr)) ∧
    (∀ s, check (ds_gate svc) k s = Allowed → s = next) ∧
    (∀ s, 1 ≤ s < next → replicated_at (service_db svc) k s) ∧
    (size (delivery_state (service_db svc0)) < 10000 → one_scope log →
     ¬ replicated_at (service_db svc0) k first).
Proof.
  intros HS HR Hrep Htexts Hord Hl Hrec Hn. unfold recover in Hrec.
  destruct (scan_delivery_gate_states 10000 (service_db svc0)) as [l| |] eqn:Hscan; [|done..].
  apply (gate_scan_answer _ log) in Hscan; [|done]. injection Hrec as <-.
  set (g1 := recover_from_scan (ds_gate svc0) (recovered_of <$> l)) in *. simpl.
  assert (Hfront : ∀ k, 1 ≤ awaited g1 k ≤ length log + 1 ∧
            ∀ s, 1 ≤ s < awaited g1 k → replicated_at (service_db svc0) k s).
  { intros k'. by apply (recovered_front _ log l 10000 Hrep Hord Htexts Hscan); lia. }
  assert (Hok : service_ok (g0 := g1) [] log (set_gate svc0 g1)).
  { constructor; [constructor|done|]. by intros ?? ?%not_elem_of_nil. }
  destruct (service_steps_ok n [] log _ _ Hn Hok ltac:(lia)) as (tr & newlog & Htr & [Hg Hrep' Hd]).
  rewrite app_nil_r in *. exists tr. split; [done|].
  assert (Hgate : gate_ok g1 tr (ds_gate svc)).
  { apply gate_run_from_ok; [apply recovered_settled|done|].
    intros k'. destruct (Hfront k') as [Hb _]. split; rlia. }
  destruct (Hgate k) as [_ Hseq]. split; [done|]. split.
  { intros s Hs. apply (gate_ok_next g1 tr (ds_gate svc)); auto. }
  split; [|intros Hsz Hone; by apply (front_not_replicated _ log l 10000 Hrep Hscan); [..|lia]].
  intros s Hs. destruct (decide (s < awaited g1 k)) as [Hlt|Hge].
  - destruct (service_journal_steps _ _ _ Hn) as (m & Hm & Hsteps).
    apply (replicated_persists m (ds_journal svc0) (ds_journal svc) log); [done|done|lia|].
    apply Hfront. lia.
  - apply Hd, completed_in. rewrite Hseq. apply elem_of_seqZ. lia.
Qed.

(** ** An event without a delivery row *)

(** The gate scan of a working store. *)
Lemma gate_scan_ok `{Sha256} `{!Sha256Ok} `{E : Engine} `{RO : RowOrder} `{!RowOrderOk} db log limit :
  reliable E → represents db log → deliveries_good db →
  ∃ l, scan_delivery_gate_states limit db = ScanOk l ∧
       first_of (selected db (λ _, True)) pd_journal_sequence limit l.
Proof.
  intros HE Hr Hg. eexists. split; [by apply (scan_rows_ok db log)|].
  apply (gate_scan_answer db log limit); [done|]. by apply (scan_rows_ok db log).
Qed.

(** C40. Recovery lets an event overtake a predecessor without a delivery row.
    When of the events of a stream key only one has a delivery row, not yet
    replicated, the recovered gate lets it through, whatever its sequence:
    nothing of the stream was replicated, and the gate before the restart
    would have held it until sequence 1 was completed. *)
Theorem recovery_skips_unscheduled (S : Sha256) (P : Type) (KP : KafkaProducer P) (E : Engine)
    (RO : RowOrder) (svc0 : DeliveryService P) (log : list AcceptRequest) (eid : string)
    (row : DeliveryStateRecord) (e : EnvelopeRow) :
  @Sha256Ok S → @RowOrderOk RO → reliable E →
  represents (service_db svc0) log → deliveries_good (service_db svc0) →
  size (delivery_state (service_db svc0)) < 10000 →
  delivery_state (service_db svc0) !! eid = Some row →
  stored_envelope (service_db svc0) !! eid = Some e → d_delivery_status row ≠ "REPLICATED" →
  (∀ eid' e', is_Some (delivery_state (service_db svc0) !! eid') →
     stored_envelope (service_db svc0) !! eid' = Some e' → e_stream_key e' = e_stream_key e →
     eid' = eid) →
  ∃ svc1, recover svc0 = (Ok tt, svc1) ∧
    check (ds_gate svc1) (e_stream_key e) (e_stream_sequence e) = Allowed ∧
    ∀ s, ¬ replicated_at (service_db svc0) (e_stream_key e) s.
Proof.
  intros HS HR HE Hrep Hg Hsz Hrow He Hst Honly.
  destruct (gate_scan_ok (service_db svc0) log 10000 HE Hrep Hg) as (l & Hscan & Hf).
  unfold recover. rewrite Hscan. eexists. split; [done|]. simpl. split.
  - rewrite check_allowed. split; [apply recovered_settled|].
    assert (Hp : pending_of eid row e ∈ l).
    { apply (scan_below_limit _ 10000 _ _ Hf); [done|]. by exists row, e. }
    assert (Hk : recovered_of (pending_of eid row e)
                   ∈ of_stream (e_stream_key e) (recovered_of <$> l)).
    { apply of_stream_recovered. by exists (pending_of eid row e). }
    unfold awaited. rewrite recover_exact. simpl.
    destruct (blocking_min None _) as [b|] eqn:Hb; simpl.
    + apply blocking_min_some in Hb as ([?|(r & Hr & _ & <-)] & _); [done|].
      apply of_stream_recovered in Hr as (q & Hq & Hkq & ->).
      destruct (fo_sound _ _ _ _ Hf q Hq) as (row' & e' & Hrow' & He' & Heq & _).
      rewrite Heq in Hkq |- *. simpl in *.
      rewrite (Honly _ _ ltac:(eauto) He' Hkq), He in He'. by injection He' as <-.
    + apply blocking_min_none in Hb as [_ Hnone]. specialize (Hnone _ Hk). simpl in Hnone.
      by apply negb_false_iff, bool_decide_eq_true in Hnone.
  - intros s (eid' & e' & row' & He' & Hk & _ & Hrow' & Hst').
    rewrite (Honly _ _ ltac:(eauto) He' Hk) in Hrow'. congruence.
Qed.

(** ** Examples *)

(** Two events of one stream on a given journal, the second one pending. *)
Definition second_event (db : Db) : Db :=
  (@run_op sample_sha256 sample_engine
     (OpCreate "e2" sample_fingerprint "p0" 1 "craftrelay.inst-a.economy.events") 20
     (@event_db sample_sha256 (sample_request "e2" 2) 2 2 10 db)).2.

Definition two_requests : list AcceptRequest := [sample_request "e1" 1; sample_request "e2" 2].

Lemma second_event_represents db :
  @represents sample_sha256 db [sample_request "e1" 1] →
  @represents sample_sha256 (second_event db) two_requests.
Proof.
  intros Hr. apply (@run_op_represents sample_sha256 sample_sha256_ok sample_engine).
  apply (@represents_snoc sample_sha256 sample_sha256_ok db [sample_request "e1" 1]); done || set_solver.
Qed.

Lemma second_event_good db :
  @deliveries_good sample_sha256 db → @deliveries_good sample_sha256 (second_event db).
Proof.
  intros Hg. unfold second_event.
  destruct (@run_op_cases sample_sha256 sample_engine
    (OpCreate "e2" sample_fingerprint "p0" 1 "craftrelay.inst-a.economy.events") 20
    (@event_db sample_sha256 (sample_request "e2" 2) 2 2 10 db)) as [[_ Heff]|[_ ->]]; [|exact Hg].
  apply (@effect_good sample_sha256 sample_sha256_ok _ _ _ _ Heff); [exact Hg|by repeat split].
Qed.

Lemma second_event_only eid : is_Some (delivery_state (second_event sample_db) !! eid) → eid = "e2".
Proof.
  intros Hd%elem_of_dom. replace (dom (delivery_state (second_event sample_db))) with
    ({["e2"]} : gset string) in Hd by (vm_compute; reflexivity). set_solver.
Qed.

Definition restarted (db : Db) : DeliveryService FakeProducer :=
  service_new (mkJournal (second_event db) default_config false false) sample_producer sample_profile.

Definition recovered (db : Db) : DeliveryService FakeProducer :=
  (@recover sample_sha256 _ sample_engine sample_row_order (restarted db)).2.

(** The first event was delivered before the restart, the second one is
    attempted after it. *)
Lemma recovered_in_order_witness :
  ∃ tr, gate_run_from (ds_gate (recovered sample_replicated)) tr
          (ds_gate (@attempt_delivery sample_sha256 _ _ good_env (recovered sample_replicated) "e2").2) ∧
    completions "player-1" tr = seqZ 2 (length (completions "player-1" tr)) ∧
    ¬ replicated_at (second_event sample_replicated) "player-1" 2.
Proof.
  destruct (recovered_in_order sample_sha256 FakeProducer _ sample_engine sample_row_order 1
    (restarted sample_replicated) (recovered sample_replicated)
    (@attempt_delivery sample_sha256 _ _ good_env (recovered sample_replicated) "e2").2
    two_requests "player-1") as (tr & Hg & Hc & _ & _ & Hno).
  - exact sample_sha256_ok.
  - intros t. reflexivity.
  - apply second_event_represents, sample_replicated_represents.
  - compute_done.
  - compute_done.
  - reflexivity.
  - vm_compute. reflexivity.
  - apply nsteps_once. exact (service_attempt good_env "e2" (recovered sample_replicated)).
  - exists tr. split; [exact Hg|]. split; [exact Hc|]. apply Hno; compute_done.
Defined.

(** The first event has no delivery row. *)
Lemma recovery_skips_unscheduled_witness :
  ∃ svc1, @recover sample_sha256 _ sample_engine sample_row_order (restarted sample_db) = (Ok tt, svc1) ∧
    check (ds_gate svc1) "player-1" 2 = Allowed ∧
    ∀ s, ¬ replicated_at (second_event sample_db) "player-1" s.
Proof.
  eapply (recovery_skips_unscheduled sample_sha256 FakeProducer _ sample_engine sample_row_order
    (restarted sample_db) two_requests "e2" _
    (@new_envelope sample_sha256 (sample_request "e2" 2) 2 2 10)).
  - exact sample_sha256_ok.
  - intros t. reflexivity.
  - exact sample_reliable.
  - apply second_event_represents, sample_db_represents.
  - apply second_event_good, sample_db_good.
  - compute_done.
  - vm_compute. reflexivity.
  - vm_compute. reflexivity.
  - discriminate.
  - intros eid' e' Hd _ _. revert Hd.
    change (delivery_state (service_db (restarted sample_db))) with (delivery_state (second_event sample_db)).
    apply second_event_only.
Defined.
