(* ===== verification/ServiceFindings.v ===== *)
(** * Where the delivery service can stop

    Two situations in which events that are ready stay undelivered: the gate is
    keyed by the raw stream key, which different streams can share, and a send
    whose failure cannot be persisted stays in flight. *)
From S2P Require Import Prelude Checksum JournalDb JournalCore JournalAccept SqlLogic.
From S2P Require Import JournalLog JournalReads JournalDelivery JournalTransitions.
From S2P Require Import JournalSafety DeliverySafety JournalScan Retry Gate Profiles Routing.
From S2P Require Import Integrity Service ServiceSafety.
Open Scope Z_scope.

(** Streams that share a stream key block each other.  The journal counts a
    stream by installation, namespace, stream type and key, the gate by the key
    alone.  Once the gate has completed h events under a key, an event of any
    stream with that key whose own sequence is at most h is answered [GateHeld]
    with h + 1, whatever is tried, and nothing changes -- although no event of
    its own stream precedes it. *)
Theorem shared_key_held (S : Sha256) (P : Type) (KP : KafkaProducer P) (env : Env)
    (svc : DeliveryService P) (eid : string) (c : DeliveryCandidate) (h : Z) :
  ds_shutdown svc = false →
  @get_delivery_candidate S (env_candidate env) eid (service_db svc) = CandidateFound c →
  stream_entry (ds_gate svc) (dc_stream_key c) = mkGateState h None None →
  dc_stream_sequence c ≤ h → 0 ≤ h < i64_max →
  attempt_delivery env svc eid = (GateHeld (h + 1), svc).
Proof.
  intros Hs Hc He Hle Hh. unfold attempt_delivery. rewrite Hs, Hc, check_entry, He. simpl.
  rewrite i64_add_id by rlia. by destruct (Z.eqb_spec (dc_stream_sequence c) (h + 1)); [lia|].
Qed.

(** Two events, the first of their streams, with the same stream key in
    different namespaces. *)
Definition chat_request : AcceptRequest :=
  mkAcceptRequest "inst-a" "e2" "producer-b" "instance-1" 1 "chat" "account"
    "player-1" "message" 1 (bytes_of "hello") (@sha256 sample_sha256 (bytes_of "hello")) 1.

Definition two_streams_db : Db :=
  let db := j_conn (@accept sample_sha256 sample_engine
              (mkJournal sample_pending default_config false false) true 9 chat_request).2 in
  (@run_op sample_sha256 sample_engine
     (OpCreate "e2" (@sha256 sample_sha256
         (bytes_of (routing_canonical (route_of_request chat_request)))) "p0" 1
        "craftrelay.inst-a.chat.events") 10 db).2.

Definition two_streams_service : DeliveryService FakeProducer :=
  service_new (mkJournal two_streams_db default_config false false) sample_producer sample_profile.

(** After the first was delivered. *)
Definition one_delivered : DeliveryService FakeProducer :=
  (@attempt_delivery sample_sha256 _ _ good_env two_streams_service "e1").2.

Lemma shared_key_held_witness :
  @attempt_delivery sample_sha256 _ _ good_env one_delivered "e2" = (GateHeld (1 + 1), one_delivered).
Proof.
  destruct (@get_delivery_candidate sample_sha256 sample_engine "e2" (service_db one_delivered))
    as [c| | |] eqn:Hc; try (vm_compute in Hc; discriminate).
  apply (shared_key_held sample_sha256 FakeProducer _ good_env one_delivered "e2" c 1).
  - vm_compute. reflexivity.
  - exact Hc.
  - vm_compute in Hc. injection Hc as <-. vm_compute. reflexivity.
  - vm_compute in Hc. injection Hc as <-. vm_compute. discriminate.
  - split; reflexivity || discriminate.
Defined.

(** The gate of a stream with something in flight lets nothing through. *)
Lemma in_flight_held `{Sha256} {P : Type} `{KP : KafkaProducer P} env (svc : DeliveryService P) eid c f :
  ds_shutdown svc = false →
  @get_delivery_candidate _ (env_candidate env) eid (service_db svc) = CandidateFound c →
  in_flight (stream_entry (ds_gate svc) (dc_stream_key c)) = Some f →
  attempt_delivery env svc eid = (GateHeld f, svc).
Proof.
  intros Hs Hc Hf. unfold attempt_delivery. rewrite Hs, Hc, check_entry, Hf. done.
Qed.

(** A failure that cannot be recorded stops the stream.  When a send failed
    and the journal could not record the attempt, the sequence stays in flight in
    the gate: every later attempt on any event of that stream key, the failed one
    included, is answered [GateHeld] and changes nothing. *)
Theorem unrecorded_failure_sticks (S : Sha256) (P : Type) (KP : KafkaProducer P) (env env' : Env)
    (svc : DeliveryService P) (eid eid' : string) (c c' : DeliveryCandidate)
    (routing : RoutingResolution) (err : SendError) :
  in_flight (stream_entry (ds_gate svc) (dc_stream_key c)) = Some (dc_stream_sequence c) →
  (@record_delivery_attempt S (env_attempt env)
     (failed_attempt env (ds_profile svc) eid c routing err) (env_attempt_now env)
     (service_db svc)).1 ≠ Updated →
  let svc' := (on_failure env svc eid c routing err).2 in
  ds_shutdown svc = false →
  @get_delivery_candidate S (env_candidate env') eid' (service_db svc') = CandidateFound c' →
  dc_stream_key c' = dc_stream_key c →
  attempt_delivery env' svc' eid' = (GateHeld (dc_stream_sequence c), svc').
Proof.
  intros Hf Hno svc' Hs Hc Hk. apply (in_flight_held env' svc' eid' c'); [|done|].
  - unfold svc', on_failure. destruct (record_delivery_attempt _ _ _) as [r db]. by destruct r.
  - rewrite Hk, <- Hf. unfold svc', on_failure.
    destruct (record_delivery_attempt _ _ _) as [r db]. by destruct r.
Qed.

(** The sample service after a send that failed while the journal was full. *)
Definition full_env : Env :=
  mkEnv sample_engine sample_engine sample_engine (failing_engine 2) sample_engine sample_engine
    100 101 102 103 104.

Definition failing_service : DeliveryService FakeProducer :=
  service_new (mkJournal sample_pending default_config false false)
    (enqueue_error Timeout fake_new) sample_profile.

Definition stuck_service : DeliveryService FakeProducer :=
  (@attempt_delivery sample_sha256 _ _ full_env failing_service "e1").2.

Lemma unrecorded_failure_sticks_witness :
  @attempt_delivery sample_sha256 _ _ good_env stuck_service "e1" = (GateHeld 1, stuck_service).
Proof.
  destruct (@get_delivery_candidate sample_sha256 sample_engine "e1" sample_pending)
    as [c| | |] eqn:Hc; try (vm_compute in Hc; discriminate).
  pose (svc := set_producer (set_gate failing_service (mark_in_flight gate_new "player-1" 1))
                 (mkFake [] (fp_sent (ds_producer stuck_service)))).
  pose (routing := mkResolution (routing_topic "inst-a" "economy")
    (scoped_stream_key (sample_request "e1" 1)) sample_fingerprint 1).
  assert (Hkey : dc_stream_key c = "player-1" ∧ dc_stream_sequence c = 1)
    by (vm_compute in Hc; injection Hc as <-; by split).
  destruct Hkey as [Hk Hseq].
  assert (Hst : stuck_service = (@on_failure sample_sha256 _ full_env svc "e1" c routing Timeout).2)
    by (vm_compute in Hc; injection Hc as <-; vm_compute; reflexivity).
  rewrite Hst, <- Hseq.
  apply (unrecorded_failure_sticks sample_sha256 FakeProducer _ full_env good_env svc "e1" "e1" c c
           routing Timeout).
  - rewrite Hk, Hseq. vm_compute. reflexivity.
  - vm_compute in Hc. injection Hc as <-. vm_compute. discriminate.
  - reflexivity.
  - rewrite <- Hst, <- Hc. vm_compute. reflexivity.
  - reflexivity.
Defined.
