(* ===== verification/DeliveryLiveness.v ===== *)
(** * Deliveries make progress

    With engines that work and a producer that acknowledges after some transient
    failures, the awaited event of a stream is delivered: each failure schedules
    a retry and keeps its place, the acknowledgement replicates it and moves the
    stream on.  So a whole stream is delivered in order. *)
From S2P Require Import Prelude Checksum JournalDb JournalCore JournalAccept SqlLogic.
From S2P Require Import JournalLog JournalReads JournalDelivery JournalTransitions.
From S2P Require Import JournalSafety DeliverySafety JournalScan Retry Gate Profiles Routing.
From S2P Require Import Integrity Service ServiceSafety.
Open Scope Z_scope.
#[local] Coercion Z.of_nat : nat >-> Z.

Record reliable_env (env : Env) : Prop := {
  rv_candidate : reliable (env_candidate env);
  rv_payload : reliable (env_payload env);
  rv_confirm : reliable (env_confirm env);
  rv_attempt : reliable (env_attempt env);
  rv_retry : reliable (env_retry env)
}.

(** Takes the answer of the call the goal depends on from an equation for a
    convertible one. *)
Ltac take_answer Heq :=
  match type of Heq with
  | ?call = _ => match goal with
                 | |- context [match ?t with pair _ _ => _ end] => change t with call; rewrite Heq
                 end
  end.

Section Liveness.
Context `{Sha256} `{!Sha256Ok} {P : Type} `{KP : KafkaProducer P}.
Implicit Types (svc : DeliveryService P).

(** ** What an attempt needs *)

(** A service that runs on a sound journal. *)
Record sound svc (log : list AcceptRequest) : Prop := {
  sd_up : ds_shutdown svc = false;
  sd_log : represents (service_db svc) log;
  sd_good : deliveries_good (service_db svc)
}.

(** An open delivery whose routing and profile are those of the service, after
    [n] attempts. *)
Record bound (profile : KafkaProductionProfile) (db : Db) (eid k : string) (s n : Z)
    (e : EnvelopeRow) (row : DeliveryStateRecord) (routing : RoutingResolution) : Prop := {
  bd_env : stored_envelope db !! eid = Some e;
  bd_key : e_stream_key e = k;
  bd_seq : e_stream_sequence e = s;
  bd_row : delivery_state db !! eid = Some row;
  bd_count : d_attempt_count row = n;
  bd_open : d_delivery_status row = "DELIVERY_PENDING" ∨ d_delivery_status row = "DELIVERY_RETRYING";
  bd_binding : check_binding profile (candidate_of eid e row) = Ok routing
}.

Definition awaits (g : OrderingGate) (k : string) (s : Z) : Prop :=
  in_flight (stream_entry g k) = None ∧ awaited g k = s.

(** The rows of the other events are as before. *)
Definition frame (eid : string) (db db' : Db) : Prop :=
  stored_envelope db' = stored_envelope db ∧
  ∀ x, x ≠ eid → delivery_state db' !! x = delivery_state db !! x.

#[local] Instance frame_trans eid : Transitive (frame eid).
Proof.
  intros a b c [He1 Hd1] [He2 Hd2]. split; [congruence|]. intros x Hx. by rewrite Hd2, Hd1.
Qed.

Lemma event_rows_of db log eid e :
  represents db log → stored_envelope db !! eid = Some e → ∃ l r, event_rows db eid e l ∧
    r ∈ log ∧ rq_event_id r = eid.
Proof.
  intros Hr He. assert (Hd : eid ∈ dom (stored_envelope db)) by by apply elem_of_dom.
  rewrite (rep_env_dom _ _ Hr), elem_of_list_to_set in Hd.
  apply list_elem_of_fmap in Hd as (r & -> & [i Hi]%list_elem_of_lookup).
  destruct (rep_lookup _ _ _ _ Hr Hi) as (now & l & He' & Hl & Hlo & Ht).
  rewrite He in He'. injection He' as ->. exists l, r.
  split; [|split; [by eapply list_elem_of_lookup_2|done]]. constructor; try done. by apply new_envelope_ok.
Qed.

Lemma candidate_found (E : Engine) db log eid e row :
  reliable E → represents db log → stored_envelope db !! eid = Some e → delivery_row db eid row →
  get_delivery_candidate eid db = CandidateFound (candidate_of eid e row).
Proof.
  intros HE Hr He Hrow. apply reliable_not_faulty in HE.
  destruct (event_rows_of _ _ _ _ Hr He) as (l & r & [_ _ Hok _] & _).
  unfold get_delivery_candidate. apply (wp_run_auto _ (λ c _, c = _)). unfold load_delivery_candidate.
  apply wp_bind, (wp_load_delivery_ok eid row); [done|done|]. intros s1 [Hw1 _]. simpl in Hw1.
  apply wp_bind, wp_query; [done|]. rewrite Hw1, He.
  destruct (negb _) eqn:Hlen; [apply negb_len32_true in Hlen; by destruct Hlen, Hok|].
  apply wp_bind, (wp_recompute_ok eid e); [by simpl; rewrite Hw1|done|done|]. intros s2 _.
  rewrite bool_decide_eq_true_2 by done. by apply wp_ret.
Qed.

(** An enabled transition is taken by an engine that works. *)
Lemma enabled_taken (E : Engine) op now db db' :
  reliable E → cas_effect now db op db' →
  ∃ db1, run_op op now db = (Updated, db1) ∧ cas_effect now db op db1.
Proof.
  intros HE Heff. destruct (run_op_post op now db) as [[Hu He]|(_ & _ & [Hf|Hno])].
  - exists (run_op op now db).2. rewrite <- Hu. split; [apply surjective_pairing|done].
  - by apply reliable_not_faulty in HE.
  - by destruct (Hno db').
Qed.

(** The gate behind a sequence that is let through. *)
Lemma awaits_completed g k s :
  in_i64 (s + 1) → awaits (mark_completed (mark_in_flight g k s) k s) k (s + 1).
Proof.
  intros Hs. unfold awaits, awaited, mark_completed, mark_in_flight. rewrite !stream_entry_set. simpl.
  rewrite !decide_True by done. simpl. by rewrite i64_add_id.
Qed.

Lemma awaits_blocked g k s : awaits (mark_blocking (mark_in_flight g k s) k s) k s.
Proof.
  unfold awaits, awaited, mark_blocking, mark_in_flight. rewrite !stream_entry_set. simpl.
  by rewrite decide_True.
Qed.

(** ** One attempt *)
Lemma check_binding_fingerprint profile c routing :
  check_binding profile c = Ok routing →
  d_routing_fingerprint (dc_delivery_state c) = Some (rr_routing_checksum routing).
Proof.
  unfold check_binding. destruct (resolve_routing _) as [r|]; [|done].
  repeat (case_bool_decide; simpl; [|done]).
  destruct (is_profile_safe_for_delivery profile) as [[]|]; [|done]. by intros [= <-].
Qed.

(** The awaited event passes every check and reaches the producer. *)
Lemma attempt_reaches_send env svc log eid k s n e row routing :
  reliable_env env → sound svc log → bound (ds_profile svc) (service_db svc) eid k s n e row routing →
  awaits (ds_gate svc) k s →
  ∃ payload, attempt_delivery env svc eid =
    send_payload env svc eid (candidate_of eid e row) routing payload.
Proof.
  intros [Hec Hep _ _ _] [Hup Hlog Hgood] [He Hk Hs Hrow _ Hst Hb] [Hfl Haw].
  destruct (event_rows_of _ _ _ _ Hlog He) as (l & r & _ & Hin & Hid).
  pose proof (Hgood _ _ Hrow) as [Hok _]. exists (rq_payload r).
  unfold attempt_delivery. rewrite Hup.
  rewrite (candidate_found _ _ _ _ e row Hec Hlog He) by done.
  rewrite (proj2 (check_allowed (ds_gate svc) _ _)); [|simpl; by rewrite Hk, Hs].
  unfold deliver_candidate. simpl.
  rewrite !bool_decide_eq_false_2 by (destruct Hst as [-> | ->]; done).
  rewrite Hb. pose proof (@represented_payload _ _ (env_payload env) _ _ _ Hep Hlog Hin) as Hpay.
  rewrite Hid in Hpay. by rewrite Hpay.
Qed.

(** The request the producer is given names the event's topic. *)
Definition acknowledged (topic : string) (r : result SendSuccess SendError) : Prop :=
  ∃ s, r = Ok s ∧ ss_topic s = topic ∧ 0 ≤ ss_partition s ∧ 0 ≤ ss_offset s.
Definition transient (r : result SendSuccess SendError) : Prop :=
  ∃ e, r = Err e ∧ is_retriable e = true.

(** After an acknowledgement the event is replicated and the stream moves on. *)
Lemma attempt_acknowledged env svc log eid k s n e row routing :
  reliable_env env → sound svc log → bound (ds_profile svc) (service_db svc) eid k s n e row routing →
  awaits (ds_gate svc) k s → in_i64 (s + 1) →
  (∀ req, acknowledged (sq_topic req) (send req (ds_producer svc)).1) →
  ∃ p o svc' row', attempt_delivery env svc eid = (OutReplicated p o, svc') ∧ sound svc' log ∧
    frame eid (service_db svc) (service_db svc') ∧ ds_profile svc' = ds_profile svc ∧
    (∃ req, ds_producer svc' = (send req (ds_producer svc)).2) ∧
    awaits (ds_gate svc') k (s + 1) ∧
    delivery_state (service_db svc') !! eid = Some row' ∧ d_delivery_status row' = "REPLICATED".
Proof.
  intros Henv Hsd Hbd Haw Hmax Hack.
  destruct (attempt_reaches_send _ _ _ _ _ _ _ _ _ _ Henv Hsd Hbd Haw) as [payload ->].
  unfold send_payload. cbn zeta. unfold set_gate at 2 3.
  cbn [ds_producer ds_profile]. set (req := send_request _ _ _ _). specialize (Hack req).
  destruct (send req (ds_producer svc)) as [r p'] eqn:Hsend.
  simpl in Hack. destruct Hack as (sc & -> & Htop & Hpart & Hoff). unfold on_success.
  set (svc1 := set_producer _ _). set (cf := mkConfirmation _ _ _ _ _ _).
  destruct Hsd as [Hup Hlog Hgood]. destruct Hbd as [He Hk Hs Hrow Hn Hst Hb].
  destruct (event_rows_of _ _ _ _ Hlog He) as (l & r & Hrows & _).
  pose proof (check_binding_fingerprint _ _ _ Hb) as Hfp.
  pose proof (check_binding_ok _ _ _ Hb) as (_ & _ & Hpid & Hpv & Hkt).
  assert (Hopen : open_row (service_db svc) eid (d_delivery_revision row) row).
  { split; [split; [done|apply (Hgood _ _ Hrow)]|]. split; [done|]. by destruct Hst as [-> | ->]. }
  assert (Hcm : confirmation_matches row cf).
  { split; [exact Hfp|]. split; [exact Hpid|]. split; [exact Hpv|]. simpl. rewrite Htop. exact Hkt. }
  destruct (enabled_taken (env_confirm env) (OpConfirm eid (d_delivery_revision row) cf)
    (env_confirm_now env) (service_db svc) _ (rv_confirm _ Henv)
    (eff_confirm _ _ _ _ _ e l row Hrows Hopen Hcm)) as (db1 & Hrun & Heff).
  take_answer Hrun. eexists _, _, _, _. split; [done|].
  pose proof (effect_represents _ _ _ _ _ Heff Hlog) as Hlog1.
  pose proof (effect_good _ _ _ _ Heff Hgood (conj Hpart Hoff)) as Hgood1.
  split; [by split|]. inversion Heff as [| | |? ? ? e' l' row' _ [[Hrow' _] _] _| |]; subst.
  rewrite Hrow in Hrow'. injection Hrow' as <-.
  split; [split; [done|]; intros x Hx; simpl; by rewrite lookup_insert_ne|]. split; [done|].
  split; [exists req; by rewrite Hsend|]. split; [by apply awaits_completed|]. simpl.
  rewrite lookup_insert_eq. done.
Qed.

(** The binding depends on the routing of the delivery alone. *)
Lemma check_binding_same profile eid e row row' :
  d_routing_fingerprint row' = d_routing_fingerprint row → d_profile_id row' = d_profile_id row →
  d_profile_version row' = d_profile_version row → d_kafka_topic row' = d_kafka_topic row →
  check_binding profile (candidate_of eid e row') = check_binding profile (candidate_of eid e row).
Proof. intros Hf Hp Hv Ht. unfold check_binding. simpl. by rewrite Hf, Hp, Hv, Ht. Qed.

Lemma retry_granted err a now :
  is_retriable err = true → a < MAX_RETRY_ATTEMPTS →
  should_retry err a = true ∧ ∃ t, compute_next_retry a now = Retry t.
Proof.
  intros Hr Ha. unfold should_retry, compute_next_retry. rewrite Hr. simpl.
  rewrite (proj2 (Z.ltb_lt _ _) Ha), (proj2 (Z.leb_gt _ _) Ha). eauto.
Qed.

(** The two journal calls of a failed send: the attempt is counted and the retry
    scheduled. *)
Lemma retry_recorded env svc log eid k s n e row routing a t :
  reliable_env env → sound svc log → bound (ds_profile svc) (service_db svc) eid k s n e row routing →
  0 ≤ n < MAX_RETRY_ATTEMPTS → at_event_id a = eid →
  ∃ db1 db2 row2,
    @record_delivery_attempt _ (env_attempt env) a (env_attempt_now env) (service_db svc) = (Updated, db1) ∧
    @update_delivery_retry _ (env_retry env) eid (d_delivery_revision row) t (env_retry_now env) db1 =
      (Updated, db2) ∧
    represents db2 log ∧ deliveries_good db2 ∧ frame eid (service_db svc) db2 ∧
    bound (ds_profile svc) db2 eid k s (n + 1) e row2 routing.
Proof.
  intros Henv [Hup Hlog Hgood] [He Hk Hs Hrow Hn Hst Hb] Hmax Ha. unfold MAX_RETRY_ATTEMPTS in Hmax.
  assert (Hdr : delivery_row (service_db svc) (at_event_id a) row).
  { rewrite Ha. split; [done|apply (Hgood _ _ Hrow)]. }
  destruct (enabled_taken (env_attempt env) (OpAttempt a) (env_attempt_now env) (service_db svc) _
    (rv_attempt _ Henv) (eff_attempt _ _ a e row ltac:(by rewrite Ha) Hdr)) as (db1 & Hrun1 & Heff1).
  pose proof (effect_represents _ _ _ _ _ Heff1 Hlog) as Hlog1.
  assert (Hgood1 : deliveries_good db1).
  { apply (effect_good _ _ _ _ Heff1 Hgood). intros row0. rewrite Ha, Hrow. intros [= <-]. rlia. }
  inversion Heff1 as [| |? e1 row1' _ [Hrow1' _] checksum| | |]; subst. clear Heff1.
  rewrite Hrow in Hrow1'. injection Hrow1' as <-.
  set (row1 := attempted_row (at_error_code a) checksum (env_attempt_now env) row) in *.
  set (db1 := set_delivery (at_event_id a) row1 (attempts_after a (service_db svc))) in *.
  assert (Hrow1 : delivery_state db1 !! at_event_id a = Some row1) by apply lookup_insert_eq.
  assert (Hopen : open_row db1 (at_event_id a) (d_delivery_revision row) row1).
  { split; [split; [done|apply (Hgood1 _ _ Hrow1)]|]. split; [done|].
    by destruct Hst as [Hst|Hst]; simpl; rewrite Hst. }
  destruct (enabled_taken (env_retry env) (OpRetry (at_event_id a) (d_delivery_revision row) t)
    (env_retry_now env) db1 _ (rv_retry _ Henv) (eff_retry _ _ _ _ _ row1 Hopen)) as (db2 & Hrun2 & Heff2).
  pose proof (effect_represents _ _ _ _ _ Heff2 Hlog1) as Hlog2.
  assert (Hgood2 : deliveries_good db2).
  { apply (effect_good _ _ _ _ Heff2 Hgood1). intros row0. rewrite Hrow1. intros [= <-].
    by destruct Hst as [Hst|Hst]; simpl; rewrite Hst. }
  inversion Heff2 as [| | | | |? ? ? row2' [[Hrow2' _] _]]; subst. clear Heff2.
  rewrite Hrow1 in Hrow2'. injection Hrow2' as <-.
  eexists _, _, _. split; [exact Hrun1|]. split; [exact Hrun2|]. split; [done|]. split; [done|]. split.
  - split; [done|]. intros x Hx. simpl. by rewrite !lookup_insert_ne.
  - constructor; [exact He|done|done|apply lookup_insert_eq|done|by right|].
    by rewrite <- Hb; apply check_binding_same.
Qed.

(** After a transient failure the event keeps its place and its binding. *)
Lemma attempt_transient env svc log eid k s n e row routing :
  reliable_env env → sound svc log → bound (ds_profile svc) (service_db svc) eid k s n e row routing →
  awaits (ds_gate svc) k s → 0 ≤ n → n + 1 < MAX_RETRY_ATTEMPTS →
  (∀ req, transient (send req (ds_producer svc)).1) →
  ∃ t svc' row', attempt_delivery env svc eid = (OutRetrying t, svc') ∧ sound svc' log ∧
    frame eid (service_db svc) (service_db svc') ∧ ds_profile svc' = ds_profile svc ∧
    (∃ req, ds_producer svc' = (send req (ds_producer svc)).2) ∧
    awaits (ds_gate svc') k s ∧
    bound (ds_profile svc') (service_db svc') eid k s (n + 1) e row' routing.
Proof.
  intros Henv Hsd Hbd Haw Hn Hmax Htr.
  destruct (attempt_reaches_send _ _ _ _ _ _ _ _ _ _ Henv Hsd Hbd Haw) as [payload ->].
  unfold send_payload. cbn zeta. unfold set_gate at 2 3.
  cbn [ds_producer ds_profile]. set (req := send_request _ _ _ _). specialize (Htr req).
  destruct (send req (ds_producer svc)) as [r p'] eqn:Hsend. simpl in Htr. destruct Htr as (err & -> & Herr).
  set (c := candidate_of eid e row).
  assert (Hcount : i32_add (d_attempt_count (dc_delivery_state c)) 1 = n + 1).
  { simpl. rewrite (bd_count _ _ _ _ _ _ _ _ _ Hbd). unfold MAX_RETRY_ATTEMPTS in Hmax. apply i32_add_id. rlia. }
  destruct (retry_granted err (n + 1) (env_now env) Herr Hmax) as (Hshould & t & Hnext).
  destruct (retry_recorded env svc log eid k s n e row routing
    (failed_attempt env (ds_profile svc) eid c routing err) t Henv Hsd Hbd ltac:(lia) eq_refl)
    as (db1 & db2 & row2 & Hrec & Hret & Hlog & Hgood & Hframe & Hbd2).
  unfold on_failure. rewrite Hcount.
  take_answer Hrec. rewrite Hshould, Hnext. take_answer Hret. eexists t, _, row2. split; [done|]. destruct Hsd as [Hup _ _].
  split; [by split|]. split; [done|]. split; [done|]. split; [exists req; by rewrite Hsend|].
  split; [|done]. simpl. destruct Hbd as [_ <- <- _ _ _ _]. apply awaits_blocked.
Qed.

(** ** Many attempts *)
Fixpoint attempt_all (calls : list (Env * string)) svc : list DeliveryOutcome * DeliveryService P :=
  match calls with
  | [] => ([], svc)
  | (env, eid) :: calls =>
      let '(o, svc) := attempt_delivery env svc eid in
      let '(os, svc) := attempt_all calls svc in (o :: os, svc)
  end.

Lemma attempt_all_app calls calls' svc :
  attempt_all (calls ++ calls') svc =
  let '(os, svc1) := attempt_all calls svc in
  let '(os', svc2) := attempt_all calls' svc1 in (os ++ os', svc2).
Proof.
  revert svc. induction calls as [|[env eid] calls IH]; intros svc; simpl.
  - by destruct (attempt_all calls' svc).
  - destruct (attempt_delivery env svc eid) as [o svc1]. rewrite IH.
    destruct (attempt_all calls svc1) as [os svc2]. by destruct (attempt_all calls' svc2).
Qed.

(** A producer that fails [n] times, then acknowledges and goes on as [K]; and
    one that does so for one event after the other. *)
Fixpoint fails (n : nat) (K : P → Prop) (p : P) : Prop :=
  match n with
  | O => ∀ req, acknowledged (sq_topic req) (send req p).1 ∧ K (send req p).2
  | S n => ∀ req, transient (send req p).1 ∧ fails n K (send req p).2
  end.

Fixpoint serves (failures : list nat) (p : P) : Prop :=
  match failures with
  | [] => True
  | n :: failures => fails n (serves failures) p
  end.

Definition retrying (o : DeliveryOutcome) : Prop := ∃ t, o = OutRetrying t.
Definition replicated (o : DeliveryOutcome) : Prop := ∃ p off, o = OutReplicated p off.

(** The retries of one event, and its delivery. *)
Definition outcomes_of (f : nat) (os : list DeliveryOutcome) : Prop :=
  ∃ rs o, os = rs ++ [o] ∧ length rs = f ∧ Forall retrying rs ∧ replicated o.

Lemma event_delivered (f : nat) K calls svc log eid k s n e row routing :
  sound svc log → bound (ds_profile svc) (service_db svc) eid k s n e row routing →
  awaits (ds_gate svc) k s → in_i64 (s + 1) → 0 ≤ n → n + f < MAX_RETRY_ATTEMPTS →
  fails f K (ds_producer svc) → Forall (λ c, reliable_env c.1 ∧ c.2 = eid) calls →
  length calls = S f →
  ∃ os svc' row', attempt_all calls svc = (os, svc') ∧ outcomes_of f os ∧ sound svc' log ∧
    frame eid (service_db svc) (service_db svc') ∧ ds_profile svc' = ds_profile svc ∧
    K (ds_producer svc') ∧ awaits (ds_gate svc') k (s + 1) ∧
    delivery_state (service_db svc') !! eid = Some row' ∧ d_delivery_status row' = "REPLICATED".
Proof.
  revert calls svc n row. induction f as [|f IH]; intros calls svc n row Hsd Hbd Haw Hs Hn Hmax Hp Hcalls Hlen;
    (destruct calls as [|[env x] calls]; [done|]);
    apply Forall_cons in Hcalls as [[Henv Hx] Hcalls]; simpl in Hx, Henv; subst x; simpl in Hlen.
  - destruct calls; [|done]. simpl in Hp.
    destruct (attempt_acknowledged _ _ _ _ _ _ _ _ _ _ Henv Hsd Hbd Haw Hs (λ req, proj1 (Hp req)))
      as (p & o & svc' & row' & Hat & Hsd' & Hfr & Hpr & (req & Hprod) & Haw' & Hrow & Hst).
    exists [OutReplicated p o], svc', row'. simpl. rewrite Hat. split; [done|]. split.
    { exists [], (OutReplicated p o). split_and!; try done. by exists p, o. }
    split_and!; try done. rewrite Hprod. apply Hp.
  - simpl in Hp. destruct (attempt_transient _ _ _ _ _ _ _ _ _ _ Henv Hsd Hbd Haw Hn ltac:(lia)
      (λ req, proj1 (Hp req))) as (t & svc1 & row1 & Hat & Hsd1 & Hfr & Hpr & (req & Hprod) & Haw1 & Hbd1).
    destruct (IH calls svc1 (n + 1) row1) as (os & svc' & row' & Hall & (rs & o & -> & Hl & Hrs & Ho) & Hsd' &
      Hfr' & Hpr' & HK & Haw' & Hrow & Hst); try done; [lia|lia|rewrite Hprod; apply Hp|lia|].
    exists (OutRetrying t :: rs ++ [o]), svc', row'. simpl. rewrite Hat, Hall. split; [done|]. split.
    { exists (OutRetrying t :: rs), o. split_and!; try done; [simpl; by f_equal|].
      constructor; [by exists t|done]. }
    split_and!; try done; [by etrans|congruence].
Qed.

(** ** A stream *)

(** The [j]-th of the events, given with the number of failures it meets, is the
    event of the stream at sequence [a + j], is bound and has retries left. *)
Definition scheduled svc (k : string) (a : Z) (events : list (string * nat)) : Prop :=
  ∀ (j : nat) eid f, events !! j = Some (eid, f) → ∃ n e row routing,
    bound (ds_profile svc) (service_db svc) eid k (a + j) n e row routing ∧ 0 ≤ n ∧
    n + Z.of_nat f < MAX_RETRY_ATTEMPTS.

Definition attempts_for (events : list (string * nat)) : list string :=
  concat ((λ ev, replicate (S ev.2) ev.1) <$> events).

Lemma scheduled_tail svc svc' k a eid f events :
  scheduled svc k a ((eid, f) :: events) → eid ∉ events.*1 →
  frame eid (service_db svc) (service_db svc') → ds_profile svc' = ds_profile svc →
  scheduled svc' k (a + 1) events.
Proof.
  intros Hs Hnew [He Hd] Hp j x g Hj. destruct (Hs (S j) x g Hj) as (n & e & row & routing & [] & Hn & Hmax).
  exists n, e, row, routing. split; [|done]. rewrite Hp. constructor; try done; [by rewrite He|lia|].
  rewrite Hd; [done|]. intros ->. apply Hnew. apply list_elem_of_fmap. exists (eid, g).
  split; [done|]. by eapply list_elem_of_lookup_2.
Qed.

Lemma stream_progress events calls svc log k a :
  sound svc log → scheduled svc k a events → NoDup events.*1 → awaits (ds_gate svc) k a →
  i64_min ≤ a → a + length events ≤ i64_max → serves events.*2 (ds_producer svc) →
  Forall (λ c, reliable_env c.1) calls → calls.*2 = attempts_for events →
  ∃ oss svc', attempt_all calls svc = (concat oss, svc') ∧
    Forall2 (λ ev os, outcomes_of ev.2 os) events oss ∧ sound svc' log ∧
    awaits (ds_gate svc') k (a + length events) ∧
    (∀ x, x ∉ events.*1 → delivery_state (service_db svc') !! x = delivery_state (service_db svc) !! x) ∧
    (∀ x, x ∈ events.*1 → ∃ row, delivery_state (service_db svc') !! x = Some row ∧
       d_delivery_status row = "REPLICATED").
Proof.
  revert calls svc a. induction events as [|[eid f] events IH];
    intros calls svc a Hsd Hsch Hnd Haw Hmin Hmax Hsv Hrel Hcalls.
  { apply fmap_nil_inv in Hcalls as ->. exists [], svc. simpl. rewrite Z.add_0_r.
    split_and!; try done. by intros ? ?%not_elem_of_nil. }
  unfold attempts_for in Hcalls. cbn [fmap list_fmap concat] in Hcalls.
  apply fmap_app_inv in Hcalls as (c1 & c2 & H1 & H2 & ->). apply Forall_app in Hrel as [Hr1 Hr2].
  apply NoDup_cons in Hnd as [Hnew Hnd]. simpl in Hmax, Hnew. cbn [fst snd] in H1.
  destruct (Hsch O eid f eq_refl) as (n & e & row & routing & Hbd & Hn & Hf). rewrite Z.add_0_r in Hbd.
  assert (Hids : Forall (λ c : Env * string, reliable_env c.1 ∧ c.2 = eid) c1).
  { apply Forall_forall. intros c Hc. split; [by eapply Forall_forall in Hr1|].
    assert (Hin : c.2 ∈ replicate (S f) eid) by (rewrite H1; by apply list_elem_of_fmap_2).
    by apply elem_of_replicate in Hin as [? _]. }
  assert (Hlen : length c1 = S f).
  { by rewrite <- (length_fmap snd c1), <- H1, length_replicate. }
  destruct (event_delivered f (serves events.*2) c1 svc log eid k a n e row routing)
    as (os & svc1 & row1 & Hall & Hos & Hsd1 & Hfr & Hpr & HK & Haw1 & Hrow & Hst); try done; [rlia|].
  destruct (IH c2 svc1 (a + 1)) as (oss & svc' & Hall2 & Hoss & Hsd' & Haw' & Hrest & Hrep); try done;
    [by eapply scheduled_tail|lia|lia|].
  exists (os :: oss), svc'. rewrite attempt_all_app, Hall, Hall2. split; [done|].
  split; [by constructor|]. split; [done|]. split.
  { simpl. by replace (a + S (length events)) with (a + 1 + length events) by lia. }
  split.
  - intros x [Hne Hx]%not_elem_of_cons. rewrite (Hrest x Hx). by apply Hfr.
  - intros x [Hx|Hx]%elem_of_cons; [|by apply Hrep]. simpl in Hx. subst x. exists row1.
    by rewrite (Hrest _ Hnew).
Qed.
End Liveness.

(** A stream is delivered.  Take a service on a sound journal whose gate awaits
    sequence [a] of a stream; events of the stream at [a], [a + 1], ... whose
    deliveries are open and bound to the service's routing and profile; and a
    producer that fails for each of them some number of times with a transient
    error, below the limit of retries, and then acknowledges.  With engines that
    work, attempting each event once more than it fails, in order, answers with
    that many scheduled retries and then with the replication of the event; at the
    end every event is REPLICATED in the journal, the journal is sound and the gate
    awaits the sequence after the last. *)
Theorem stream_delivered (S : Sha256) (P : Type) (KP : KafkaProducer P)
    (events : list (string * nat)) (calls : list (Env * string)) (svc : DeliveryService P)
    (log : list AcceptRequest) (k : string) (a : Z) :
  @Sha256Ok S → sound svc log → scheduled svc k a events → NoDup events.*1 →
  awaits (ds_gate svc) k a → i64_min ≤ a → a + length events ≤ i64_max →
  serves events.*2 (ds_producer svc) → Forall (λ c, reliable_env c.1) calls →
  calls.*2 = attempts_for events →
  ∃ oss svc', attempt_all calls svc = (concat oss, svc') ∧
    Forall2 (λ ev os, outcomes_of ev.2 os) events oss ∧ sound svc' log ∧
    awaits (ds_gate svc') k (a + length events) ∧
    (∀ x, x ∈ events.*1 → ∃ row, delivery_state (service_db svc') !! x = Some row ∧
       d_delivery_status row = "REPLICATED").
Proof.
  intros HS Hsd Hsch Hnd Haw Hmin Hmax Hsv Hrel Hcalls.
  destruct (stream_progress events calls svc log k a) as (oss & svc' & Hall & Ho & Hsd' & Haw' & _ & Hrep);
    try done. by exists oss, svc'.
Qed.

(** A producer that times out a number of times and then acknowledges. *)
Definition flaky_send : KafkaProducer nat := λ req n,
  match n with
  | O => (Ok (mkSuccess (sq_topic req) 3 42), O)
  | S n => (Err Timeout, n)
  end.
Definition flaky_service (n : nat) : DeliveryService nat :=
  service_new (mkJournal sample_pending default_config false false) n sample_profile.

Lemma stream_delivered_witness :
  ∃ oss svc', @attempt_all sample_sha256 nat flaky_send [(good_env, "e1"); (good_env, "e1")]
      (flaky_service 1) = (concat oss, svc') ∧
    ∃ row, delivery_state (service_db svc') !! "e1" = Some row ∧ d_delivery_status row = "REPLICATED".
Proof.
  destruct (stream_delivered sample_sha256 nat flaky_send [("e1", 1%nat)]
    [(good_env, "e1"); (good_env, "e1")] (flaky_service 1) [sample_request "e1" 1] "player-1" 1)
    as (oss & svc' & Hall & _ & _ & _ & Hrep).
  - exact sample_sha256_ok.
  - split; [reflexivity|exact sample_pending_represents|exact sample_pending_good].
  - intros [|j] eid f; [|done]. intros [= <- <-]. eexists 0, _, _, _. split; [|split; [done|reflexivity]].
    constructor; [vm_compute; reflexivity|reflexivity|reflexivity|vm_compute; reflexivity|reflexivity
      |left; reflexivity|vm_compute; reflexivity].
  - apply NoDup_singleton.
  - split; reflexivity.
  - vm_compute. discriminate.
  - vm_compute. discriminate.
  - intros req. split; [by exists Timeout|]. intros req'. split; [|done].
    by exists (mkSuccess (sq_topic req') 3 42).
  - repeat constructor; exact (λ n, eq_refl).
  - reflexivity.
  - exists oss, svc'. split; [exact Hall|]. apply Hrep. by left.
Defined.
