(* ===== verification/Broker.v ===== *)
(** * What the broker gets of a stream

    The requests handed to the producer, compared with the accepted events of
    their stream: the invariant [sent_upto], and how a journal call and a send
    keep it. *)
From S2P Require Import Prelude Checksum JournalDb JournalCore JournalAccept SqlLogic.
From S2P Require Import JournalLog JournalReads JournalDelivery JournalTransitions.
From S2P Require Import JournalSafety DeliverySafety JournalScan Retry Gate Profiles Routing.
From S2P Require Import Service.
Open Scope Z_scope.
#[local] Coercion Z.of_nat : nat >-> Z.

(** ** Repetitions in a row *)
Section Collapse.
Context {A : Type} `{EqDecision A}.
Implicit Types l : list A.

(** [l] with every run of equal elements replaced by one of them. *)
Fixpoint collapse l : list A :=
  match l with
  | [] => []
  | a :: l' => if decide (head l' = Some a) then collapse l' else a :: collapse l'
  end.

Lemma head_collapse l : head (collapse l) = head l.
Proof. induction l as [|a l IH]; [done|]. simpl. case_decide as Hh; [by rewrite IH, Hh|done]. Qed.

Lemma collapse_snoc l a :
  collapse (l ++ [a]) = if decide (last l = Some a) then collapse l else collapse l ++ [a].
Proof.
  induction l as [|b l IH]; [done|].
  destruct l as [|c l]; [cbn; repeat case_decide; by simplify_eq|].
  change (last (b :: c :: l)) with (last (c :: l)).
  change (collapse ((b :: c :: l) ++ [a]))
    with (if decide (Some c = Some b) then collapse ((c :: l) ++ [a]) else b :: collapse ((c :: l) ++ [a])).
  change (collapse (b :: c :: l))
    with (if decide (Some c = Some b) then collapse (c :: l) else b :: collapse (c :: l)).
  rewrite IH. destruct (decide (last (c :: l) = Some a)), (decide (Some c = Some b)); done.
Qed.

Lemma last_collapse l : last (collapse l) = last l.
Proof.
  induction l as [|a l IH] using rev_ind; [done|].
  rewrite collapse_snoc, last_snoc. case_decide as Hl; [by rewrite IH|by rewrite last_snoc].
Qed.
End Collapse.

(** ** Streams of the log *)

(** The place of a request in its stream. *)
Lemma in_stream_lookup log (i : nat) r :
  log !! i = Some r →
  in_stream (scoped_stream_key r) log !! Z.to_nat (stream_pos log i r - 1) = Some r.
Proof.
  intros Hi. set (k := scoped_stream_key r).
  assert (Hs : in_stream k log = in_stream k (take i log) ++ r :: in_stream k (drop (S i) log)).
  { rewrite <- (take_drop_middle log i r Hi) at 1. unfold in_stream.
    rewrite filter_app, filter_cons_True by done. done. }
  assert (Hp : stream_pos log i r = length (in_stream k (take i log)) + 1).
  { unfold stream_pos. rewrite (take_S_r _ _ _ Hi), stream_count_snoc, decide_True by done. done. }
  rewrite Hs, Hp, lookup_app_r by lia. by replace (_ - _)%nat with O by lia.
Qed.

Lemma in_stream_nodup k log : NoDup (event_ids log) → NoDup (event_ids (in_stream k log)).
Proof.
  unfold event_ids, in_stream. induction log as [|r log IH]; [done|]. intros [Hn Hd]%NoDup_cons.
  rewrite filter_cons. case_decide; [|by apply IH]. apply NoDup_cons. split; [|by apply IH].
  intros (r' & Hr & Hin)%list_elem_of_fmap. apply Hn. rewrite Hr.
  apply list_elem_of_filter in Hin as [_ Hin]. by apply list_elem_of_fmap_2.
Qed.

(** ** What the broker gets *)

(** A producer together with the requests it was given. *)
Record Wire (P : Type) : Type := mkWire { wire_producer : P; wire_sent : list SendRequest }.
Arguments mkWire {P}.
Arguments wire_producer {P}.
Arguments wire_sent {P}.

#[export] Instance wire_send {P} `{KafkaProducer P} : KafkaProducer (Wire P) := λ request w,
  let '(r, p) := send request (wire_producer w) in (r, mkWire p (wire_sent w ++ [request])).

Lemma wire_sent_send {P} `{KP : KafkaProducer P} request (w : Wire P) :
  wire_sent (send request w).2 = wire_sent w ++ [request].
Proof. unfold send at 1, wire_send. by destruct (send request (wire_producer w)). Qed.

Definition request_event (q : SendRequest) : string * list byte := (sq_event_id q, sq_payload q).
Definition accepted_event (r : AcceptRequest) : string * list byte := (rq_event_id r, rq_payload r).

(** The events of a stream among the sent requests, by their partition key, and
    among the accepted ones. *)
Definition stream_sent (k : string) (sent : list SendRequest) : list (string * list byte) :=
  request_event <$> filter (λ q, sq_partition_key q = k) sent.

Definition stream_accepted (k : string) (log : list AcceptRequest) : list (string * list byte) :=
  accepted_event <$> in_stream k log.

Definition event_replicated (db : Db) (eid : string) : Prop :=
  ∃ row, delivery_state db !! eid = Some row ∧ d_delivery_status row = "REPLICATED".

(** Of the stream [k] the broker got the first [m] events in order, each at
    least once; all that are replicated are among them, and all but the last of
    them are. *)
Definition sent_upto (db : Db) (log : list AcceptRequest) (sent : list SendRequest) (k : string)
    (m : nat) : Prop :=
  (m ≤ length (in_stream k log))%nat ∧
  collapse (stream_sent k sent) = take m (stream_accepted k log) ∧
  ∀ (i : nat) r, log !! i = Some r → scoped_stream_key r = k →
    (event_replicated db (rq_event_id r) → stream_pos log i r ≤ m) ∧
    (stream_pos log i r < m → event_replicated db (rq_event_id r)).

Section Sent.
Context `{Sha256}.

Lemma stream_sent_snoc k sent q :
  stream_sent k (sent ++ [q]) =
  stream_sent k sent ++ (if decide (sq_partition_key q = k) then [request_event q] else []).
Proof. unfold stream_sent. rewrite filter_app, fmap_app, filter_cons. by case_decide. Qed.

(** The journal grows and no delivery is completed. *)
Lemma sent_upto_journal db db' log new sent k m :
  represents db log → represents db' (log ++ new) →
  (∀ eid, event_replicated db' eid ↔ event_replicated db eid) →
  sent_upto db log sent k m → sent_upto db' (log ++ new) sent k m.
Proof.
  intros Hr Hr' Hrep (Hm & Hc & Hall). unfold sent_upto, stream_accepted, in_stream in *.
  rewrite filter_app, length_app, fmap_app, take_app_le by (rewrite length_fmap; lia).
  split; [lia|]. split; [done|]. intros i r Hi Hk.
  destruct (decide (i < length log)%nat) as [Hlt|Hge].
  - rewrite lookup_app_l in Hi by done. rewrite Hrep. specialize (Hall i r Hi Hk).
    unfold stream_pos in *. by rewrite take_app_le by lia.
  - split.
    + intros (row & Hrow & _)%Hrep. exfalso.
      assert (Hin : rq_event_id r ∈ event_ids log).
      { apply (elem_of_list_to_set (C := gset string)), (rep_delivery_dom _ _ Hr), elem_of_dom. eauto. }
      apply list_elem_of_fmap in Hin as (r0 & Heq & [i0 Hi0]%list_elem_of_lookup).
      assert (i = i0) as ->; [|apply lookup_lt_Some in Hi0; lia].
      apply (event_id_index (log ++ new) i i0 r r0); [apply Hr'|done|by apply lookup_app_l_Some|done].
    + intros Hlt. exfalso. unfold stream_pos in Hlt. rewrite take_app_ge in Hlt by lia.
      unfold JournalLog.stream_count, in_stream in Hlt. rewrite filter_app, length_app, Hk in Hlt. lia.
Qed.

(** The first event of a stream that is not replicated is the last one sent or
    the one after it. *)
Lemma next_to_send db log sent k m (i : nat) r :
  sent_upto db log sent k m → log !! i = Some r → scoped_stream_key r = k →
  ¬ event_replicated db (rq_event_id r) →
  (∀ (i' : nat) r', log !! i' = Some r' → scoped_stream_key r' = k →
     stream_pos log i' r' < stream_pos log i r → event_replicated db (rq_event_id r')) →
  stream_pos log i r = m ∨ stream_pos log i r = m + 1.
Proof.
  intros (Hm & _ & Hall) Hi Hk Hno Hbefore.
  destruct (Z.lt_trichotomy (stream_pos log i r) m) as [Hlt|[?|Hgt]]; [|by left|].
  { by destruct Hno; apply (Hall i r Hi Hk). }
  destruct (decide (stream_pos log i r = m + 1)) as [?|Hne]; [by right|exfalso].
  pose proof (stream_pos_bounds log i r Hi) as Hb. rewrite Hk in Hb.
  destruct (stream_pos_exists k log (m + 1) ltac:(lia)) as (i' & r' & Hi' & Hk' & Hp').
  pose proof (Hbefore i' r' Hi' Hk' ltac:(lia)) as Hrep. apply (Hall i' r' Hi' Hk') in Hrep. lia.
Qed.

Lemma stream_accepted_lookup log (i : nat) r :
  log !! i = Some r →
  stream_accepted (scoped_stream_key r) log !! Z.to_nat (stream_pos log i r - 1) = Some (accepted_event r).
Proof. intros Hi. unfold stream_accepted. by rewrite list_lookup_fmap, in_stream_lookup. Qed.

Lemma stream_accepted_nodup k log :
  NoDup (event_ids log) → NoDup (stream_accepted k log).
Proof.
  intros Hn%(in_stream_nodup k). apply (NoDup_fmap_1 fst). unfold stream_accepted.
  by rewrite <- list_fmap_compose.
Qed.

(** What the list of sent events becomes. *)
Lemma collapse_next (l sent : list (string * list byte)) (m p : nat) a :
  NoDup l → collapse sent = take m l → (m ≤ length l)%nat → l !! p = Some a →
  S p = m ∨ p = m → collapse (sent ++ [a]) = take (S p) l.
Proof.
  intros Hn Hc Hm Hp Hpm. rewrite collapse_snoc, <- last_collapse, Hc.
  assert (Hlast : last (take m l) = Some a ↔ S p = m).
  { rewrite last_lookup, length_take, Nat.min_l by done. split.
    - intros Hl. assert (pred m < m)%nat by (destruct m; [done|simpl; lia]).
      rewrite lookup_take_lt in Hl by done.
      pose proof (NoDup_lookup l _ _ _ Hn Hl Hp). lia.
    - intros <-. by rewrite lookup_take_lt by (simpl; lia). }
  case_decide as Hd; [apply Hlast in Hd as ->; done|].
  destruct Hpm as [Hpm| ->]; [by destruct Hd; apply Hlast|]. by rewrite (take_S_r l m a).
Qed.

(** An event is sent when all before it in its stream are replicated; it may be
    replicated afterwards, and nothing else. *)
Lemma sent_upto_send db db' log sent q k m (i : nat) r :
  represents db log → log !! i = Some r → request_event q = accepted_event r →
  sq_partition_key q = scoped_stream_key r → ¬ event_replicated db (rq_event_id r) →
  (∀ (i' : nat) r', log !! i' = Some r' → scoped_stream_key r' = scoped_stream_key r →
     stream_pos log i' r' < stream_pos log i r → event_replicated db (rq_event_id r')) →
  (∀ eid, event_replicated db eid → event_replicated db' eid) →
  (∀ eid, event_replicated db' eid → event_replicated db eid ∨ eid = rq_event_id r) →
  sent_upto db log sent k m → ∃ m', sent_upto db' log (sent ++ [q]) k m'.
Proof.
  intros Hr Hi Hq Hkey Hno Hbefore Hkeep Hnew Hup.
  assert (Hrep' : ∀ (i' : nat) r', log !! i' = Some r' → event_replicated db' (rq_event_id r') →
            event_replicated db (rq_event_id r') ∨ i' = i).
  { intros i' r' Hi' [?|Heq]%Hnew; [by left|right].
    by apply (event_id_index log i' i r' r); [apply Hr|..]. }
  unfold sent_upto. rewrite stream_sent_snoc. case_decide as Hk.
  - rewrite Hkey in Hk. destruct (next_to_send db log sent k m i r Hup Hi Hk Hno) as [Hs|Hs].
    { rewrite <- Hk. exact Hbefore. }
    all: destruct Hup as (Hm & Hc & Hall); pose proof (stream_pos_bounds log i r Hi) as Hb;
      pose proof (stream_accepted_lookup log i r Hi) as Hl; rewrite Hk in Hb, Hl;
      unfold JournalLog.stream_count in Hb; exists (S (Z.to_nat (stream_pos log i r - 1)));
      (split; [lia|]); rewrite Hq; (split; [apply (collapse_next _ _ m);
        [apply stream_accepted_nodup, Hr|done|by unfold stream_accepted; rewrite length_fmap|done|lia]|]);
      intros i' r' Hi' Hk'; (split; [intros [Hd| ->]%(Hrep' i' r' Hi')|intros Hlt]).
    1,4: apply (Hall i' r' Hi' Hk') in Hd; lia.
    1,3: rewrite Hi in Hi'; injection Hi' as <-; lia.
    all: apply Hkeep, (Hbefore i' r' Hi'); [congruence|lia].
  - exists m. rewrite app_nil_r. destruct Hup as (Hm & Hc & Hall). split; [done|]. split; [done|].
    intros i' r' Hi' Hk'. destruct (Hall i' r' Hi' Hk') as [H1 H2]. split; [|auto].
    intros [?| ->]%(Hrep' i' r' Hi'); [by apply H1|]. rewrite Hi in Hi'. congruence.
Qed.
End Sent.
