(* ===== verification/EndToEnd.v ===== *)
(** * From acceptance to the broker, across restarts

    The whole path of an event: a plugin's request is accepted by the journal,
    gets a delivery row, and is sent by the service, while any statement may
    fail, any send may fail or be acknowledged without the journal hearing of
    it, and the process may stop and start again at any point.  What the broker
    gets of a stream is compared with what was accepted of it. *)
From S2P Require Import Prelude Checksum JournalDb JournalCore JournalAccept SqlLogic JournalOpen.
From S2P Require Import JournalLog JournalReads JournalDelivery JournalTransitions.
From S2P Require Import JournalSafety DeliverySafety JournalScan Retry Gate Profiles Routing.
From S2P Require Import Integrity Service ServiceSafety Recovery Broker.
Open Scope Z_scope.
#[local] Coercion Z.of_nat : nat >-> Z.

(** ** Which deliveries an attempt completes *)
Definition confirms (op : DeliveryOp) : option string :=
  match op with OpConfirm eid _ _ => Some eid | _ => None end.

Section Completed.
Context `{Sha256}.

Lemma op_replicated `{E : Engine} op now db eid :
  event_replicated (run_op op now db).2 eid → event_replicated db eid ∨ confirms op = Some eid.
Proof.
  intros (row' & Hrow & Hst).
  destruct (run_op_cases op now db) as [[_ Heff]|[_ Heq]]; [|left; rewrite Heq in Hrow; by exists row'].
  revert Hrow. generalize dependent (run_op op now db).2. intros db' Heff Hrow.
  destruct Heff as
    [eid' rev nd nr e l _ _|eid' fp pid pv topic e He Hno|a e row He [Hrow' _] checksum
    |eid' rev c e l row _ _ _|eid' rev reason e l row _ _|eid' rev t row _]; simpl in *;
    [left; by exists row'|..]; rewrite lookup_insert in Hrow; case_decide as Heq;
    try (left; by exists row'); subst; injection Hrow as <-; try done.
  - left. by exists row.
  - by right.
Qed.

Lemma op_quiet `{E : Engine} op now db eid :
  confirms op = None → event_replicated (run_op op now db).2 eid → event_replicated db eid.
Proof. intros Hc [?|Hs]%op_replicated; [done|congruence]. Qed.

Context {P : Type} `{KP : KafkaProducer P}.
Implicit Types svc : DeliveryService P.

Lemma block_quiet (E : Engine) eid rev reason now db eid' :
  event_replicated (block_delivery eid rev reason now db).2 eid' → event_replicated db eid'.
Proof. by apply (op_quiet (OpBlock eid rev reason)). Qed.

Lemma on_failure_quiet env svc eid c routing err eid' :
  event_replicated (service_db (on_failure env svc eid c routing err).2) eid' →
  event_replicated (service_db svc) eid'.
Proof.
  unfold on_failure, block_after_send. set (a := failed_attempt _ _ _ _ _ _).
  pose proof (op_quiet (E := env_attempt env) (OpAttempt a) (env_attempt_now env) (service_db svc) eid'
    eq_refl) as Ha. simpl in Ha.
  destruct (record_delivery_attempt a _ _) as [r db]. simpl in Ha. set (svc1 := set_journal svc db).
  assert (Hb : ∀ reason, event_replicated (service_db (block_after_send env svc1 eid c reason).2) eid' →
            event_replicated (service_db svc) eid').
  { intros reason Hr. apply Ha. revert Hr. unfold block_after_send.
    pose proof (block_quiet (env_block env) eid (d_delivery_revision (dc_delivery_state c)) reason
      (env_block_now env) db eid') as Hq.
    change (service_db svc1) with db. destruct (block_delivery _ _ _ _ _) as [r2 db2]. by destruct r2. }
  unfold block_after_send in Hb. destruct r; try exact Ha.
  destruct (should_retry _ _); [|apply Hb]. destruct (compute_next_retry _ _) as [t|]; [|apply Hb].
  pose proof (op_quiet (E := env_retry env) (OpRetry eid (d_delivery_revision (dc_delivery_state c)) t)
    (env_retry_now env) db eid' eq_refl) as Hq. simpl in Hq.
  change (service_db svc1) with db. destruct (update_delivery_retry _ _ _ _ _) as [r2 db2].
  destruct r2; intros Hr; by apply Ha, Hq.
Qed.

Lemma on_success_completes env svc eid c routing s eid' :
  event_replicated (service_db (on_success env svc eid c routing s).2) eid' →
  event_replicated (service_db svc) eid' ∨ eid' = eid.
Proof.
  unfold on_success. set (cf := mkConfirmation _ _ _ _ _ _). set (rev := d_delivery_revision _).
  pose proof (op_replicated (E := env_confirm env) (OpConfirm eid rev cf) (env_confirm_now env)
    (service_db svc) eid') as Hop. simpl in Hop.
  destruct (confirm_replicated_delivery _ _ _ _ _) as [r db]. simpl in Hop.
  destruct r; intros Hr; destruct (Hop Hr) as [?|[= <-]]; auto.
Qed.

(** A delivery completed by an attempt is the attempted one, after a send. *)
Lemma attempt_replicates env svc eid eid' :
  event_replicated (service_db (attempt_delivery env svc eid).2) eid' →
  event_replicated (service_db svc) eid' ∨
  eid' = eid ∧ ∃ req, ds_producer (attempt_delivery env svc eid).2 = (send req (ds_producer svc)).2.
Proof.
  unfold attempt_delivery. destruct (ds_shutdown svc); [by left|].
  destruct (get_delivery_candidate eid (service_db svc)) as [c| | |]; try by left.
  destruct (check _ _ _); [|by left]. unfold deliver_candidate.
  case_bool_decide; [left; by repeat case_match|]. case_bool_decide; [by left|].
  destruct (check_binding _ _) as [routing|reason].
  - destruct (read_verified_payload _ _) as [payload| | |]; try by left.
    unfold send_payload. set (req := send_request _ _ _ _). set (svc1 := set_gate _ _).
    change (ds_producer svc1) with (ds_producer svc).
    destruct (send req (ds_producer svc)) as [[s|err] p] eqn:Hsend; intros Hr.
    + apply on_success_completes in Hr as [?| ->]; [by left|right]. split; [done|].
      exists req. rewrite Hsend. apply on_success_producer.
    + left. by apply on_failure_quiet in Hr.
  - unfold persist_block_before_send. left.
    pose proof (block_quiet (env_block env) eid (d_delivery_revision (dc_delivery_state c)) reason
      (env_block_now env) (service_db svc) eid') as Hq.
    destruct (block_delivery _ _ _ _ _) as [r db]. destruct r; auto.
Qed.
End Completed.

(** ** The system *)

(** The service with its journal and the wire to the broker, and the requests
    that [accept] answered with [Accepted]. *)
Record System (P : Type) : Type := mkSystem {
  sys_service : DeliveryService (Wire P);
  sys_accepted : list AcceptRequest
}.
Arguments mkSystem {P}.
Arguments sys_service {P}.
Arguments sys_accepted {P}.

Section System.
Context `{Sha256} {P : Type} `{KP : KafkaProducer P}.
Implicit Types sys : System P.

Definition with_journal (svc : DeliveryService (Wire P)) (j : LocalJournal) : DeliveryService (Wire P) :=
  mkService j (ds_producer svc) (ds_gate svc) (ds_profile svc) (ds_shutdown svc).

Definition sys_db sys : Db := service_db (sys_service sys).
Definition sys_sent sys : list SendRequest := wire_sent (ds_producer (sys_service sys)).

Definition record_accepted (r : option AcceptResult) (req : AcceptRequest) (log : list AcceptRequest)
  : list AcceptRequest :=
  match r with Some (Accepted _) => log ++ [req] | _ => log end.

(** One step: a request to accept, another call of a client on the journal that
    is not the confirmation of a send, an attempt to deliver, a shutdown, or a
    restart, which opens the file again, starts a service with a new producer
    and recovers. *)
Inductive Action : Type := Accepts | Calls | Attempts | Stops | Restarts.

Inductive system_step : Action → System P → System P → Prop :=
| sys_accept (E : Engine) disk_safe now req sys :
    req_typed req →
    let r := accept (ds_journal (sys_service sys)) disk_safe now req in
    system_step Accepts sys (mkSystem (with_journal (sys_service sys) r.2)
                       (record_accepted r.1 req (sys_accepted sys)))
| sys_client (E : Engine) op now sys :
    confirms op = None →
    system_step Calls sys (mkSystem (set_journal (sys_service sys) (run_op op now (sys_db sys)).2)
                       (sys_accepted sys))
| sys_attempt env eid sys :
    system_step Attempts sys (mkSystem (attempt_delivery env (sys_service sys) eid).2 (sys_accepted sys))
| sys_stop sys :
    system_step Stops sys (mkSystem (service_shutdown (sys_service sys)) (sys_accepted sys))
| sys_restart (E E' : Engine) (RO : RowOrder) config file j file' p profile svc sys :
    RowOrderOk → jf_db file = sys_db sys →
    @open_journal E config (Ok file) = (Some (Ok j), Some file') →
    @recover _ _ E' RO (service_new j (mkWire p (sys_sent sys)) profile) = (Ok tt, svc) →
    system_step Restarts sys (mkSystem svc (sys_accepted sys)).

(** A step of a run in which the deliveries of a stream are scheduled in its
    order by the time the process restarts. *)
Definition orderly_step sys sys' : Prop :=
  ∃ a, system_step a sys sys' ∧ (a = Restarts → scheduled_in_order (sys_db sys)).

Lemma orderly a sys sys' : a ≠ Restarts → system_step a sys sys' → orderly_step sys sys'.
Proof. intros Ha Hs. by exists a. Qed.

(** A new journal, a new producer, nothing sent. *)
Definition system_new (config : JournalConfig) (p : P) (profile : KafkaProductionProfile) : System P :=
  mkSystem (service_new (mkJournal empty_db config false false) (mkWire p []) profile) [].

Lemma step_accepted sys sys' : orderly_step sys sys' → sys_accepted sys `prefix_of` sys_accepted sys'.
Proof.
  intros (a & [] & _); simpl; try done. unfold record_accepted. repeat case_match; done || by eexists.
Qed.

Lemma opened_same `{E : Engine} config file j file' :
  open_journal config (Ok file) = (Some (Ok j), Some file') → j = mkJournal (jf_db file) config false false.
Proof.
  unfold open_journal. pose proof (init_schema_opened file O) as [[Hd _] _ _ _ _].
  destruct (init_schema (file, O)) as [[[[]|e]|] [f pc]]; simpl in *; [|done..].
  intros [= <- _]. by rewrite Hd.
Qed.
End System.

(** ** The invariant *)
Section Front.
Context `{Sha256} `{!Sha256Ok} {P : Type} `{KP : KafkaProducer P}.
Implicit Types svc : DeliveryService P.

(** Since its last start the gate went by the run [tr] from [g0], and everything
    it let pass is replicated. *)
Definition gate_front (n : nat) svc : Prop :=
  ∃ g0 tr, settled g0 ∧ (length tr ≤ 2 * n)%nat ∧ (∀ k, 1 ≤ awaited g0 k ≤ n + 1) ∧
    gate_run_from g0 tr (ds_gate svc) ∧
    (∀ k s, Completed k s ∈ tr → replicated_at (service_db svc) k s) ∧
    (∀ k s, 1 ≤ s < awaited g0 k → replicated_at (service_db svc) k s).

Lemma front_step n log svc svc' :
  service_step svc svc' → represents (service_db svc) log → length log + 2 ≤ i64_max →
  gate_front n svc → gate_front (S n) svc'.
Proof.
  intros Hstep Hr Hl (g0 & tr & Hset & Htr & Haw & Hrun & Hdone & Hbefore).
  destruct (service_step_ok (g0 := g0) tr log svc svc' Hstep) as (new & newlog & Hnew & _ & [Hrun' _ Hdone']);
    [by constructor|lia|].
  destruct (service_journal_steps 1 svc svc') as (m & Hm & Hsteps); [by apply nsteps_once|].
  exists g0, (new ++ tr). split; [done|]. split; [rewrite length_app; lia|].
  split; [intros k; specialize (Haw k); lia|]. split; [done|]. split; [done|]. intros k s Hs.
  apply (replicated_persists m (ds_journal svc) (ds_journal svc') log); [done..|lia|by apply Hbefore].
Qed.

(** What the gate lets through comes after replicated events only. *)
Lemma front_allowed n svc k s s' :
  gate_front n svc → 3 * n + 1 ≤ i64_max → check (ds_gate svc) k s = Allowed → 1 ≤ s' < s →
  replicated_at (service_db svc) k s'.
Proof.
  intros (g0 & tr & Hset & Htr & Haw & Hrun & Hdone & Hbefore) Hn Hc Hs.
  assert (Hok : gate_ok g0 tr (ds_gate svc)).
  { apply gate_run_from_ok; [done..|]. intros k'. specialize (Haw k'). split; rlia. }
  pose proof (gate_ok_next _ _ _ _ _ Hok (or_introl Hc)) as ->. destruct (Hok k) as [_ Hseq].
  destruct (decide (s' < awaited g0 k)) as [Hlt|Hge]; [apply Hbefore; lia|].
  apply Hdone, completed_in. rewrite Hseq. apply elem_of_seqZ. lia.
Qed.

Lemma replicated_events_persist n j j' log eid :
  nsteps journal_step n j j' → represents (j_conn j) log → length log + n ≤ i64_max →
  event_replicated (j_conn j) eid → event_replicated (j_conn j') eid.
Proof.
  intros Hn Hr Hl (row & Hrow & Hst).
  destruct (steps_keep_replicated _ _ _ _ _ _ Hn Hr Hl Hrow Hst) as (row' & Hrow' & Hp).
  exists row'. split; [done|]. unfold position in Hp. congruence.
Qed.

(** A stream key and a sequence name one event. *)
Lemma replicated_at_event db log (i : nat) r :
  represents db log → one_scope log → log !! i = Some r →
  replicated_at db (rq_stream_key r) (stream_pos log i r) → event_replicated db (rq_event_id r).
Proof.
  intros Hr Hone Hi (eid & e & row & He & Hk & Hs & Hrow & Hst).
  destruct (rep_env_inv _ _ _ _ Hr He) as (i' & r' & now & Hi' & <- & ->). simpl in Hk, Hs.
  assert (i' = i) as ->.
  { eapply stream_pos_unique; [done..| |done]. by eapply (one_scope_at log i' i). }
  rewrite Hi in Hi'. injection Hi' as <-. by exists row.
Qed.

(** A recovered service starts in front of the replicated events. *)
Lemma recovered_gate_front `{E : Engine} `{RO : RowOrder} `{!RowOrderOk} (n : nat) log svc svc' :
  recover svc = (Ok tt, svc') → represents (service_db svc) log → Forall stream_texts_ok log →
  scheduled_in_order (service_db svc) → length log ≤ n → length log < i64_max →
  service_db svc' = service_db svc ∧ ds_producer svc' = ds_producer svc ∧ gate_front n svc'.
Proof.
  intros Hrec Hr Htexts Hord Hn Hl. unfold recover in Hrec.
  destruct (scan_delivery_gate_states 10000 (service_db svc)) as [l| |] eqn:Hscan; [|done..].
  apply (gate_scan_answer _ log) in Hscan; [|done]. injection Hrec as <-. split; [done|]. split; [done|].
  pose proof (λ k, recovered_front _ log l 10000 Hr Hord Htexts Hscan (ds_gate svc) k Hl) as Hfront.
  cbv zeta in Hfront.
  exists (recover_from_scan (ds_gate svc) (recovered_of <$> l)), []. split; [apply recovered_settled|]. split; [simpl; lia|].
  split; [intros k; destruct (Hfront k); lia|]. split; [constructor|].
  split; [by intros ?? ?%not_elem_of_nil|]. intros k s Hs. by apply (Hfront k).
Qed.
End Front.

Section Invariant.
Context `{Sha256} `{!Sha256Ok} {P : Type} `{KP : KafkaProducer P}.
Implicit Types sys : System P.

(** The streams of the accepted requests can be told apart. *)
Definition streams_ok (log : list AcceptRequest) : Prop := Forall stream_texts_ok log ∧ one_scope log.

Lemma streams_ok_prefix log log' : log `prefix_of` log' → streams_ok log' → streams_ok log.
Proof.
  intros [new ->] [[Ht _]%Forall_app [Ho _]%Forall_app]. split; [done|]. unfold one_scope.
  eapply Forall_impl; [exact Ho|]. simpl. by intros r [? _]%Forall_app.
Qed.

Record system_ok (n : nat) sys : Prop := {
  sk_length : (length (sys_accepted sys) ≤ n)%nat;
  sk_journal : represents (sys_db sys) (sys_accepted sys);
  sk_gate : gate_front n (sys_service sys);
  sk_sent : ∀ k, ∃ m, sent_upto (sys_db sys) (sys_accepted sys) (sys_sent sys) k m
}.

Lemma system_new_ok config (p : P) profile : system_ok 0 (system_new config p profile).
Proof.
  constructor; [done|apply represents_empty| |].
  - exists gate_new, []. split; [done|]. split; [simpl; lia|]. split; [intros k; rewrite awaited_new; lia|].
    split; [constructor|]. split; [by intros ?? ?%not_elem_of_nil|]. intros k s. rewrite awaited_new. lia.
  - intros k. exists O. split; [simpl; lia|]. split; [done|]. by intros.
Qed.

(** A journal call that completes no delivery. *)
Lemma journal_call_ok n sys svc log' new :
  system_ok n sys → service_step (sys_service sys) svc → n + 2 ≤ i64_max →
  log' = sys_accepted sys ++ new → (length new ≤ 1)%nat → represents (service_db svc) log' →
  wire_sent (ds_producer svc) = sys_sent sys →
  (∀ eid, event_replicated (service_db svc) eid → event_replicated (sys_db sys) eid) →
  system_ok (S n) (mkSystem svc log').
Proof.
  intros [Hlen Hr Hg Hs] Hstep Hn -> Hnew Hr' Hsent Hquiet.
  constructor; simpl; [rewrite length_app; lia|done| |].
  - apply (front_step n (sys_accepted sys) _ _ Hstep); [done|lia|done].
  - intros k. destruct (Hs k) as [m Hm]. exists m. unfold sys_sent, sys_db. simpl. rewrite Hsent.
    apply (sent_upto_journal (sys_db sys)); [done..| |done]. intros eid. split; [apply Hquiet|].
    destruct (service_journal_steps 1 _ _ (nsteps_once _ _ Hstep)) as (c & Hc & Hsteps).
    apply (replicated_events_persist c _ _ (sys_accepted sys) _ Hsteps Hr). lia.
Qed.

Lemma accept_ok (E : Engine) n disk_safe now req sys :
  req_typed req → system_ok n sys → n + 2 ≤ i64_max →
  let r := accept (ds_journal (sys_service sys)) disk_safe now req in
  system_ok (S n) (mkSystem (with_journal (sys_service sys) r.2)
                     (record_accepted r.1 req (sys_accepted sys))).
Proof.
  intros Ht Hok Hn r. pose proof Hok as [Hlen Hr Hg Hs].
  pose proof (accept_keeps_deliveries (E := E) (ds_journal (sys_service sys)) disk_safe now req _ Hr Ht
    ltac:(lia)) as Hd.
  assert (Hquiet : ∀ eid, event_replicated (j_conn r.2) eid → event_replicated (sys_db sys) eid).
  { intros eid (row & Hrow & Hst). exists row. split; [|done]. unfold r in Hrow. by rewrite Hd in Hrow. }
  assert (Hstep : service_step (sys_service sys) (with_journal (sys_service sys) r.2)).
  { by apply service_journal, step_accept. }
  destruct (accept_outcome _ E (ds_journal (sys_service sys)) disk_safe now req _ _ Hr Ht ltac:(lia))
    as [([ev Hev] & _ & Hr')|(Hno & Hr')].
  - apply (journal_call_ok n sys _ _ [req] Hok Hstep Hn); [|done|..|done|].
    + unfold r, record_accepted. by rewrite Hev.
    + unfold r, record_accepted. by rewrite Hev.
    + exact Hquiet.
  - assert (Hsame : record_accepted r.1 req (sys_accepted sys) = sys_accepted sys).
    { unfold record_accepted. repeat case_match; try done. by destruct (Hno ev). }
    apply (journal_call_ok n sys _ _ [] Hok Hstep Hn); [|simpl; lia|..|done|].
    + by rewrite Hsame, app_nil_r.
    + by rewrite Hsame.
    + exact Hquiet.
Qed.

(** The request an attempt sends is the next of its stream. *)
Lemma guarded_next (n : nat) sys eid req :
  system_ok n sys → streams_ok (sys_accepted sys) → 3 * n + 1 ≤ i64_max →
  guarded_send (sys_service sys) eid req →
  ∃ (i : nat) r, sys_accepted sys !! i = Some r ∧ rq_event_id r = eid ∧
    request_event req = accepted_event r ∧ sq_partition_key req = scoped_stream_key r ∧
    ¬ event_replicated (sys_db sys) eid ∧
    ∀ (i' : nat) r', sys_accepted sys !! i' = Some r' → scoped_stream_key r' = scoped_stream_key r →
      stream_pos (sys_accepted sys) i' r' < stream_pos (sys_accepted sys) i r →
      event_replicated (sys_db sys) (rq_event_id r').
Proof.
  intros [Hlen Hr Hg _] [Htexts Hone] Hn [_ (e & row & He & _ & [Hrow _] & Hc & Hst & _ & _ & _ & _ & Hpk & _ & Hpay) _ Heid].
  change (service_db (sys_service sys)) with (sys_db sys) in *.
  destruct (rep_env_inv _ _ _ _ Hr He) as (i & r & now & Hi & <- & ->). simpl in Hc, Hpk.
  exists i, r. split; [done|]. split; [done|]. split; [|split; [done|split]].
  - unfold request_event, accepted_event. rewrite Heid. f_equal.
    rewrite (rep_payload _ _ Hr r) in Hpay by by eapply list_elem_of_lookup_2. simpl in Hpay. congruence.
  - intros (row' & Hrow' & Hrep). rewrite Hrow in Hrow'. injection Hrow' as <-.
    destruct Hst; congruence.
  - intros i' r' Hi' Hsc Hlt. apply (replicated_at_event _ (sys_accepted sys) i' r' Hr Hone Hi').
    assert (Hkey : rq_stream_key r' = rq_stream_key r).
    { apply scoped_key_stream; [..|done]; eapply Forall_lookup_1; done. }
    rewrite Hkey. eapply (front_allowed n); [done|done|exact Hc|].
    pose proof (stream_pos_bounds _ _ _ Hi'). lia.
Qed.

Lemma attempt_ok (n : nat) env eid sys :
  system_ok n sys → streams_ok (sys_accepted sys) → 3 * n + 2 ≤ i64_max →
  system_ok (S n) (mkSystem (attempt_delivery env (sys_service sys) eid).2 (sys_accepted sys)).
Proof.
  intros Hok Hin Hn. pose proof Hok as [Hlen Hr Hg Hs].
  pose proof (attempt_represents env (sys_service sys) eid _ Hr) as Hr'.
  pose proof (attempt_replicates env (sys_service sys) eid) as Hnew.
  pose proof (service_attempt env eid (sys_service sys)) as Hstep.
  destruct (attempt_sends env (sys_service sys) eid) as [Hsame|(req & Hsent & Hgs)].
  - apply (journal_call_ok n sys _ _ [] Hok Hstep); [lia|by rewrite app_nil_r|simpl; lia|done| |].
    + by rewrite Hsame.
    + intros eid' [?|[-> [req Hreq]]]%Hnew; [done|]. rewrite Hsame in Hreq.
      apply (f_equal (length ∘ wire_sent)) in Hreq. revert Hreq. simpl.
      rewrite wire_sent_send, length_app. simpl. lia.
  - destruct (guarded_next n sys eid req Hok Hin ltac:(lia) Hgs) as (i & r & Hi & <- & Hev & Hpk & Hno & Hbefore).
    constructor; simpl; [lia|done| |].
    { apply (front_step n (sys_accepted sys) _ _ Hstep); [done|lia|done]. }
    intros k. destruct (Hs k) as [m Hm]. unfold sys_sent at 1, sys_db at 1. simpl. rewrite Hsent, wire_sent_send.
    apply (sent_upto_send (sys_db sys) _ _ _ _ _ m i r); try done.
    + destruct (service_journal_steps 1 _ _ (nsteps_once _ _ Hstep)) as (c & Hc & Hsteps).
      intros eid'. apply (replicated_events_persist c _ _ (sys_accepted sys) _ Hsteps Hr). lia.
    + intros eid' [?|[-> _]]%Hnew; auto.
Qed.

Lemma system_step_ok (n : nat) sys sys' :
  orderly_step sys sys' → streams_ok (sys_accepted sys') → 3 * n + 2 ≤ i64_max → system_ok n sys →
  system_ok (S n) sys'.
Proof.
  intros (a & Hstep & Hord) Hin Hn Hok. pose proof Hok as [Hlen Hr Hg Hs].
  destruct Hstep as [E disk_safe now req sys Ht r|E op now sys Hop|env eid sys|sys|
                     E E' RO config file j file' p profile svc sys HR Hf Hopen Hrec].
  - by apply accept_ok; [..|lia].
  - apply (journal_call_ok n sys _ _ [] Hok); [|lia|by rewrite app_nil_r|simpl; lia| |done|].
    + apply (service_journal (sys_service sys)), step_op.
    + by apply run_op_represents.
    + intros eid. by apply op_quiet.
  - by apply attempt_ok.
  - apply (journal_call_ok n sys _ _ [] Hok); [constructor|lia|by rewrite app_nil_r|simpl; lia|done..].
  - specialize (Hord eq_refl). apply opened_same in Hopen as ->. simpl in Hin. destruct Hin as [Htexts _].
    apply (recovered_gate_front (S n) (sys_accepted sys)) in Hrec as (Hdb & Hp & Hfront);
      [|by rewrite <- Hf in Hr|done|by rewrite <- Hf in Hord|lia|lia].
    constructor; unfold sys_db, sys_sent; simpl; [lia|by rewrite Hdb, <- Hf in *|done|].
    rewrite Hdb, Hp. unfold service_db. simpl. by rewrite Hf.
Qed.

Lemma system_steps_ok (n m : nat) sys sys' :
  nsteps orderly_step n sys sys' → streams_ok (sys_accepted sys') → 3 * (n + m) ≤ i64_max →
  system_ok m sys → system_ok (n + m) sys'.
Proof.
  intros Hn. revert m. induction Hn as [sys|n sys sys1 sys2 Hs Hrest IH]; intros m Hin Hl Hok; [done|].
  replace (S n + m)%nat with (n + S m)%nat by lia. apply IH; [done|lia|].
  apply (system_step_ok m sys sys1 Hs); [|lia|done]. revert Hin. apply streams_ok_prefix.
  clear -Hrest. induction Hrest as [|n s1 s2 s3 Hs _ IH]; [done|]. etrans; [by eapply step_accepted|done].
Qed.
End Invariant.

(** C1. End to end, the broker sees every stream as it was accepted.  Start from
    an empty journal and let clients accept and schedule events, the service
    attempt deliveries, the process stop and restart, in any order, with any
    statement and any send failing; only the service confirms deliveries.  Three
    conditions: at a restart no event has
    a delivery row while an earlier event of its stream has none; the texts that
    name the streams hold no NUL, and every stream key is used in one scope of
    installation, namespace and stream type; and the run has at most a third of
    [i64::MAX] steps.  Then of every stream the broker got a prefix of
    the accepted events, with their payloads, in order and without a gap, each
    one or more times in a row; every event the journal holds as [REPLICATED] is
    in this prefix, and all of the prefix but its last event are [REPLICATED]. *)
Theorem broker_stream_order (S : Sha256) (P : Type) (KP : KafkaProducer P) (n : nat)
    (config : JournalConfig) (p : P) (profile : KafkaProductionProfile) (sys : System P) (k : string) :
  @Sha256Ok S → nsteps orderly_step n (system_new config p profile) sys →
  streams_ok (sys_accepted sys) → 3 * n ≤ i64_max →
  let accepted := stream_accepted k (sys_accepted sys) in
  ∃ m : nat, collapse (stream_sent k (sys_sent sys)) = take m accepted ∧
    ∀ r, r ∈ sys_accepted sys → scoped_stream_key r = k →
      (event_replicated (sys_db sys) (rq_event_id r) → accepted_event r ∈ take m accepted) ∧
      (accepted_event r ∈ take (pred m) accepted → event_replicated (sys_db sys) (rq_event_id r)).
Proof.
  intros HS Hn Hin Hl accepted. unfold accepted.
  pose proof (system_steps_ok n 0 _ _ Hn Hin ltac:(lia) (system_new_ok _ _ _)) as [_ Hr _ Hs].
  destruct (Hs k) as (m & Hm & Hc & Hall). exists m. split; [done|]. intros r [i Hi]%list_elem_of_lookup Hk.
  destruct (Hall i r Hi Hk) as [H1 H2]. pose proof (stream_pos_bounds _ _ _ Hi) as Hb.
  pose proof (stream_accepted_lookup _ i r Hi) as Hlk. rewrite Hk in Hlk. split.
  - intros Hrep%H1. eapply list_elem_of_lookup_2. rewrite lookup_take_lt; [exact Hlk|lia].
  - intros [q Hq]%list_elem_of_lookup. apply lookup_take_Some in Hq as [Hq Hlt]. apply H2.
    pose proof (NoDup_lookup _ _ _ _ (stream_accepted_nodup k _ (rep_nodup _ _ Hr)) Hq Hlk). lia.
Qed.

(** ** Example: an acknowledgement is lost, then the process restarts *)

(** The confirmation of the acknowledged send is not persisted. *)
Definition lost_ack_env : Env :=
  mkEnv sample_engine sample_engine (failing_engine 0) sample_engine sample_engine sample_engine
    100 101 102 103 104.

Definition run_start : System FakeProducer := system_new default_config sample_producer sample_profile.
Definition run_accepted : System FakeProducer :=
  let r := @accept sample_sha256 sample_engine (ds_journal (sys_service run_start)) true 7
             (sample_request "e1" 1) in
  mkSystem (with_journal (sys_service run_start) r.2)
    (record_accepted r.1 (sample_request "e1" 1) (sys_accepted run_start)).
Definition run_scheduled : System FakeProducer :=
  mkSystem (set_journal (sys_service run_accepted)
              (@run_op sample_sha256 sample_engine sample_create 8 (sys_db run_accepted)).2)
    (sys_accepted run_accepted).
Definition run_unconfirmed : System FakeProducer :=
  mkSystem (@attempt_delivery sample_sha256 _ _ lost_ack_env (sys_service run_scheduled) "e1").2
    (sys_accepted run_scheduled).
Definition run_restarted : System FakeProducer :=
  mkSystem (@recover sample_sha256 _ sample_engine sample_row_order
              (service_new (mkJournal (sys_db run_unconfirmed) default_config false false)
                 (mkWire sample_producer (sys_sent run_unconfirmed)) sample_profile)).2
    (sys_accepted run_unconfirmed).
Definition run_end : System FakeProducer :=
  mkSystem (@attempt_delivery sample_sha256 _ _ good_env (sys_service run_restarted) "e1").2
    (sys_accepted run_restarted).

Definition sample_stream : string := scoped_stream_key (sample_request "e1" 1).

(** The event is sent twice and counts once. *)
Lemma broker_stream_order_witness :
  length (stream_sent sample_stream (sys_sent run_end)) = 2%nat ∧
  ∃ m : nat, collapse (stream_sent sample_stream (sys_sent run_end)) =
             take m (stream_accepted sample_stream (sys_accepted run_end)).
Proof.
  split; [vm_compute; reflexivity|].
  destruct (broker_stream_order sample_sha256 FakeProducer _ 5 default_config sample_producer
    sample_profile run_end sample_stream) as (m & Hc & _).
  - exact sample_sha256_ok.
  - apply nsteps_l with run_accepted; [apply (orderly Accepts); [discriminate|exact (sys_accept sample_engine true 7 (sample_request "e1" 1) run_start eq_refl)]|].
    apply nsteps_l with run_scheduled;
      [apply (orderly Calls); [discriminate|exact (sys_client sample_engine sample_create 8 run_accepted eq_refl)]|].
    apply nsteps_l with run_unconfirmed;
      [apply (orderly Attempts); [discriminate|exact (sys_attempt lost_ack_env "e1" run_scheduled)]|].
    apply nsteps_l with run_restarted.
    { exists Restarts. split; [|intros _; compute_done].
      eapply (sys_restart sample_engine sample_engine sample_row_order default_config
        (mkFile None ∅ (sys_db run_unconfirmed)) (mkJournal (sys_db run_unconfirmed) default_config false false) _
        sample_producer sample_profile).
      - intros t. reflexivity.
      - reflexivity.
      - reflexivity.
      - vm_compute. reflexivity. }
    apply nsteps_once.
    apply (orderly Attempts); [discriminate|exact (sys_attempt good_env "e1" run_restarted)].
  - split; compute_done.
  - vm_compute. discriminate.
  - exists m. exact Hc.
Defined.
