(* ===== verification/EventualDelivery.v ===== *)
(** * Every accepted event reaches the broker

    The journal and the service promise more than order: whatever happened
    before, once the engines work and the broker answers, a restart and enough
    attempts deliver the rest of a stream.  This composes the safety of the
    whole system with the progress of a single service. *)
From S2P Require Import Prelude Checksum JournalDb JournalCore JournalAccept SqlLogic JournalOpen.
From S2P Require Import JournalLog JournalReads JournalDelivery JournalTransitions.
From S2P Require Import JournalSafety DeliverySafety JournalScan Retry Gate Profiles Routing.
From S2P Require Import Integrity Service ServiceSafety Recovery DeliveryLiveness Broker EndToEnd.
Open Scope Z_scope.
#[local] Coercion Z.of_nat : nat >-> Z.

(** ** What is left to deliver *)
#[export] Instance event_replicated_dec db eid : Decision (event_replicated db eid).
Proof.
  refine (match delivery_state db !! eid as o return delivery_state db !! eid = o → _ with
          | Some row => λ Hrow, cast_if (decide (d_delivery_status row = "REPLICATED"))
          | None => λ Hrow, right _
          end eq_refl).
  - by exists row.
  - intros (row' & Hrow' & Hst). rewrite Hrow in Hrow'. injection Hrow' as <-. done.
  - intros (row' & Hrow' & _). congruence.
Defined.

(** The accepted events of a stream that are not replicated. *)
Definition undelivered (db : Db) (k : string) (log : list AcceptRequest) : list AcceptRequest :=
  filter (λ r, ¬ event_replicated db (rq_event_id r)) (in_stream k log).

(** The delivery of an event is open, bound to the routing and the profile of the
    service, and can fail [f] more times. *)
Definition deliverable `{Sha256} (profile : KafkaProductionProfile) (db : Db) (r : AcceptRequest)
    (f : nat) : Prop :=
  ∃ e row routing, stored_envelope db !! rq_event_id r = Some e ∧
    delivery_state db !! rq_event_id r = Some row ∧
    (d_delivery_status row = "DELIVERY_PENDING" ∨ d_delivery_status row = "DELIVERY_RETRYING") ∧
    check_binding profile (candidate_of (rq_event_id r) e row) = Ok routing ∧
    0 ≤ d_attempt_count row ∧ d_attempt_count row + f < MAX_RETRY_ATTEMPTS.

Lemma filter_drop {A} (P : A → Prop) `{∀ x, Decision (P x)} (l : list A) (c : nat) :
  (∀ (i : nat) x, l !! i = Some x → P x ↔ (c ≤ i)%nat) → filter P l = drop c l.
Proof.
  revert c. induction l as [|x l IH]; intros c Hc; [by rewrite drop_nil|].
  rewrite filter_cons. pose proof (Hc 0%nat x eq_refl) as H0. destruct c as [|c].
  - rewrite decide_True by (apply H0; lia). simpl. f_equal. rewrite (IH 0%nat); [done|].
    intros i y Hi. rewrite (Hc (S i) y Hi). lia.
  - rewrite decide_False by (rewrite H0; lia). simpl. apply IH.
    intros i y Hi. rewrite (Hc (S i) y Hi). lia.
Qed.

Lemma in_stream_index k log (j : nat) r :
  in_stream k log !! j = Some r →
  ∃ i : nat, log !! i = Some r ∧ scoped_stream_key r = k ∧ stream_pos log i r = j + 1.
Proof.
  intros Hj. pose proof (lookup_lt_Some _ _ _ Hj) as Hlt.
  destruct (stream_pos_exists k log (j + 1)) as (i & r' & Hi & Hk & Hp).
  { unfold JournalLog.stream_count. lia. }
  pose proof (in_stream_lookup log i r' Hi) as Hj'. rewrite Hk, Hp in Hj'.
  replace (Z.to_nat (j + 1 - 1)) with j in Hj' by lia. rewrite Hj in Hj'. injection Hj' as <-. eauto.
Qed.

(** ** The recovered gate waits for the first undelivered event *)
Section Front.
Context `{Sha256} (db : Db) (log : list AcceptRequest) (l : list PendingDelivery).
Context (Hrep : represents db log) (Hord : scheduled_in_order db) (Htexts : Forall stream_texts_ok log).
Context (Hone : one_scope log) (Hlen : length log < i64_max).
Context (Hscan : first_of (selected db (λ _, True)) pd_journal_sequence 10000 l).
Context (Hsize : size (delivery_state db) < 10000).

(** The scan returns the delivery of every replicated event. *)
Lemma scanned_event (i : nat) r :
  log !! i = Some r → event_replicated db (rq_event_id r) →
  ∃ p, p ∈ l ∧ pd_event_id p = rq_event_id r ∧
    pd_stream_key p = rq_stream_key r ∧ pd_stream_sequence p = stream_pos log i r ∧
    pd_delivery_status p = "REPLICATED".
Proof.
  intros Hi (row & Hrow & Hst). destruct (rep_env _ _ Hrep i r Hi) as [now He].
  exists (pending_of (rq_event_id r) row (new_envelope r (i + 1) (stream_pos log i r) now)).
  split; [apply (scan_below_limit db 10000); [done..|by eexists _, _]|]. repeat (split; [done|]).
  done.
Qed.

(** What is scanned as blocking is an accepted event that is not replicated. *)
Lemma blocking_event p :
  p ∈ l → rs_blocking (recovered_of p) = true →
  ∃ (i : nat) r, log !! i = Some r ∧ rq_stream_key r = pd_stream_key p ∧
    stream_pos log i r = pd_stream_sequence p ∧ ¬ event_replicated db (rq_event_id r).
Proof.
  intros Hp Hb. destruct (fo_sound _ _ _ _ Hscan p Hp) as (row & e & Hrow & He & Heq & _).
  destruct (rep_env_inv _ _ _ _ Hrep He) as (i & r & now & Hi & Hid & ->).
  exists i, r. rewrite Heq. split; [done|]. split; [done|]. split; [done|].
  intros (row' & Hrow' & Hst). rewrite Heq in Hb. simpl in Hb. rewrite Hid in Hrow'.
  rewrite Hrow in Hrow'. injection Hrow' as <-. by rewrite bool_decide_true in Hb.
Qed.

(** A replicated event all of whose predecessors are replicated lies before the
    sequence the gate waits for. *)
Lemma recovered_beyond g (i : nat) r :
  log !! i = Some r →
  (∀ (i' : nat) r', log !! i' = Some r' → scoped_stream_key r' = scoped_stream_key r →
     stream_pos log i' r' ≤ stream_pos log i r → event_replicated db (rq_event_id r')) →
  stream_pos log i r < awaited (recover_from_scan g (recovered_of <$> l)) (rq_stream_key r).
Proof.
  intros Hi Hbefore. unfold awaited. rewrite recover_exact. simpl.
  set (rs := of_stream (rq_stream_key r) (recovered_of <$> l)).
  destruct (blocking_min None rs) as [b|] eqn:Hb; simpl.
  - apply blocking_min_some in Hb as ([?|(x & Hx & Hblk & Hseq)] & _ & _); [done|].
    apply of_stream_recovered in Hx as (p & Hp & Hk & ->).
    destruct (blocking_event p Hp Hblk) as (i' & r' & Hi' & Hkey & Hpos & Hno).
    destruct (Z.lt_ge_cases (stream_pos log i r) b) as [?|Hge]; [done|]. destruct Hno.
    apply (Hbefore i' r' Hi'); [|simpl in Hseq; lia].
    eapply Forall_lookup_1 in Hone; [|exact Hi']. eapply Forall_lookup_1 in Hone; [|exact Hi].
    apply Hone. congruence.
  - destruct (scanned_event i r Hi ltac:(by apply (Hbefore i r))) as (p & Hp & _ & Hk & Hseq & Hst).
    assert (Hin : recovered_of p ∈ rs) by (apply of_stream_recovered; eauto).
    destruct (replicated_max_ge (recovered_of p) rs 0) as [H0 Hge]. specialize (Hge Hin).
    simpl in Hge. rewrite Hst in Hge. specialize (Hge eq_refl).
    rewrite i64_add_id; [lia|].
    destruct (replicated_max_in 0 rs) as [Hm|(x & Hx & _ & Hm)]; [split; rlia|].
    apply of_stream_recovered in Hx as (q & Hq & _ & ->). simpl in Hm.
    pose proof (scanned_bounds db log l 10000 Hrep Hscan q Hq). split; rlia.
Qed.

(** The events of a stream before the awaited sequence are the replicated ones. *)
Lemma recovered_splits g k key (m : nat) sent :
  sent_upto db log sent k m → (∀ r, r ∈ in_stream k log → rq_stream_key r = key) →
  let a := awaited (recover_from_scan g (recovered_of <$> l)) key in
  undelivered db k log = drop (Z.to_nat (a - 1)) (in_stream k log).
Proof.
  intros (_ & _ & Hpre) Hkey a.
  destruct (recovered_front db log l 10000 Hrep Hord Htexts Hscan g key Hlen) as [Ha Hdone].
  fold a in Ha, Hdone. apply filter_drop. intros j r Hj.
  pose proof (Hkey r (list_elem_of_lookup_2 _ _ _ Hj)) as Hkr.
  destruct (in_stream_index k log j r Hj) as (i & Hi & Hk & Hpos). split.
  - intros Hno. destruct (Nat.le_gt_cases (Z.to_nat (a - 1)) j) as [?|Hlt]; [done|]. destruct Hno.
    apply (replicated_at_event db log i r Hrep Hone Hi). rewrite Hkr. apply Hdone. lia.
  - intros Hle Hrepl. cut (stream_pos log i r < a); [lia|]. unfold a. rewrite <- Hkr.
    apply recovered_beyond; [done|]. intros i' r' Hi' Hsc Hp'.
    destruct (Hpre i r Hi Hk) as [Hm _]. specialize (Hm Hrepl).
    destruct (decide (stream_pos log i' r' = stream_pos log i r)) as [Heq|Hne].
    + destruct (Nat.lt_total i' i) as [Hlt|[->|Hlt]].
      * pose proof (stream_pos_mono _ _ _ _ _ Hi' Hi Hsc Hlt). lia.
      * by simplify_eq.
      * pose proof (stream_pos_mono _ _ _ _ _ Hi Hi' (eq_sym Hsc) Hlt). lia.
    + apply (Hpre i' r' Hi'); [by rewrite Hsc|lia].
Qed.
End Front.

(** ** The whole system *)
Section Delivered.
Context `{Sha256} `{!Sha256Ok} {P : Type} `{KP : KafkaProducer P}.
Implicit Types sys : System P.

(** The wire does not change what the producer answers. *)
Lemma wire_fails n (K : P → Prop) (K' : Wire P → Prop) p sent :
  (∀ p sent, K p → K' (mkWire p sent)) → fails n K p → fails n K' (mkWire p sent).
Proof.
  intros HK. revert p sent. induction n as [|n IH]; intros p sent Hf req; specialize (Hf req);
    unfold send at 1 2, wire_send; simpl; destruct (send req p) as [r p']; simpl in *;
    destruct Hf; split; auto.
Qed.

Lemma wire_serves failures (p : P) sent : serves failures p → serves failures (mkWire p sent).
Proof.
  revert p sent. induction failures as [|f failures IH]; intros p sent Hs; [done|].
  by apply (wire_fails f (serves failures)).
Qed.

Lemma attempt_all_steps calls sys os svc :
  attempt_all calls (sys_service sys) = (os, svc) →
  nsteps orderly_step (length calls) sys (mkSystem svc (sys_accepted sys)).
Proof.
  revert sys os. induction calls as [|[env eid] calls IH]; intros sys os Hall; simpl in Hall.
  { injection Hall as _ <-. destruct sys. constructor. }
  destruct (attempt_delivery env (sys_service sys) eid) as [o svc1] eqn:Ha.
  destruct (attempt_all calls svc1) as [os1 svc2] eqn:Hrest. injection Hall as _ <-.
  simpl. apply (nsteps_l _ _ _ (mkSystem svc1 (sys_accepted sys))).
  - replace svc1 with (attempt_delivery env (sys_service sys) eid).2 by by rewrite Ha. by eapply orderly, sys_attempt.
  - by apply (IH (mkSystem svc1 (sys_accepted sys)) os1).
Qed.

(** A restart with engines that work succeeds. *)
Lemma restart_succeeds (E E' : Engine) (RO : RowOrder) config file sys (p : P) profile :
  @RowOrderOk RO → reliable E → reliable E' → jf_db file = sys_db sys →
  check_version (stored_version file) = Ok tt →
  represents (sys_db sys) (sys_accepted sys) → deliveries_good (sys_db sys) →
  ∃ file' l, @open_journal E config (Ok file) =
      (Some (Ok (mkJournal (sys_db sys) config false false)), Some file') ∧
    first_of (selected (sys_db sys) (λ _, True)) pd_journal_sequence 10000 l ∧
    let svc := service_new (mkJournal (sys_db sys) config false false) (mkWire p (sys_sent sys)) profile in
    @recover _ _ E' RO svc =
      (Ok tt, set_gate svc (recover_from_scan (ds_gate svc) (recovered_of <$> l))).
Proof.
  intros HR HE HE' Hf Hver Hr Hgood. unfold open_journal.
  pose proof (init_schema_opened (E := E) file O) as [[Hd _] _ _ _ Hans]. unfold owp in *.
  specialize (Hans (reliable_not_faulty _ HE)). rewrite Hver in Hans.
  destruct (@init_schema E (file, O)) as [r [file' pc]]. simpl in *. subst r. rewrite Hd, Hf.
  destruct (gate_scan_ok (E := E') (sys_db sys) (sys_accepted sys) 10000 HE' Hr Hgood) as (l & Hscan & Hfo).
  exists file', l. split; [done|]. split; [done|]. unfold recover.
  change (service_db (service_new _ _ _)) with (sys_db sys). by rewrite Hscan.
Qed.

Lemma undelivered_scheduled (svc : DeliveryService (Wire P)) log k key (c : nat) failures :
  represents (service_db svc) log → (∀ r, r ∈ in_stream k log → rq_stream_key r = key) →
  undelivered (service_db svc) k log = drop c (in_stream k log) →
  Forall2 (deliverable (ds_profile svc) (service_db svc)) (undelivered (service_db svc) k log) failures →
  scheduled svc key (c + 1) (zip (rq_event_id <$> undelivered (service_db svc) k log) failures).
Proof.
  intros Hr Hkey Hdrop Hf j eid f Hj. apply lookup_zip_Some in Hj as [Hid Hfj].
  apply list_lookup_fmap_Some in Hid as (r & -> & Hrj).
  destruct (Forall2_lookup_lr _ _ _ _ _ _ Hf Hrj Hfj) as (e & row & routing & He & Hrow & Hst & Hb & Hn & Hmax).
  rewrite Hdrop, lookup_drop in Hrj.
  destruct (in_stream_index _ _ _ _ Hrj) as (i & Hi & Hk & Hpos).
  destruct (rep_env _ _ Hr i r Hi) as [now He']. rewrite He in He'. injection He' as He'.
  exists (d_attempt_count row), e, row, routing. split; [|done]. constructor; try done.
  - rewrite He'. simpl. apply Hkey. by eapply list_elem_of_lookup_2.
  - rewrite He'. simpl. lia.
Qed.

(** When a whole stream is replicated, the broker has it. *)
Lemma broker_has_all n sys k :
  system_ok n sys → (∀ r, r ∈ in_stream k (sys_accepted sys) → event_replicated (sys_db sys) (rq_event_id r)) →
  collapse (stream_sent k (sys_sent sys)) = stream_accepted k (sys_accepted sys).
Proof.
  intros [_ _ _ Hs] Hall. destruct (Hs k) as (m & Hm & Hc & Hpre). rewrite Hc. apply take_ge.
  unfold stream_accepted. rewrite length_fmap.
  destruct (in_stream k (sys_accepted sys)) as [|r0 L] eqn:HL; [simpl; lia|].
  destruct (lookup_lt_is_Some_2 (in_stream k (sys_accepted sys)) (length L)) as [r Hj]; [rewrite HL; simpl; lia|].
  destruct (in_stream_index _ _ _ _ Hj) as (i & Hi & Hk & Hpos).
  destruct (Hpre i r Hi Hk) as [Hrep _]. specialize (Hrep (Hall r ltac:(rewrite <- HL; by eapply list_elem_of_lookup_2))).
  simpl. lia.
Qed.
End Delivered.

(** The stream key of the events of a stream. *)
Definition raw_key (k : string) (log : list AcceptRequest) : string :=
  default "" (rq_stream_key <$> head (in_stream k log)).

Lemma raw_key_stream k log r :
  Forall stream_texts_ok log → r ∈ in_stream k log → rq_stream_key r = raw_key k log.
Proof.
  intros Htexts Hr. unfold raw_key. destruct (in_stream k log) as [|r0 L] eqn:HL; [by apply not_elem_of_nil in Hr|].
  assert (Hr0 : r0 ∈ in_stream k log) by (rewrite HL; by left). rewrite <- HL in Hr. simpl.
  apply list_elem_of_filter in Hr as [Hk Hin], Hr0 as [Hk0 Hin0].
  rewrite Forall_forall in Htexts. apply scoped_key_stream; auto. congruence.
Qed.

(** A recovered service delivers what is left of a stream. *)
Lemma recovered_delivers `{Sha256} `{!Sha256Ok} {P : Type} `{KP : KafkaProducer P} svc log l k m sent
    failures calls :
  represents (service_db svc) log → deliveries_good (service_db svc) → scheduled_in_order (service_db svc) →
  streams_ok log → length log + 1 < i64_max → ds_shutdown svc = false →
  first_of (selected (service_db svc) (λ _, True)) pd_journal_sequence 10000 l →
  size (delivery_state (service_db svc)) < 10000 → sent_upto (service_db svc) log sent k m →
  let rest := undelivered (service_db svc) k log in
  Forall2 (deliverable (ds_profile svc) (service_db svc)) rest failures →
  serves failures (ds_producer svc) → Forall (λ c, reliable_env c.1) calls →
  calls.*2 = attempts_for (zip (rq_event_id <$> rest) failures) →
  ∃ oss (svc2 : DeliveryService (Wire P)),
    attempt_all calls (set_gate svc (recover_from_scan (ds_gate svc) (recovered_of <$> l))) =
      (concat oss, svc2) ∧ Forall2 outcomes_of failures oss ∧
    ∀ r, r ∈ in_stream k log → event_replicated (service_db svc2) (rq_event_id r).
Proof.
  intros Hr Hgood Hord [Htexts Hone] Hlen Hup Hfo Hsize Hsent rest Hf Hserves Hrel Hcalls.
  set (key := raw_key k log). set (svc1 := set_gate svc _).
  assert (Hkey : ∀ r, r ∈ in_stream k log → rq_stream_key r = key) by (intros; by apply raw_key_stream).
  destruct (recovered_front (service_db svc) log l 10000 Hr Hord Htexts Hfo (ds_gate svc) key ltac:(lia))
    as [Ha _].
  pose proof (recovered_splits (service_db svc) log l Hr Hord Htexts Hone ltac:(lia) Hfo Hsize
    (ds_gate svc) k key m sent Hsent Hkey) as Hsplit. cbv zeta in Hsplit.
  set (a := awaited _ key) in *. fold rest in Hsplit.
  pose proof (Forall2_length _ _ _ Hf) as Hlf.
  assert (Hids : (zip (rq_event_id <$> rest) failures).*1 = rq_event_id <$> rest)
    by (apply fst_zip; rewrite length_fmap; lia).
  assert (Hfs : (zip (rq_event_id <$> rest) failures).*2 = failures)
    by (apply snd_zip; rewrite length_fmap; lia).
  destruct (stream_progress (zip (rq_event_id <$> rest) failures) calls svc1 log key a)
    as (oss & svc2 & Hrun & Ho & _ & _ & Hframe & Hrep); try done.
  - replace a with (Z.to_nat (a - 1) + 1) by lia. by apply (undelivered_scheduled svc1 log k key).
  - rewrite Hids, Hsplit. unfold event_ids in *. rewrite fmap_drop.
    eapply sublist_NoDup; [|apply sublist_drop]. by apply in_stream_nodup, (rep_nodup _ _ Hr).
  - split; [apply recovered_settled|done].
  - rlia.
  - rewrite length_zip, length_fmap, Hsplit, length_drop.
    pose proof (stream_count_le k log). unfold JournalLog.stream_count in *. lia.
  - by rewrite Hfs.
  - exists oss, svc2. split; [done|]. split.
    { rewrite <- Hfs. by apply Forall2_fmap_l. }
    intros r Hin. destruct (decide (event_replicated (service_db svc) (rq_event_id r))) as [(row & Hrow & Hst)|Hno].
    + exists row. split; [|done]. rewrite Hframe; [done|]. rewrite Hids.
      intros (r' & Heq & [Hno _]%list_elem_of_filter)%list_elem_of_fmap. destruct Hno. rewrite <- Heq. by exists row.
    + apply Hrep. rewrite Hids. apply list_elem_of_fmap. exists r. split; [done|]. by apply list_elem_of_filter.
Qed.

(** C2. Every accepted event is delivered in the end.  Whatever accepts,
    attempts, failures, stops and restarts happened since the journal was empty,
    under the conditions of the order of the streams (deliveries scheduled in
    stream order when the process restarts, NUL-free stream names, each stream key
    in one scope, steps bounded): let the journal hold fewer than 10,000 delivery
    rows, all valid, and let every undelivered event of a stream have an open row
    -- pending or retrying, not blocked --, bound to the profile, with more
    attempts left than the failures to come.  When the process is restarted
    with engines that work, on a producer that acknowledges each of these events
    after these transient failures, then opening and recovery succeed, and attempting the undelivered events in order, each until its
    acknowledgement, replicates the whole stream.  The broker then has exactly the
    accepted events of the stream, in order, each once up to repetitions in a
    row. *)
Theorem eventual_delivery (S : Sha256) (P : Type) (KP : KafkaProducer P) (n : nat)
    (config config' : JournalConfig) (p0 p : P) (profile0 profile : KafkaProductionProfile)
    (sys : System P) (k : string) (E E' : Engine) (RO : RowOrder) (file : JournalFile)
    (failures : list nat) (calls : list (Env * string)) :
  @Sha256Ok S → @RowOrderOk RO →
  nsteps orderly_step n (system_new config p0 profile0) sys → streams_ok (sys_accepted sys) →
  3 * (n + 1 + length calls) ≤ i64_max →
  scheduled_in_order (sys_db sys) → deliveries_good (sys_db sys) →
  size (delivery_state (sys_db sys)) < 10000 →
  reliable E → reliable E' → jf_db file = sys_db sys →
  check_version (stored_version file) = Ok tt →
  let rest := undelivered (sys_db sys) k (sys_accepted sys) in
  Forall2 (deliverable profile (sys_db sys)) rest failures → serves failures p →
  Forall (λ c, reliable_env c.1) calls →
  calls.*2 = attempts_for (zip (rq_event_id <$> rest) failures) →
  ∃ j file' svc1 oss svc2,
    @open_journal E config' (Ok file) = (Some (Ok j), Some file') ∧
    @recover _ _ E' RO (service_new j (mkWire p (sys_sent sys)) profile) = (Ok tt, svc1) ∧
    attempt_all calls svc1 = (concat oss, svc2) ∧ Forall2 outcomes_of failures oss ∧
    (∀ r, r ∈ in_stream k (sys_accepted sys) → event_replicated (service_db svc2) (rq_event_id r)) ∧
    collapse (stream_sent k (wire_sent (ds_producer svc2))) = stream_accepted k (sys_accepted sys).
Proof.
  intros HS HR Hn Hin Hbound Hord Hgood Hsize HE HE' Hfile Hver rest Hf Hserves Hrel Hcalls.
  pose proof (system_steps_ok n 0 _ _ Hn Hin ltac:(lia) (system_new_ok _ _ _)) as Hok.
  rewrite Nat.add_0_r in Hok. pose proof Hok as [Hlen Hr _ Hs]. destruct (Hs k) as [m Hm].
  destruct (restart_succeeds E E' RO config' file sys p profile) as (file' & l & Hopen & Hfo & Hrec);
    [done..|]. cbv zeta in Hrec.
  set (svc := service_new _ _ profile) in *.
  destruct (recovered_delivers svc (sys_accepted sys) l k m (sys_sent sys) failures calls)
    as (oss & svc2 & Hrun & Ho & Hrep); [done..|rlia|done|done|done|done|done|by apply wire_serves|done|done|].
  eexists _, file', _, oss, svc2. split; [exact Hopen|]. split; [exact Hrec|].
  split; [exact Hrun|]. split; [exact Ho|]. split; [exact Hrep|].
  assert (Hstep : orderly_step sys (mkSystem (set_gate svc (recover_from_scan (ds_gate svc) (recovered_of <$> l)))
            (sys_accepted sys))).
  { exists Restarts. split; [|done].
    exact (sys_restart E E' RO config' file _ file' p profile _ sys HR Hfile Hopen Hrec). }
  pose proof (system_step_ok n _ _ Hstep Hin ltac:(lia) Hok) as Hok1.
  pose proof (attempt_all_steps calls (mkSystem _ (sys_accepted sys)) _ _ Hrun) as Hsteps.
  apply (system_steps_ok _ (1 + n) _ _ Hsteps) in Hok1; [|done|lia].
  by apply (broker_has_all _ _ k) in Hok1.
Qed.

(** ** Example: a lost acknowledgement, a restart, a time-out, a delivery *)
Definition crash_start : System nat := system_new default_config 0%nat sample_profile.
Definition crash_accepted : System nat :=
  let r := @accept sample_sha256 sample_engine (ds_journal (sys_service crash_start)) true 7
             (sample_request "e1" 1) in
  mkSystem (with_journal (sys_service crash_start) r.2)
    (record_accepted r.1 (sample_request "e1" 1) (sys_accepted crash_start)).
Definition crash_scheduled : System nat :=
  mkSystem (set_journal (sys_service crash_accepted)
              (@run_op sample_sha256 sample_engine sample_create 8 (sys_db crash_accepted)).2)
    (sys_accepted crash_accepted).
Definition crash_unconfirmed : System nat :=
  mkSystem (@attempt_delivery sample_sha256 _ (@wire_send _ flaky_send) lost_ack_env
              (sys_service crash_scheduled) "e1").2 (sys_accepted crash_scheduled).

Lemma crash_deliveries : delivery_state (sys_db crash_unconfirmed) = delivery_state sample_pending.
Proof. vm_compute. reflexivity. Qed.

Lemma crash_run :
  nsteps (@orderly_step sample_sha256 nat flaky_send) 3 (system_new default_config 0%nat sample_profile)
    crash_unconfirmed.
Proof.
  apply nsteps_l with crash_accepted; [apply (orderly Accepts); [done|];
    exact (sys_accept (KP := flaky_send) sample_engine true 7 (sample_request "e1" 1) crash_start eq_refl)|].
  apply nsteps_l with crash_scheduled; [apply (orderly Calls); [done|];
    exact (sys_client (KP := flaky_send) sample_engine sample_create 8 crash_accepted eq_refl)|].
  apply nsteps_once, (orderly Attempts); [done|]. exact (sys_attempt (KP := flaky_send) lost_ack_env "e1" crash_scheduled).
Qed.

Lemma crash_rest :
  undelivered (sys_db crash_unconfirmed) sample_stream (sys_accepted crash_unconfirmed) =
  [sample_request "e1" 1].
Proof. vm_compute. reflexivity. Qed.

Lemma crash_deliverable :
  @deliverable sample_sha256 sample_profile (sys_db crash_unconfirmed) (sample_request "e1" 1) 1.
Proof.
  eexists _, _, _. split; [vm_compute; reflexivity|]. split; [vm_compute; reflexivity|].
  split; [left; reflexivity|]. split; [vm_compute; reflexivity|]. split; vm_compute; [discriminate|reflexivity].
Qed.

Lemma crash_facts :
  length (sys_sent crash_unconfirmed) = 1%nat ∧ streams_ok (sys_accepted crash_unconfirmed) ∧
  scheduled_in_order (sys_db crash_unconfirmed) ∧ size (delivery_state (sys_db crash_unconfirmed)) = 1%nat ∧
  stream_accepted sample_stream (sys_accepted crash_unconfirmed) = [accepted_event (sample_request "e1" 1)].
Proof.
  split; [vm_compute; reflexivity|]. split; [split; compute_done|]. split; [compute_done|].
  split; vm_compute; reflexivity.
Qed.

Lemma flaky_serves : @serves nat flaky_send [1%nat] 1%nat.
Proof.
  intros req. split; [by exists Timeout|]. intros req'. split; [|done].
  by exists (mkSuccess (sq_topic req') 3 42).
Qed.

Lemma eventual_delivery_witness :
  length (sys_sent crash_unconfirmed) = 1%nat ∧
  ∃ svc1 oss svc2,
    @recover sample_sha256 _ sample_engine sample_row_order
      (service_new (mkJournal (sys_db crash_unconfirmed) default_config false false)
         (mkWire 1%nat (sys_sent crash_unconfirmed)) sample_profile) = (Ok tt, svc1) ∧
    @attempt_all sample_sha256 _ (@wire_send _ flaky_send) [(good_env, "e1"); (good_env, "e1")] svc1 =
      (concat oss, svc2) ∧
    collapse (stream_sent sample_stream (wire_sent (ds_producer svc2))) =
      [accepted_event (sample_request "e1" 1)].
Proof.
  destruct crash_facts as (Hsent & Hstreams & Hall & Hsize & Hacc). split; [exact Hsent|].
  destruct (eventual_delivery sample_sha256 nat flaky_send 3 default_config default_config 0%nat 1%nat
    sample_profile sample_profile crash_unconfirmed sample_stream sample_engine sample_engine
    sample_row_order (mkFile None ∅ (sys_db crash_unconfirmed)) [1%nat]
    [(good_env, "e1"); (good_env, "e1")]) as (j & file' & svc1 & oss & svc2 & Hopen & Hrec & Hrun & _ & _ & Hc).
  - exact sample_sha256_ok.
  - intros t. reflexivity.
  - exact crash_run.
  - exact Hstreams.
  - vm_compute. discriminate.
  - exact Hall.
  - intros eid row Hrow. rewrite crash_deliveries in Hrow. exact (sample_pending_good eid row Hrow).
  - rewrite Hsize. reflexivity.
  - exact (λ n, eq_refl).
  - exact (λ n, eq_refl).
  - reflexivity.
  - reflexivity.
  - rewrite crash_rest. constructor; [exact crash_deliverable|constructor].
  - exact flaky_serves.
  - repeat constructor; exact (λ n, eq_refl).
  - rewrite crash_rest. reflexivity.
  - exists svc1, oss, svc2. apply opened_same in Hopen. subst j. split; [exact Hrec|].
    split; [exact Hrun|]. rewrite Hc. exact Hacc.
Defined.
