(* ===== verification/RecoveryLimit.v ===== *)
(** * The limit of the recovery scan

    [recover] reads at most 10,000 delivery rows, the first of the journal
    (service.rs, [scan_delivery_gate_states(10_000)]).  Of a longer journal the
    recovered gate knows only the beginning: the file shows what it answers for
    the events behind the limit. *)
From S2P Require Import Prelude Checksum JournalDb JournalCore JournalAccept SqlLogic.
From S2P Require Import JournalLog JournalReads JournalDelivery JournalTransitions.
From S2P Require Import JournalSafety DeliverySafety JournalScan Gate Profiles Routing.
From S2P Require Import Service ServiceSafety Recovery DeliveryLiveness Broker.
Open Scope Z_scope.
#[local] Coercion Z.of_nat : nat >-> Z.

Section Beyond.
Context `{Sha256} (db : Db) (log : list AcceptRequest) (l : list PendingDelivery) (limit : Z).
Context (Hrep : represents db log) (Hall : all_scheduled db) (Hone : one_scope log).
Context (Hscan : first_of (selected db (λ _, True)) pd_journal_sequence limit l) (Hlim : 0 ≤ limit).

(** A scan returns with an event every event accepted before it. *)
Lemma scanned_before p (j : nat) r :
  p ∈ l → log !! j = Some r → j + 1 < pd_journal_sequence p → rq_event_id r ∈ pd_event_id <$> l.
Proof.
  intros Hp Hj Hlt. destruct (rep_env _ _ Hrep j r Hj) as [now He].
  assert (is_Some (delivery_state db !! rq_event_id r)) as [row Hrow].
  { apply elem_of_dom, Hall, elem_of_dom. eauto. }
  set (q := pending_of (rq_event_id r) row (new_envelope r (j + 1) (stream_pos log j r) now)).
  apply list_elem_of_fmap. exists q. split; [done|].
  destruct (fo_complete _ _ _ _ Hscan q) as [?|(_ & _ & Hle)]; [by eexists _, _|done|].
  specialize (Hle p Hp). simpl in Hle. lia.
Qed.

(** So what it returns is among the first [limit] events of the journal. *)
Lemma scanned_index p :
  p ∈ l → ∃ (j : nat) r, log !! j = Some r ∧ j < limit ∧
    pd_stream_key p = rq_stream_key r ∧ pd_stream_sequence p = stream_pos log j r.
Proof.
  intros Hp. destruct (fo_sound _ _ _ _ Hscan p Hp) as (row & e & _ & He & Heq & _).
  destruct (rep_env_inv _ _ _ _ Hrep He) as (j & r & now & Hj & Hid & ->).
  exists j, r. split; [done|]. rewrite Heq. split; [|done].
  assert (Hsub : event_ids (take (S j) log) ⊆ pd_event_id <$> l).
  { intros eid (r' & -> & (j' & Hj')%list_elem_of_lookup)%list_elem_of_fmap.
    apply lookup_take_Some in Hj' as [Hj' Hlt].
    destruct (decide (j' = j)) as [->|Hne].
    - rewrite Hj in Hj'. injection Hj' as <-. rewrite Hid. by apply list_elem_of_fmap_2.
    - apply (scanned_before p j'); [done..|]. rewrite Heq. simpl. lia. }
  apply NoDup_submseteq, submseteq_length in Hsub.
  - unfold event_ids in Hsub. rewrite !length_fmap, length_take in Hsub.
    apply lookup_lt_Some in Hj. pose proof (fo_limit _ _ _ _ Hscan Hlim). lia.
  - eapply sublist_NoDup; [exact (rep_nodup _ _ Hrep)|]. apply fmap_sublist, sublist_take.
Qed.

(** For an event behind the limit the recovered gate waits for a sequence at or
    before its own. *)
Lemma awaited_behind g (i : nat) r :
  log !! i = Some r → limit ≤ i → length log < i64_max →
  awaited (recover_from_scan g (recovered_of <$> l)) (rq_stream_key r) ≤ stream_pos log i r.
Proof.
  intros Hi Hge Hlen.
  assert (Hin : ∀ x, x ∈ of_stream (rq_stream_key r) (recovered_of <$> l) →
    0 ≤ rs_stream_sequence x < stream_pos log i r).
  { intros x (p & Hp & Hk & ->)%of_stream_recovered. simpl.
    destruct (scanned_index p Hp) as (j & r' & Hj & Hlt & Hkey & ->).
    pose proof (stream_pos_bounds log j r' Hj). split; [lia|].
    apply (stream_pos_mono _ _ _ _ _ Hj Hi); [|lia].
    eapply Forall_lookup_1 in Hone; [|exact Hj]. eapply Forall_lookup_1 in Hone; [|exact Hi].
    apply Hone. congruence. }
  pose proof (stream_pos_bounds log i r Hi) as Hpos.
  pose proof (stream_count_le (scoped_stream_key r) log) as Hcount.
  unfold awaited. rewrite recover_exact. simpl.
  set (rs := of_stream _ _) in *. destruct (blocking_min None rs) as [b|] eqn:Hb; simpl.
  - apply blocking_min_some in Hb as ([?|(x & Hx & _ & <-)] & _); [done|]. specialize (Hin x Hx). lia.
  - destruct (replicated_max_in 0 rs) as [->|(x & Hx & _ & <-)].
    + rewrite i64_add_id by rlia. lia.
    + specialize (Hin x Hx). rewrite i64_add_id by rlia. lia.
Qed.
End Beyond.

(** C38. Behind the limit only the oldest event of a stream can go on.  Let every
    accepted event have a valid delivery row and every stream key belong to one
    scope, and let two events of a stream be behind the first 10,000 of the
    journal.  A recovered service answers every attempt on the later one with
    [GateHeld] and a sequence not after the earlier one, and nothing changes,
    although the earlier one may be [REPLICATED], and then no scan returns it. *)
Theorem recovery_limit_holds (S : Sha256) (P : Type) (KP : KafkaProducer P) (E : Engine)
    (RO : RowOrder) (svc0 svc1 : DeliveryService P) (log : list AcceptRequest) (i i' : nat)
    (r r' : AcceptRequest) :
  @Sha256Ok S → @RowOrderOk RO →
  represents (service_db svc0) log → deliveries_good (service_db svc0) →
  all_scheduled (service_db svc0) → one_scope log → length log < i64_max →
  ds_shutdown svc0 = false → recover svc0 = (Ok tt, svc1) →
  log !! i = Some r → log !! i' = Some r' → scoped_stream_key r' = scoped_stream_key r →
  rq_stream_key r' = rq_stream_key r → 10000 ≤ i' → (i' < i)%nat →
  ∃ w, w ≤ stream_pos log i' r' ∧
    ∀ env, reliable (env_candidate env) →
      attempt_delivery env svc1 (rq_event_id r) = (GateHeld w, svc1).
Proof.
  intros HS HR Hrep Hgood Hall Hone Hlen Hsd Hrec Hi Hi' Hsc Hk Hge Hlt. unfold recover in Hrec.
  destruct (scan_delivery_gate_states 10000 (service_db svc0)) as [l| |] eqn:Hscan; [|done..].
  apply (gate_scan_answer _ log) in Hscan; [|done]. injection Hrec as <-.
  set (g := recover_from_scan (ds_gate svc0) (recovered_of <$> l)).
  assert (Hw : awaited g (rq_stream_key r) ≤ stream_pos log i' r').
  { rewrite <- Hk. by apply (awaited_behind (service_db svc0) log l 10000). }
  exists (awaited g (rq_stream_key r)). split; [done|]. intros env HE.
  pose proof (stream_pos_mono _ _ _ _ _ Hi' Hi Hsc Hlt) as Hpos.
  destruct (rep_env _ _ Hrep i r Hi) as [now He].
  assert (is_Some (delivery_state (service_db svc0) !! rq_event_id r)) as [row Hrow].
  { apply elem_of_dom, Hall, elem_of_dom. eauto. }
  unfold attempt_delivery. change (ds_shutdown (set_gate svc0 g)) with (ds_shutdown svc0). rewrite Hsd.
  change (service_db (set_gate svc0 g)) with (service_db svc0).
  rewrite (candidate_found (env_candidate env) (service_db svc0) log (rq_event_id r) _ row HE Hrep He)
    by (split; [done|apply (Hgood _ _ Hrow)]).
  pose proof (recovered_settled (ds_gate svc0) l (rq_stream_key r) : in_flight (stream_entry g _) = None) as Hs.
  simpl. rewrite check_entry, Hs.
  change (default _ _) with (awaited g (rq_stream_key r)). cbv zeta.
  by destruct (Z.eqb_spec (stream_pos log i r) (awaited g (rq_stream_key r))); [lia|].
Qed.

(** ** Example: a journal of 10,002 events, all but the last one replicated *)
Section Long.
Context `{Sha256} `{!Sha256Ok}.

Record served (db : Db) (log : list AcceptRequest) : Prop := {
  sv_log : represents db log;
  sv_good : deliveries_good db;
  sv_rows : dom (delivery_state db) = dom (stored_envelope db)
}.

(** An event accepted and given to the delivery. *)
Definition scheduled_db (r : AcceptRequest) (fp : Checksum) (log : list AcceptRequest) (db : Db) : Db :=
  set_delivery (rq_event_id r)
    (sealed (rq_event_id r) (λ c, pending_record (rq_event_id r) fp "p0" 1 "events" c 20))
    (event_db r (length log + 1) (JournalLog.stream_count (scoped_stream_key r) log + 1) 10 db).

Lemma scheduled_served r fp log db :
  is_checksum fp → req_typed r → rq_event_id r ∉ event_ids log →
  served db log → served (scheduled_db r fp log db) (log ++ [r]).
Proof.
  intros Hfp Ht Hn [Hr Hg Hd].
  set (db1 := event_db r (length log + 1) (JournalLog.stream_count (scoped_stream_key r) log + 1) 10 db).
  assert (Hr1 : represents db1 (log ++ [r])) by by apply represents_snoc.
  assert (Heff : cas_effect 20 db1 (OpCreate (rq_event_id r) fp "p0" 1 "events") (scheduled_db r fp log db)).
  { eapply eff_create; [apply lookup_insert_eq|]. apply not_elem_of_dom. simpl.
    by rewrite Hd, (rep_env_dom _ _ Hr), elem_of_list_to_set. }
  constructor; [by eapply effect_represents| |].
  - by apply (effect_good _ _ _ _ Heff); [exact Hg|].
  - simpl. rewrite !dom_insert_L, Hd. done.
Qed.

Lemma scheduled_keeps r fp log db eid :
  eid ≠ rq_event_id r → event_replicated db eid → event_replicated (scheduled_db r fp log db) eid.
Proof. intros Hne (row & Hrow & Hst). exists row. split; [|done]. simpl. by rewrite lookup_insert_ne. Qed.

(** Its delivery confirmed. *)
Lemma delivered_served r fp log db :
  served (scheduled_db r fp log db) (log ++ [r]) →
  ∃ db', served db' (log ++ [r]) ∧ event_replicated db' (rq_event_id r) ∧
    ∀ eid, event_replicated db eid → event_replicated db' eid.
Proof.
  intros [Hr Hg Hd]. set (db2 := scheduled_db r fp log db) in *.
  set (row := sealed (rq_event_id r) (λ c, pending_record (rq_event_id r) fp "p0" 1 "events" c 20)).
  assert (Hrow : delivery_state db2 !! rq_event_id r = Some row) by apply lookup_insert_eq.
  assert (is_Some (stored_envelope db2 !! rq_event_id r)) as [e He].
  { apply elem_of_dom. rewrite <- Hd. apply elem_of_dom. eauto. }
  destruct (event_rows_of _ _ _ _ Hr He) as (l & _ & Hrows & _ & _).
  assert (Hopen : open_row db2 (rq_event_id r) 1 row).
  { split; [split; [done|apply (Hg _ _ Hrow)]|done]. }
  pose proof (eff_confirm 30 db2 (rq_event_id r) 1 (mkConfirmation fp "p0" 1 "events" 0 42) e l row
    Hrows Hopen ltac:(done)) as Heff.
  eexists. split; [constructor; [by eapply effect_represents|by apply (effect_good _ _ _ _ Heff)|]|].
  - simpl. rewrite dom_insert_lookup_L by eauto. exact Hd.
  - split; [eexists; split; [apply lookup_insert_eq|done]|].
    intros eid (row' & Hrow' & Hst). destruct (decide (eid = rq_event_id r)) as [->|Hne].
    + eexists. split; [apply lookup_insert_eq|done].
    + exists row'. split; [|done]. simpl. by rewrite !lookup_insert_ne.
Qed.
End Long.

Definition long_request (j : nat) : AcceptRequest := sample_request (pretty j) (j + 1).
Definition long_log (n : nat) : list AcceptRequest := long_request <$> seq 0 n.

Lemma long_log_snoc n : long_log (S n) = long_log n ++ [long_request n].
Proof. unfold long_log. by rewrite seq_S, fmap_app. Qed.

Lemma long_log_fresh n : rq_event_id (long_request n) ∉ event_ids (long_log n).
Proof.
  intros (r & Hid & (j & -> & Hj)%list_elem_of_fmap)%list_elem_of_fmap. simpl in Hid.
  apply (inj pretty) in Hid. apply elem_of_seq in Hj. lia.
Qed.

Lemma long_log_lookup n j : (j < n)%nat → long_log n !! j = Some (long_request j).
Proof.
  intros Hj. unfold long_log. rewrite list_lookup_fmap, lookup_seq_lt by done. done.
Qed.

Lemma long_log_scope n : one_scope (long_log n).
Proof. apply Forall_fmap, Forall_true. intros j. by apply Forall_fmap, Forall_true. Qed.

(** Any number of events of one stream, all delivered. *)
Lemma long_served n :
  ∃ db, @served sample_sha256 db (long_log n) ∧
    ∀ j, (j < n)%nat → event_replicated db (rq_event_id (long_request j)).
Proof.
  induction n as [|n (db & Hsv & Hrepl)].
  { exists empty_db. split; [|lia]. constructor; [|by intros ?? ?|done].
    exact (@represents_empty sample_sha256 sample_sha256_ok). }
  apply (@scheduled_served sample_sha256 sample_sha256_ok (long_request n) sample_fingerprint) in Hsv;
    [|done..|apply long_log_fresh].
  destruct (@delivered_served sample_sha256 sample_sha256_ok _ _ _ _ Hsv) as (db' & Hsv' & Hlast & Hkeep).
  exists db'. rewrite long_log_snoc. split; [done|]. intros j Hj.
  destruct (decide (j = n)) as [->|Hne]; [done|]. apply Hkeep, Hrepl. lia.
Qed.

(** The same journal with one more event, scheduled but not delivered, and a
    service that recovers on it. *)
Lemma long_recovered n :
  ∃ svc0 svc1 : DeliveryService FakeProducer,
    @served sample_sha256 (service_db svc0) (long_log (S n)) ∧ ds_shutdown svc0 = false ∧
    @recover sample_sha256 _ sample_engine sample_row_order svc0 = (Ok tt, svc1) ∧
    ∀ j, (j < n)%nat → event_replicated (service_db svc0) (rq_event_id (long_request j)).
Proof.
  destruct (long_served n) as (db & Hsv & Hrepl).
  pose proof (@scheduled_served sample_sha256 sample_sha256_ok (long_request n) sample_fingerprint _ _
    ltac:(done) ltac:(done) (long_log_fresh n) Hsv) as Hsv2. rewrite <- long_log_snoc in Hsv2.
  set (db2 := scheduled_db _ _ _ _) in Hsv2.
  destruct (@gate_scan_ok sample_sha256 sample_sha256_ok sample_engine sample_row_order (λ t, Permutation_refl _)
    db2 (long_log (S n)) 10000 sample_reliable (sv_log _ _ Hsv2) (sv_good _ _ Hsv2)) as (l & Hscan & _).
  pose (svc0 := service_new (mkJournal db2 default_config false false) sample_producer sample_profile).
  exists svc0. eexists. split; [exact Hsv2|]. split; [done|]. split.
  - unfold recover. change (service_db svc0) with db2. by rewrite Hscan.
  - intros j Hj. change (service_db svc0) with db2.
    apply (@scheduled_keeps sample_sha256); [|by apply Hrepl]. intros Heq. simpl in Heq.
    apply (inj pretty) in Heq. lia.
Qed.

(** After a restart the last event of a journal of 10,002 is held although every
    event before it is replicated. *)
Lemma recovery_limit_holds_witness :
  ∃ (svc0 svc1 : DeliveryService FakeProducer) w,
    (∀ j, (j < Z.to_nat 10001)%nat → event_replicated (service_db svc0) (rq_event_id (long_request j))) ∧
    @recover sample_sha256 _ sample_engine sample_row_order svc0 = (Ok tt, svc1) ∧
    ∀ env, reliable (env_candidate env) →
      @attempt_delivery sample_sha256 _ _ env svc1 (rq_event_id (long_request (Z.to_nat 10001))) =
        (GateHeld w, svc1).
Proof.
  destruct (long_recovered (Z.to_nat 10001)) as (svc0 & svc1 & [Hr Hg Hd] & Hsd & Hrec & Hrepl).
  destruct (recovery_limit_holds sample_sha256 FakeProducer _ sample_engine sample_row_order svc0 svc1
    (long_log (S (Z.to_nat 10001))) (Z.to_nat 10001) (Z.to_nat 10000)
    (long_request (Z.to_nat 10001)) (long_request (Z.to_nat 10000))) as (w & _ & Hheld).
  - exact sample_sha256_ok.
  - exact (λ t, Permutation_refl _).
  - exact Hr.
  - exact Hg.
  - unfold all_scheduled. rewrite Hd. reflexivity.
  - apply long_log_scope.
  - unfold long_log. rewrite length_fmap, length_seq. unfold i64_max. lia.
  - exact Hsd.
  - exact Hrec.
  - apply long_log_lookup. lia.
  - apply long_log_lookup. lia.
  - reflexivity.
  - reflexivity.
  - lia.
  - lia.
  - exists svc0, svc1, w. split; [exact Hrepl|]. split; [exact Hrec|exact Hheld].
Defined.
