(* ===== verification/Metadata.v ===== *)
(** * Metadata (crates/craftrelay-domain/src/lib.rs)

    The positive integers and the canonical form of an event's metadata.  The
    key alphabet defined here is also that of identifiers and UUIDs. *)
From S2P Require Import Prelude Checksum.
Open Scope Z_scope.
#[local] Coercion Z.of_nat : nat >-> Z.

Definition MAX_METADATA_ENTRIES : Z := 32.
Definition MAX_METADATA_BYTES : Z := 8192.

Inductive ValidationError : Type :=
| InvalidUuid
| NonPositiveInt32
| NonPositiveInt64
| MetadataCountExceeded
| MetadataBytesExceeded
| InvalidMetadataKey
| DuplicateMetadataKey
| TokenInvalidMac
| TokenExpired
| TokenScopeMismatch.

Record MetadataEntry : Type := mkEntry {
  m_key : string;
  m_value : string
}.

#[export] Instance MetadataEntry_eq_dec : EqDecision MetadataEntry.
Proof. solve_decision. Defined.

Definition positive_i32 (value : Z) : result Z ValidationError :=
  if 0 <? value then Ok value else Err NonPositiveInt32.

Definition positive_i64 (value : Z) : result Z ValidationError :=
  if 0 <? value then Ok value else Err NonPositiveInt64.

(** ** Bytes *)
Definition byte_in (lo hi b : byte) : bool :=
  (Byte.to_N lo <=? Byte.to_N b)%N && (Byte.to_N b <=? Byte.to_N hi)%N.

Definition is_ascii_lowercase (b : byte) : bool := byte_in "a" "z" b.
Definition is_ascii_digit (b : byte) : bool := byte_in "0" "9" b.

(** [.], [_] and [-] *)
Definition is_separator (b : byte) : bool :=
  bool_decide (b = "."%byte) || bool_decide (b = "_"%byte) || bool_decide (b = "-"%byte).

(** The order of [<[u8]>::cmp]. *)
Fixpoint bytes_le (a b : list byte) : bool :=
  match a, b with
  | [], _ => true
  | _ :: _, [] => false
  | x :: a, y :: b =>
      if (Byte.to_N x <? Byte.to_N y)%N then true
      else if (Byte.to_N y <? Byte.to_N x)%N then false
      else bytes_le a b
  end.

(** ** Canonical metadata *)
Definition key_ok (key : string) : bool :=
  negb (str_is_empty key) &&
  forallb (λ p, is_ascii_lowercase p.2 || is_ascii_digit p.2 ||
                ((0 <? Z.of_nat p.1) && is_separator p.2))
    (zip (seq 0 (length (bytes_of key))) (bytes_of key)).

Definition str_len (s : string) : Z := length (bytes_of s).

Definition usize_max : Z := 2 ^ 64 - 1.

(** The loop over the entries: the keys seen and the bytes so far. *)
Fixpoint check_entries (entries : list MetadataEntry) (keys : gset string) (total : Z)
  : result Z ValidationError :=
  match entries with
  | [] => Ok total
  | entry :: rest =>
      if negb (key_ok (m_key entry)) then Err InvalidMetadataKey
      else if bool_decide (m_key entry ∈ keys) then Err DuplicateMetadataKey
      else
        let total := total + (str_len (m_key entry) + str_len (m_value entry)) in
        if usize_max <? total then Err MetadataBytesExceeded
        else check_entries rest ({[m_key entry]} ∪ keys) total
  end.

Definition key_le (a b : MetadataEntry) : Prop :=
  bytes_le (bytes_of (m_key a)) (bytes_of (m_key b)) = true.

#[export] Instance key_le_dec a b : Decision (key_le a b).
Proof. unfold key_le. apply _. Defined.

Definition canonicalize_metadata (entries : list MetadataEntry)
  : result (list MetadataEntry) ValidationError :=
  if MAX_METADATA_ENTRIES <? length entries then Err MetadataCountExceeded
  else
    let? total_bytes := check_entries entries ∅ 0 in
    if MAX_METADATA_BYTES <? total_bytes then Err MetadataBytesExceeded
    else Ok (merge_sort key_le entries).

Definition canonical_metadata_text (entries : list MetadataEntry)
  : result string ValidationError :=
  let? canonical := canonicalize_metadata entries in
  Ok (String.concat "|" ((λ e, m_key e +:+ "=" +:+ m_value e) <$> canonical)).

(** ** The canonical form *)
Lemma bytes_le_total a b : bytes_le a b = true ∨ bytes_le b a = true.
Proof.
  revert b. induction a as [|x a IH]; intros [|y b]; simpl; auto.
  destruct (N.ltb_spec (Byte.to_N x) (Byte.to_N y)), (N.ltb_spec (Byte.to_N y) (Byte.to_N x)); auto.
Qed.

Lemma bytes_le_trans a b c : bytes_le a b = true → bytes_le b c = true → bytes_le a c = true.
Proof.
  revert b c. induction a as [|x a IH]; intros [|y b] [|z c]; simpl; try done.
  destruct (N.ltb_spec (Byte.to_N x) (Byte.to_N y)), (N.ltb_spec (Byte.to_N y) (Byte.to_N x)),
    (N.ltb_spec (Byte.to_N y) (Byte.to_N z)), (N.ltb_spec (Byte.to_N z) (Byte.to_N y)),
    (N.ltb_spec (Byte.to_N x) (Byte.to_N z)), (N.ltb_spec (Byte.to_N z) (Byte.to_N x));
    try done; try lia. apply IH.
Qed.

Lemma bytes_le_antisym a b : bytes_le a b = true → bytes_le b a = true → a = b.
Proof.
  revert b. induction a as [|x a IH]; intros [|y b]; simpl; try done.
  destruct (N.ltb_spec (Byte.to_N x) (Byte.to_N y)), (N.ltb_spec (Byte.to_N y) (Byte.to_N x));
    try done; try lia. intros Hab Hba. f_equal; [|by apply IH].
  assert (Heq : Byte.to_N x = Byte.to_N y) by lia.
  apply (f_equal Byte.of_N) in Heq. rewrite !Byte.of_to_N in Heq. congruence.
Qed.

#[export] Instance key_le_total : Total key_le.
Proof. intros a b. apply bytes_le_total. Qed.
#[export] Instance key_le_trans : Transitive key_le.
Proof. intros a b c. apply bytes_le_trans. Qed.

(** The total length of the entries. *)
Definition entries_bytes (entries : list MetadataEntry) : Z :=
  foldr (λ e n, str_len (m_key e) + str_len (m_value e) + n) 0 entries.

Record metadata_ok (entries : list MetadataEntry) : Prop := {
  mo_count : length entries ≤ MAX_METADATA_ENTRIES;
  mo_keys : Forall (λ e, key_ok (m_key e) = true) entries;
  mo_nodup : NoDup (m_key <$> entries);
  mo_bytes : entries_bytes entries ≤ MAX_METADATA_BYTES
}.

Lemma entries_bytes_nonneg l : 0 ≤ entries_bytes l.
Proof. induction l; simpl; [lia|]. unfold str_len. lia. Qed.

Lemma check_entries_spec l keys total :
  (∀ n, check_entries l keys total = Ok n →
     n = total + entries_bytes l ∧ Forall (λ e, key_ok (m_key e) = true) l ∧
     NoDup (m_key <$> l) ∧ ∀ e, e ∈ l → m_key e ∉ keys) ∧
  (Forall (λ e, key_ok (m_key e) = true) l → NoDup (m_key <$> l) → (∀ e, e ∈ l → m_key e ∉ keys) →
   total + entries_bytes l ≤ usize_max → check_entries l keys total = Ok (total + entries_bytes l)).
Proof.
  revert keys total. induction l as [|e l IH]; intros keys total; simpl; split.
  - intros n [= <-]. split; [lia|]. split; [done|]. split; [constructor|]. by intros ? ?%not_elem_of_nil.
  - intros. f_equal. lia.
  - intros n. destruct (key_ok (m_key e)) eqn:Hk; simpl; [|done].
    case_bool_decide as Hin; [done|]. case_match; [done|]. intros Hn.
    apply IH in Hn as (-> & Hf & Hnd & Hout). split; [lia|]. split; [by constructor|].
    split; [|intros e' [->|He']%elem_of_cons; [done|specialize (Hout e' He'); set_solver]].
    constructor; [|done]. intros (e' & Heq & He')%list_elem_of_fmap.
    specialize (Hout e' He'). set_solver.
  - intros [Hk Hf]%Forall_cons [Hn Hnd]%NoDup_cons Hout Hmax. rewrite Hk. simpl.
    rewrite bool_decide_eq_false_2 by (apply Hout; by left).
    pose proof (entries_bytes_nonneg l).
    rewrite (proj2 (Z.ltb_ge _ _)) by lia.
    rewrite (proj2 (IH _ _)); [f_equal; lia|done|done| |lia].
    intros e' He' [Heq%elem_of_singleton|?]%elem_of_union.
    + apply Hn. apply list_elem_of_fmap. by exists e'.
    + by apply (Hout e'); [right|].
Qed.

Lemma canonicalize_ok l : metadata_ok l → canonicalize_metadata l = Ok (merge_sort key_le l).
Proof.
  intros [Hc Hk Hn Hb]. unfold canonicalize_metadata.
  rewrite (proj2 (Z.ltb_ge _ _)) by lia.
  rewrite (proj2 (check_entries_spec l ∅ 0)); [|done|done|set_solver|].
  - by rewrite (proj2 (Z.ltb_ge _ _)) by (simpl; lia).
  - unfold MAX_METADATA_BYTES, usize_max in *. lia.
Qed.

Lemma canonicalize_inv l c :
  canonicalize_metadata l = Ok c → metadata_ok l ∧ c = merge_sort key_le l.
Proof.
  unfold canonicalize_metadata. destruct (Z.ltb_spec MAX_METADATA_ENTRIES (length l)); [done|].
  destruct (check_entries l ∅ 0) as [n|] eqn:Hc; [|done].
  apply check_entries_spec in Hc as (-> & Hf & Hnd & _).
  destruct (Z.ltb_spec MAX_METADATA_BYTES (0 + entries_bytes l)); [done|].
  intros [= <-]. split; [|done]. constructor; auto; lia.
Qed.

Lemma entries_bytes_perm l l' : l ≡ₚ l' → entries_bytes l = entries_bytes l'.
Proof. induction 1; simpl; lia. Qed.

#[export] Instance metadata_ok_perm : Proper ((≡ₚ) ==> iff) metadata_ok.
Proof.
  assert (Himp : ∀ l l', l ≡ₚ l' → metadata_ok l → metadata_ok l').
  { intros l l' Hp [Hc Hk Hn Hb]. constructor.
    - by rewrite <- Hp.
    - by rewrite <- Hp.
    - by rewrite <- Hp.
    - by rewrite <- (entries_bytes_perm _ _ Hp). }
  intros l l' Hp. split; apply Himp; done.
Qed.

(** With distinct keys the sorted list is unique. *)
Lemma sorted_unique l l' :
  NoDup (m_key <$> l) → l ≡ₚ l' → Sorted key_le l → Sorted key_le l' → l = l'.
Proof.
  intros Hnd Hp Hs Hs'. apply (Sorted_unique_strong key_le); [|done..].
  intros x y Hx Hy Hxy Hyx. apply (bytes_le_antisym) in Hxy; [|done]. apply (inj bytes_of) in Hxy.
  apply list_elem_of_lookup in Hx as [i Hi]. rewrite <- Hp in Hy. apply list_elem_of_lookup in Hy as [k Hk].
  assert (i = k) as ->; [|congruence].
  apply (NoDup_lookup (m_key <$> l) i k (m_key x)); [done|..]; rewrite list_lookup_fmap;
    [by rewrite Hi|rewrite Hk; simpl; congruence].
Qed.

(** C34. Metadata has one canonical form.  Entries are accepted exactly when
    there are at most 32 of at most 8192 bytes with valid and distinct keys;
    the result is a permutation of them, sorted by key, it does not depend on
    the order in which they were given, and canonicalising it again changes
    nothing. *)
Theorem metadata_canonical (l : list MetadataEntry) :
  ((∃ c, canonicalize_metadata l = Ok c) ↔ metadata_ok l) ∧
  ∀ c, canonicalize_metadata l = Ok c →
    c ≡ₚ l ∧ Sorted key_le c ∧ canonicalize_metadata c = Ok c ∧
    ∀ l', l' ≡ₚ l → canonicalize_metadata l' = Ok c.
Proof.
  split; [split; [by intros (c & [? _]%canonicalize_inv)|by eexists; apply canonicalize_ok]|].
  intros c [Hok ->]%canonicalize_inv. pose proof (merge_sort_Permutation key_le l) as Hp.
  pose proof (Sorted_merge_sort key_le l) as Hs.
  assert (Hinv : ∀ l', l' ≡ₚ l → canonicalize_metadata l' = Ok (merge_sort key_le l)).
  { intros l' Hl'. rewrite canonicalize_ok by by rewrite Hl'. f_equal.
    apply sorted_unique; [|by rewrite merge_sort_Permutation, Hl', Hp|apply Sorted_merge_sort; apply _|done].
    rewrite merge_sort_Permutation, Hl'. apply Hok. }
  repeat split; auto.
Qed.

(** The canonical text is ambiguous.  Values are not escaped, so two
    different lists of metadata can have one canonical text. *)
Theorem metadata_text_ambiguous :
  let one := [mkEntry "a" "1|b=2"] in
  let two := [mkEntry "a" "1"; mkEntry "b" "2"] in
  canonicalize_metadata one ≠ canonicalize_metadata two ∧
  ∃ text, canonical_metadata_text one = Ok text ∧ canonical_metadata_text two = Ok text.
Proof. split; [by vm_compute|]. exists "a=1|b=2". by split; vm_compute. Qed.
