(* ===== verification/Identity.v ===== *)
(** * Revisions, names and codes (crates/craftrelay-domain/src/lib.rs)

    The comparison of revisions, the scoped names, the canonical UUID check and
    the HMAC, with the facts their users rely on. *)
From S2P Require Import Prelude Checksum Metadata.
Open Scope Z_scope.
#[local] Coercion Z.of_nat : nat >-> Z.

(** ** Revisions *)
Inductive RevisionDecision : Type :=
| RevInserted
| RevDuplicate
| RevIntegrityConflict
| RevStale.

Definition compare_revision (current_revision : Z) (current_checksum : Checksum)
    (incoming_revision : Z) (incoming_checksum : Checksum) : RevisionDecision :=
  match Z.compare incoming_revision current_revision with
  | Gt => RevInserted
  | Lt => RevStale
  | Eq => if bool_decide (incoming_checksum = current_checksum)
          then RevDuplicate else RevIntegrityConflict
  end.

(** The state a replica keeps: the latest revision it inserted. *)
Definition apply_revision (state : Z * Checksum) (incoming : Z * Checksum) : Z * Checksum :=
  match compare_revision state.1 state.2 incoming.1 incoming.2 with
  | RevInserted => incoming
  | _ => state
  end.

(** Snapshots of one history: one checksum per revision. *)
Definition consistent (l : list (Z * Checksum)) : Prop :=
  ∀ a b, a ∈ l → b ∈ l → a.1 = b.1 → a.2 = b.2.

Lemma apply_revision_max s l :
  consistent (s :: l) →
  foldl apply_revision s l ∈ s :: l ∧ ∀ a, a ∈ s :: l → a.1 ≤ (foldl apply_revision s l).1.
Proof.
  revert s. induction l as [|i l IH]; intros s Hc; simpl.
  - split; [by left|]. by intros a ->%list_elem_of_singleton.
  - assert (Hcases : apply_revision s i = i ∧ s.1 < i.1 ∨ apply_revision s i = s ∧ i.1 ≤ s.1).
    { unfold apply_revision, compare_revision. destruct (Z.compare_spec i.1 s.1); [|auto with lia|auto with lia].
      right. case_bool_decide; split; auto; lia. }
    destruct (IH (apply_revision s i)) as [Hm Hle].
    { intros a b Ha Hb. apply Hc; rewrite !elem_of_cons in *;
        destruct Hcases as [[Heq _]|[Heq _]]; rewrite Heq in *; tauto. }
    pose proof (Hle (apply_revision s i) ltac:(by left)) as Hs.
    rewrite !elem_of_cons in *. split.
    { destruct Hcases as [[Heq _]|[Heq _]]; rewrite Heq in *; tauto. }
    intros a Ha. rewrite !elem_of_cons in Ha.
    assert (Ha' : a ∈ apply_revision s i :: l ∨ a = s ∨ a = i) by (rewrite elem_of_cons; tauto).
    destruct Ha' as [?|[->| ->]]; [by apply Hle|..]; destruct Hcases as [[Heq ?]|[Heq ?]];
      rewrite Heq in *; lia.
Qed.

(** Revisions converge.  Replicas that receive the snapshots of one
    consistent history in any order and any number of times, and keep what
    [compare_revision] inserts, all end with the same latest snapshot. *)
Theorem revisions_converge (s : Z * Checksum) (l l' : list (Z * Checksum)) :
  consistent (s :: l) → (∀ a, a ∈ l ↔ a ∈ l') →
  foldl apply_revision s l = foldl apply_revision s l'.
Proof.
  intros Hc Hsame. assert (Hc' : consistent (s :: l')).
  { intros a b Ha Hb. apply Hc; set_solver. }
  destruct (apply_revision_max s l Hc) as [Hin Hmax].
  destruct (apply_revision_max s l' Hc') as [Hin' Hmax'].
  set (x := foldl apply_revision s l) in *. set (y := foldl apply_revision s l') in *.
  assert (Hxy : x.1 ≤ y.1) by (apply Hmax'; set_solver).
  assert (Hyx : y.1 ≤ x.1) by (apply Hmax; set_solver).
  assert (Heq : x.1 = y.1) by lia.
  assert (x.2 = y.2) by (apply Hc; [done|set_solver|done]).
  destruct x, y; simpl in *; congruence.
Qed.

Lemma revisions_converge_witness :
  foldl apply_revision (1, []) [(3, [x01]); (2, [x02])] =
  foldl apply_revision (1, []) [(2, [x02]); (3, [x01]); (2, [x02])].
Proof.
  apply revisions_converge.
  - intros a b Ha Hb. repeat (apply elem_of_cons in Ha as [->|Ha]; [|]);
      try (by apply not_elem_of_nil in Ha);
      repeat (apply elem_of_cons in Hb as [->|Hb]; [|]);
      try (by apply not_elem_of_nil in Hb); simpl; (reflexivity || discriminate).
  - intros a. set_solver.
Defined.

(** ** Scoped names *)
Definition scoped_name (installation_id name : string) : string :=
  join_nul [installation_id; name].

Lemma scoped_name_inj i n i' n' :
  nul_free i → nul_free i' → scoped_name i n = scoped_name i' n' → i = i' ∧ n = n'.
Proof.
  intros Hi Hi' Heq. apply (f_equal bytes_of) in Heq. unfold scoped_name in Heq.
  rewrite !join_nul_cons in Heq.
  apply sep_app_inj in Heq as [->%(inj bytes_of) Heq%(inj bytes_of)]; [|done..].
  by split.
Qed.

(** ** UUIDs *)
Definition uuid_dashes : list nat := [8; 13; 18; 23]%nat.

Definition is_lower_hex (b : byte) : bool := is_ascii_digit b || byte_in "a" "f" b.

Definition is_canonical_uuid_v7 (value : string) : bool :=
  let bytes := bytes_of value in
  (length bytes =? 36)%nat &&
  forallb (λ i, bool_decide (bytes !! i = Some "-"%byte)) uuid_dashes &&
  forallb (λ p, bool_decide (p.1 ∈ uuid_dashes) || is_lower_hex p.2)
    (zip (seq 0 (length bytes)) bytes) &&
  bool_decide (bytes !! 14%nat = Some "7"%byte) &&
  match bytes !! 19%nat with
  | Some b => bool_decide (b ∈ ["8"; "9"; "a"; "b"]%byte)
  | None => false
  end.

Example uuid_accepted : is_canonical_uuid_v7 "0190163d-8694-739b-aea5-966c26f8ad91" = true.
Proof. by vm_compute. Qed.
Example uuid_v4_rejected : is_canonical_uuid_v7 "0190163d-8694-439b-aea5-966c26f8ad91" = false.
Proof. by vm_compute. Qed.
Example uuid_upper_rejected : is_canonical_uuid_v7 "0190163D-8694-739b-aea5-966c26f8ad91" = false.
Proof. by vm_compute. Qed.

(** ** HMAC *)
Definition xor_byte (a b : byte) : byte :=
  default x00 (Byte.of_N (N.lxor (Byte.to_N a) (Byte.to_N b))).

Definition HMAC_BLOCK_SIZE : nat := 64.

Section Hmac.
Context `{Sha256}.

(** The key, hashed when it is longer than a block, padded to the block. *)
Definition hmac_padded_key (key : list byte) : list byte :=
  let material := if (HMAC_BLOCK_SIZE <? length key)%nat then sha256 key else key in
  material ++ replicate (HMAC_BLOCK_SIZE - length material) x00.

Definition hmac_pad (c : byte) (padded : list byte) : list byte := xor_byte c <$> padded.

Definition hmac_sha256 (key message : list byte) : Checksum :=
  let padded := hmac_padded_key key in
  sha256 (hmac_pad x5c padded ++ sha256 (hmac_pad x36 padded ++ message)).

(** What the inner and the outer hash of the code are applied to. *)
Definition hmac_inner (key message : list byte) : list byte :=
  hmac_pad x36 (hmac_padded_key key) ++ message.
Definition hmac_outer (key message : list byte) : list byte :=
  hmac_pad x5c (hmac_padded_key key) ++ sha256 (hmac_inner key message).

(** Two messages with one code under one key collide in the inner or in the
    outer hash. *)
Lemma hmac_binds_message key m m' :
  hmac_sha256 key m = hmac_sha256 key m' →
  m = m' ∨ collides (hmac_inner key m) (hmac_inner key m') ∨ collides (hmac_outer key m) (hmac_outer key m').
Proof.
  intros Heq.
  destruct (same_or_collides (hmac_outer key m) (hmac_outer key m') Heq) as [Ho|?]; [|by right; right].
  apply app_inv_head in Ho.
  destruct (same_or_collides (hmac_inner key m) (hmac_inner key m') Ho) as [Hm|?]; [|by right; left].
  left. by apply app_inv_head in Hm.
Qed.

Lemma hmac_key_block `{!Sha256Ok} key : length (hmac_padded_key key) = HMAC_BLOCK_SIZE.
Proof.
  unfold hmac_padded_key. rewrite length_app, length_replicate.
  destruct (Nat.ltb_spec HMAC_BLOCK_SIZE (length key)).
  - rewrite (sha256_length key). done.
  - unfold HMAC_BLOCK_SIZE in *. lia.
Qed.
End Hmac.
