(* ===== verification/Registration.v ===== *)
(** * Producers and integration manifests (crates/craftrelay-domain/src/lib.rs)

    Registration of a producer and validation of the manifest an integration
    ships: which events, queries and namespaces it declares and what it may
    ask for. *)
From S2P Require Import Prelude Checksum Metadata Profiles.
Open Scope Z_scope.
#[local] Coercion Z.of_nat : nat >-> Z.

(** ** Classes *)
Inductive ProducerLifecycleState : Type := Active | Disabled | Suspended.

Inductive PriorityClass : Type := P0 | P1 | P2 | Background.
Inductive QuotaClass : Type := QuotaCritical | QuotaStandard | QuotaBulk.
Inductive DurabilityClass : Type := LocalDurable | ReplicatedDurable.
Inductive RetentionClass : Type := RetStandard | RetExtended | RetPermanent.

#[export] Instance ProducerLifecycleState_eq_dec : EqDecision ProducerLifecycleState.
Proof. solve_decision. Defined.
#[export] Instance PriorityClass_eq_dec : EqDecision PriorityClass.
Proof. solve_decision. Defined.

(** The derived orders compare the positions of the constructors. *)
Definition priority_rank (p : PriorityClass) : Z :=
  match p with P0 => 0 | P1 => 1 | P2 => 2 | Background => 3 end.
Definition durability_rank (d : DurabilityClass) : Z :=
  match d with LocalDurable => 0 | ReplicatedDurable => 1 end.
Definition retention_rank (r : RetentionClass) : Z :=
  match r with RetStandard => 0 | RetExtended => 1 | RetPermanent => 2 end.

Record RegisteredProducer : Type := mkRegistered {
  rp_installation_id : string;
  rp_producer_id : string;
  rp_producer_instance_id : string;
  rp_integration_id : string;
  rp_paper_plugin_id : string;
  rp_lifecycle_state : ProducerLifecycleState;
  rp_allowed_namespaces : list string;
  rp_priority_class : PriorityClass;
  rp_quota_class : QuotaClass;
  rp_policy_binding_id : string
}.

(** ** Registration *)
Inductive ProducerRegistrationRejection : Type :=
| RegDuplicate
| RegDisabled
| RegSuspended
| RegCrossInstallation
| RegInvalidManifest
| RegNamespaceDenied.

Definition validate_producer_registration (producer : RegisteredProducer)
    (requested_installation_id : string) (existing_producers : list RegisteredProducer)
  : result unit ProducerRegistrationRejection :=
  let? _ := reject_if (negb (bool_decide (rp_installation_id producer = requested_installation_id)))
              RegCrossInstallation in
  let? _ := match rp_lifecycle_state producer with
            | Disabled => Err RegDisabled
            | Suspended => Err RegSuspended
            | Active => Ok tt
            end in
  let? _ := reject_if (existsb (λ e, bool_decide (rp_producer_id e = rp_producer_id producer) &&
                          bool_decide (rp_installation_id e = rp_installation_id producer))
                         existing_producers) RegDuplicate in
  reject_if (str_is_empty (rp_producer_id producer) || str_is_empty (rp_integration_id producer))
    RegInvalidManifest.

(** ** Manifests *)
Record ManifestEventDeclaration : Type := mkEventDecl {
  me_event_type : string;
  me_min_schema_version : Z;
  me_max_schema_version : Z;
  me_namespace : string;
  me_event_class : string;
  me_requested_durability : DurabilityClass;
  me_requested_retention : RetentionClass;
  me_requested_priority : PriorityClass;
  me_requested_quota : QuotaClass
}.

Record ManifestQueryDeclaration : Type := mkQueryDecl {
  mq_query_id : string;
  mq_min_schema_version : Z;
  mq_max_schema_version : Z
}.

Record ExtendedIntegrationManifest : Type := mkManifest {
  mf_integration_id : string;
  mf_integration_version : Z;
  mf_paper_plugin_id : string;
  mf_producer_id : string;
  mf_events : list ManifestEventDeclaration;
  mf_queries : list ManifestQueryDeclaration;
  mf_namespaces : list string;
  mf_required_durability : DurabilityClass;
  mf_required_retention : RetentionClass;
  mf_requested_priority : PriorityClass;
  mf_requested_quota : QuotaClass;
  mf_max_pending_publishes : Z;
  mf_max_pending_queries : Z;
  mf_max_active_watches : Z
}.

Inductive ManifestViolation : Type :=
| DuplicateEvent
| DuplicateQuery
| DuplicateNamespace
| InvalidEventName
| InvalidQueryName
| InvalidNamespaceName
| UnboundedLimit
| MissingLimit
| BestEffortForbidden
| SelfPromotionForbidden
| InvalidSchemaVersion.

Definition is_valid_identifier (value : string) : bool :=
  let bytes := bytes_of value in
  negb (str_is_empty value) && (length bytes <=? 128)%nat &&
  forallb (λ b, is_ascii_lowercase b || is_ascii_digit b || is_separator b) bytes &&
  match head bytes with Some b => is_ascii_lowercase b | None => false end.

(** [value.is_empty() || !is_valid_identifier(value)] *)
Definition bad_name (value : string) : bool :=
  str_is_empty value || negb (is_valid_identifier value).

(** The violations of one declaration, given the names before it. *)
Definition event_violations (ceiling : PriorityClass) (seen : gset string)
    (event : ManifestEventDeclaration) : list ManifestViolation :=
  push_if (bad_name (me_event_type event)) InvalidEventName ++
  push_if (bool_decide (me_event_type event ∈ seen)) DuplicateEvent ++
  push_if ((me_min_schema_version event <=? 0) || (me_max_schema_version event <=? 0))
    InvalidSchemaVersion ++
  push_if (me_max_schema_version event <? me_min_schema_version event) InvalidSchemaVersion ++
  push_if (bad_name (me_namespace event)) InvalidNamespaceName ++
  push_if (bool_decide (me_event_class event = "BEST_EFFORT")) BestEffortForbidden ++
  push_if (priority_rank (me_requested_priority event) <? priority_rank ceiling)
    SelfPromotionForbidden.

Definition query_violations (seen : gset string) (query : ManifestQueryDeclaration)
  : list ManifestViolation :=
  push_if (bad_name (mq_query_id query)) InvalidQueryName ++
  push_if (bool_decide (mq_query_id query ∈ seen)) DuplicateQuery ++
  push_if ((mq_min_schema_version query <=? 0) || (mq_max_schema_version query <=? 0))
    InvalidSchemaVersion.

Definition namespace_violations (seen : gset string) (ns : string) : list ManifestViolation :=
  push_if (bad_name ns) InvalidNamespaceName ++
  push_if (bool_decide (ns ∈ seen)) DuplicateNamespace.

(** A loop that collects violations and the names it has seen. *)
Fixpoint collect_violations {A V} (name : A → string) (f : gset string → A → list V)
    (seen : gset string) (l : list A) : list V :=
  match l with
  | [] => []
  | x :: l => f seen x ++ collect_violations name f ({[name x]} ∪ seen) l
  end.

Definition manifest_violations (m : ExtendedIntegrationManifest) (ceiling : PriorityClass)
  : list ManifestViolation :=
  push_if (str_is_empty (mf_integration_id m) || str_is_empty (mf_paper_plugin_id m))
    InvalidEventName ++
  push_if (mf_integration_version m <=? 0) InvalidSchemaVersion ++
  push_if ((mf_max_pending_publishes m <=? 0) || (mf_max_pending_queries m <=? 0)
           || (mf_max_active_watches m <=? 0)) MissingLimit ++
  push_if ((4096 <? mf_max_pending_publishes m) || (4096 <? mf_max_pending_queries m)
           || (4096 <? mf_max_active_watches m)) UnboundedLimit ++
  push_if (priority_rank (mf_requested_priority m) <? priority_rank ceiling)
    SelfPromotionForbidden ++
  collect_violations me_event_type (event_violations ceiling) ∅ (mf_events m) ++
  collect_violations mq_query_id query_violations ∅ (mf_queries m) ++
  collect_violations (λ ns, ns) namespace_violations ∅ (mf_namespaces m).

Definition validate_manifest (m : ExtendedIntegrationManifest) (ceiling : PriorityClass)
  : result unit (list ManifestViolation) :=
  match manifest_violations m ceiling with
  | [] => Ok tt
  | violations => Err violations
  end.

(** ** What an accepted manifest promises *)

(** A collecting loop whose duplicate check is on [name] reports nothing exactly
    when the names are distinct and each element is fine by itself. *)
Lemma collect_nil {A V} (name : A → string) (f : gset string → A → list V) (good : A → Prop) :
  (∀ seen x, f seen x = [] ↔ name x ∉ seen ∧ good x) →
  ∀ l seen, collect_violations name f seen l = [] ↔
    NoDup (name <$> l) ∧ (∀ x, x ∈ l → name x ∉ seen) ∧ Forall good l.
Proof.
  intros Hf l. induction l as [|x l IH]; intros seen; simpl.
  - split; [|done]. intros _. split; [constructor|]. split; [|done]. by intros ? ?%not_elem_of_nil.
  - rewrite app_nil, Hf, IH, NoDup_cons, Forall_cons. split.
    + intros ([Hn Hg] & Hnd & Hs & Hall). repeat split; auto.
      * intros (y & Hy & Hin)%list_elem_of_fmap. specialize (Hs y Hin). set_solver.
      * intros y [->|Hin]%elem_of_cons; [done|]. specialize (Hs y Hin). set_solver.
    + intros ([Hn Hnd] & Hs & Hg & Hall). repeat split; auto.
      * apply Hs. by left.
      * intros y Hin [Heq%elem_of_singleton|Hse]%elem_of_union.
        -- apply Hn. apply list_elem_of_fmap. by exists y.
        -- by apply (Hs y); [right|].
Qed.

Lemma bad_name_false n : bad_name n = false ↔ is_valid_identifier n = true.
Proof.
  unfold bad_name. rewrite orb_false_iff, negb_false_iff. split; [tauto|]. intros Hv. split; [|done].
  unfold is_valid_identifier in Hv. by destruct (str_is_empty n).
Qed.

Record event_good (ceiling : PriorityClass) (e : ManifestEventDeclaration) : Prop := {
  eg_name : is_valid_identifier (me_event_type e) = true;
  eg_namespace : is_valid_identifier (me_namespace e) = true;
  eg_versions : 1 ≤ me_min_schema_version e ≤ me_max_schema_version e;
  eg_class : me_event_class e ≠ "BEST_EFFORT";
  eg_priority : priority_rank ceiling ≤ priority_rank (me_requested_priority e)
}.

Record query_good (q : ManifestQueryDeclaration) : Prop := {
  qg_name : is_valid_identifier (mq_query_id q) = true;
  qg_min : 1 ≤ mq_min_schema_version q;
  qg_max : 1 ≤ mq_max_schema_version q
}.

#[local] Hint Rewrite bad_name_false orb_false_iff bool_decide_eq_false : profile.

Lemma event_violations_nil ceiling seen e :
  event_violations ceiling seen e = [] ↔ me_event_type e ∉ seen ∧ event_good ceiling e.
Proof.
  unfold event_violations. autorewrite with profile. split.
  - intros (? & ? & [? ?] & ? & ? & ? & ?). split; [done|]. constructor; auto; lia.
  - intros [Hs [? ? ? ? ?]]. repeat split; auto; lia.
Qed.

Lemma query_violations_nil seen q :
  query_violations seen q = [] ↔ mq_query_id q ∉ seen ∧ query_good q.
Proof.
  unfold query_violations. autorewrite with profile. split.
  - intros (? & ? & [? ?]). split; [done|]. constructor; auto; lia.
  - intros [Hs [? ? ?]]. repeat split; auto; lia.
Qed.

Lemma namespace_violations_nil seen ns :
  namespace_violations seen ns = [] ↔ ns ∉ seen ∧ is_valid_identifier ns = true.
Proof. unfold namespace_violations. autorewrite with profile. tauto. Qed.

Definition limit_ok (n : Z) : Prop := 1 ≤ n ≤ 4096.

(** C35. A manifest is accepted exactly when it is well formed: names of the
    identifier alphabet, events, queries and namespaces without duplicates,
    ordered schema versions of events, every limit between 1 and 4096, no
    best-effort event, and no priority above the ceiling anywhere. *)
Theorem manifest_accepted_iff (m : ExtendedIntegrationManifest) (ceiling : PriorityClass) :
  validate_manifest m ceiling = Ok tt ↔
  (mf_integration_id m ≠ "" ∧ mf_paper_plugin_id m ≠ "" ∧ 1 ≤ mf_integration_version m) ∧
  (limit_ok (mf_max_pending_publishes m) ∧ limit_ok (mf_max_pending_queries m) ∧
   limit_ok (mf_max_active_watches m)) ∧
  priority_rank ceiling ≤ priority_rank (mf_requested_priority m) ∧
  (NoDup (me_event_type <$> mf_events m) ∧ Forall (event_good ceiling) (mf_events m)) ∧
  (NoDup (mq_query_id <$> mf_queries m) ∧ Forall query_good (mf_queries m)) ∧
  NoDup (mf_namespaces m) ∧ Forall (λ ns, is_valid_identifier ns = true) (mf_namespaces m).
Proof.
  transitivity (manifest_violations m ceiling = []).
  { unfold validate_manifest. by destruct (manifest_violations m ceiling). }
  unfold manifest_violations, limit_ok. autorewrite with profile.
  rewrite (collect_nil _ _ (event_good ceiling) (event_violations_nil ceiling)).
  rewrite (collect_nil _ _ query_good query_violations_nil).
  rewrite (collect_nil _ _ (λ ns, is_valid_identifier ns = true) namespace_violations_nil).
  rewrite list_fmap_id.
  assert (He : ∀ s, str_is_empty s = false ↔ s ≠ "") by (by intros []).
  rewrite !He. split; [intros; repeat split; tauto || lia|].
  intros; repeat split; first [tauto|lia|set_solver].
Qed.
