(* ===== verification/Acl.v ===== *)
(** * Access control (crates/craftrelay-domain/src/lib.rs)

    Credentials, rules and their evaluation: the installation must match, the
    credential must be active, and then the matching rule of the highest
    priority decides, the first of them when several have it. *)
From S2P Require Import Prelude Checksum.
Open Scope Z_scope.
#[local] Coercion Z.of_nat : nat >-> Z.

Inductive CredentialKind : Type := SharedSecret | MtlsCertificate | IpcToken | FakeTestOnly.
Inductive CredentialStatus : Type := CredActive | CredRevoked | CredExpired | CredUnknown.

Record CredentialReference : Type := mkCredential {
  cr_credential_id : string;
  cr_kind : CredentialKind;
  cr_revision : Z;
  cr_status : CredentialStatus;
  cr_installation_id : string
}.

Inductive AclAction : Type := Publish | Query | Watch | Admin.
Inductive AclDecision : Type := Allow | Deny.
Inductive AclDenyReason : Type :=
| NoMatchingRule
| ExplicitDeny
| CredentialInvalid
| CredentialRevoked
| CredentialExpired
| AclCrossInstallation
| AclNamespaceDenied.

#[export] Instance AclAction_eq_dec : EqDecision AclAction.
Proof. solve_decision. Defined.
#[export] Instance AclDecision_eq_dec : EqDecision AclDecision.
Proof. solve_decision. Defined.

Record AclPrincipal : Type := mkPrincipal {
  ap_producer_id : string;
  ap_installation_id : string;
  ap_credential : CredentialReference
}.

Record AclRule : Type := mkRule {
  ar_rule_id : string;
  ar_action : AclAction;
  ar_namespace_pattern : string;
  ar_decision : AclDecision;
  ar_priority : Z
}.

Record AclEvaluationResult : Type := mkAclResult {
  ae_decision : AclDecision;
  ae_deny_reason : option AclDenyReason;
  ae_matched_rule_id : option string;
  ae_policy_version : Z
}.

(** [strip_suffix]: the text before the suffix. *)
Definition strip_suffix (suffix s : string) : option (list byte) :=
  let b := bytes_of s in
  let n := (length b - length (bytes_of suffix))%nat in
  if bool_decide (b = take n b ++ bytes_of suffix) then Some (take n b) else None.

Definition starts_with (prefix b : list byte) : bool :=
  bool_decide (take (length prefix) b = prefix).

Definition namespace_matches (pattern namespace : string) : bool :=
  if bool_decide (pattern = "*") then true
  else
    match strip_suffix ".*" pattern with
    | Some prefix =>
        starts_with prefix (bytes_of namespace) &&
        (length prefix <? length (bytes_of namespace))%nat
    | None => bool_decide (pattern = namespace)
    end.

(** [sort_by(|a, b| b.priority.cmp(&a.priority))] is stable: a rule is put in
    front of the later ones that do not exceed its priority. *)
Fixpoint insert_rule (r : AclRule) (l : list AclRule) : list AclRule :=
  match l with
  | [] => [r]
  | x :: l => if ar_priority x <=? ar_priority r then r :: x :: l else x :: insert_rule r l
  end.

Definition sort_rules (l : list AclRule) : list AclRule := foldr insert_rule [] l.

Definition acl_denied (reason : AclDenyReason) (policy_version : Z) : AclEvaluationResult :=
  mkAclResult Deny (Some reason) None policy_version.

Definition evaluate_acl (principal : AclPrincipal) (scope_installation_id scope_namespace : string)
    (action : AclAction) (rules : list AclRule) (policy_version : Z) : AclEvaluationResult :=
  if negb (bool_decide (ap_installation_id principal = scope_installation_id)) then
    acl_denied AclCrossInstallation policy_version
  else
    match cr_status (ap_credential principal) with
    | CredRevoked => acl_denied CredentialRevoked policy_version
    | CredExpired => acl_denied CredentialExpired policy_version
    | CredUnknown => acl_denied CredentialInvalid policy_version
    | CredActive =>
        let sorted_rules := sort_rules (filter (λ r, ar_action r = action) rules) in
        match find (λ r, namespace_matches (ar_namespace_pattern r) scope_namespace) sorted_rules with
        | Some rule =>
            mkAclResult (ar_decision rule)
              (if decide (ar_decision rule = Deny) then Some ExplicitDeny else None)
              (Some (ar_rule_id rule)) policy_version
        | None => acl_denied NoMatchingRule policy_version
        end
    end.

(** ** The deciding rule *)

(** The rule that decides among [l]: the first of the highest priority that
    satisfies [p]. *)
Fixpoint best (p : AclRule → bool) (l : list AclRule) : option AclRule :=
  match l with
  | [] => None
  | r :: l =>
      if p r then
        match best p l with
        | Some b => if ar_priority b <=? ar_priority r then Some r else Some b
        | None => Some r
        end
      else best p l
  end.

Definition descending : list AclRule → Prop :=
  StronglySorted (λ a b, ar_priority b ≤ ar_priority a).

Lemma insert_rule_elem r l x : x ∈ insert_rule r l ↔ x = r ∨ x ∈ l.
Proof.
  induction l as [|y l IH]; simpl; [set_solver|]. case_match; rewrite !elem_of_cons, ?IH; tauto.
Qed.

Lemma insert_rule_sorted r l : descending l → descending (insert_rule r l).
Proof.
  induction 1 as [|x l Hs IH Hall]; simpl; [repeat constructor|].
  rewrite Forall_forall in Hall. destruct (Z.leb_spec (ar_priority x) (ar_priority r)).
  - constructor; [by constructor; [|rewrite Forall_forall]|]. apply Forall_forall.
    intros y [->|Hy]%elem_of_cons; [done|]. specialize (Hall y Hy). simpl in *. lia.
  - constructor; [done|]. apply Forall_forall. intros y [->|Hy]%insert_rule_elem; [lia|by apply Hall].
Qed.

Lemma sort_rules_sorted l : descending (sort_rules l).
Proof. induction l; simpl; [constructor|by apply insert_rule_sorted]. Qed.

(** The first match of a sorted list has the highest priority. *)
Lemma find_insert p r l :
  descending l →
  find p (insert_rule r l) =
  if p r then
    match find p l with
    | Some b => if ar_priority b <=? ar_priority r then Some r else Some b
    | None => Some r
    end
  else find p l.
Proof.
  induction 1 as [|x l Hs IH Hall]; simpl; [by destruct (p r)|].
  rewrite Forall_forall in Hall.
  destruct (Z.leb_spec (ar_priority x) (ar_priority r)) as [Hle|Hlt]; simpl.
  - destruct (p r) eqn:Hr; [|done]. destruct (p x) eqn:Hx.
    + by rewrite (proj2 (Z.leb_le _ _)) by done.
    + destruct (find p l) as [b|] eqn:Hf; [|done].
      apply find_some in Hf as [Hin _]. apply list_elem_of_In in Hin.
      specialize (Hall b Hin). simpl in Hall. by rewrite (proj2 (Z.leb_le _ _)) by lia.
  - destruct (p x) eqn:Hx; [|done]. rewrite (proj2 (Z.leb_gt _ _)) by done. by destruct (p r).
Qed.

Lemma find_sort p l : find p (sort_rules l) = best p l.
Proof.
  induction l as [|r l IH]; [done|]. simpl. rewrite find_insert by apply sort_rules_sorted.
  by rewrite IH.
Qed.

(** The deciding rule, without reference to the algorithm. *)
Definition decides (p : AclRule → bool) (l : list AclRule) (r : AclRule) : Prop :=
  ∃ i, l !! i = Some r ∧ p r = true ∧
    ∀ k r', l !! k = Some r' → p r' = true →
      ar_priority r' < ar_priority r ∨ ar_priority r' = ar_priority r ∧ (i ≤ k)%nat.

Lemma best_decides p l :
  match best p l with
  | Some r => decides p l r
  | None => ∀ r, r ∈ l → p r = false
  end.
Proof.
  induction l as [|x l IH]; simpl; [by intros r ?%not_elem_of_nil|].
  destruct (p x) eqn:Hx.
  - destruct (best p l) as [b|].
    + destruct IH as (i & Hi & Hb & Hall).
      destruct (Z.leb_spec (ar_priority b) (ar_priority x)) as [Hle|Hlt].
      * exists 0%nat. split; [done|]. split; [done|]. intros [|k] r' Hk Hr'; simpl in Hk.
        -- simplify_eq. right. split; [done|lia].
        -- destruct (Hall k r' Hk Hr') as [?|[? _]]; [left; lia|].
           destruct (Z.lt_total (ar_priority r') (ar_priority x)) as [?|[?|?]];
             [by left|right; split; [done|lia]|lia].
      * exists (S i). split; [done|]. split; [done|]. intros [|k] r' Hk Hr'; simpl in Hk.
        -- simplify_eq. by left.
        -- destruct (Hall k r' Hk Hr') as [?|[? ?]]; [by left|right; split; [done|lia]].
    + exists 0%nat. split; [done|]. split; [done|]. intros [|k] r' Hk Hr'; simpl in Hk.
      * simplify_eq. right. split; [done|lia].
      * apply list_elem_of_lookup_2, IH in Hk. congruence.
  - destruct (best p l) as [b|].
    + destruct IH as (i & Hi & Hb & Hall). exists (S i). split; [done|]. split; [done|].
      intros [|k] r' Hk Hr'; simpl in Hk; [simplify_eq; congruence|].
      destruct (Hall k r' Hk Hr') as [?|[? ?]]; [by left|right; split; [done|lia]].
    + intros r [->|Hr]%elem_of_cons; [done|by apply IH].
Qed.

(** The rules of an action that match a namespace. *)
Definition applies (namespace : string) (r : AclRule) : bool :=
  namespace_matches (ar_namespace_pattern r) namespace.

(** C29. Access is denied unless a rule allows it.  A request is allowed exactly
    when the principal belongs to the installation, its credential is active, and
    among the rules for the action that match the namespace there is one of
    highest priority, the earliest of these, and it says [Allow]; the result
    names that rule, and every denial carries a reason. *)
Theorem acl_exact (principal : AclPrincipal) (inst ns : string) (action : AclAction)
    (rules : list AclRule) (version : Z) :
  let res := evaluate_acl principal inst ns action rules version in
  let candidates := filter (λ r, ar_action r = action) rules in
  (ae_decision res = Allow ↔
     ap_installation_id principal = inst ∧ cr_status (ap_credential principal) = CredActive ∧
     ∃ r, decides (applies ns) candidates r ∧ ar_decision r = Allow ∧
          ae_matched_rule_id res = Some (ar_rule_id r)) ∧
  (ae_decision res = Deny ↔ is_Some (ae_deny_reason res)) ∧
  ae_policy_version res = version.
Proof.
  intros res candidates. unfold res, evaluate_acl.
  case_bool_decide as Hi; simpl; [|naive_solver].
  destruct (cr_status (ap_credential principal)) eqn:Hc; simpl; try naive_solver.
  fold candidates. fold (applies ns). rewrite find_sort.
  pose proof (best_decides (applies ns) candidates) as Hb.
  destruct (best (applies ns) candidates) as [r|]; simpl.
  - split; [|split; [|done]].
    + split; [intros Hd; repeat split; eauto|]. intros (_ & _ & r' & Hdec & Hd & _).
      destruct Hb as (i & Hri & Hr & Hall), Hdec as (k & Hk & Hr' & Hall').
      assert (i = k) as ->.
      { destruct (Hall k r' Hk Hr') as [?|[? ?]], (Hall' i r Hri Hr) as [?|[? ?]]; lia. }
      congruence.
    + destruct (ar_decision r); simpl; naive_solver.
  - split; [|naive_solver]. split; [done|].
    intros (_ & _ & r & (i & Hri & Hr & _) & _). apply list_elem_of_lookup_2, Hb in Hri. congruence.
Qed.

Lemma strip_suffix_app p s : strip_suffix s (p +:+ s) = Some (bytes_of p).
Proof.
  unfold strip_suffix. rewrite bytes_of_app, length_app.
  replace (length (bytes_of p) + length (bytes_of s) - length (bytes_of s))%nat
    with (length (bytes_of p)) by lia.
  rewrite take_app_length. by rewrite bool_decide_eq_true_2.
Qed.

(** A namespace wildcard does not stop at a dot.  The pattern "p.*" matches
    every namespace that continues p by at least one character, whether or not
    that character is a dot: a rule for "economy.*" also covers "economyx". *)
Theorem wildcard_ignores_dot (p s : string) :
  s ≠ "" → namespace_matches (p +:+ ".*") (p +:+ s) = true.
Proof.
  intros Hs. unfold namespace_matches. rewrite strip_suffix_app.
  case_bool_decide; [done|]. rewrite bytes_of_app. unfold starts_with.
  rewrite take_app_length, bool_decide_eq_true_2 by done. simpl. apply Nat.ltb_lt.
  rewrite length_app. destruct s; [done|]. rewrite bytes_of_cons. simpl. lia.
Qed.

Lemma wildcard_ignores_dot_witness : namespace_matches "economy.*" "economyx" = true.
Proof. apply (wildcard_ignores_dot "economy" "x"). discriminate. Defined.
