(* ===== verification/Policy.v ===== *)
(** * Policy, ownership and admission (crates/craftrelay-domain/src/lib.rs)

    The resolution of what a producer asked for against the installation's
    policy, the ownership of namespaces, and the admission of a publish under
    the quotas.  [None] stands for the panic of [clamp] on inverted bounds. *)
From S2P Require Import Prelude Checksum Metadata Profiles Registration Acl.
Open Scope Z_scope.
#[local] Coercion Z.of_nat : nat >-> Z.

(** ** Flush policy *)

(** [RequestedFlushCriteria] and [EffectiveFlushCriteria] *)
Record FlushCriteria : Type := mkFlush {
  fc_max_records : Z;
  fc_max_bytes : Z;
  fc_max_age_millis : Z
}.

#[export] Instance FlushCriteria_eq_dec : EqDecision FlushCriteria.
Proof. solve_decision. Defined.

Definition should_flush (c : FlushCriteria) (records bytes age_millis : Z) (draining : bool) : bool :=
  draining || (fc_max_records c <=? records) || (fc_max_bytes c <=? bytes)
  || (fc_max_age_millis c <=? age_millis).

Inductive PolicyDecision : Type :=
| FlushAccepted
| FlushClamped (c : FlushCriteria)
| FlushRejected.

Record FlushPolicyBounds : Type := mkBounds {
  fb_minimum : FlushCriteria;
  fb_maximum : FlushCriteria
}.

(** [Ord::clamp]: it panics when the bounds are inverted. *)
Definition clamp (x lo hi : Z) : option Z :=
  if hi <? lo then None else Some (if x <? lo then lo else if hi <? x then hi else x).

Definition resolve_flush_policy (requested : FlushCriteria) (bounds : FlushPolicyBounds)
    (reject_if_clamped : bool) : option PolicyDecision :=
  if (fc_max_records requested <=? 0) || (fc_max_bytes requested <=? 0)
     || (fc_max_age_millis requested <=? 0) then Some FlushRejected
  else
    records ← clamp (fc_max_records requested) (fc_max_records (fb_minimum bounds))
                (fc_max_records (fb_maximum bounds));
    bytes ← clamp (fc_max_bytes requested) (fc_max_bytes (fb_minimum bounds))
              (fc_max_bytes (fb_maximum bounds));
    age ← clamp (fc_max_age_millis requested) (fc_max_age_millis (fb_minimum bounds))
            (fc_max_age_millis (fb_maximum bounds));
    let effective := mkFlush records bytes age in
    Some (if (records =? fc_max_records requested) && (bytes =? fc_max_bytes requested)
             && (age =? fc_max_age_millis requested) then FlushAccepted
          else if reject_if_clamped then FlushRejected
          else FlushClamped effective).

Definition semantic_coalescing_allowed (event_class : string) : bool :=
  negb (bool_decide (event_class ∈ ["P0_LEDGER"; "P0_OWNERSHIP"; "P0_PREMIUM";
                                    "P0_UNIQUE_ITEM"; "P0_SECURITY"])).

(** ** Policy resolution *)
Inductive PolicyRejectionReason : Type :=
| SelfPromotion
| DurabilityWeakening
| RetentionWeakening
| ProjectionBypass
| InstallationEscape
| PolBestEffortForbidden
| InvalidPolicyBinding
| UnknownPolicyBinding
| AclDenied
| PolProducerDisabled
| PolProducerSuspended
| PolCrossInstallation
| PolNotLocallyOwned
| QuotaExceeded.

Inductive AdmissionDecision : Type := AdmAdmitted | AdmRejected.

Record PolicyResolutionContext : Type := mkContext {
  px_installation_id : string;
  px_producer : RegisteredProducer;
  px_acl_result : AclEvaluationResult;
  px_ownership_snapshot_id : string;
  px_namespace : string;
  px_requested_durability : DurabilityClass;
  px_requested_retention : RetentionClass;
  px_requested_projection_policy_id : string;
  px_requested_priority : PriorityClass;
  px_requested_quota : QuotaClass;
  px_requested_flush : FlushCriteria
}.

Record EffectivePolicyResult : Type := mkEffective {
  ep_producer_id : string;
  ep_namespace : string;
  ep_durability : DurabilityClass;
  ep_retention : RetentionClass;
  ep_projection_policy_id : string;
  ep_quota_class : QuotaClass;
  ep_priority_class : PriorityClass;
  ep_flush : FlushCriteria;
  ep_policy_version : Z;
  ep_ownership_snapshot_id : string;
  ep_admission_decision : AdmissionDecision;
  ep_rejection_reason : option PolicyRejectionReason;
  ep_decision_detail : string
}.

Record PolicyConfiguration : Type := mkPolicyConfig {
  pc_installation_id : string;
  pc_minimum_durability : DurabilityClass;
  pc_minimum_retention : RetentionClass;
  pc_required_projection_policy_id : option string;
  pc_priority_ceiling : PriorityClass;
  pc_valid_policy_bindings : list string;
  pc_flush_bounds : FlushPolicyBounds;
  pc_policy_version : Z
}.

Definition policy_rejected (ctx : PolicyResolutionContext) (config : PolicyConfiguration)
    (reason : PolicyRejectionReason) (detail : string) : EffectivePolicyResult :=
  mkEffective (rp_producer_id (px_producer ctx)) (px_namespace ctx)
    (pc_minimum_durability config) (pc_minimum_retention config)
    (default "" (pc_required_projection_policy_id config))
    (rp_quota_class (px_producer ctx)) (rp_priority_class (px_producer ctx))
    (fb_minimum (pc_flush_bounds config)) (pc_policy_version config)
    (px_ownership_snapshot_id ctx) AdmRejected (Some reason) detail.

(** The checks before the flush criteria, in their order. *)
Definition policy_checks (ctx : PolicyResolutionContext) (config : PolicyConfiguration)
    (owned_namespaces : list string) : result unit (PolicyRejectionReason * string) :=
  let? _ := reject_if (negb (bool_decide (px_installation_id ctx = pc_installation_id config)))
              (InstallationEscape, "producer cannot escape installation scope") in
  let? _ := reject_if (negb (bool_decide (rp_installation_id (px_producer ctx) =
                                          px_installation_id ctx)))
              (PolCrossInstallation, "producer installation does not match request") in
  let? _ := match rp_lifecycle_state (px_producer ctx) with
            | Disabled => Err (PolProducerDisabled, "producer is disabled")
            | Suspended => Err (PolProducerSuspended, "producer is suspended")
            | Active => Ok tt
            end in
  let? _ := reject_if (bool_decide (ae_decision (px_acl_result ctx) = Deny))
              (AclDenied, "ACL denied") in
  let? _ := reject_if (durability_rank (px_requested_durability ctx) <?
                       durability_rank (pc_minimum_durability config))
              (DurabilityWeakening, "cannot weaken durability below installation minimum") in
  let? _ := reject_if (retention_rank (px_requested_retention ctx) <?
                       retention_rank (pc_minimum_retention config))
              (RetentionWeakening, "cannot weaken retention below installation minimum") in
  let? _ := reject_if
              (match pc_required_projection_policy_id config with
               | Some required =>
                   negb (str_is_empty (px_requested_projection_policy_id ctx)) &&
                   negb (bool_decide (px_requested_projection_policy_id ctx = required))
               | None => false
               end) (ProjectionBypass, "cannot bypass required projection policy") in
  let? _ := reject_if (priority_rank (px_requested_priority ctx) <?
                       priority_rank (pc_priority_ceiling config))
              (SelfPromotion, "producer cannot self-promote above priority ceiling") in
  let? _ := reject_if (negb (str_is_empty (rp_policy_binding_id (px_producer ctx))) &&
                       negb (bool_decide (rp_policy_binding_id (px_producer ctx)
                                            ∈ pc_valid_policy_bindings config)))
              (UnknownPolicyBinding, "producer policy binding is not recognized") in
  reject_if (negb (bool_decide (px_namespace ctx ∈ owned_namespaces)))
    (PolNotLocallyOwned, "namespace is not locally owned").

Definition policy_admitted (ctx : PolicyResolutionContext) (config : PolicyConfiguration)
    (effective_flush : FlushCriteria) : EffectivePolicyResult :=
  mkEffective (rp_producer_id (px_producer ctx)) (px_namespace ctx)
    (px_requested_durability ctx) (px_requested_retention ctx)
    (default (px_requested_projection_policy_id ctx) (pc_required_projection_policy_id config))
    (rp_quota_class (px_producer ctx)) (rp_priority_class (px_producer ctx))
    effective_flush (pc_policy_version config) (px_ownership_snapshot_id ctx)
    AdmAdmitted None "policy resolved successfully".

Definition resolve_policy (ctx : PolicyResolutionContext) (config : PolicyConfiguration)
    (owned_namespaces : list string) : option EffectivePolicyResult :=
  match policy_checks ctx config owned_namespaces with
  | Err (reason, detail) => Some (policy_rejected ctx config reason detail)
  | Ok _ =>
      decision ← resolve_flush_policy (px_requested_flush ctx) (pc_flush_bounds config) false;
      Some (match decision with
            | FlushAccepted => policy_admitted ctx config (px_requested_flush ctx)
            | FlushClamped clamped => policy_admitted ctx config clamped
            | FlushRejected =>
                policy_rejected ctx config InvalidPolicyBinding
                  "requested flush criteria rejected by policy"
            end)
  end.

(** ** Ownership *)
Inductive OwnershipMode : Type := NodeLocal.

#[export] Instance OwnershipMode_eq_dec : EqDecision OwnershipMode.
Proof. solve_decision. Defined.

Record OwnershipSnapshotId : Type := mkSnapshotId {
  os_snapshot_id : string;
  os_snapshot_version : Z
}.

Record NamespaceOwnershipEntry : Type := mkOwnership {
  no_namespace : string;
  no_owner_node_id : string;
  no_owner_agent_id : string;
  no_installation_id : string;
  no_mode : OwnershipMode
}.

Record OwnershipSnapshot : Type := mkSnapshot {
  ow_id : OwnershipSnapshotId;
  ow_installation_id : string;
  ow_node_id : string;
  ow_mode : OwnershipMode;
  ow_entries : list NamespaceOwnershipEntry
}.

Inductive OwnershipViolation : Type :=
| MissingOwner
| OwDuplicateNamespace
| OwCrossInstallation
| UnsupportedMode
| DynamicElectionForbidden
| AmbiguousOwnership
| OwNotLocallyOwned.

Definition ownership_violations (installation_id : string) (seen : gset string)
    (entry : NamespaceOwnershipEntry) : list OwnershipViolation :=
  push_if (str_is_empty (no_owner_node_id entry) || str_is_empty (no_owner_agent_id entry))
    MissingOwner ++
  push_if (bool_decide (no_namespace entry ∈ seen)) OwDuplicateNamespace ++
  push_if (negb (bool_decide (no_installation_id entry = installation_id))) OwCrossInstallation ++
  push_if (negb (bool_decide (no_mode entry = NodeLocal))) UnsupportedMode.

Definition validate_ownership_snapshot (snapshot : OwnershipSnapshot)
  : result unit (list OwnershipViolation) :=
  match push_if (negb (bool_decide (ow_mode snapshot = NodeLocal))) UnsupportedMode ++
        collect_violations no_namespace (ownership_violations (ow_installation_id snapshot)) ∅
          (ow_entries snapshot) with
  | [] => Ok tt
  | violations => Err violations
  end.

Definition is_namespace_locally_owned (snapshot : OwnershipSnapshot) (namespace : string) : bool :=
  existsb (λ e, bool_decide (no_namespace e = namespace) &&
                bool_decide (no_owner_node_id e = ow_node_id snapshot)) (ow_entries snapshot).

(** ** Admission *)
Record ProducerQuotaState : Type := mkProducerQuota {
  pq_producer_id : string;
  pq_in_flight_publishes : Z;
  pq_max_in_flight_publishes : Z;
  pq_queued_publishes : Z;
  pq_max_queued_publishes : Z;
  pq_in_flight_bytes : Z;
  pq_max_in_flight_bytes : Z
}.

Record NamespaceQuotaState : Type := mkNamespaceQuota {
  nq_namespace : string;
  nq_in_flight_publishes : Z;
  nq_max_in_flight_publishes : Z
}.

Record GlobalQuotaState : Type := mkGlobalQuota {
  gq_in_flight_publishes : Z;
  gq_max_in_flight_publishes : Z;
  gq_reserved_p0_capacity : Z;
  gq_used_p0_capacity : Z
}.

Inductive AdmissionRejectionReason : Type :=
| ProducerInFlightExceeded
| ProducerQueueExceeded
| ProducerBytesExceeded
| NamespaceInFlightExceeded
| GlobalInFlightExceeded
| P0CapacityReserved
| AdmProducerDisabled
| ProducerUnauthorized
| AdmNotLocallyOwned.

Record AdmissionResult : Type := mkAdmission {
  ad_decision : AdmissionDecision;
  ad_rejection_reason : option AdmissionRejectionReason;
  ad_rejection_detail : string
}.

Definition admission_checks (producer : RegisteredProducer) (pq : ProducerQuotaState)
    (nq : NamespaceQuotaState) (gq : GlobalQuotaState) (payload_bytes : Z)
    (namespace_owned : bool) : result unit (AdmissionRejectionReason * string) :=
  let? _ := reject_if (bool_decide (rp_lifecycle_state producer = Disabled))
              (AdmProducerDisabled, "producer is disabled") in
  let? _ := reject_if (negb namespace_owned)
              (AdmNotLocallyOwned, "namespace is not locally owned by this node") in
  let? _ := reject_if (pq_max_in_flight_publishes pq <=? pq_in_flight_publishes pq)
              (ProducerInFlightExceeded, "producer in-flight publish limit reached") in
  let? _ := reject_if (pq_max_queued_publishes pq <=? pq_queued_publishes pq)
              (ProducerQueueExceeded, "producer queued publish limit reached") in
  let? _ := reject_if (pq_max_in_flight_bytes pq <? i64_add (pq_in_flight_bytes pq) payload_bytes)
              (ProducerBytesExceeded, "producer in-flight bytes limit would be exceeded") in
  let? _ := reject_if (nq_max_in_flight_publishes nq <=? nq_in_flight_publishes nq)
              (NamespaceInFlightExceeded, "namespace in-flight publish limit reached") in
  let available_global := i32_sub (gq_max_in_flight_publishes gq) (gq_in_flight_publishes gq) in
  let? _ := reject_if (available_global <=? 0)
              (GlobalInFlightExceeded, "global in-flight publish limit reached") in
  let remaining_p0 := i32_sub (gq_reserved_p0_capacity gq) (gq_used_p0_capacity gq) in
  reject_if (negb (bool_decide (rp_priority_class producer = P0)) &&
             (i32_sub available_global (Z.max remaining_p0 0) <=? 0))
    (P0CapacityReserved, "lower-priority producer cannot consume reserved P0 capacity").

Definition evaluate_admission (producer : RegisteredProducer) (pq : ProducerQuotaState)
    (nq : NamespaceQuotaState) (gq : GlobalQuotaState) (payload_bytes : Z)
    (namespace_owned : bool) : AdmissionResult :=
  match admission_checks producer pq nq gq payload_bytes namespace_owned with
  | Err (reason, detail) => mkAdmission AdmRejected (Some reason) detail
  | Ok _ => mkAdmission AdmAdmitted None "admitted"
  end.

(** ** What resolution promises *)
Definition within (lo hi x : Z) : Prop := lo ≤ x ≤ hi.

Record flush_within (b : FlushPolicyBounds) (c : FlushCriteria) : Prop := {
  fw_records : within (fc_max_records (fb_minimum b)) (fc_max_records (fb_maximum b)) (fc_max_records c);
  fw_bytes : within (fc_max_bytes (fb_minimum b)) (fc_max_bytes (fb_maximum b)) (fc_max_bytes c);
  fw_age : within (fc_max_age_millis (fb_minimum b)) (fc_max_age_millis (fb_maximum b))
             (fc_max_age_millis c)
}.

(** Bounds that are not inverted: the minimum is within them. *)
Definition bounds_ok (b : FlushPolicyBounds) : Prop := flush_within b (fb_minimum b).

Definition flush_positive (c : FlushCriteria) : Prop :=
  0 < fc_max_records c ∧ 0 < fc_max_bytes c ∧ 0 < fc_max_age_millis c.

Lemma clamp_spec x lo hi : lo ≤ hi → ∃ y, clamp x lo hi = Some y ∧ within lo hi y ∧ (within lo hi x → y = x).
Proof.
  intros Hle. unfold clamp, within. rewrite (proj2 (Z.ltb_ge _ _)) by done. eexists. split; [done|].
  destruct (Z.ltb_spec x lo), (Z.ltb_spec hi x); lia.
Qed.

Lemma flush_resolved requested b :
  bounds_ok b →
  if decide (flush_positive requested)
  then ∃ c, flush_within b c ∧ (flush_within b requested → c = requested) ∧
       (resolve_flush_policy requested b false = Some FlushAccepted ∧ c = requested ∨
        resolve_flush_policy requested b false = Some (FlushClamped c))
  else resolve_flush_policy requested b false = Some FlushRejected.
Proof.
  intros [[_ H1] [_ H2] [_ H3]]. unfold resolve_flush_policy. case_decide as Hp.
  - destruct Hp as (Hr & Hb & Ha).
    rewrite (proj2 (Z.leb_gt (fc_max_records requested) 0)), (proj2 (Z.leb_gt (fc_max_bytes requested) 0)),
      (proj2 (Z.leb_gt (fc_max_age_millis requested) 0)) by done. simpl.
    destruct (clamp_spec (fc_max_records requested) _ _ H1) as (x & -> & Hx & Hx').
    destruct (clamp_spec (fc_max_bytes requested) _ _ H2) as (y & -> & Hy & Hy').
    destruct (clamp_spec (fc_max_age_millis requested) _ _ H3) as (z & -> & Hz & Hz'). simpl.
    exists (mkFlush x y z). split; [by constructor|]. split.
    { intros [Hwx Hwy Hwz]. destruct requested; simpl in *. by rewrite Hx', Hy', Hz'. }
    destruct (Z.eqb_spec x (fc_max_records requested)), (Z.eqb_spec y (fc_max_bytes requested)),
      (Z.eqb_spec z (fc_max_age_millis requested)); simpl; auto.
    left. split; [done|]. destruct requested; simpl in *. congruence.
  - destruct (Z.leb_spec (fc_max_records requested) 0), (Z.leb_spec (fc_max_bytes requested) 0),
      (Z.leb_spec (fc_max_age_millis requested) 0); try done.
    exfalso. by apply Hp.
Qed.

Record policy_conditions (ctx : PolicyResolutionContext) (config : PolicyConfiguration)
    (owned : list string) : Prop := {
  pk_installation : px_installation_id ctx = pc_installation_id config;
  pk_producer : rp_installation_id (px_producer ctx) = px_installation_id ctx;
  pk_active : rp_lifecycle_state (px_producer ctx) = Active;
  pk_acl : ae_decision (px_acl_result ctx) = Allow;
  pk_durability : durability_rank (pc_minimum_durability config) ≤
                  durability_rank (px_requested_durability ctx);
  pk_retention : retention_rank (pc_minimum_retention config) ≤
                 retention_rank (px_requested_retention ctx);
  pk_projection : ∀ required, pc_required_projection_policy_id config = Some required →
    px_requested_projection_policy_id ctx = "" ∨ px_requested_projection_policy_id ctx = required;
  pk_priority : priority_rank (pc_priority_ceiling config) ≤ priority_rank (px_requested_priority ctx);
  pk_binding : rp_policy_binding_id (px_producer ctx) = "" ∨
    rp_policy_binding_id (px_producer ctx) ∈ pc_valid_policy_bindings config;
  pk_owned : px_namespace ctx ∈ owned
}.

#[local] Hint Rewrite bool_decide_eq_false bool_decide_eq_true : profile.

Lemma active_ok {E} st (d s : E) :
  match st with Disabled => Err d | Suspended => Err s | Active => Ok tt end = Ok tt ↔ st = Active.
Proof. by destruct st. Qed.

Lemma projection_ok req ctxreq :
  match req with
  | Some required => negb (str_is_empty ctxreq) && negb (bool_decide (ctxreq = required))
  | None => false
  end = false ↔ ∀ required, req = Some required → ctxreq = "" ∨ ctxreq = required.
Proof.
  destruct req as [r|]; [|naive_solver].
  rewrite andb_false_iff, !negb_false_iff, bool_decide_eq_true, str_is_empty_true. naive_solver.
Qed.

Lemma policy_checks_ok ctx config owned :
  policy_checks ctx config owned = Ok tt ↔ policy_conditions ctx config owned.
Proof.
  unfold policy_checks. autorewrite with profile.
  rewrite active_ok, projection_ok, str_is_empty_true.
  split.
  - intros (? & ? & ? & Ha & ? & ? & ? & ? & ? & ?). constructor; auto.
    by destruct (ae_decision (px_acl_result ctx)).
  - intros []. repeat split; auto. congruence.
Qed.

(** C27. Policy resolution never weakens the installation's policy.  With bounds
    that are not inverted, resolution always answers; it admits exactly the
    requests of an active producer of this installation that the ACL allows, for
    an owned namespace, with a known binding, at least the minimum durability
    and retention, no priority above the ceiling, no bypass of the required
    projection, and positive flush criteria; and what it grants has flush
    criteria within the bounds and the required projection.  A rejection always
    has a reason. *)
Theorem policy_never_weakens (ctx : PolicyResolutionContext) (config : PolicyConfiguration)
    (owned : list string) :
  bounds_ok (pc_flush_bounds config) →
  ∃ r, resolve_policy ctx config owned = Some r ∧
    (ep_admission_decision r = AdmAdmitted ↔
       policy_conditions ctx config owned ∧ flush_positive (px_requested_flush ctx)) ∧
    (ep_admission_decision r = AdmRejected ↔ is_Some (ep_rejection_reason r)) ∧
    (ep_admission_decision r = AdmAdmitted →
       durability_rank (pc_minimum_durability config) ≤ durability_rank (ep_durability r) ∧
       retention_rank (pc_minimum_retention config) ≤ retention_rank (ep_retention r) ∧
       (∀ required, pc_required_projection_policy_id config = Some required →
          ep_projection_policy_id r = required) ∧
       flush_within (pc_flush_bounds config) (ep_flush r) ∧
       (flush_within (pc_flush_bounds config) (px_requested_flush ctx) →
          ep_flush r = px_requested_flush ctx)).
Proof.
  intros Hb. unfold resolve_policy. pose proof (policy_checks_ok ctx config owned) as Hchk.
  destruct (policy_checks ctx config owned) as [[]|[reason detail]].
  2: { eexists. split; [done|]. simpl. split; [|split; [|done]]; [|naive_solver].
       split; [done|]. intros [Hc _]. by apply Hchk in Hc. }
  assert (Hc : policy_conditions ctx config owned) by by apply Hchk.
  pose proof (flush_resolved (px_requested_flush ctx) _ Hb) as Hf. case_decide as Hp.
  - destruct Hf as (c & Hw & Heq & [[-> ->]| ->]); (eexists; split; [done|]); simpl;
      (split; [naive_solver|]); (split; [split; [done|by intros []]|]); intros _;
      (split; [apply Hc|]); (split; [apply Hc|]); (split; [by intros ? ->|]); auto.
  - rewrite Hf. eexists. split; [done|]. simpl. split; [naive_solver|]. split; [naive_solver|done].
Qed.

(** ** What admission promises *)

(** Counters of the sizes the quotas are meant for. *)
Record quotas_sane (pq : ProducerQuotaState) (gq : GlobalQuotaState) (payload_bytes : Z) : Prop := {
  qs_bytes : in_i64 (pq_in_flight_bytes pq + payload_bytes);
  qs_global : 0 ≤ gq_in_flight_publishes gq ≤ i32_max;
  qs_max : 0 ≤ gq_max_in_flight_publishes gq ≤ i32_max;
  qs_reserved : 0 ≤ gq_reserved_p0_capacity gq ≤ i32_max;
  qs_used : 0 ≤ gq_used_p0_capacity gq ≤ i32_max
}.

(** The P0 publishes that are still held free. *)
Definition p0_reserve (gq : GlobalQuotaState) : Z :=
  Z.max (gq_reserved_p0_capacity gq - gq_used_p0_capacity gq) 0.

Lemma admission_decision_iff producer pq nq gq payload owned :
  ad_decision (evaluate_admission producer pq nq gq payload owned) = AdmAdmitted ↔
  admission_checks producer pq nq gq payload owned = Ok tt.
Proof.
  unfold evaluate_admission. by destruct (admission_checks _ _ _ _ _ _) as [[]|[]].
Qed.

(** C28. Admission keeps the P0 reserve.  With counters that do not overflow, a
    publish is admitted exactly when the producer is not disabled, the namespace
    is owned, the producer's publish, queue and byte limits and the namespace
    limit have room, and a global slot is free -- for a producer below P0, a slot
    beyond the reserve.  So after any admission below P0 the whole unused P0
    reserve still fits under the global limit. *)
Theorem admission_keeps_p0_reserve (producer : RegisteredProducer) (pq : ProducerQuotaState)
    (nq : NamespaceQuotaState) (gq : GlobalQuotaState) (payload : Z) (owned : bool) :
  quotas_sane pq gq payload →
  let r := evaluate_admission producer pq nq gq payload owned in
  (ad_decision r = AdmAdmitted ↔
     rp_lifecycle_state producer ≠ Disabled ∧ owned = true ∧
     pq_in_flight_publishes pq < pq_max_in_flight_publishes pq ∧
     pq_queued_publishes pq < pq_max_queued_publishes pq ∧
     pq_in_flight_bytes pq + payload ≤ pq_max_in_flight_bytes pq ∧
     nq_in_flight_publishes nq < nq_max_in_flight_publishes nq ∧
     gq_in_flight_publishes gq +
       (if decide (rp_priority_class producer = P0) then 0 else p0_reserve gq)
       < gq_max_in_flight_publishes gq) ∧
  (ad_decision r = AdmAdmitted → rp_priority_class producer ≠ P0 →
     (gq_in_flight_publishes gq + 1) + p0_reserve gq ≤ gq_max_in_flight_publishes gq).
Proof.
  intros [Hb Hg Hm Hr Hu] r. unfold r.
  assert (Hiff : ad_decision (evaluate_admission producer pq nq gq payload owned) = AdmAdmitted ↔
     rp_lifecycle_state producer ≠ Disabled ∧ owned = true ∧
     pq_in_flight_publishes pq < pq_max_in_flight_publishes pq ∧
     pq_queued_publishes pq < pq_max_queued_publishes pq ∧
     pq_in_flight_bytes pq + payload ≤ pq_max_in_flight_bytes pq ∧
     nq_in_flight_publishes nq < nq_max_in_flight_publishes nq ∧
     gq_in_flight_publishes gq +
       (if decide (rp_priority_class producer = P0) then 0 else p0_reserve gq)
       < gq_max_in_flight_publishes gq).
  { rewrite admission_decision_iff. unfold admission_checks. autorewrite with profile.
    rewrite i64_add_id by done. unfold p0_reserve.
    rewrite (i32_sub_id (gq_max_in_flight_publishes gq)) by rlia.
    rewrite (i32_sub_id (gq_reserved_p0_capacity gq)) by rlia.
    case_decide as Hp.
    - split; [intros; repeat split; tauto || lia|]. intros. repeat split; tauto || lia || auto.
    - assert (Hpos : ∀ a, 0 < a ≤ i32_max → i32_sub a
         (Z.max (gq_reserved_p0_capacity gq - gq_used_p0_capacity gq) 0) =
         a - Z.max (gq_reserved_p0_capacity gq - gq_used_p0_capacity gq) 0)
        by (intros a Ha; apply i32_sub_id; rlia).
      split.
      + intros (? & ? & ? & ? & ? & ? & ? & [Hx|Hx]); [done|]. rewrite Hpos in Hx by rlia.
        repeat split; auto; lia.
      + intros (? & ? & ? & ? & ? & ? & ?). repeat split; auto; try lia.
        right. rewrite Hpos by rlia. lia. }
  split; [done|]. intros Ha Hp. apply Hiff in Ha as (_ & _ & _ & _ & _ & _ & Ha).
  rewrite decide_False in Ha by done. lia.
Qed.

(** ** Examples *)
Definition sample_registered (priority : PriorityClass) : RegisteredProducer :=
  mkRegistered "inst-a" "producer-a" "instance-1" "economy" "EconomyPlugin" Active ["economy"]
    priority QuotaStandard "".

Definition sample_policy : PolicyConfiguration :=
  mkPolicyConfig "inst-a" ReplicatedDurable RetStandard (Some "audit") P1 []
    (mkBounds (mkFlush 1 1024 10) (mkFlush 500 1048576 1000)) 7.

Definition sample_context : PolicyResolutionContext :=
  mkContext "inst-a" (sample_registered P1) (mkAclResult Allow None (Some "r1") 7) "snap-1" "economy"
    ReplicatedDurable RetExtended "" P1 QuotaStandard (mkFlush 9000 4096 50).

Lemma policy_never_weakens_witness :
  ∃ r, resolve_policy sample_context sample_policy ["economy"] = Some r ∧
    (ep_admission_decision r = AdmAdmitted ↔
       policy_conditions sample_context sample_policy ["economy"] ∧
       flush_positive (px_requested_flush sample_context)).
Proof.
  destruct (policy_never_weakens sample_context sample_policy ["economy"]) as (r & Hr & Hiff & _).
  - repeat split; discriminate.
  - exists r. split; [exact Hr|exact Hiff].
Defined.

Lemma admission_keeps_p0_reserve_witness :
  ad_decision (evaluate_admission (sample_registered P2)
    (mkProducerQuota "producer-a" 0 10 0 10 0 1000) (mkNamespaceQuota "economy" 0 10)
    (mkGlobalQuota 60 100 40 10) 100 true) = AdmAdmitted ↔
  rp_lifecycle_state (sample_registered P2) ≠ Disabled ∧ true = true ∧ 0 < 10 ∧ 0 < 10 ∧
  0 + 100 ≤ 1000 ∧ 0 < 10 ∧ 60 + p0_reserve (mkGlobalQuota 60 100 40 10) < 100.
Proof.
  refine (proj1 (admission_keeps_p0_reserve (sample_registered P2)
    (mkProducerQuota "producer-a" 0 10 0 10 0 1000) (mkNamespaceQuota "economy" 0 10)
    (mkGlobalQuota 60 100 40 10) 100 true _)).
  constructor; split; discriminate.
Defined.

(** Without the bound on the byte counters the sum wraps and a payload far
    above the limit passes the check. *)
Example admission_bytes_wrap :
  ad_decision (evaluate_admission (sample_registered P2)
    (mkProducerQuota "producer-a" 0 10 0 10 1000 1000) (mkNamespaceQuota "economy" 0 10)
    (mkGlobalQuota 0 100 0 0) i64_max true) = AdmAdmitted.
Proof. by vm_compute. Qed.

(** ** Ownership is unambiguous *)
Record ownership_good (installation_id : string) (e : NamespaceOwnershipEntry) : Prop := {
  og_node : no_owner_node_id e ≠ "";
  og_agent : no_owner_agent_id e ≠ "";
  og_installation : no_installation_id e = installation_id
}.

Lemma ownership_violations_nil installation_id seen e :
  ownership_violations installation_id seen e = [] ↔
  no_namespace e ∉ seen ∧ ownership_good installation_id e.
Proof.
  assert (He : ∀ s, str_is_empty s = false ↔ s ≠ "") by (by intros []).
  unfold ownership_violations. autorewrite with profile. rewrite orb_false_iff, !He.
  split; [intros ([? ?] & ? & ? & _); by repeat split|].
  intros [Hs []]. repeat split; auto. by destruct (no_mode e).
Qed.

(** In a valid snapshot every namespace has one owner, and the node owns a
    namespace exactly when that owner is the node. *)
Lemma ownership_unambiguous snapshot :
  validate_ownership_snapshot snapshot = Ok tt →
  ∀ e, e ∈ ow_entries snapshot →
    ownership_good (ow_installation_id snapshot) e ∧
    (∀ e', e' ∈ ow_entries snapshot → no_namespace e' = no_namespace e → e' = e) ∧
    (is_namespace_locally_owned snapshot (no_namespace e) = true ↔
       no_owner_node_id e = ow_node_id snapshot).
Proof.
  intros Hv e He.
  assert (Hnil : collect_violations no_namespace (ownership_violations (ow_installation_id snapshot)) ∅
          (ow_entries snapshot) = []).
  { revert Hv. unfold validate_ownership_snapshot. destruct (ow_mode snapshot). simpl.
    by destruct (collect_violations _ _ _ _). }
  apply (collect_nil _ _ _ (ownership_violations_nil (ow_installation_id snapshot)))
    in Hnil as (Hnd & _ & Hall).
  rewrite Forall_forall in Hall.
  assert (Huniq : ∀ e', e' ∈ ow_entries snapshot → no_namespace e' = no_namespace e → e' = e).
  { intros e' He' Heq. apply list_elem_of_lookup in He as [i Hi], He' as [k Hk].
    assert (i = k) as ->; [|congruence].
    apply (NoDup_lookup (no_namespace <$> ow_entries snapshot) i k (no_namespace e)); [done|..];
      rewrite list_lookup_fmap; [by rewrite Hi|rewrite Hk; simpl; congruence]. }
  split; [by apply Hall|]. split; [done|]. unfold is_namespace_locally_owned.
  rewrite existsb_exists. split.
  - intros (e' & Hin%list_elem_of_In & Hb). rewrite andb_true_iff, !bool_decide_eq_true in Hb.
    destruct Hb as [Hn Ho]. by rewrite (Huniq e' Hin Hn) in Ho.
  - intros Ho. exists e. rewrite andb_true_iff, !bool_decide_eq_true.
    split; [by apply list_elem_of_In|done].
Qed.
