(* ===== verification/Contracts.v ===== *)
(** * Shared contracts (crates/craftrelay-domain/src/lib.rs, craftrelay-protocol/src/lib.rs,
      craftrelay-journal/src/lib.rs)

    The data types without operations of their own, with the equality the source
    derives, and the two small interfaces of the journal: the status texts of a
    delivery and the disk guard. *)
From S2P Require Import Prelude Checksum JournalDb JournalCore JournalAccept Registration.
Open Scope Z_scope.
#[local] Coercion Z.of_nat : nat >-> Z.

(** ** Events and their lifecycle *)
Record StoredEventEnvelope : Type := mkStoredEnvelope {
  sn_installation_id : string;
  sn_event_id : string;
  sn_producer_id : string;
  sn_logical_stream : string;
  sn_stream_sequence : Z;
  sn_schema_version : Z;
  sn_payload_digest : Checksum;
  sn_request_fingerprint : Checksum;
  sn_envelope_checksum : Checksum;
  sn_journal_sequence : Z;
  sn_payload_ref_id : string;
  sn_payload_length : Z;
  sn_payload_encoding : string;
  sn_routing_version : Z
}.

Record EventPayloadBlob : Type := mkBlob {
  pb_event_id : string;
  pb_payload : list byte;
  pb_payload_digest : Checksum
}.

Record RevisionedState (T : Type) : Type := mkRevisioned {
  rs_revision : Z;
  rs_snapshot_checksum : Checksum;
  rs_value : T
}.

Inductive PayloadRetentionStatus : Type := PayPresent | PayEligible | PayRemoved | PayIntegrityBlocked.
Inductive ProjectionStatus : Type := NotRequired | ProjPending | Acknowledged | ProjectionBlocked.

#[export] Instance PayloadRetentionStatus_eq_dec : EqDecision PayloadRetentionStatus.
Proof. solve_decision. Defined.
#[export] Instance ProjectionStatus_eq_dec : EqDecision ProjectionStatus.
Proof. solve_decision. Defined.

Definition PayloadRetentionState : Type := RevisionedState PayloadRetentionStatus.
Definition EventDeliveryState : Type := RevisionedState DeliveryStatus.
Definition ProjectionTrackingState : Type := RevisionedState ProjectionStatus.

Record AttemptSummary : Type := mkSummary {
  as_attempt_number : Z;
  as_outcome_code : string
}.

Record PublishLifecycleSnapshot : Type := mkSnapshotOf {
  ls_event_id : string;
  ls_revision : Z;
  ls_snapshot_checksum : Checksum;
  ls_delivery : DeliveryStatus;
  ls_projection : ProjectionStatus;
  ls_attempts : list AttemptSummary
}.

(** ** Profiles, projections and queries *)
Record RetentionProfile : Type := mkRetention {
  rt_profile_id : string;
  rt_retention_class : RetentionClass;
  rt_retention_horizon_millis : Z;
  rt_profile_version : Z
}.

Record ProjectionPolicyProfile : Type := mkProjectionPolicy {
  pp_policy_id : string;
  pp_policy_version : Z;
  pp_required_projector_ids : list string;
  pp_archive_required : bool
}.

Record QuotaProfile : Type := mkQuotaProfile {
  qp_profile_id : string;
  qp_quota_class : QuotaClass;
  qp_max_in_flight_publishes : Z;
  qp_max_queued_publishes : Z;
  qp_max_in_flight_bytes : Z;
  qp_profile_version : Z
}.

Record ProjectionBarrier : Type := mkBarrier {
  bar_topology_version : Z;
  bar_routing_version : Z;
  bar_required_next_offsets : gmap Z Z
}.

Record ProjectionCheckpoint : Type := mkCheckpoint {
  ck_projector_id : string;
  ck_partition : Z;
  ck_next_offset_to_resolve : Z;
  ck_blocked : bool
}.

Record LiveProjectionCheckpoint : Type := mkLiveCheckpoint {
  lk_live_source_id : string;
  lk_partition : Z;
  lk_next_offset_to_resolve : Z
}.

Inductive QueryConsistency : Type := StrictLatestCommitted | AtLeastToken | AllowStale.
Inductive DisplayQueryMode : Type := ProjectedPlusLive | LiveOnly.

Record ProjectionConsistencyToken : Type := mkToken {
  tk_installation_id : string;
  tk_projector_id : string;
  tk_projection_name : string;
  tk_expires_at_unix_millis : Z;
  tk_required_next_offsets : gmap Z Z;
  tk_checksum : Checksum;
  tk_mac : list byte
}.

(** ** The protocol crate *)
Definition PROTOCOL_MAJOR : Z := 1.
Definition MAX_ATTEMPT_SUMMARIES : Z := 16.
Definition MAX_BARRIER_PARTITIONS : Z := 1024.
Definition MAX_CONSISTENCY_TOKENS : Z := 32.
Definition MAX_WATCH_BUFFER_EVENTS : Z := 256.

Record QueryDefinition : Type := mkQueryDefinition {
  qd_handle_id : string;
  qd_parameter_schema : string;
  qd_result_schema : string
}.

Record ProjectionAckOutboxRecord : Type := mkAckOutbox {
  ao_event_id : string;
  ao_projector_id : string;
  ao_projection_revision : Z
}.

Record AckConsumptionContract : Type := mkAckContract { ac_persist_before_offset_commit : bool }.

Inductive Readiness : Type := NotReady | Ready | Degraded.
Inductive ExecutionContext : Type := GlobalServer | EntityContext | RegionContext | AsyncOnly.

Record EventContractHandle : Type := mkEventHandle { eh_handle : string }.
Record QueryContractHandle : Type := mkQueryHandle { qh_handle : string }.

Record IntegrationManifest : Type := mkIntegration {
  im_integration_id : string;
  im_integration_version : Z;
  im_paper_plugin_id : string;
  im_max_pending_publishes : Z;
  im_max_pending_queries : Z
}.

Record LogicalProducerRegistration : Type := mkLogicalProducer {
  lp_installation_id : string;
  lp_integration_id : string;
  lp_producer_instance_id : string;
  lp_next_producer_operation_sequence : Z
}.

(** ** Status texts of a delivery *)
Inductive DeliveryLifecycleStatus : Type :=
| LcDeliveryPending
| LcDeliveryRetrying
| LcReplicated
| LcDeliveryBlocked.

Definition delivery_lifecycle_as_str (s : DeliveryLifecycleStatus) : string :=
  match s with
  | LcDeliveryPending => "DELIVERY_PENDING"
  | LcDeliveryRetrying => "DELIVERY_RETRYING"
  | LcReplicated => "REPLICATED"
  | LcDeliveryBlocked => "DELIVERY_BLOCKED"
  end.

(** The texts are those a stored delivery may have, one status for each. *)
Lemma delivery_lifecycle_texts t :
  t ∈ delivery_statuses ↔
  ∃ s, delivery_lifecycle_as_str s = t ∧ ∀ s', delivery_lifecycle_as_str s' = t → s' = s.
Proof.
  split.
  - unfold delivery_statuses. intros Ht. repeat apply elem_of_cons in Ht as [->|Ht];
      try (by apply not_elem_of_nil in Ht).
    all: first [ exists LcReplicated; split; [done|by intros []]
               | exists LcDeliveryPending; split; [done|by intros []]
               | exists LcDeliveryRetrying; split; [done|by intros []]
               | exists LcDeliveryBlocked; split; [done|by intros []] ].
  - intros (s & <- & _). destruct s; compute_done.
Qed.

(** ** The disk guard *)
Class DiskGuard (G : Type) := is_safe_to_write : G → bool.

Inductive AlwaysSafeDiskGuard : Type := AlwaysSafe.
Inductive AlwaysUnsafeDiskGuard : Type := AlwaysUnsafe.
#[export] Instance always_safe : DiskGuard AlwaysSafeDiskGuard := λ _, true.
#[export] Instance always_unsafe : DiskGuard AlwaysUnsafeDiskGuard := λ _, false.

(** [accept] of a journal with its guard. *)
Definition accept_guarded `{Sha256} `{Engine} {G} `{DiskGuard G} (guard : G) (now : Z)
    (req : AcceptRequest) (j : LocalJournal) : option AcceptResult * LocalJournal :=
  accept j (is_safe_to_write guard) now req.

(** Behind a guard that refuses nothing is written. *)
Lemma unsafe_guard_refuses `{Sha256} `{Engine} now req j :
  (accept_guarded AlwaysUnsafe now req j).2 = j ∧
  (is_shutdown j = false → (accept_guarded AlwaysUnsafe now req j).1 = Some DiskUnsafe).
Proof. unfold accept_guarded, accept. by destruct (is_shutdown j). Qed.
