(* ===== verification/Fips180.v ===== *)
(** * SHA-256 as the standard defines it (FIPS 180-4)

    The hash behind the class [Sha256] is the [sha2] crate's; this is an
    executable instance of the class, so that digests the repository records can
    be recomputed in the model.  Words are integers below 2^32. *)
From S2P Require Import Prelude Checksum.
Open Scope Z_scope.
#[local] Coercion Z.of_nat : nat >-> Z.

Definition w32 (z : Z) : Z := Z.land z 4294967295.
Definition rotr (n x : Z) : Z := Z.lor (Z.shiftr x n) (w32 (Z.shiftl x (32 - n))).
Definition w_not (x : Z) : Z := Z.lxor x 4294967295.

Definition big_sigma0 (x : Z) : Z := Z.lxor (rotr 2 x) (Z.lxor (rotr 13 x) (rotr 22 x)).
Definition big_sigma1 (x : Z) : Z := Z.lxor (rotr 6 x) (Z.lxor (rotr 11 x) (rotr 25 x)).
Definition small_sigma0 (x : Z) : Z := Z.lxor (rotr 7 x) (Z.lxor (rotr 18 x) (Z.shiftr x 3)).
Definition small_sigma1 (x : Z) : Z := Z.lxor (rotr 17 x) (Z.lxor (rotr 19 x) (Z.shiftr x 10)).
Definition choose (x y z : Z) : Z := Z.lxor (Z.land x y) (Z.land (w_not x) z).
Definition majority (x y z : Z) : Z := Z.lxor (Z.land x y) (Z.lxor (Z.land x z) (Z.land y z)).

Definition round_constants : list Z :=
  [1116352408; 1899447441; 3049323471; 3921009573; 961987163; 1508970993; 2453635748; 2870763221;
   3624381080; 310598401; 607225278; 1426881987; 1925078388; 2162078206; 2614888103; 3248222580;
   3835390401; 4022224774; 264347078; 604807628; 770255983; 1249150122; 1555081692; 1996064986;
   2554220882; 2821834349; 2952996808; 3210313671; 3336571891; 3584528711; 113926993; 338241895;
   666307205; 773529912; 1294757372; 1396182291; 1695183700; 1986661051; 2177026350; 2456956037;
   2730485921; 2820302411; 3259730800; 3345764771; 3516065817; 3600352804; 4094571909; 275423344;
   430227734; 506948616; 659060556; 883997877; 958139571; 1322822218; 1537002063; 1747873779;
   1955562222; 2024104815; 2227730452; 2361852424; 2428436474; 2756734187; 3204031479; 3329325298].

Record HashState : Type := mkHash {
  h_a : Z; h_b : Z; h_c : Z; h_d : Z; h_e : Z; h_f : Z; h_g : Z; h_h : Z
}.

Definition initial_hash : HashState :=
  mkHash 1779033703 3144134277 1013904242 2773480762 1359893119 2600822924 528734635 1541459225.

Definition sha_round (s : HashState) (k w : Z) : HashState :=
  let t1 := w32 (h_h s + big_sigma1 (h_e s) + choose (h_e s) (h_f s) (h_g s) + k + w) in
  let t2 := w32 (big_sigma0 (h_a s) + majority (h_a s) (h_b s) (h_c s)) in
  mkHash (w32 (t1 + t2)) (h_a s) (h_b s) (h_c s) (w32 (h_d s + t1)) (h_e s) (h_f s) (h_g s).

(** The schedule as a window of sixteen words: the round uses the first, and the
    next word enters at the end. *)
Definition next_word (window : list Z) : Z :=
  w32 (small_sigma1 (nth 14 window 0) + nth 9 window 0 + small_sigma0 (nth 1 window 0) +
       nth 0 window 0).

Fixpoint sha_rounds (ks : list Z) (window : list Z) (s : HashState) : HashState :=
  match ks with
  | [] => s
  | k :: ks => sha_rounds ks (tail window ++ [next_word window]) (sha_round s k (nth 0 window 0))
  end.

Definition add_hash (s t : HashState) : HashState :=
  mkHash (w32 (h_a s + h_a t)) (w32 (h_b s + h_b t)) (w32 (h_c s + h_c t)) (w32 (h_d s + h_d t))
    (w32 (h_e s + h_e t)) (w32 (h_f s + h_f t)) (w32 (h_g s + h_g t)) (w32 (h_h s + h_h t)).

Fixpoint words_of (bs : list byte) : list Z :=
  match bs with
  | a :: b :: c :: d :: bs =>
      let v x := Z.of_N (Byte.to_N x) in
      (v a * 16777216 + v b * 65536 + v c * 256 + v d) :: words_of bs
  | _ => []
  end.

(** A one, zeros, and the length in bits: a whole number of blocks. *)
Definition pad_message (m : list byte) : list byte :=
  m ++ x80 :: replicate (Z.to_nat ((- (length m + 9)) mod 64)) x00 ++ i64_to_be_bytes (8 * length m).

Fixpoint hash_blocks (n : nat) (ws : list Z) (s : HashState) : HashState :=
  match n with
  | O => s
  | S n => hash_blocks n (drop 16 ws) (add_hash s (sha_rounds round_constants (take 16 ws) s))
  end.

Definition fips_sha256 : Sha256 := λ m,
  let padded := pad_message m in
  let s := hash_blocks (length padded / 64) (words_of padded) initial_hash in
  concat (be_bytes 4 <$> [h_a s; h_b s; h_c s; h_d s; h_e s; h_f s; h_g s; h_h s]).

Lemma fips_sha256_ok : @Sha256Ok fips_sha256.
Proof.
  intros m. unfold is_checksum, sha256, fips_sha256. cbn [fmap list_fmap concat].
  by rewrite !length_app, !be_bytes_length.
Qed.

(** The padding fills the last block. *)
Lemma padded_blocks m : Z.of_nat (length (pad_message m)) mod 64 = 0.
Proof.
  unfold pad_message. rewrite length_app. simpl. rewrite length_app, length_replicate.
  change (length (i64_to_be_bytes _)) with 8%nat.
  pose proof (Z.mod_pos_bound (- (length m + 9)) 64 ltac:(lia)) as Hb.
  pose proof (Z.div_mod (- (length m + 9)) 64 ltac:(lia)) as Hd.
  replace (Z.of_nat _) with (64 * - ((- (length m + 9)) / 64)) by lia.
  rewrite Z.mul_comm. apply Z.mod_mul. lia.
Qed.

(** The examples of the standard. *)
Example sha_abc :
  checksum_hex (fips_sha256 (bytes_of "abc")) =
  "ba7816bf8f01cfea414140de5dae2223b00361a396177a9cb410ff61f20015ad".
Proof. vm_compute. reflexivity. Qed.

Example sha_two_blocks :
  checksum_hex (fips_sha256 (bytes_of "abcdbcdecdefdefgefghfghighijhijkijkljklmklmnlmnomnopnopq")) =
  "248d6a61d20638b8e5c026930c3e6039a33ce45964ff2167f6ecedd419db06c1".
Proof. vm_compute. reflexivity. Qed.

Example sha_empty :
  checksum_hex (fips_sha256 []) = "e3b0c44298fc1c149afbf4c8996fb92427ae41e4649b934ca495991b7852b855".
Proof. vm_compute. reflexivity. Qed.
