(* ===== verification/Vectors.v ===== *)
(** * The shared test vectors (crates/craftrelay-testkit/src/lib.rs and
      test-vectors/v1/shared-vectors.json)

    The types of the vectors, the vectors the file holds, and the checks of the
    test that runs the domain crate on them.  Run with SHA-256 itself, the model
    passes every one; the test's checks of the protobuf file are left out. *)
From S2P Require Import Prelude Checksum Fips180 Metadata Identity Registration Acl Policy Profiles.
Open Scope Z_scope.
#[local] Coercion Z.of_nat : nat >-> Z.

(** ** The types *)
Record UuidVector : Type := mkUuidVec { uv_value : string; uv_valid : bool }.
Record PositiveBoundaries : Type := mkBoundaries {
  pb_int32_min : Z; pb_int32_max : Z; pb_int64_min : Z; pb_int64_max : Z
}.
Record DigestVector : Type := mkDigestVec { dv_payload_utf8 : string; dv_sha256 : string }.
Record FingerprintVector : Type := mkFingerprintVec { fv_canonical_hex : string; fv_sha256 : string }.
Record InstallationScopeVector : Type := mkScopeVec {
  iv_installation_id : string; iv_name : string; iv_scoped : string
}.
Record CanonicalVector : Type := mkCanonical { cv_canonical : string; cv_sha256 : string }.
Record RevisionVector : Type := mkRevisionVec {
  rv_revision : Z; rv_canonical : string; rv_sha256 : string
}.
Record MetadataVectorEntry : Type := mkMetaVec { mv_key : string; mv_value : string }.
Record MetadataCanonicalizationVector : Type := mkCanonVec {
  mc_entries : list MetadataVectorEntry; mc_canonical : string; mc_sha256 : string
}.
Record MetadataRejectionVector : Type := mkRejectVec {
  mr_entries : list MetadataVectorEntry; mr_rejection : string
}.
Record ProjectionBarrierVector : Type := mkBarrierVec {
  bv_barrier_version : Z;
  bv_query_definition_version : Z;
  bv_topology_version : Z;
  bv_routing_version : Z;
  bv_canonical : string;
  bv_sha256 : string;
  bv_required_next_offset : list (string * Z);
  bv_exclusive : bool
}.
Record ConsistencyTokenVector : Type := mkTokenVec {
  tv_token_version : Z;
  tv_installation_id : string;
  tv_authenticated_producer_id : string;
  tv_projector_id : string;
  tv_projection_name : string;
  tv_query_scope : string;
  tv_expires_at_unix_millis : Z;
  tv_canonical : string;
  tv_checksum : string;
  tv_fixture_key_utf8 : string;
  tv_mac : string;
  tv_authenticated : bool
}.
Record QueryFreshnessVector : Type := mkQueryVec {
  qv_mode : string; qv_proof : string; qv_current : bool; qv_authoritative : bool;
  qv_silent_downgrade : bool
}.
Record WatchFreshnessVector : Type := mkWatchVec {
  wv_state : string; wv_current : bool; wv_reason : string
}.
Record ProducerRegistrationVector : Type := mkRegVec {
  pv_producer_id : string;
  pv_installation_id : string;
  pv_lifecycle : string;
  pv_valid : bool;
  pv_rejection : option string
}.
Record AclRuleVector : Type := mkRuleVec {
  rl_rule_id : string; rl_action : string; rl_pattern : string; rl_decision : string; rl_priority : Z
}.
Record AclVector : Type := mkAclVec {
  av_principal_installation : string;
  av_scope_installation : string;
  av_credential_status : string;
  av_namespace : string;
  av_action : string;
  av_rules : list AclRuleVector;
  av_expected_decision : string;
  av_expected_reason : option string
}.
Record PolicyResolutionVector : Type := mkPolicyVec {
  lv_description : string;
  lv_installation_id : string;
  lv_producer_lifecycle : string;
  lv_acl_decision : string;
  lv_namespace : string;
  lv_owned_namespaces : list string;
  lv_requested_durability : string;
  lv_minimum_durability : string;
  lv_expected_admission : string;
  lv_expected_reason : option string
}.
Record OwnershipEntryVector : Type := mkOwnerVec {
  oe_namespace : string; oe_owner_node : string; oe_installation : string; oe_mode : string
}.
Record OwnershipVector : Type := mkOwnershipVec {
  ov_description : string;
  ov_mode : string;
  ov_entries : list OwnershipEntryVector;
  ov_installation_id : string;
  ov_node_id : string;
  ov_valid : bool;
  ov_violation : option string
}.
Record QuotaAdmissionVector : Type := mkQuotaVec {
  av_description : string;
  av_producer_priority : string;
  av_in_flight : Z;
  av_max_in_flight : Z;
  av_global_in_flight : Z;
  av_global_max : Z;
  av_reserved_p0 : Z;
  av_used_p0 : Z;
  av_namespace_owned : bool;
  av_expected : string;
  av_reason : option string
}.
Record KafkaProfileVector : Type := mkProfileVec {
  kv_description : string;
  kv_rf : Z;
  kv_min_isr : Z;
  kv_acks : string;
  kv_valid_p0 : bool;
  kv_error : option string
}.

Record SharedVectors : Type := mkVectors {
  sv_version : Z;
  sv_uuid_v7 : list UuidVector;
  sv_positive_boundaries : PositiveBoundaries;
  sv_payload_digest : list DigestVector;
  sv_fingerprint : list FingerprintVector;
  sv_installation_scope : list InstallationScopeVector;
  sv_metadata_canonicalization : list MetadataCanonicalizationVector;
  sv_metadata_rejections : list MetadataRejectionVector;
  sv_envelope_input : list CanonicalVector;
  sv_envelope_checksum : list CanonicalVector;
  sv_revision_checksums : list RevisionVector;
  sv_projection_barrier : ProjectionBarrierVector;
  sv_consistency_token : ConsistencyTokenVector;
  sv_query_freshness : list QueryFreshnessVector;
  sv_watch_freshness : list WatchFreshnessVector;
  sv_producer_registration : list ProducerRegistrationVector;
  sv_acl : list AclVector;
  sv_policy_resolution : list PolicyResolutionVector;
  sv_ownership : list OwnershipVector;
  sv_quota_admission : list QuotaAdmissionVector;
  sv_kafka_profile : list KafkaProfileVector
}.

(** ** The checks *)
Definition eqs (a b : string) : bool := bool_decide (a = b).

(** [u8::from_str_radix(.., 16)] of two characters. *)
Definition hex_value (b : byte) : option Z :=
  let n := Z.of_N (Byte.to_N b) in
  if (48 <=? n) && (n <=? 57) then Some (n - 48)
  else if (97 <=? n) && (n <=? 102) then Some (n - 87)
  else if (65 <=? n) && (n <=? 70) then Some (n - 55) else None.

Fixpoint hex_bytes (bs : list byte) : option (list byte) :=
  match bs with
  | [] => Some []
  | a :: b :: bs =>
      h ← (if bool_decide (a = "+"%byte) then Some 0 else hex_value a);
      l ← hex_value b;
      rest ← hex_bytes bs;
      Some (byte_of_Z (16 * h + l) :: rest)
  | [_] => None
  end.

Definition metadata_of (entries : list MetadataVectorEntry) : list MetadataEntry :=
  (λ e, mkEntry (mv_key e) (mv_value e)) <$> entries.

(** An expected text that names no value fails the test. *)
Definition lifecycle_of (s : string) : option ProducerLifecycleState :=
  if eqs s "ACTIVE" then Some Active else if eqs s "DISABLED" then Some Disabled
  else if eqs s "SUSPENDED" then Some Suspended else None.
Definition credential_of (s : string) : option CredentialStatus :=
  if eqs s "ACTIVE" then Some CredActive else if eqs s "REVOKED" then Some CredRevoked
  else if eqs s "EXPIRED" then Some CredExpired else if eqs s "UNKNOWN" then Some CredUnknown
  else None.
Definition action_of (s : string) : option AclAction :=
  if eqs s "PUBLISH" then Some Publish else if eqs s "QUERY" then Some Query else None.
Definition decision_of (s : string) : option AclDecision :=
  if eqs s "ALLOW" then Some Allow else if eqs s "DENY" then Some Deny else None.
Definition priority_of (s : string) : option PriorityClass :=
  if eqs s "P0" then Some P0 else if eqs s "P1" then Some P1 else if eqs s "P2" then Some P2
  else if eqs s "BACKGROUND" then Some Background else None.
Definition admission_of (s : string) : option AdmissionDecision :=
  if eqs s "ADMITTED" then Some AdmAdmitted else if eqs s "REJECTED" then Some AdmRejected else None.

#[local] Instance admission_eq_dec : EqDecision AdmissionDecision.
Proof. solve_decision. Defined.

Definition expect_true {A} (o : option A) (f : A → bool) : bool :=
  match o with Some a => f a | None => false end.

Definition vector_producer (installation_id producer_id : string) (lifecycle : ProducerLifecycleState)
    (priority : PriorityClass) : RegisteredProducer :=
  mkRegistered installation_id producer_id "instance-1" "reference" "ReferencePlugin" lifecycle
    ["economy"] priority QuotaStandard "binding-1".

Definition registration_holds (reg : ProducerRegistrationVector) : bool :=
  expect_true (lifecycle_of (pv_lifecycle reg)) (λ lifecycle,
    Bool.eqb (is_ok (validate_producer_registration
                  (vector_producer (pv_installation_id reg) (pv_producer_id reg) lifecycle P1)
                  "installation-a" [])) (pv_valid reg)).

Definition rule_of (r : AclRuleVector) : option AclRule :=
  a ← action_of (rl_action r); d ← decision_of (rl_decision r);
  Some (mkRule (rl_rule_id r) a (rl_pattern r) d (rl_priority r)).

Definition acl_holds (acl : AclVector) : bool :=
  expect_true (credential_of (av_credential_status acl)) (λ status,
  expect_true (mapM rule_of (av_rules acl)) (λ rules,
  expect_true (decision_of (av_expected_decision acl)) (λ expected,
    let principal := mkPrincipal "producer-a" (av_principal_installation acl)
      (mkCredential "cred-1" FakeTestOnly 1 status (av_principal_installation acl)) in
    bool_decide (ae_decision (evaluate_acl principal (av_scope_installation acl) (av_namespace acl)
                                Publish rules 1) = expected)))).

Definition ownership_holds (o : OwnershipVector) : bool :=
  let entries := (λ e, mkOwnership (oe_namespace e) (oe_owner_node e)
    (if eqs (oe_owner_node e) "" then "" else "agent-1") (oe_installation e) NodeLocal) <$> ov_entries o in
  Bool.eqb (is_ok (validate_ownership_snapshot
                (mkSnapshot (mkSnapshotId "snap-1" 1) (ov_installation_id o) (ov_node_id o) NodeLocal
                   entries))) (ov_valid o).

Definition quota_holds (q : QuotaAdmissionVector) : bool :=
  expect_true (priority_of (av_producer_priority q)) (λ priority,
  expect_true (admission_of (av_expected q)) (λ expected,
    bool_decide (ad_decision (evaluate_admission
      (vector_producer "installation-a" "producer-a" Active priority)
      (mkProducerQuota "producer-a" (av_in_flight q) (av_max_in_flight q) 0 50 0 100000)
      (mkNamespaceQuota "economy" 10 200)
      (mkGlobalQuota (av_global_in_flight q) (av_global_max q) (av_reserved_p0 q) (av_used_p0 q))
      100 (av_namespace_owned q)) = expected))).

Definition profile_holds (p : KafkaProfileVector) : bool :=
  Bool.eqb (is_ok (validate_p0_kafka_profile
                (mkDurability "test" (kv_rf p) (kv_min_isr p) (kv_acks p) "events" 1))) (kv_valid_p0 p).

Section Checks.
Context `{Sha256}.

Definition digest_hex (text : string) : string := checksum_hex (sha256 (bytes_of text)).

Definition metadata_holds (m : MetadataCanonicalizationVector) : bool :=
  match canonical_metadata_text (metadata_of (mc_entries m)) with
  | Ok canonical => eqs canonical (mc_canonical m) && eqs (digest_hex canonical) (mc_sha256 m)
  | Err _ => false
  end.

Definition rejection_holds (m : MetadataRejectionVector) : bool :=
  match canonicalize_metadata (metadata_of (mr_entries m)) with
  | Err DuplicateMetadataKey => eqs (mr_rejection m) "DUPLICATE_METADATA_KEY"
  | _ => false
  end.

Definition fingerprint_holds (f : FingerprintVector) : bool :=
  expect_true (hex_bytes (bytes_of (fv_canonical_hex f))) (λ canonical,
    eqs (checksum_hex (sha256 canonical)) (fv_sha256 f)).

(** The checks on the hashed texts, the barrier and the token. *)
Definition digests_hold (v : SharedVectors) : bool :=
  expect_true (head (sv_payload_digest v)) (λ d, eqs (digest_hex (dv_payload_utf8 d)) (dv_sha256 d)) &&
  expect_true (head (sv_fingerprint v)) fingerprint_holds &&
  forallb (λ c, eqs (digest_hex (cv_canonical c)) (cv_sha256 c)) (sv_envelope_input v) &&
  expect_true (head (sv_envelope_checksum v)) (λ c, eqs (digest_hex (cv_canonical c)) (cv_sha256 c)) &&
  expect_true (head (sv_revision_checksums v)) (λ r,
    (rv_revision r =? 1) && eqs (digest_hex (rv_canonical r)) (rv_sha256 r)).

Definition barrier_holds (b : ProjectionBarrierVector) : bool :=
  bv_exclusive b && (bv_barrier_version b =? 1) && (bv_query_definition_version b =? 1) &&
  forallb (λ p, 0 <=? p.2) (bv_required_next_offset b) &&
  eqs (digest_hex (bv_canonical b)) (bv_sha256 b).

Definition token_holds (t : ConsistencyTokenVector) : bool :=
  (tv_token_version t =? 1) && tv_authenticated t &&
  eqs (digest_hex (tv_canonical t)) (tv_checksum t) &&
  eqs (checksum_hex (hmac_sha256 (bytes_of (tv_fixture_key_utf8 t)) (bytes_of (tv_canonical t))))
    (tv_mac t).

Definition freshness_holds (v : SharedVectors) : bool :=
  forallb (λ q, negb (qv_silent_downgrade q)) (sv_query_freshness v) &&
  forallb (λ w, negb (wv_current w)) (filter (λ w, wv_state w ≠ "CURRENT") (sv_watch_freshness v)).

Definition shared_vectors_are_valid (v : SharedVectors) : bool :=
  (sv_version v =? 1) &&
  forallb (λ u, Bool.eqb (is_canonical_uuid_v7 (uv_value u)) (uv_valid u)) (sv_uuid_v7 v) &&
  (pb_int32_min (sv_positive_boundaries v) =? 1) && (pb_int64_min (sv_positive_boundaries v) =? 1) &&
  digests_hold v &&
  forallb (λ s, eqs (scoped_name (iv_installation_id s) (iv_name s)) (iv_scoped s))
    (sv_installation_scope v) &&
  forallb metadata_holds (sv_metadata_canonicalization v) &&
  forallb rejection_holds (sv_metadata_rejections v) &&
  barrier_holds (sv_projection_barrier v) && token_holds (sv_consistency_token v) &&
  freshness_holds v &&
  forallb registration_holds (sv_producer_registration v) && forallb acl_holds (sv_acl v) &&
  forallb ownership_holds (sv_ownership v) && forallb quota_holds (sv_quota_admission v) &&
  forallb profile_holds (sv_kafka_profile v).
End Checks.

(** ** The file *)
Definition uuid_vectors : list UuidVector :=
  [mkUuidVec "01890f3e-7b4c-7cc2-98c8-3f0f5f3f9b4a" true;
   mkUuidVec "01890f3e-7b4c-4cc2-98c8-3f0f5f3f9b4a" false;
   mkUuidVec "01890F3E-7B4C-7CC2-98C8-3F0F5F3F9B4A" false;
   mkUuidVec "not-a-uuid" false].

Definition boundary_vector : PositiveBoundaries :=
  mkBoundaries 1 2147483647 1 9223372036854775807.

Definition digest_vectors : list DigestVector :=
  [mkDigestVec "CraftRelay" "b43a068b8c1f4289ec1a91fce360a3268a17479e509beb715a3790a962d7a750"].

Definition fingerprint_vectors : list FingerprintVector :=
  [mkFingerprintVec "0001010000002430313839306633652d376234632d376363322d393863382d3366306635663366396234610002010000000a70726f64756365722d610003010000000765636f6e6f6d79000401000000076163636f756e74000501000000087472616e736665720006010000000400000001000701000000096163636f756e742d31000801000000046f702d310009010000000a5245504c494341544544000a010000000a437261667452656c6179000b0100000007613d313b7a3d39000c010000000400000001" "6594ba4b50597d8746ca7aff3c5e1cab10143239ce41689071e4860b212b8b5d"].

Definition scope_vectors : list InstallationScopeVector :=
  [mkScopeVec "installation-a" "same" (join_nul ["installation-a"; "same"]);
   mkScopeVec "installation-b" "same" (join_nul ["installation-b"; "same"])].

Definition metadata_vectors : list MetadataCanonicalizationVector :=
  [mkCanonVec [mkMetaVec "z" "last"; mkMetaVec "a" "first"] "a=first|z=last" "efe0f44780d34543dcd2cd3261a94da5b77d794255ce287116b2604acb479fae"].

Definition rejection_vectors : list MetadataRejectionVector :=
  [mkRejectVec [mkMetaVec "same" "a"; mkMetaVec "same" "b"] "DUPLICATE_METADATA_KEY"].

Definition input_vectors : list CanonicalVector :=
  [mkCanonical "event_id=01890f3e-7b4c-7cc2-98c8-3f0f5f3f9b4a|schema_version=1|metadata=a=first,z=last|payload=02" "98892a3bb39988b3ec3a948cac9a7d055c50cb37b8ae5bcb4469af846bf10102"].

Definition checksum_vectors : list CanonicalVector :=
  [mkCanonical (join_nul ["installation-a"; "01890f3e-7b4c-7cc2-98c8-3f0f5f3f9b4a"; "1"]) "452281e1e1270719e44f07d588fc97888407ae9d8373658a007ead3b40869e53"].

Definition revision_vectors : list RevisionVector :=
  [mkRevisionVec 1 (join_nul ["1"; "LOCAL_ACCEPTED"]) "3e9242feef2479602f984385e52097eb72ba463541423ce178cdf0699fb1ac91"].

Definition barrier_vector : ProjectionBarrierVector :=
  mkBarrierVec 1 1 3 7 "v=1|topology=3|routing=7|events:0=0|events:1=42" "d73cf4167cc5ec91769dde542cbeef8ee6c78aefc4eff59a9b332cb1053fa090" [("0", 0); ("1", 42)] true.

Definition token_vector : ConsistencyTokenVector :=
  mkTokenVec 1 "installation-a" "producer-a" "projector-a" "accounts" "account:1" 1893456000000 "v=1|installation=installation-a|producer=producer-a|projector=projector-a|projection=accounts|scope=account:1|expires=1893456000000|events:0=42" "08096e7b2c0c57df5ec73fc53abd87a896dc494e0d3a1e85e3007f4aaf25a881" "fixture-hmac-key-material" "0714a7093b8ffec803649c777d5625bd32acddf45f0aaf02cd6616be8d9a855a" true.

Definition query_vectors : list QueryFreshnessVector :=
  [mkQueryVec "STRICT_LATEST_COMMITTED" "UNAVAILABLE" false false false;
   mkQueryVec "ALLOW_STALE" "STALE_ACCEPTED" false false false].

Definition watch_vectors : list WatchFreshnessVector :=
  [mkWatchVec "DETACHED" false "capacity";
   mkWatchVec "INCOMPARABLE" false "topology_changed"].

Definition registration_vectors : list ProducerRegistrationVector :=
  [mkRegVec "producer-a" "installation-a" "ACTIVE" true None;
   mkRegVec "producer-a" "installation-b" "ACTIVE" false (Some "CROSS_INSTALLATION");
   mkRegVec "producer-a" "installation-a" "DISABLED" false (Some "DISABLED");
   mkRegVec "producer-a" "installation-a" "SUSPENDED" false (Some "SUSPENDED")].

Definition acl_vectors : list AclVector :=
  [mkAclVec "installation-a" "installation-a" "ACTIVE" "economy" "PUBLISH"
     [mkRuleVec "allow-economy" "PUBLISH" "economy" "ALLOW" 10] "ALLOW" None;
   mkAclVec "installation-a" "installation-a" "ACTIVE" "economy" "PUBLISH"
     [mkRuleVec "deny-economy" "PUBLISH" "economy" "DENY" 20; mkRuleVec "allow-economy" "PUBLISH" "economy" "ALLOW" 10] "DENY" None;
   mkAclVec "installation-a" "installation-b" "ACTIVE" "economy" "PUBLISH"
     [] "DENY" (Some "CROSS_INSTALLATION");
   mkAclVec "installation-a" "installation-a" "REVOKED" "economy" "PUBLISH"
     [mkRuleVec "allow-all" "PUBLISH" "*" "ALLOW" 1] "DENY" (Some "CREDENTIAL_REVOKED");
   mkAclVec "installation-a" "installation-a" "EXPIRED" "economy" "PUBLISH"
     [] "DENY" (Some "CREDENTIAL_EXPIRED");
   mkAclVec "installation-a" "installation-a" "UNKNOWN" "economy" "PUBLISH"
     [] "DENY" (Some "CREDENTIAL_INVALID");
   mkAclVec "installation-a" "installation-a" "ACTIVE" "mining" "PUBLISH"
     [mkRuleVec "allow-economy" "PUBLISH" "economy" "ALLOW" 10] "DENY" (Some "NO_MATCHING_RULE")].

Definition policy_vectors : list PolicyResolutionVector :=
  [mkPolicyVec "valid policy resolution"
     "installation-a" "ACTIVE" "ALLOW" "economy"
     ["economy"] "REPLICATED_DURABLE" "REPLICATED_DURABLE" "ADMITTED" None;
   mkPolicyVec "durability weakening rejected"
     "installation-a" "ACTIVE" "ALLOW" "economy"
     ["economy"] "LOCAL_DURABLE" "REPLICATED_DURABLE" "REJECTED" (Some "DURABILITY_WEAKENING");
   mkPolicyVec "not locally owned rejected"
     "installation-a" "ACTIVE" "ALLOW" "economy"
     ["mining"] "REPLICATED_DURABLE" "REPLICATED_DURABLE" "REJECTED" (Some "NOT_LOCALLY_OWNED");
   mkPolicyVec "disabled producer rejected"
     "installation-a" "DISABLED" "ALLOW" "economy"
     ["economy"] "REPLICATED_DURABLE" "REPLICATED_DURABLE" "REJECTED" (Some "PRODUCER_DISABLED");
   mkPolicyVec "ACL denied rejected"
     "installation-a" "ACTIVE" "DENY" "economy"
     ["economy"] "REPLICATED_DURABLE" "REPLICATED_DURABLE" "REJECTED" (Some "ACL_DENIED")].

Definition ownership_vectors : list OwnershipVector :=
  [mkOwnershipVec "valid NODE_LOCAL snapshot"
     "NODE_LOCAL" [mkOwnerVec "economy" "node-1" "installation-a" "NODE_LOCAL"] "installation-a" "node-1" true None;
   mkOwnershipVec "duplicate namespace rejected"
     "NODE_LOCAL" [mkOwnerVec "economy" "node-1" "installation-a" "NODE_LOCAL"; mkOwnerVec "economy" "node-1" "installation-a" "NODE_LOCAL"] "installation-a" "node-1" false (Some "DUPLICATE_NAMESPACE");
   mkOwnershipVec "cross-installation rejected"
     "NODE_LOCAL" [mkOwnerVec "economy" "node-1" "installation-b" "NODE_LOCAL"] "installation-a" "node-1" false (Some "CROSS_INSTALLATION");
   mkOwnershipVec "missing owner rejected"
     "NODE_LOCAL" [mkOwnerVec "economy" "" "installation-a" "NODE_LOCAL"] "installation-a" "node-1" false (Some "MISSING_OWNER")].

Definition quota_vectors : list QuotaAdmissionVector :=
  [mkQuotaVec "under limit admitted" "P1" 5 100 20 500 50 10 true "ADMITTED" None;
   mkQuotaVec "producer in-flight exceeded" "P1" 100 100 20 500 50 10 true "REJECTED" (Some "PRODUCER_IN_FLIGHT_EXCEEDED");
   mkQuotaVec "P0 capacity reserved blocks lower priority" "P2" 5 100 460 500 50 10 true "REJECTED" (Some "P0_CAPACITY_RESERVED");
   mkQuotaVec "P0 producer uses reserved capacity" "P0" 5 100 460 500 50 10 true "ADMITTED" None;
   mkQuotaVec "not locally owned rejected" "P1" 5 100 20 500 50 10 false "REJECTED" (Some "NOT_LOCALLY_OWNED")].

Definition profile_vectors : list KafkaProfileVector :=
  [mkProfileVec "valid P0 profile" 5 5 "all" true None;
   mkProfileVec "weakened RF rejected" 3 3 "all" false (Some "WEAKENED_DURABILITY");
   mkProfileVec "invalid acks rejected" 5 5 "1" false (Some "INVALID_ACKS")].

Definition shared_vectors : SharedVectors :=
  mkVectors 1 uuid_vectors boundary_vector digest_vectors fingerprint_vectors scope_vectors metadata_vectors rejection_vectors input_vectors checksum_vectors revision_vectors barrier_vector token_vector query_vectors watch_vectors registration_vectors acl_vectors policy_vectors ownership_vectors quota_vectors profile_vectors.

(** The model passes the checks of the shared vectors: identifiers, digests,
    fingerprints, scoped names, canonical metadata, message authentication codes,
    registration, access control, ownership, admission and profiles. *)
Lemma model_meets_vectors : @shared_vectors_are_valid fips_sha256 shared_vectors = true.
Proof. vm_compute. reflexivity. Qed.
