(* ===== verification/Scenarios.v ===== *)
(** * Scenarios

    The repository's tests are run on the model: each test is translated to a
    computation that stops at an assertion that does not hold, and evaluated.
    This file has the computations, the checks the tests use, and the SQL with
    which tests alter single cells of the database behind the journal's back. *)
From S2P Require Import Prelude Checksum JournalDb JournalCore JournalAccept.
Open Scope Z_scope.
#[local] Coercion Z.of_nat : nat >-> Z.

(** ** Tests *)

(** A test over a state: [None] is a panic. *)
Definition Test (S A : Type) : Type := S → option (A * S).

#[export] Instance test_ret {S} : MRet (Test S) := λ A a s, Some (a, s).
#[export] Instance test_bind {S} : MBind (Test S) := λ A B k m s,
  match m s with Some (a, s') => k a s' | None => None end.

(** [assert!] *)
Definition expect {S} (b : bool) : Test S unit := λ s, if b then Some (tt, s) else None.

(** [unwrap] *)
Definition unwrap {S A} (o : option A) : Test S A := λ s, (λ a, (a, s)) <$> o.

(** A read of the state, and a change of it. *)
Definition look {S A} (f : S → A) : Test S A := λ s, Some (f s, s).
Definition change {S} (f : S → S) : Test S unit := λ s, Some (tt, f s).

Definition passes {S A} (s : S) (t : Test S A) : bool :=
  match t s with Some _ => true | None => false end.

(** ** Checks *)

(** [haystack.contains(needle)] *)
Fixpoint contains (needle haystack : string) : bool :=
  String.prefix needle haystack ||
  match haystack with "" => false | String _ rest => contains needle rest end.

Definition eqb_of {A} `{EqDecision A} (a b : A) : bool := bool_decide (a = b).
Infix "=?=" := eqb_of (at level 70, no associativity) : relay_scope.

(** The constructor of an answer. *)
Definition is_accepted (r : AcceptResult) : bool := match r with Accepted _ => true | _ => false end.
Definition is_duplicate (r : AcceptResult) : bool :=
  match r with ExistingDuplicate _ => true | _ => false end.
Definition accept_corrupted (event_id detail : string) (r : AcceptResult) : bool :=
  match r with
  | AcceptCorrupted e d => (e =?= event_id) && contains detail d
  | _ => false
  end.
Definition is_found (r : StatusResult) : bool := match r with StatusFound _ => true | _ => false end.
Definition is_not_found (r : StatusResult) : bool :=
  match r with StatusNotFound => true | _ => false end.
Definition status_corrupted (detail : string) (r : StatusResult) : bool :=
  match r with StatusCorrupted _ d => contains detail d | _ => false end.
Definition found_status (r : StatusResult) : option PersistedStatus :=
  match r with StatusFound s => Some s | _ => None end.
Definition cas_corrupted (detail : string) (r : CasResult) : bool :=
  match r with CasCorrupted _ d => contains detail d | _ => false end.
Definition payload_corrupted (event_id detail : string) (r : PayloadReadResult) : bool :=
  match r with
  | PayloadCorrupted e d => (e =?= event_id) && contains detail d
  | _ => false
  end.
Definition found_delivery (r : DeliveryStateResult) : option DeliveryStateRecord :=
  match r with DeliveryFound d => Some d | _ => None end.
Definition delivery_corrupted (detail : string) (r : DeliveryStateResult) : bool :=
  match r with DeliveryCorrupted e d => (e =?= "e1") && contains detail d | _ => false end.
Definition candidate_corrupted (detail : string) (r : DeliveryCandidateResult) : bool :=
  match r with CandidateCorrupted e d => (e =?= "e1") && contains detail d | _ => false end.
Definition scanned (r : DeliveryScanResult) : option (list PendingDelivery) :=
  match r with ScanOk l => Some l | _ => None end.
Definition scan_corrupted (event_id detail : string) (r : DeliveryScanResult) : bool :=
  match r with ScanCorrupted e d => (e =?= Some event_id) && contains detail d | _ => false end.

(** ** Cells *)

Definition with_e_namespace (v : string) (e : EnvelopeRow) : EnvelopeRow :=
  mkEnvelope (e_journal_sequence e) (e_installation_id e) (e_producer_id e)
    (e_producer_instance_id e) (e_producer_op_seq e) v (e_logical_stream_type e)
    (e_stream_key e) (e_event_type e) (e_schema_version e) (e_stream_sequence e)
    (e_payload_digest e) (e_request_fingerprint e) (e_envelope_checksum e)
    (e_payload_ref_id e) (e_payload_length e) (e_routing_version e) (e_received_at_ms e).

Definition with_e_producer_id (v : string) (e : EnvelopeRow) : EnvelopeRow :=
  mkEnvelope (e_journal_sequence e) (e_installation_id e) v (e_producer_instance_id e)
    (e_producer_op_seq e) (e_namespace e) (e_logical_stream_type e) (e_stream_key e)
    (e_event_type e) (e_schema_version e) (e_stream_sequence e) (e_payload_digest e)
    (e_request_fingerprint e) (e_envelope_checksum e) (e_payload_ref_id e)
    (e_payload_length e) (e_routing_version e) (e_received_at_ms e).

Definition with_e_event_type (v : string) (e : EnvelopeRow) : EnvelopeRow :=
  mkEnvelope (e_journal_sequence e) (e_installation_id e) (e_producer_id e)
    (e_producer_instance_id e) (e_producer_op_seq e) (e_namespace e)
    (e_logical_stream_type e) (e_stream_key e) v (e_schema_version e) (e_stream_sequence e)
    (e_payload_digest e) (e_request_fingerprint e) (e_envelope_checksum e)
    (e_payload_ref_id e) (e_payload_length e) (e_routing_version e) (e_received_at_ms e).

Definition with_e_routing_version (v : Z) (e : EnvelopeRow) : EnvelopeRow :=
  mkEnvelope (e_journal_sequence e) (e_installation_id e) (e_producer_id e)
    (e_producer_instance_id e) (e_producer_op_seq e) (e_namespace e)
    (e_logical_stream_type e) (e_stream_key e) (e_event_type e) (e_schema_version e)
    (e_stream_sequence e) (e_payload_digest e) (e_request_fingerprint e)
    (e_envelope_checksum e) (e_payload_ref_id e) (e_payload_length e) v (e_received_at_ms e).

Definition with_e_payload_length (v : Z) (e : EnvelopeRow) : EnvelopeRow :=
  mkEnvelope (e_journal_sequence e) (e_installation_id e) (e_producer_id e)
    (e_producer_instance_id e) (e_producer_op_seq e) (e_namespace e)
    (e_logical_stream_type e) (e_stream_key e) (e_event_type e) (e_schema_version e)
    (e_stream_sequence e) (e_payload_digest e) (e_request_fingerprint e)
    (e_envelope_checksum e) (e_payload_ref_id e) v (e_routing_version e)
    (e_received_at_ms e).

Definition with_e_schema_version (v : Z) (e : EnvelopeRow) : EnvelopeRow :=
  mkEnvelope (e_journal_sequence e) (e_installation_id e) (e_producer_id e)
    (e_producer_instance_id e) (e_producer_op_seq e) (e_namespace e)
    (e_logical_stream_type e) (e_stream_key e) (e_event_type e) v (e_stream_sequence e)
    (e_payload_digest e) (e_request_fingerprint e) (e_envelope_checksum e)
    (e_payload_ref_id e) (e_payload_length e) (e_routing_version e) (e_received_at_ms e).

Definition with_e_payload_digest (v : list byte) (e : EnvelopeRow) : EnvelopeRow :=
  mkEnvelope (e_journal_sequence e) (e_installation_id e) (e_producer_id e)
    (e_producer_instance_id e) (e_producer_op_seq e) (e_namespace e)
    (e_logical_stream_type e) (e_stream_key e) (e_event_type e) (e_schema_version e)
    (e_stream_sequence e) v (e_request_fingerprint e) (e_envelope_checksum e)
    (e_payload_ref_id e) (e_payload_length e) (e_routing_version e) (e_received_at_ms e).

Definition with_e_request_fingerprint (v : list byte) (e : EnvelopeRow) : EnvelopeRow :=
  mkEnvelope (e_journal_sequence e) (e_installation_id e) (e_producer_id e)
    (e_producer_instance_id e) (e_producer_op_seq e) (e_namespace e)
    (e_logical_stream_type e) (e_stream_key e) (e_event_type e) (e_schema_version e)
    (e_stream_sequence e) (e_payload_digest e) v (e_envelope_checksum e)
    (e_payload_ref_id e) (e_payload_length e) (e_routing_version e) (e_received_at_ms e).

Definition with_e_stream_key (v : string) (e : EnvelopeRow) : EnvelopeRow :=
  mkEnvelope (e_journal_sequence e) (e_installation_id e) (e_producer_id e)
    (e_producer_instance_id e) (e_producer_op_seq e) (e_namespace e)
    (e_logical_stream_type e) v (e_event_type e) (e_schema_version e) (e_stream_sequence e)
    (e_payload_digest e) (e_request_fingerprint e) (e_envelope_checksum e)
    (e_payload_ref_id e) (e_payload_length e) (e_routing_version e) (e_received_at_ms e).

Definition with_e_logical_stream_type (v : string) (e : EnvelopeRow) : EnvelopeRow :=
  mkEnvelope (e_journal_sequence e) (e_installation_id e) (e_producer_id e)
    (e_producer_instance_id e) (e_producer_op_seq e) (e_namespace e) v (e_stream_key e)
    (e_event_type e) (e_schema_version e) (e_stream_sequence e) (e_payload_digest e)
    (e_request_fingerprint e) (e_envelope_checksum e) (e_payload_ref_id e)
    (e_payload_length e) (e_routing_version e) (e_received_at_ms e).

Definition with_p_payload (v : list byte) (p : PayloadRow) : PayloadRow :=
  mkPayload v (p_payload_digest p).

Definition with_p_payload_digest (v : list byte) (p : PayloadRow) : PayloadRow :=
  mkPayload (p_payload p) v.

Definition with_l_lifecycle_checksum (v : list byte) (l : LifecycleRow) : LifecycleRow :=
  mkLifecycle (l_revision l) v (l_delivery_status l) (l_retention_status l) (l_updated_at_ms l).

Definition with_l_delivery_status (v : string) (l : LifecycleRow) : LifecycleRow :=
  mkLifecycle (l_revision l) (l_lifecycle_checksum l) v (l_retention_status l) (l_updated_at_ms l).

Definition with_l_retention_status (v : string) (l : LifecycleRow) : LifecycleRow :=
  mkLifecycle (l_revision l) (l_lifecycle_checksum l) (l_delivery_status l) v (l_updated_at_ms l).

Definition with_l_revision (v : Z) (l : LifecycleRow) : LifecycleRow :=
  mkLifecycle v (l_lifecycle_checksum l) (l_delivery_status l) (l_retention_status l)
    (l_updated_at_ms l).

Definition with_d_delivery_status (v : string) (d : DeliveryStateRecord) : DeliveryStateRecord :=
  mkDelivery (d_event_id d) v (d_attempt_count d) (d_next_retry_at_ms d) (d_last_error d)
    (d_blocked_reason d) (d_kafka_topic d) (d_kafka_partition d) (d_kafka_offset d)
    (d_routing_fingerprint d) (d_profile_id d) (d_profile_version d) (d_delivery_revision d)
    (d_delivery_checksum d) (d_confirmed_at_ms d) (d_created_at_ms d) (d_updated_at_ms d).

Definition with_d_attempt_count (v : Z) (d : DeliveryStateRecord) : DeliveryStateRecord :=
  mkDelivery (d_event_id d) (d_delivery_status d) v (d_next_retry_at_ms d) (d_last_error d)
    (d_blocked_reason d) (d_kafka_topic d) (d_kafka_partition d) (d_kafka_offset d)
    (d_routing_fingerprint d) (d_profile_id d) (d_profile_version d) (d_delivery_revision d)
    (d_delivery_checksum d) (d_confirmed_at_ms d) (d_created_at_ms d) (d_updated_at_ms d).

Definition with_d_kafka_topic (v : option string) (d : DeliveryStateRecord) : DeliveryStateRecord :=
  mkDelivery (d_event_id d) (d_delivery_status d) (d_attempt_count d) (d_next_retry_at_ms d)
    (d_last_error d) (d_blocked_reason d) v (d_kafka_partition d) (d_kafka_offset d)
    (d_routing_fingerprint d) (d_profile_id d) (d_profile_version d) (d_delivery_revision d)
    (d_delivery_checksum d) (d_confirmed_at_ms d) (d_created_at_ms d) (d_updated_at_ms d).

Definition with_d_kafka_partition (v : option Z) (d : DeliveryStateRecord) : DeliveryStateRecord :=
  mkDelivery (d_event_id d) (d_delivery_status d) (d_attempt_count d) (d_next_retry_at_ms d)
    (d_last_error d) (d_blocked_reason d) (d_kafka_topic d) v (d_kafka_offset d)
    (d_routing_fingerprint d) (d_profile_id d) (d_profile_version d) (d_delivery_revision d)
    (d_delivery_checksum d) (d_confirmed_at_ms d) (d_created_at_ms d) (d_updated_at_ms d).

Definition with_d_kafka_offset (v : option Z) (d : DeliveryStateRecord) : DeliveryStateRecord :=
  mkDelivery (d_event_id d) (d_delivery_status d) (d_attempt_count d) (d_next_retry_at_ms d)
    (d_last_error d) (d_blocked_reason d) (d_kafka_topic d) (d_kafka_partition d) v
    (d_routing_fingerprint d) (d_profile_id d) (d_profile_version d) (d_delivery_revision d)
    (d_delivery_checksum d) (d_confirmed_at_ms d) (d_created_at_ms d) (d_updated_at_ms d).

Definition with_d_routing_fingerprint (v : option Checksum) (d : DeliveryStateRecord) : DeliveryStateRecord :=
  mkDelivery (d_event_id d) (d_delivery_status d) (d_attempt_count d) (d_next_retry_at_ms d)
    (d_last_error d) (d_blocked_reason d) (d_kafka_topic d) (d_kafka_partition d)
    (d_kafka_offset d) v (d_profile_id d) (d_profile_version d) (d_delivery_revision d)
    (d_delivery_checksum d) (d_confirmed_at_ms d) (d_created_at_ms d) (d_updated_at_ms d).

Definition with_d_profile_id (v : option string) (d : DeliveryStateRecord) : DeliveryStateRecord :=
  mkDelivery (d_event_id d) (d_delivery_status d) (d_attempt_count d) (d_next_retry_at_ms d)
    (d_last_error d) (d_blocked_reason d) (d_kafka_topic d) (d_kafka_partition d)
    (d_kafka_offset d) (d_routing_fingerprint d) v (d_profile_version d)
    (d_delivery_revision d) (d_delivery_checksum d) (d_confirmed_at_ms d)
    (d_created_at_ms d) (d_updated_at_ms d).

Definition with_d_profile_version (v : option Z) (d : DeliveryStateRecord) : DeliveryStateRecord :=
  mkDelivery (d_event_id d) (d_delivery_status d) (d_attempt_count d) (d_next_retry_at_ms d)
    (d_last_error d) (d_blocked_reason d) (d_kafka_topic d) (d_kafka_partition d)
    (d_kafka_offset d) (d_routing_fingerprint d) (d_profile_id d) v (d_delivery_revision d)
    (d_delivery_checksum d) (d_confirmed_at_ms d) (d_created_at_ms d) (d_updated_at_ms d).

Definition with_d_delivery_revision (v : Z) (d : DeliveryStateRecord) : DeliveryStateRecord :=
  mkDelivery (d_event_id d) (d_delivery_status d) (d_attempt_count d) (d_next_retry_at_ms d)
    (d_last_error d) (d_blocked_reason d) (d_kafka_topic d) (d_kafka_partition d)
    (d_kafka_offset d) (d_routing_fingerprint d) (d_profile_id d) (d_profile_version d) v
    (d_delivery_checksum d) (d_confirmed_at_ms d) (d_created_at_ms d) (d_updated_at_ms d).

Definition with_d_delivery_checksum (v : Checksum) (d : DeliveryStateRecord) : DeliveryStateRecord :=
  mkDelivery (d_event_id d) (d_delivery_status d) (d_attempt_count d) (d_next_retry_at_ms d)
    (d_last_error d) (d_blocked_reason d) (d_kafka_topic d) (d_kafka_partition d)
    (d_kafka_offset d) (d_routing_fingerprint d) (d_profile_id d) (d_profile_version d)
    (d_delivery_revision d) v (d_confirmed_at_ms d) (d_created_at_ms d) (d_updated_at_ms d).

Definition with_d_confirmed_at_ms (v : option Z) (d : DeliveryStateRecord) : DeliveryStateRecord :=
  mkDelivery (d_event_id d) (d_delivery_status d) (d_attempt_count d) (d_next_retry_at_ms d)
    (d_last_error d) (d_blocked_reason d) (d_kafka_topic d) (d_kafka_partition d)
    (d_kafka_offset d) (d_routing_fingerprint d) (d_profile_id d) (d_profile_version d)
    (d_delivery_revision d) (d_delivery_checksum d) v (d_created_at_ms d)
    (d_updated_at_ms d).

Definition with_d_next_retry_at_ms (v : option Z) (d : DeliveryStateRecord) : DeliveryStateRecord :=
  mkDelivery (d_event_id d) (d_delivery_status d) (d_attempt_count d) v (d_last_error d)
    (d_blocked_reason d) (d_kafka_topic d) (d_kafka_partition d) (d_kafka_offset d)
    (d_routing_fingerprint d) (d_profile_id d) (d_profile_version d) (d_delivery_revision d)
    (d_delivery_checksum d) (d_confirmed_at_ms d) (d_created_at_ms d) (d_updated_at_ms d).

Definition with_d_blocked_reason (v : option string) (d : DeliveryStateRecord) : DeliveryStateRecord :=
  mkDelivery (d_event_id d) (d_delivery_status d) (d_attempt_count d) (d_next_retry_at_ms d)
    (d_last_error d) v (d_kafka_topic d) (d_kafka_partition d) (d_kafka_offset d)
    (d_routing_fingerprint d) (d_profile_id d) (d_profile_version d) (d_delivery_revision d)
    (d_delivery_checksum d) (d_confirmed_at_ms d) (d_created_at_ms d) (d_updated_at_ms d).

Definition with_d_last_error (v : option string) (d : DeliveryStateRecord) : DeliveryStateRecord :=
  mkDelivery (d_event_id d) (d_delivery_status d) (d_attempt_count d) (d_next_retry_at_ms d) v
    (d_blocked_reason d) (d_kafka_topic d) (d_kafka_partition d) (d_kafka_offset d)
    (d_routing_fingerprint d) (d_profile_id d) (d_profile_version d) (d_delivery_revision d)
    (d_delivery_checksum d) (d_confirmed_at_ms d) (d_created_at_ms d) (d_updated_at_ms d).

Definition with_rq_stream_key (v : string) (r : AcceptRequest) : AcceptRequest :=
  mkAcceptRequest (rq_installation_id r) (rq_event_id r) (rq_producer_id r) (rq_producer_instance_id r)
    (rq_producer_operation_sequence r) (rq_namespace r) (rq_logical_stream_type r) v
    (rq_event_type r) (rq_schema_version r) (rq_payload r) (rq_request_fingerprint r)
    (rq_routing_version r).

Definition with_rq_payload (v : list byte) (r : AcceptRequest) : AcceptRequest :=
  mkAcceptRequest (rq_installation_id r) (rq_event_id r) (rq_producer_id r) (rq_producer_instance_id r)
    (rq_producer_operation_sequence r) (rq_namespace r) (rq_logical_stream_type r)
    (rq_stream_key r) (rq_event_type r) (rq_schema_version r) v (rq_request_fingerprint r)
    (rq_routing_version r).

Definition with_rq_request_fingerprint (v : Checksum) (r : AcceptRequest) : AcceptRequest :=
  mkAcceptRequest (rq_installation_id r) (rq_event_id r) (rq_producer_id r) (rq_producer_instance_id r)
    (rq_producer_operation_sequence r) (rq_namespace r) (rq_logical_stream_type r)
    (rq_stream_key r) (rq_event_type r) (rq_schema_version r) (rq_payload r) v
    (rq_routing_version r).

Definition with_rq_event_type (v : string) (r : AcceptRequest) : AcceptRequest :=
  mkAcceptRequest (rq_installation_id r) (rq_event_id r) (rq_producer_id r) (rq_producer_instance_id r)
    (rq_producer_operation_sequence r) (rq_namespace r) (rq_logical_stream_type r)
    (rq_stream_key r) v (rq_schema_version r) (rq_payload r) (rq_request_fingerprint r)
    (rq_routing_version r).

Definition with_rq_namespace (v : string) (r : AcceptRequest) : AcceptRequest :=
  mkAcceptRequest (rq_installation_id r) (rq_event_id r) (rq_producer_id r) (rq_producer_instance_id r)
    (rq_producer_operation_sequence r) v (rq_logical_stream_type r) (rq_stream_key r)
    (rq_event_type r) (rq_schema_version r) (rq_payload r) (rq_request_fingerprint r)
    (rq_routing_version r).

Definition with_rq_installation_id (v : string) (r : AcceptRequest) : AcceptRequest :=
  mkAcceptRequest v (rq_event_id r) (rq_producer_id r) (rq_producer_instance_id r)
    (rq_producer_operation_sequence r) (rq_namespace r) (rq_logical_stream_type r)
    (rq_stream_key r) (rq_event_type r) (rq_schema_version r) (rq_payload r)
    (rq_request_fingerprint r) (rq_routing_version r).

Definition with_rq_routing_version (v : Z) (r : AcceptRequest) : AcceptRequest :=
  mkAcceptRequest (rq_installation_id r) (rq_event_id r) (rq_producer_id r) (rq_producer_instance_id r)
    (rq_producer_operation_sequence r) (rq_namespace r) (rq_logical_stream_type r)
    (rq_stream_key r) (rq_event_type r) (rq_schema_version r) (rq_payload r)
    (rq_request_fingerprint r) v.

(** [UPDATE t SET .. WHERE event_id = eid], and [DELETE FROM t ..]. *)
Definition in_envelope (eid : string) (f : EnvelopeRow → EnvelopeRow) (db : Db) : Db :=
  set_stored_envelope (alter f eid (stored_envelope db)) db.
Definition in_payload (eid : string) (f : PayloadRow → PayloadRow) (db : Db) : Db :=
  set_payload_blob (alter f eid (payload_blob db)) db.
Definition in_lifecycle (eid : string) (f : LifecycleRow → LifecycleRow) (db : Db) : Db :=
  set_lifecycle_state (alter f eid (lifecycle_state db)) db.
Definition in_delivery (eid : string) (f : DeliveryStateRecord → DeliveryStateRecord) (db : Db) : Db :=
  set_delivery_state (alter f eid (delivery_state db)) db.
Definition delete_envelope (eid : string) (db : Db) : Db :=
  set_stored_envelope (delete eid (stored_envelope db)) db.
Definition delete_payload (eid : string) (db : Db) : Db :=
  set_payload_blob (delete eid (payload_blob db)) db.
Definition delete_lifecycle (eid : string) (db : Db) : Db :=
  set_lifecycle_state (delete eid (lifecycle_state db)) db.

(** A cell whose value does not convert to the type the source reads makes the
    statement that reads it fail. *)
Definition unreadable (n : nat) : Engine := {|
  sql_fault := λ k, if (k =? n)%nat then Some "Invalid column type" else None;
  sql_constraint := λ c, "constraint failed: " +:+ c
|}.
