(* ===== verification/ProtocolText.v ===== *)
(** * The protocol file (proto/craftrelay/v1/contracts.proto) and the testkit's checks of it

    The testkit includes the protobuf file as a text and looks for names in it:
    the message of a stored envelope must not have a field for anything that
    changes after acceptance, and the contracts must be there. *)
From S2P Require Import Prelude Checksum JournalDb JournalCore JournalAccept Scenarios.
Open Scope string_scope.

(** ** Searching a text *)

(** The text before the first occurrence of the needle, and the text behind it. *)
Fixpoint split_once (needle s : string) : option (string * string) :=
  if String.prefix needle s
  then Some (EmptyString, String.substring (String.length needle) (String.length s) s)
  else match s with
       | EmptyString => None
       | String c rest => (λ p, (String c p.1, p.2)) <$> split_once needle rest
       end.

(** [s.split(needle).next()]: the text up to the first occurrence. *)
Definition split_first (needle s : string) : string :=
  match split_once needle s with Some (before, _) => before | None => s end.

(** [s.split(needle).nth(1)]: the text between the first two occurrences. *)
Definition split_second (needle s : string) : option string :=
  split_first needle <$> (snd <$> split_once needle s).

Definition envelope_body (protocol : string) : option string :=
  split_first "}" <$> split_second "message StoredEventEnvelope" protocol.

Definition forbidden_fields : list string :=
  ["bytes payload ="; "delivery_status"; "kafka_partition ="; "kafka_offset"; "record_offset";
   "retry_count"; "projection_status"; "projection_progress"; "retention_status";
   "payload_present"; "payload_deleted"; "payload_deletion"].

Definition envelope_is_immutable (protocol : string) : bool :=
  match envelope_body protocol with
  | Some envelope => negb (existsb (λ field, contains field envelope) forbidden_fields)
  | None => false
  end &&
  contains "required_next_offset" protocol && contains "next_offset_to_resolve" protocol.

Definition contracts_are_named (protocol : string) : bool :=
  forallb (λ name, contains name protocol)
    ["ProducerLifecycleState"; "CredentialReference"; "AclEvaluationResult";
     "EffectivePolicyResult"; "OwnershipSnapshot"; "AdmissionResult"; "KafkaDurabilityProfile"].

(** ** What the searches find *)
Lemma prefix_iff a s : String.prefix a s = true ↔ ∃ b, s = a +:+ b.
Proof.
  revert s. induction a as [|c a IH]; intros s; [split; [by exists s|by destruct s]|].
  destruct s as [|d s]; simpl; [split; [done|intros [b Hb]; discriminate Hb]|].
  destruct (Ascii.ascii_dec c d) as [->|Hne].
  - rewrite IH. split; intros [b Hb]; exists b; [by rewrite Hb|by injection Hb].
  - split; [done|]. intros [b Hb]. by injection Hb.
Qed.

(** A text contains exactly what is a part of it. *)
Lemma contains_iff needle s : contains needle s = true ↔ ∃ a b, s = a +:+ needle +:+ b.
Proof.
  induction s as [|c s IH]; cbn [contains]; rewrite orb_true_iff, prefix_iff.
  - split; [intros [[b Hb]|?]; [by exists "", b|done]|]. intros ([|c a] & b & Hb); [|done].
    left. by exists b.
  - rewrite IH. split.
    + intros [[b Hb]|(a & b & ->)]; [by exists "", b|by exists (String c a), b].
    + intros ([|d a] & b & Hb); [left; by exists b|right].
      injection Hb as _ ->. by exists a, b.
Qed.

Lemma substring_all n s : (String.length s ≤ n)%nat → String.substring 0 n s = s.
Proof.
  revert n. induction s as [|c s IH]; intros [|n] Hn; simpl in *; try done; [lia|].
  f_equal. apply IH. lia.
Qed.

Lemma substring_behind a b n :
  (String.length b ≤ n)%nat → String.substring (String.length a) n (a +:+ b) = b.
Proof. intros Hn. induction a as [|c a IH]; simpl; [by apply substring_all|done]. Qed.

Lemma length_str_app a b : String.length (a +:+ b) = (String.length a + String.length b)%nat.
Proof. induction a; simpl; [done|]. by f_equal. Qed.

Lemma str_app_assoc a b c : (a +:+ b) +:+ c = a +:+ b +:+ c.
Proof. induction a as [|x a IH]; [done|]. exact (f_equal (String x) IH). Qed.

(** A split takes the text apart at the needle, and at the first one. *)
Lemma split_once_spec needle s before after :
  split_once needle s = Some (before, after) →
  s = before +:+ needle +:+ after ∧ (needle ≠ "" → contains needle before = false).
Proof.
  assert (Hhit : ∀ s, String.prefix needle s = true →
    s = "" +:+ needle +:+ String.substring (String.length needle) (String.length s) s ∧
    (needle ≠ "" → contains needle "" = false)).
  { intros t [b ->]%prefix_iff. rewrite substring_behind by (rewrite length_str_app; lia).
    split; [done|]. by destruct needle. }
  revert before after. induction s as [|c s IH]; intros before after; unfold split_once; fold split_once.
  - destruct (String.prefix needle "") eqn:Hp; [|done]. intros [= <- <-]. by apply Hhit.
  - destruct (String.prefix needle (String c s)) eqn:Hp; [intros [= <- <-]; by apply Hhit|].
    intros ([b0 a0] & Hs & [= -> ->])%fmap_Some. destruct (IH _ _ Hs) as [-> Hno].
    split; [done|]. intros Hne. cbn [fst snd contains]. rewrite (Hno Hne), orb_false_r.
    apply not_true_is_false. intros [b Hb]%prefix_iff. apply not_true_iff_false in Hp. apply Hp.
    apply prefix_iff. exists (b +:+ needle +:+ a0). cbn [fst snd].
    change (String c (b0 +:+ needle +:+ a0)) with (String c b0 +:+ needle +:+ a0).
    by rewrite Hb, str_app_assoc.
Qed.

(** ** The file *)
Definition dq : string := String (Ascii.ascii_of_nat 34) EmptyString.
Definition newline : string := String (Ascii.ascii_of_nat 10) EmptyString.
Definition blank : string := EmptyString.

Definition contracts_proto : string := String.concat newline
  ["syntax = " +:+ dq +:+ "proto3" +:+ dq +:+ ";";
   blank;
   "package craftrelay.v1;";
   blank;
   "option java_multiple_files = true;";
   "option java_package = " +:+ dq +:+ "io.craftrelay.protocol.v1" +:+ dq +:+ ";";
   blank;
   "message MetadataEntry { string key = 1; string value = 2; }";
   blank;
   "message InstallationScope {";
   "  string installation_id = 1;";
   "  string node_id = 2;";
   "}";
   blank;
   "message LogicalProducerIdentityReference {";
   "  string authenticated_producer_id = 1;";
   "  string producer_instance_id = 2;";
   "}";
   blank;
   "message EnvelopeInput {";
   "  string event_id = 1;";
   "  string namespace = 2;";
   "  string logical_stream_type = 3;";
   "  bytes stream_key = 4;";
   "  string event_type = 5;";
   "  int32 schema_version = 6;";
   "  string operation_type = 7;";
   "  string operation_id = 8;";
   "  string event_role = 9;";
   "  string requested_minimum_durability = 10;";
   "  repeated MetadataEntry client_metadata = 11;";
   "  bytes typed_payload = 12;";
   "  int32 canonicalization_version = 13;";
   "  string event_contract_handle = 14;";
   "}";
   blank;
   "message StoredEventEnvelope {";
   "  string installation_id = 1;";
   "  string event_id = 2;";
   "  string producer_id = 3;";
   "  string producer_instance_id = 4;";
   "  int64 producer_operation_sequence = 5;";
   "  string logical_stream_id = 6;";
   "  int64 stream_sequence = 7;";
   "  string event_contract_id = 8;";
   "  int32 schema_version = 9;";
   "  bytes payload_digest = 10;";
   "  bytes request_fingerprint = 11;";
   "  bytes envelope_checksum = 12;";
   "  repeated MetadataEntry metadata = 13;";
   "  int64 journal_sequence = 14;";
   "  string namespace = 15;";
   "  string logical_stream_type = 16;";
   "  bytes stream_key_digest = 17;";
   "  string event_type = 18;";
   "  string payload_ref_id = 19;";
   "  int64 payload_length = 20;";
   "  string payload_encoding = 21;";
   "  string effective_required_durability = 22;";
   "  string retention_policy_id = 23;";
   "  string projection_policy_id = 24;";
   "  string kafka_topic = 25;";
   "  reserved 26;";
   "  reserved " +:+ dq +:+ "kafka_partition" +:+ dq +:+ ";";
   "  int64 routing_version = 27;";
   "  repeated MetadataEntry system_metadata = 28;";
   "}";
   blank;
   "message ClientPublishRequest {";
   "  string event_id = 1;";
   "  string namespace = 2;";
   "  string logical_stream_type = 3;";
   "  string event_type = 4;";
   "  int32 schema_version = 5;";
   "  bytes stream_key = 6;";
   "  string operation_identity = 7;";
   "  string requested_minimum_durability = 8;";
   "  bytes typed_payload = 9;";
   "  repeated MetadataEntry client_metadata = 10;";
   "  int32 canonicalization_version = 11;";
   "  string event_contract_handle = 12;";
   "  int64 producer_operation_sequence = 13;";
   "}";
   blank;
   "message BridgeHandshakeRequest {";
   "  int32 protocol_major = 1;";
   "  int32 protocol_minor = 2;";
   "  InstallationScope installation_scope = 3;";
   "  string integration_id = 4;";
   "  int32 integration_version = 5;";
   "  string proposed_producer_instance_id = 6;";
   "}";
   blank;
   "message BridgeHandshakeResponse {";
   "  bool compatible = 1;";
   "  int32 selected_protocol_major = 2;";
   "  int32 selected_protocol_minor = 3;";
   "  LogicalProducerIdentityReference producer = 4;";
   "  string transport_session_id = 5;";
   "  BridgeReadiness readiness = 6;";
   "  int32 max_active_publish_handles = 7;";
   "  int32 max_active_watches = 8;";
   "}";
   blank;
   "message EventPayloadBlob { string installation_id = 1; string event_id = 2; bytes payload = 3; bytes payload_digest = 4; }";
   blank;
   "enum PayloadRetentionStatus { PAYLOAD_RETENTION_STATUS_UNSPECIFIED = 0; PAYLOAD_RETENTION_STATUS_PRESENT = 1; PAYLOAD_RETENTION_STATUS_ELIGIBLE = 2; PAYLOAD_RETENTION_STATUS_REMOVED = 3; PAYLOAD_RETENTION_STATUS_INTEGRITY_BLOCKED = 4; }";
   "message PayloadRetentionState { string event_id = 1; int64 revision = 2; bytes snapshot_checksum = 3; PayloadRetentionStatus status = 4; string retention_basis = 5; string installation_id = 6; }";
   blank;
   "enum EventDeliveryStatus { EVENT_DELIVERY_STATUS_UNSPECIFIED = 0; EVENT_DELIVERY_STATUS_LOCAL_ACCEPTED = 1; EVENT_DELIVERY_STATUS_PENDING = 2; EVENT_DELIVERY_STATUS_REPLICATED = 3; EVENT_DELIVERY_STATUS_DELIVERY_BLOCKED = 4; }";
   "message AttemptSummary { int32 attempt_number = 1; string outcome_code = 2; int64 occurred_at_unix_millis = 3; }";
   "message KafkaDeliveryLocation { string topic = 1; int32 partition = 2; int64 record_offset = 3; }";
   "message EventDeliveryState { string event_id = 1; int64 revision = 2; bytes snapshot_checksum = 3; EventDeliveryStatus status = 4; repeated AttemptSummary bounded_attempt_summaries = 5; KafkaDeliveryLocation delivery_location = 6; string installation_id = 7; }";
   blank;
   "enum ProjectionStatus { PROJECTION_STATUS_UNSPECIFIED = 0; PROJECTION_STATUS_NOT_REQUIRED = 1; PROJECTION_STATUS_PENDING = 2; PROJECTION_STATUS_ACKNOWLEDGED = 3; PROJECTION_STATUS_BLOCKED = 4; }";
   "message ProjectionTrackingState { string event_id = 1; int64 revision = 2; bytes snapshot_checksum = 3; ProjectionStatus status = 4; repeated string required_projector_ids = 5; repeated AttemptSummary bounded_attempt_summaries = 6; string installation_id = 7; }";
   blank;
   "message PublishLifecycleSnapshot { string event_id = 1; int64 revision = 2; bytes snapshot_checksum = 3; EventDeliveryStatus delivery_status = 4; ProjectionStatus projection_status = 5; PayloadRetentionStatus retention_status = 6; repeated AttemptSummary bounded_attempt_summaries = 7; string installation_id = 8; }";
   "message BoundedPublishHandle { string event_id = 1; bool tracking_attached = 2; int64 latest_revision = 3; }";
   "message GetPublishStatusRequest { InstallationScope installation_scope = 1; string event_id = 2; }";
   "message GetPublishStatusResponse { bool found = 1; PublishLifecycleSnapshot snapshot = 2; bool fake_non_durable = 3; }";
   "enum PublishRejectionCode { PUBLISH_REJECTION_CODE_UNSPECIFIED = 0; PUBLISH_REJECTION_CODE_INVALID_REQUEST = 1; PUBLISH_REJECTION_CODE_POLICY = 2; PUBLISH_REJECTION_CODE_CAPACITY = 3; PUBLISH_REJECTION_CODE_NOT_OWNER = 4; PUBLISH_REJECTION_CODE_INTEGRITY_CONFLICT = 5; }";
   "enum TransportOutcome { TRANSPORT_OUTCOME_UNSPECIFIED = 0; TRANSPORT_OUTCOME_NOT_ACCEPTED = 1; TRANSPORT_OUTCOME_INDETERMINATE = 2; TRANSPORT_OUTCOME_TRACKING_DETACHED = 3; }";
   blank;
   "message RequestedFlushCriteria { int32 max_records = 1; int64 max_bytes = 2; int64 max_age_millis = 3; }";
   "message EffectiveFlushCriteria { int32 max_records = 1; int64 max_bytes = 2; int64 max_age_millis = 3; bool flush_on_shutdown_or_drain = 4; }";
   "enum FlushTriggerSemantics { FLUSH_TRIGGER_SEMANTICS_UNSPECIFIED = 0; FLUSH_TRIGGER_SEMANTICS_ANY_CRITERION_OR = 1; }";
   "enum FlushPolicyDecision { FLUSH_POLICY_DECISION_UNSPECIFIED = 0; FLUSH_POLICY_DECISION_ACCEPTED = 1; FLUSH_POLICY_DECISION_CLAMPED = 2; FLUSH_POLICY_DECISION_REJECTED = 3; }";
   "message FlushPolicyResolution { RequestedFlushCriteria requested = 1; EffectiveFlushCriteria effective = 2; FlushPolicyDecision decision = 3; string event_class_policy_id = 4; FlushTriggerSemantics semantics = 5; }";
   "message InteractiveFlushRequest { string integration_id = 1; string event_contract_handle = 2; int64 timeout_millis = 3; int32 max_accumulators = 4; }";
   "message InteractiveFlushResult { bool completed = 1; bool scoped = 2; bool kafka_payload_scan_performed = 3; }";
   blank;
   "enum BatchingKind { BATCHING_KIND_UNSPECIFIED = 0; BATCHING_KIND_PHYSICAL = 1; BATCHING_KIND_SEMANTIC_COALESCING = 2; }";
   "message BatchingContract { BatchingKind kind = 1; bool preserves_event_identity = 2; bool preserves_lifecycle = 3; bool preserves_dedup = 4; bool preserves_ledger_rows = 5; }";
   "enum EventClass { EVENT_CLASS_UNSPECIFIED = 0; EVENT_CLASS_P0_LEDGER = 1; EVENT_CLASS_P0_OWNERSHIP = 2; EVENT_CLASS_P0_PREMIUM = 3; EVENT_CLASS_ACTIVITY_DELTA = 4; EVENT_CLASS_DISPLAY = 5; }";
   "message EventClassPolicy { EventClass event_class = 1; bool semantic_coalescing_allowed = 2; EffectiveFlushCriteria ceilings = 3; int32 reserved_local_capacity = 4; }";
   blank;
   "message ProjectionAckOutboxRecord { string event_id = 1; string projector_id = 2; string projection_name = 3; int64 projection_revision = 4; bytes ack_checksum = 5; }";
   "message AgentAckConsumptionContract { bool persist_before_kafka_offset_commit = 1; bool deduplicate = 2; int32 max_batch_records = 3; }";
   blank;
   "message QueryDefinition { string query_contract_handle = 1; string parameter_schema_id = 2; int32 parameter_schema_version = 3; string result_schema_id = 4; int32 result_schema_version = 5; }";
   "message GetAccountParameters { string account_id = 1; }";
   "message QueryParameters { oneof typed_parameters { GetAccountParameters get_account = 1; } }";
   blank;
   "enum QueryConsistencyMode { QUERY_CONSISTENCY_MODE_UNSPECIFIED = 0; QUERY_CONSISTENCY_MODE_STRICT_LATEST_COMMITTED = 1; QUERY_CONSISTENCY_MODE_AT_LEAST_TOKEN = 2; QUERY_CONSISTENCY_MODE_ALLOW_STALE = 3; }";
   "message PartitionNextOffset { int32 partition = 1; int64 next_offset = 2; string topic = 3; }";
   "message ProjectionBarrier { int64 topology_version = 1; int64 routing_version = 2; string partition_set_id = 3; repeated PartitionNextOffset required_next_offset = 4; int32 barrier_version = 5; string barrier_id = 6; string installation_id = 7; string query_id = 8; int32 query_definition_version = 9; bytes partition_set_checksum = 10; bytes barrier_checksum = 11; }";
   "message TypedQueryRequest {";
   "  string query_contract_handle = 1;";
   "  bytes typed_parameters = 2;";
   "  QueryConsistencyMode consistency = 3;";
   "  ProjectionBarrier strict_barrier = 4;";
   "  repeated ProjectionConsistencyToken minimum_tokens = 5;";
   "  int64 timeout_millis = 6;";
   "}";
   blank;
   "message QueryFreshnessMetadata {";
   "  QueryConsistencyMode requested_mode = 1;";
   "  bool current = 2;";
   "  bool authoritative = 3;";
   "  bool tracking_detached = 4;";
   "  ProjectionBarrier proven_barrier = 5;";
   "  repeated ProjectionConsistencyToken proven_tokens = 6;";
   "}";
   "enum CheckpointBlockedState { CHECKPOINT_BLOCKED_STATE_UNSPECIFIED = 0; CHECKPOINT_BLOCKED_STATE_CLEAR = 1; CHECKPOINT_BLOCKED_STATE_GAP = 2; CHECKPOINT_BLOCKED_STATE_POISON = 3; CHECKPOINT_BLOCKED_STATE_INTEGRITY = 4; }";
   "message ProjectionCheckpoint { string projector_id = 1; string projection_name = 2; int32 partition = 3; int64 next_offset_to_resolve = 4; CheckpointBlockedState blocked_state = 5; int64 revision = 6; bytes snapshot_checksum = 7; }";
   "message CheckpointOnlyAdvancementContract { bool domain_rows_unchanged = 1; bool archive_rows_unchanged = 2; bool verified_read_committed_gap = 3; int64 new_next_offset_to_resolve = 4; }";
   blank;
   "message ProjectionMutationRef { string projection_id = 1; string entity_type = 2; string entity_id = 3; int64 domain_version = 4; string topic = 5; int32 partition = 6; int64 required_next_offset = 7; }";
   "message ProjectionConsistencyToken { int32 token_version = 1; string installation_id = 2; string projector_id = 3; string projection_name = 4; int64 expires_at_unix_millis = 5; int64 topology_version = 6; int64 routing_version = 7; repeated PartitionNextOffset required_next_offset = 8; bytes token_checksum = 9; bytes mac = 10; string issuer_agent_id = 11; string authenticated_producer_id = 12; string event_id = 13; string query_scope = 14; int32 query_definition_version = 15; string projection_policy_id = 16; int32 projection_policy_version = 17; repeated ProjectionMutationRef bounded_mutation_refs = 18; int64 issued_at_unix_millis = 19; string key_id = 20; }";
   "message GetProjectionConsistencyTokensRequest { string installation_id = 1; string event_id = 2; repeated string bounded_projection_names = 3; int64 timeout_millis = 4; int32 max_tokens = 5; }";
   "message GetProjectionConsistencyTokensResponse { repeated ProjectionConsistencyToken tokens = 1; bool detached = 2; }";
   blank;
   "message EntityVersionWatch { string query_contract_handle = 1; string entity_id = 2; int64 after_version = 3; int32 max_buffer_events = 4; int64 max_buffer_bytes = 5; int64 timeout_millis = 6; }";
   "message BarrierVectorWatch { ProjectionBarrier after_barrier = 1; int32 max_buffer_events = 2; int64 max_buffer_bytes = 3; int64 timeout_millis = 4; }";
   "enum WatchState { WATCH_STATE_UNSPECIFIED = 0; WATCH_STATE_CURRENT = 1; WATCH_STATE_DETACHED = 2; WATCH_STATE_INCOMPARABLE = 3; WATCH_STATE_CONFLICT = 4; }";
   "message WatchSubscriptionRequest {";
   "  oneof watch {";
   "    EntityVersionWatch entity_version = 1;";
   "    BarrierVectorWatch barrier_vector = 2;";
   "  }";
   "}";
   "message WatchFreshnessMetadata {";
   "  WatchState state = 1;";
   "  bool current = 2;";
   "  string detach_reason = 3;";
   "  int64 observed_version = 4;";
   "  ProjectionBarrier observed_barrier = 5;";
   "}";
   blank;
   "enum DisplayQueryMode { DISPLAY_QUERY_MODE_UNSPECIFIED = 0; DISPLAY_QUERY_MODE_PROJECTED_PLUS_LIVE = 1; DISPLAY_QUERY_MODE_LIVE_ONLY = 2; }";
   "message LiveProjectionCheckpoint { string live_source_id = 1; int64 topology_version = 2; int64 routing_version = 3; repeated PartitionNextOffset next_offset_to_resolve = 4; }";
   "message LiveSourceMetadata { string source_id = 1; string source_kind = 2; bool authoritative = 3; bool kafka_derived = 4; }";
   "enum RedisLiveAvailability { REDIS_LIVE_AVAILABILITY_UNSPECIFIED = 0; REDIS_LIVE_AVAILABILITY_AVAILABLE = 1; REDIS_LIVE_AVAILABILITY_REBUILDING = 2; REDIS_LIVE_AVAILABILITY_UNAVAILABLE = 3; }";
   "message DisplayResultClassification { DisplayQueryMode mode = 1; bool display_only = 2; bool satisfies_strict = 3; bool satisfies_token = 4; LiveSourceMetadata source = 5; LiveProjectionCheckpoint checkpoint = 6; RedisLiveAvailability availability = 7; }";
   blank;
   "enum BridgeReadiness { BRIDGE_READINESS_UNSPECIFIED = 0; BRIDGE_READINESS_NOT_READY = 1; BRIDGE_READINESS_READY = 2; BRIDGE_READINESS_DEGRADED = 3; }";
   "message EventContractRegistration { string contract_name = 1; repeated int32 schema_versions = 2; string event_contract_handle = 3; EventClass event_class = 4; RequestedFlushCriteria requested_flush = 5; }";
   "message QueryContractRegistration { string contract_name = 1; repeated int32 schema_versions = 2; string query_contract_handle = 3; }";
   "message IntegrationManifest { string integration_id = 1; int32 integration_version = 2; string paper_plugin_id = 3; repeated EventContractRegistration events = 4; repeated QueryContractRegistration queries = 5; int32 max_pending_publishes = 6; int32 max_pending_queries = 7; int32 max_active_watches = 8; }";
   "message LogicalProducerRegistration { string installation_id = 1; string integration_id = 2; string authenticated_producer_id = 3; string producer_instance_id = 4; int64 next_producer_operation_sequence = 5; }";
   blank;
   "enum ExecutionContextKind { EXECUTION_CONTEXT_KIND_UNSPECIFIED = 0; EXECUTION_CONTEXT_KIND_GLOBAL_SERVER = 1; EXECUTION_CONTEXT_KIND_ENTITY = 2; EXECUTION_CONTEXT_KIND_REGION = 3; EXECUTION_CONTEXT_KIND_ASYNC_ONLY = 4; }";
   "message ExecutionContextContract { ExecutionContextKind kind = 1; string owner_plugin_id = 2; bool gameplay_mutation_allowed = 3; }";
   "message ClassloaderBoundaryContract { bool api_types_only = 1; bool jdk_types_allowed = 2; bool generated_domain_types_exposed = 3; bool grpc_runtime_exposed = 4; }";
   "message BridgeProducerOwnership { string producer_instance_id = 1; int64 next_producer_operation_sequence = 2; bool bridge_owned = 3; }";
   "message BridgeCapacityContract { int32 total_pending_capacity = 1; int32 reserved_p0_capacity = 2; int32 per_producer_pending_limit = 3; }";
   blank;
   "message LocalFirstProgressPolicy { bool immediate_local_visual_feedback = 1; bool asynchronous_delta_publish = 2; bool query_service_reconciliation = 3; bool query_per_gameplay_action = 4; }";
   blank;
   "// --- Sprint 2: Producer Registration ---";
   blank;
   "enum ProducerLifecycleState {";
   "  PRODUCER_LIFECYCLE_STATE_UNSPECIFIED = 0;";
   "  PRODUCER_LIFECYCLE_STATE_ACTIVE = 1;";
   "  PRODUCER_LIFECYCLE_STATE_DISABLED = 2;";
   "  PRODUCER_LIFECYCLE_STATE_SUSPENDED = 3;";
   "}";
   blank;
   "enum PriorityClass {";
   "  PRIORITY_CLASS_UNSPECIFIED = 0;";
   "  PRIORITY_CLASS_P0 = 1;";
   "  PRIORITY_CLASS_P1 = 2;";
   "  PRIORITY_CLASS_P2 = 3;";
   "  PRIORITY_CLASS_BACKGROUND = 4;";
   "}";
   blank;
   "enum QuotaClass {";
   "  QUOTA_CLASS_UNSPECIFIED = 0;";
   "  QUOTA_CLASS_CRITICAL = 1;";
   "  QUOTA_CLASS_STANDARD = 2;";
   "  QUOTA_CLASS_BULK = 3;";
   "}";
   blank;
   "message ProducerRegistrationRequest {";
   "  string installation_id = 1;";
   "  string integration_id = 2;";
   "  string paper_plugin_id = 3;";
   "  string proposed_producer_instance_id = 4;";
   "  IntegrationManifest manifest = 5;";
   "}";
   blank;
   "message RegisteredProducer {";
   "  string installation_id = 1;";
   "  string producer_id = 2;";
   "  string producer_instance_id = 3;";
   "  string integration_id = 4;";
   "  string paper_plugin_id = 5;";
   "  ProducerLifecycleState lifecycle_state = 6;";
   "  repeated string allowed_namespaces = 7;";
   "  PriorityClass priority_class = 8;";
   "  QuotaClass quota_class = 9;";
   "  string policy_binding_id = 10;";
   "  int32 max_bounded_namespaces = 11;";
   "}";
   blank;
   "message RegisteredProducerHandle {";
   "  string producer_id = 1;";
   "  string producer_instance_id = 2;";
   "  string installation_id = 3;";
   "  ProducerLifecycleState lifecycle_state = 4;";
   "  PriorityClass effective_priority_class = 5;";
   "  QuotaClass effective_quota_class = 6;";
   "}";
   blank;
   "enum ProducerRegistrationRejectionCode {";
   "  PRODUCER_REGISTRATION_REJECTION_CODE_UNSPECIFIED = 0;";
   "  PRODUCER_REGISTRATION_REJECTION_CODE_DUPLICATE = 1;";
   "  PRODUCER_REGISTRATION_REJECTION_CODE_DISABLED = 2;";
   "  PRODUCER_REGISTRATION_REJECTION_CODE_SUSPENDED = 3;";
   "  PRODUCER_REGISTRATION_REJECTION_CODE_CROSS_INSTALLATION = 4;";
   "  PRODUCER_REGISTRATION_REJECTION_CODE_INVALID_MANIFEST = 5;";
   "  PRODUCER_REGISTRATION_REJECTION_CODE_NAMESPACE_DENIED = 6;";
   "}";
   blank;
   "message ProducerRegistrationResult {";
   "  bool accepted = 1;";
   "  RegisteredProducerHandle handle = 2;";
   "  ProducerRegistrationRejectionCode rejection_code = 3;";
   "  string rejection_reason = 4;";
   "}";
   blank;
   "// --- Sprint 2: IntegrationManifest Extended Validation ---";
   blank;
   "enum DurabilityClass {";
   "  DURABILITY_CLASS_UNSPECIFIED = 0;";
   "  DURABILITY_CLASS_LOCAL_DURABLE = 1;";
   "  DURABILITY_CLASS_REPLICATED_DURABLE = 2;";
   "}";
   blank;
   "enum RetentionClass {";
   "  RETENTION_CLASS_UNSPECIFIED = 0;";
   "  RETENTION_CLASS_STANDARD = 1;";
   "  RETENTION_CLASS_EXTENDED = 2;";
   "  RETENTION_CLASS_PERMANENT = 3;";
   "}";
   blank;
   "message ManifestEventDeclaration {";
   "  string event_type = 1;";
   "  int32 min_schema_version = 2;";
   "  int32 max_schema_version = 3;";
   "  string namespace = 4;";
   "  EventClass event_class = 5;";
   "  RequestedFlushCriteria requested_flush = 6;";
   "  string projection_policy_id = 7;";
   "  DurabilityClass requested_durability = 8;";
   "  RetentionClass requested_retention = 9;";
   "  PriorityClass requested_priority = 10;";
   "  QuotaClass requested_quota = 11;";
   "}";
   blank;
   "message ManifestQueryDeclaration {";
   "  string query_id = 1;";
   "  int32 min_schema_version = 2;";
   "  int32 max_schema_version = 3;";
   "}";
   blank;
   "message ManifestNamespaceDeclaration {";
   "  string namespace = 1;";
   "}";
   blank;
   "message ExtendedIntegrationManifest {";
   "  string integration_id = 1;";
   "  int32 integration_version = 2;";
   "  string paper_plugin_id = 3;";
   "  string producer_id = 4;";
   "  repeated ManifestEventDeclaration events = 5;";
   "  repeated ManifestQueryDeclaration queries = 6;";
   "  repeated ManifestNamespaceDeclaration namespaces = 7;";
   "  DurabilityClass required_durability = 8;";
   "  RetentionClass required_retention = 9;";
   "  PriorityClass requested_priority = 10;";
   "  QuotaClass requested_quota = 11;";
   "  int32 max_pending_publishes = 12;";
   "  int32 max_pending_queries = 13;";
   "  int32 max_active_watches = 14;";
   "  int32 protocol_min_version = 15;";
   "  int32 protocol_max_version = 16;";
   "}";
   blank;
   "enum ManifestValidationCode {";
   "  MANIFEST_VALIDATION_CODE_UNSPECIFIED = 0;";
   "  MANIFEST_VALIDATION_CODE_VALID = 1;";
   "  MANIFEST_VALIDATION_CODE_DUPLICATE_EVENT = 2;";
   "  MANIFEST_VALIDATION_CODE_DUPLICATE_QUERY = 3;";
   "  MANIFEST_VALIDATION_CODE_DUPLICATE_NAMESPACE = 4;";
   "  MANIFEST_VALIDATION_CODE_INVALID_EVENT_NAME = 5;";
   "  MANIFEST_VALIDATION_CODE_INVALID_QUERY_NAME = 6;";
   "  MANIFEST_VALIDATION_CODE_INVALID_NAMESPACE_NAME = 7;";
   "  MANIFEST_VALIDATION_CODE_UNBOUNDED_LIMIT = 8;";
   "  MANIFEST_VALIDATION_CODE_MISSING_LIMIT = 9;";
   "  MANIFEST_VALIDATION_CODE_BEST_EFFORT_FORBIDDEN = 10;";
   "  MANIFEST_VALIDATION_CODE_SELF_PROMOTION_FORBIDDEN = 11;";
   "  MANIFEST_VALIDATION_CODE_INVALID_SCHEMA_VERSION = 12;";
   "}";
   blank;
   "message ManifestValidationResult {";
   "  bool valid = 1;";
   "  repeated ManifestValidationCode violations = 2;";
   "  repeated string violation_details = 3;";
   "}";
   blank;
   "// --- Sprint 2: Credentials and ACL ---";
   blank;
   "enum CredentialKind {";
   "  CREDENTIAL_KIND_UNSPECIFIED = 0;";
   "  CREDENTIAL_KIND_SHARED_SECRET = 1;";
   "  CREDENTIAL_KIND_MTLS_CERTIFICATE = 2;";
   "  CREDENTIAL_KIND_IPC_TOKEN = 3;";
   "  CREDENTIAL_KIND_FAKE_TEST_ONLY = 4;";
   "}";
   blank;
   "enum CredentialStatus {";
   "  CREDENTIAL_STATUS_UNSPECIFIED = 0;";
   "  CREDENTIAL_STATUS_ACTIVE = 1;";
   "  CREDENTIAL_STATUS_REVOKED = 2;";
   "  CREDENTIAL_STATUS_EXPIRED = 3;";
   "  CREDENTIAL_STATUS_UNKNOWN = 4;";
   "}";
   blank;
   "message CredentialReference {";
   "  string credential_id = 1;";
   "  CredentialKind kind = 2;";
   "  int32 credential_revision = 3;";
   "  CredentialStatus status = 4;";
   "  string installation_id = 5;";
   "}";
   blank;
   "enum AclAction {";
   "  ACL_ACTION_UNSPECIFIED = 0;";
   "  ACL_ACTION_PUBLISH = 1;";
   "  ACL_ACTION_QUERY = 2;";
   "  ACL_ACTION_WATCH = 3;";
   "  ACL_ACTION_ADMIN = 4;";
   "}";
   blank;
   "enum AclDecision {";
   "  ACL_DECISION_UNSPECIFIED = 0;";
   "  ACL_DECISION_ALLOW = 1;";
   "  ACL_DECISION_DENY = 2;";
   "}";
   blank;
   "enum AclDenyReason {";
   "  ACL_DENY_REASON_UNSPECIFIED = 0;";
   "  ACL_DENY_REASON_NO_MATCHING_RULE = 1;";
   "  ACL_DENY_REASON_EXPLICIT_DENY = 2;";
   "  ACL_DENY_REASON_CREDENTIAL_INVALID = 3;";
   "  ACL_DENY_REASON_CREDENTIAL_REVOKED = 4;";
   "  ACL_DENY_REASON_CREDENTIAL_EXPIRED = 5;";
   "  ACL_DENY_REASON_CROSS_INSTALLATION = 6;";
   "  ACL_DENY_REASON_NAMESPACE_DENIED = 7;";
   "}";
   blank;
   "message AclPrincipal {";
   "  string producer_id = 1;";
   "  string installation_id = 2;";
   "  CredentialReference credential = 3;";
   "}";
   blank;
   "message AclRule {";
   "  string rule_id = 1;";
   "  AclAction action = 2;";
   "  string namespace_pattern = 3;";
   "  AclDecision decision = 4;";
   "  int32 priority = 5;";
   "}";
   blank;
   "message AclScope {";
   "  string installation_id = 1;";
   "  string namespace = 2;";
   "  AclAction action = 3;";
   "}";
   blank;
   "message AclEvaluationResult {";
   "  AclDecision decision = 1;";
   "  AclDenyReason deny_reason = 2;";
   "  string matched_rule_id = 3;";
   "  int64 policy_version = 4;";
   "}";
   blank;
   "// --- Sprint 2: Policy Resolution ---";
   blank;
   "enum PolicyRejectionReason {";
   "  POLICY_REJECTION_REASON_UNSPECIFIED = 0;";
   "  POLICY_REJECTION_REASON_SELF_PROMOTION = 1;";
   "  POLICY_REJECTION_REASON_DURABILITY_WEAKENING = 2;";
   "  POLICY_REJECTION_REASON_RETENTION_WEAKENING = 3;";
   "  POLICY_REJECTION_REASON_PROJECTION_BYPASS = 4;";
   "  POLICY_REJECTION_REASON_INSTALLATION_ESCAPE = 5;";
   "  POLICY_REJECTION_REASON_BEST_EFFORT_FORBIDDEN = 6;";
   "  POLICY_REJECTION_REASON_INVALID_POLICY_BINDING = 7;";
   "  POLICY_REJECTION_REASON_UNKNOWN_POLICY_BINDING = 8;";
   "  POLICY_REJECTION_REASON_ACL_DENIED = 9;";
   "  POLICY_REJECTION_REASON_PRODUCER_DISABLED = 10;";
   "  POLICY_REJECTION_REASON_PRODUCER_SUSPENDED = 11;";
   "  POLICY_REJECTION_REASON_CROSS_INSTALLATION = 12;";
   "  POLICY_REJECTION_REASON_NOT_LOCALLY_OWNED = 13;";
   "  POLICY_REJECTION_REASON_QUOTA_EXCEEDED = 14;";
   "}";
   blank;
   "enum AdmissionDecision {";
   "  ADMISSION_DECISION_UNSPECIFIED = 0;";
   "  ADMISSION_DECISION_ADMITTED = 1;";
   "  ADMISSION_DECISION_REJECTED = 2;";
   "}";
   blank;
   "message PolicyResolutionRequest {";
   "  string installation_id = 1;";
   "  RegisteredProducerHandle producer = 2;";
   "  ExtendedIntegrationManifest manifest = 3;";
   "  AclEvaluationResult acl_result = 4;";
   "  string ownership_snapshot_id = 5;";
   "  string namespace = 6;";
   "  DurabilityClass requested_durability = 7;";
   "  RetentionClass requested_retention = 8;";
   "  string requested_projection_policy_id = 9;";
   "  RequestedFlushCriteria requested_flush = 10;";
   "  PriorityClass requested_priority = 11;";
   "  QuotaClass requested_quota = 12;";
   "}";
   blank;
   "message EffectivePolicyResult {";
   "  string effective_producer_id = 1;";
   "  string effective_namespace = 2;";
   "  DurabilityClass effective_durability = 3;";
   "  RetentionClass effective_retention = 4;";
   "  string effective_projection_policy_id = 5;";
   "  int32 effective_projection_policy_version = 6;";
   "  QuotaClass effective_quota_class = 7;";
   "  PriorityClass effective_priority_class = 8;";
   "  EffectiveFlushCriteria effective_flush = 9;";
   "  int64 policy_version = 10;";
   "  string ownership_snapshot_id = 11;";
   "  AdmissionDecision admission_decision = 12;";
   "  PolicyRejectionReason rejection_reason = 13;";
   "  string decision_detail = 14;";
   "}";
   blank;
   "// --- Sprint 2: Ownership Snapshot ---";
   blank;
   "enum OwnershipMode {";
   "  OWNERSHIP_MODE_UNSPECIFIED = 0;";
   "  OWNERSHIP_MODE_NODE_LOCAL = 1;";
   "}";
   blank;
   "message OwnershipSnapshotId {";
   "  string snapshot_id = 1;";
   "  int64 snapshot_version = 2;";
   "}";
   blank;
   "message NamespaceOwnershipEntry {";
   "  string namespace = 1;";
   "  string owner_node_id = 2;";
   "  string owner_agent_id = 3;";
   "  string installation_id = 4;";
   "  OwnershipMode mode = 5;";
   "}";
   blank;
   "message OwnershipSnapshot {";
   "  OwnershipSnapshotId id = 1;";
   "  string installation_id = 2;";
   "  string node_id = 3;";
   "  OwnershipMode mode = 4;";
   "  repeated NamespaceOwnershipEntry entries = 5;";
   "  bytes snapshot_checksum = 6;";
   "}";
   blank;
   "enum OwnershipValidationCode {";
   "  OWNERSHIP_VALIDATION_CODE_UNSPECIFIED = 0;";
   "  OWNERSHIP_VALIDATION_CODE_VALID = 1;";
   "  OWNERSHIP_VALIDATION_CODE_MISSING_OWNER = 2;";
   "  OWNERSHIP_VALIDATION_CODE_DUPLICATE_NAMESPACE = 3;";
   "  OWNERSHIP_VALIDATION_CODE_CROSS_INSTALLATION = 4;";
   "  OWNERSHIP_VALIDATION_CODE_UNSUPPORTED_MODE = 5;";
   "  OWNERSHIP_VALIDATION_CODE_DYNAMIC_ELECTION_FORBIDDEN = 6;";
   "  OWNERSHIP_VALIDATION_CODE_AMBIGUOUS_OWNERSHIP = 7;";
   "  OWNERSHIP_VALIDATION_CODE_NOT_LOCALLY_OWNED = 8;";
   "}";
   blank;
   "message OwnershipValidationResult {";
   "  bool valid = 1;";
   "  repeated OwnershipValidationCode violations = 2;";
   "  repeated string violation_details = 3;";
   "}";
   blank;
   "// --- Sprint 2: Quotas and Bounded Ingress ---";
   blank;
   "message ProducerQuotaState {";
   "  string producer_id = 1;";
   "  int32 in_flight_publishes = 2;";
   "  int32 max_in_flight_publishes = 3;";
   "  int32 queued_publishes = 4;";
   "  int32 max_queued_publishes = 5;";
   "  int64 in_flight_bytes = 6;";
   "  int64 max_in_flight_bytes = 7;";
   "}";
   blank;
   "message NamespaceQuotaState {";
   "  string namespace = 1;";
   "  int32 in_flight_publishes = 2;";
   "  int32 max_in_flight_publishes = 3;";
   "}";
   blank;
   "message GlobalQuotaState {";
   "  int32 in_flight_publishes = 1;";
   "  int32 max_in_flight_publishes = 2;";
   "  int32 reserved_p0_capacity = 3;";
   "  int32 used_p0_capacity = 4;";
   "}";
   blank;
   "enum AdmissionRejectionReason {";
   "  ADMISSION_REJECTION_REASON_UNSPECIFIED = 0;";
   "  ADMISSION_REJECTION_REASON_PRODUCER_IN_FLIGHT_EXCEEDED = 1;";
   "  ADMISSION_REJECTION_REASON_PRODUCER_QUEUE_EXCEEDED = 2;";
   "  ADMISSION_REJECTION_REASON_PRODUCER_BYTES_EXCEEDED = 3;";
   "  ADMISSION_REJECTION_REASON_NAMESPACE_IN_FLIGHT_EXCEEDED = 4;";
   "  ADMISSION_REJECTION_REASON_GLOBAL_IN_FLIGHT_EXCEEDED = 5;";
   "  ADMISSION_REJECTION_REASON_P0_CAPACITY_RESERVED = 6;";
   "  ADMISSION_REJECTION_REASON_PRODUCER_DISABLED = 7;";
   "  ADMISSION_REJECTION_REASON_PRODUCER_UNAUTHORIZED = 8;";
   "  ADMISSION_REJECTION_REASON_NOT_LOCALLY_OWNED = 9;";
   "}";
   blank;
   "message AdmissionResult {";
   "  AdmissionDecision decision = 1;";
   "  AdmissionRejectionReason rejection_reason = 2;";
   "  string rejection_detail = 3;";
   "}";
   blank;
   "// --- Sprint 2: Profile Validation Skeletons ---";
   blank;
   "message KafkaDurabilityProfile {";
   "  string profile_id = 1;";
   "  int32 replication_factor = 2;";
   "  int32 min_insync_replicas = 3;";
   "  string required_acks = 4;";
   "  string topic_reference = 5;";
   "  int32 profile_version = 6;";
   "}";
   blank;
   "message RetentionProfile {";
   "  string profile_id = 1;";
   "  RetentionClass retention_class = 2;";
   "  int64 retention_horizon_millis = 3;";
   "  int32 profile_version = 4;";
   "}";
   blank;
   "message ProjectionPolicyProfile {";
   "  string policy_id = 1;";
   "  int32 policy_version = 2;";
   "  repeated string required_projector_ids = 3;";
   "  bool archive_required = 4;";
   "}";
   blank;
   "message QuotaProfile {";
   "  string profile_id = 1;";
   "  QuotaClass quota_class = 2;";
   "  int32 max_in_flight_publishes = 3;";
   "  int32 max_queued_publishes = 4;";
   "  int64 max_in_flight_bytes = 5;";
   "  int32 profile_version = 6;";
   "}";
   blank;
   "enum ProfileValidationCode {";
   "  PROFILE_VALIDATION_CODE_UNSPECIFIED = 0;";
   "  PROFILE_VALIDATION_CODE_VALID = 1;";
   "  PROFILE_VALIDATION_CODE_UNKNOWN_PROFILE = 2;";
   "  PROFILE_VALIDATION_CODE_INVALID_RF = 3;";
   "  PROFILE_VALIDATION_CODE_INVALID_MIN_ISR = 4;";
   "  PROFILE_VALIDATION_CODE_INVALID_ACKS = 5;";
   "  PROFILE_VALIDATION_CODE_WEAKENED_DURABILITY = 6;";
   "}";
   blank].

Lemma protocol_checks_pass :
  envelope_is_immutable contracts_proto = true ∧ contracts_are_named contracts_proto = true.
Proof. split; vm_compute; reflexivity. Qed.
