(* ===== verification/JournalScenarios.v ===== *)
(** * The tests of the journal (crates/craftrelay-journal/src/lib.rs, module [tests])

    Every test of the module as a computation on the model, under its own name.
    Two tests install SQL triggers and one reads a pragma back; these are left
    out.  The computations are run with SHA-256 itself. *)
From S2P Require Import Prelude Checksum Fips180 JournalDb JournalCore JournalAccept JournalDelivery.
From S2P Require Import JournalScan JournalOpen Contracts Scenarios.
Open Scope Z_scope.
#[local] Coercion Z.of_nat : nat >-> Z.

(** ** Fixtures *)
Section Journal.
Context `{Sha256}.
#[local] Existing Instance sample_engine.
#[local] Instance by_key : RowOrder := map_to_list.

(** The clock of the test run. *)
Definition test_now : Z := 1700000000000.

Definition cfg : JournalConfig := default_config.

Definition req (event_id : string) (seq : Z) : AcceptRequest :=
  let payload := bytes_of "test-payload" in
  mkAcceptRequest "inst-a" event_id "producer-a" "instance-1" seq "economy" "account" "player-1"
    "transfer" 1 payload (sha256 payload) 1.

Definition topic : string := "craftrelay.inst-a.economy.events".

Definition confirmation (fp : Checksum) (topic : string) (partition offset : Z)
  : ReplicatedDeliveryConfirmation := mkConfirmation fp "p0" 1 topic partition offset.

Definition routing_fp : Checksum := sha256 (bytes_of "routing").

(** The file after it was opened. *)
Definition opened_file (file : JournalFile) : option JournalFile := (open_journal cfg (Ok file)).2.

Definition open_test (file : JournalFile) : option LocalJournal :=
  match (open_journal cfg (Ok file)).1 with Some (Ok j) => Some j | _ => None end.

(** [mem()]: the test starts with a new journal. *)
Definition on_mem {A} (t : Test LocalJournal A) : bool :=
  match open_in_memory cfg with Some (Ok j) => passes j t | _ => false end.

(** The journal is dropped and its file opened again. *)
Definition reopen : Test LocalJournal unit := λ j,
  file ← opened_file empty_file;
  j' ← open_test (mkFile (jf_meta file) (jf_tables file) (j_conn j));
  Some (tt, j').

(** The calls of the journal. *)
Definition j_accept (r : AcceptRequest) : Test LocalJournal AcceptResult := λ j,
  let '(a, j') := accept_guarded AlwaysSafe test_now r j in (λ a, (a, j')) <$> a.
Definition j_cas (f : Db → CasResult * Db) : Test LocalJournal CasResult := λ j,
  let '(r, db) := f (j_conn j) in Some (r, set_conn j db).
Definition j_read {A} (f : Db → A) : Test LocalJournal A := look (λ j, f (j_conn j)).
Definition tamper (f : Db → Db) : Test LocalJournal unit := change (λ j, set_conn j (f (j_conn j))).

Definition j_status (eid : string) : Test LocalJournal StatusResult := j_read (get_status eid).
Definition j_delivery (eid : string) : Test LocalJournal DeliveryStateResult :=
  j_read (get_delivery_state eid).
Definition j_lifecycle (eid : string) (rev : Z) (s : LocalDeliveryStatus) : Test LocalJournal CasResult :=
  j_cas (update_lifecycle eid rev s LrPresent test_now).
Definition j_create (eid profile_id : string) : Test LocalJournal CasResult :=
  j_cas (create_delivery_pending eid routing_fp profile_id 1 topic test_now).
Definition j_confirm (rev : Z) (c : ReplicatedDeliveryConfirmation) : Test LocalJournal CasResult :=
  j_cas (confirm_replicated_delivery "e1" rev c test_now).
Definition j_block (rev : Z) (reason : string) : Test LocalJournal CasResult :=
  j_cas (block_delivery "e1" rev reason test_now).
Definition j_retry (rev next : Z) : Test LocalJournal CasResult :=
  j_cas (update_delivery_retry "e1" rev next test_now).

(** An event is accepted, and scheduled. *)
Definition accept_e1 : Test LocalJournal AcceptResult := j_accept (req "e1" 1).
Definition scheduled_e1 : Test LocalJournal CasResult := accept_e1 ;; j_create "e1" "p0".

(** [tamper_lifecycle] *)
Definition tamper_lifecycle (event_id delivery retention : string) : Test LocalJournal unit :=
  let lc := compute_lifecycle_checksum event_id 1 delivery retention in
  tamper (in_lifecycle event_id (λ l, with_l_delivery_status delivery
            (with_l_retention_status retention (with_l_lifecycle_checksum lc l)))).

(** [tamper_delivery_state_with_valid_checksum] *)
Definition tamper_delivery_state_with_valid_checksum (event_id : string)
    (mutate : DeliveryStateRecord → DeliveryStateRecord) : Test LocalJournal unit :=
  r ← j_delivery event_id;
  state ← unwrap (found_delivery r);
  let state := mutate state in
  let state := with_d_delivery_checksum (compute_delivery_checksum state) state in
  tamper (in_delivery event_id (λ _, state)).

Definition delivery_attempt_count (event_id : string) : Test LocalJournal Z :=
  j_read (λ db, Z.of_nat (length (filter (λ r, at_event_id (da_record r) = event_id)
                                    (delivery_attempt db)))).

(** X'DEADBEEF00..00' *)
Definition deadbeef : list byte := [xde; xad; xbe; xef] ++ replicate 28 x00.

(** ** Schema *)
Definition schema_created_on_open : bool :=
  from_option (λ f, schema_version f =? SCHEMA_VERSION) false (opened_file empty_file).

Definition repeated_open_is_idempotent : bool :=
  from_option (λ f, (schema_version f =? SCHEMA_VERSION) &&
    from_option (λ g, schema_version g =? SCHEMA_VERSION) false (opened_file f))
    false (opened_file empty_file).

Definition future_schema_rejected_before_mutation : bool :=
  match opened_file empty_file with
  | Some f =>
      let f := mkFile ((alter (λ _, "999") "schema_version") <$> jf_meta f) (jf_tables f) (jf_db f) in
      match (open_journal cfg (Ok f)).1 with
      | Some (Err e) => contains "unknown future schema" e
      | _ => false
      end
  | None => false
  end.

Definition schema_v2_created_on_open : bool := schema_created_on_open && (SCHEMA_VERSION =? 2).

(** ** Acceptance *)
Definition local_acceptance_writes_atomically : Test LocalJournal unit :=
  r ← accept_e1;
  match r with
  | Accepted a => expect ((ae_journal_sequence a =? 1) && (ae_stream_sequence a =? 1) &&
                          (ae_lifecycle_revision a =? 1) && (ae_delivery_status a =?= LocalAccepted))
  | _ => expect false
  end.

Definition sequence_of (f : AcceptedEvent → Z) (r : AcceptResult) : option Z :=
  match r with Accepted a => Some (f a) | _ => None end.

Definition journal_seq_monotonic : Test LocalJournal unit :=
  r1 ← j_accept (req "e1" 1); r2 ← j_accept (req "e2" 2); r3 ← j_accept (req "e3" 3);
  expect (mapM (sequence_of ae_journal_sequence) [r1; r2; r3] =?= Some [1; 2; 3]).

Definition stream_seq_per_stream : Test LocalJournal unit :=
  r1 ← j_accept (with_rq_stream_key "a" (req "e1" 1));
  r2 ← j_accept (with_rq_stream_key "a" (req "e2" 2));
  r3 ← j_accept (with_rq_stream_key "b" (req "e3" 3));
  expect (mapM (sequence_of ae_stream_sequence) [r1; r2; r3] =?= Some [1; 2; 1]).

Definition failed_tx_no_partial : Test LocalJournal unit :=
  r ← j_accept (with_rq_payload (replicate (Z.to_nat 2000000) x00) (req "e1" 1));
  expect (match r with AcceptError _ => true | _ => false end) ;;
  s ← j_status "e1"; expect (is_not_found s).

Definition dup_same_fp : Test LocalJournal unit :=
  r ← accept_e1; expect (is_accepted r) ;; r ← accept_e1; expect (is_duplicate r).

Definition dup_diff_fp : Test LocalJournal unit :=
  accept_e1 ;;
  r ← j_accept (with_rq_request_fingerprint (replicate 32 xff) (req "e1" 1));
  expect (match r with FingerprintConflict _ => true | _ => false end).

Definition producer_seq_conflict : Test LocalJournal unit :=
  j_accept (req "e1" 5) ;;
  r ← j_accept (with_rq_request_fingerprint (replicate 32 xaa) (req "e2" 3));
  expect (match r with SequenceConflict _ => true | _ => false end).

(** ** Status *)
Definition status_by_event_id : Test LocalJournal unit :=
  accept_e1 ;; r ← j_status "e1"; s ← unwrap (found_status r);
  expect ((ps_delivery_status s =?= "LOCAL_ACCEPTED") && (ps_retention_status s =?= "PRESENT")).

Definition status_by_journal_seq : Test LocalJournal unit :=
  accept_e1 ;;
  r ← j_read (get_status_by_journal_seq 1); expect (is_found r) ;;
  r ← j_read (get_status_by_journal_seq 99); expect (is_not_found r).

Definition status_after_reopen : Test LocalJournal unit :=
  accept_e1 ;; reopen ;; r ← j_status "e1"; expect (is_found r).

Definition missing_not_found : Test LocalJournal unit :=
  r ← j_status "nope"; expect (is_not_found r).

(** ** Lifecycle *)
Definition cas_update_succeeds : Test LocalJournal unit :=
  accept_e1 ;;
  r ← j_lifecycle "e1" 1 LdDeliveryPending; expect (r =?= Updated) ;;
  r ← j_status "e1"; s ← unwrap (found_status r);
  expect ((ps_lifecycle_revision s =? 2) && (ps_delivery_status s =?= "DELIVERY_PENDING")).

Definition cas_rejects_stale : Test LocalJournal unit :=
  accept_e1 ;; j_lifecycle "e1" 1 LdDeliveryPending ;;
  r ← j_lifecycle "e1" 1 LdDeliveryBlocked; expect (r =?= StaleRevision).

Definition replicated_status_not_possible : bool :=
  forallb (λ s, negb (local_delivery_as_str s =?= "REPLICATED"))
    [LdLocalAccepted; LdDeliveryPending; LdDeliveryBlocked].

Definition status_remains_local_after_cas : Test LocalJournal unit :=
  accept_e1 ;; j_lifecycle "e1" 1 LdDeliveryPending ;;
  r ← j_status "e1"; s ← unwrap (found_status r);
  expect (negb (ps_delivery_status s =?= "REPLICATED")).

(** ** Tampered envelopes *)
Definition envelope_checksum_verified_on_read : Test LocalJournal unit :=
  accept_e1 ;; r ← j_status "e1"; expect (is_found r).

(** A tampered cell is reported. *)
Definition tampered_detected (f : EnvelopeRow → EnvelopeRow) : Test LocalJournal unit :=
  accept_e1 ;; tamper (in_envelope "e1" f) ;; r ← j_status "e1"; expect (status_corrupted "" r).

Definition tampered_namespace_detected : Test LocalJournal unit :=
  tampered_detected (with_e_namespace "HACKED").
Definition tampered_producer_id_detected : Test LocalJournal unit :=
  tampered_detected (with_e_producer_id "evil").
Definition tampered_event_type_detected : Test LocalJournal unit :=
  tampered_detected (with_e_event_type "bad").
Definition tampered_routing_version_detected : Test LocalJournal unit :=
  tampered_detected (with_e_routing_version 999).
Definition tampered_payload_length_detected : Test LocalJournal unit :=
  tampered_detected (with_e_payload_length 0).
Definition tampered_schema_version_detected : Test LocalJournal unit :=
  tampered_detected (with_e_schema_version 99).

Definition immutable_envelope_stable_across_lifecycle : Test LocalJournal unit :=
  accept_e1 ;; r1 ← j_status "e1"; j_lifecycle "e1" 1 LdDeliveryPending ;; r2 ← j_status "e1";
  a ← unwrap (found_status r1); b ← unwrap (found_status r2);
  expect ((ps_envelope_checksum a =?= ps_envelope_checksum b) &&
          (ps_payload_digest a =?= ps_payload_digest b) &&
          negb (ps_lifecycle_revision a =? ps_lifecycle_revision b)).

(** ** Payloads *)
Definition corrupted_payload_detected : Test LocalJournal unit :=
  accept_e1 ;; tamper (in_payload "e1" (with_p_payload [xde; xad])) ;;
  r ← j_read (verify_payload "e1");
  expect (match r with DigestMismatch => true | _ => false end).

Definition read_verified_payload_returns_stored_payload : Test LocalJournal unit :=
  accept_e1 ;; r ← j_read (read_verified_payload "e1");
  expect (match r with PayloadFound p => p =?= bytes_of "test-payload" | _ => false end).

Definition read_verified_payload_missing_blob_is_corrupted : Test LocalJournal unit :=
  accept_e1 ;; tamper (delete_payload "e1") ;; r ← j_read (read_verified_payload "e1");
  expect (payload_corrupted "e1" "payload blob not found" r).

Definition read_verified_payload_rejects_blob_digest_mismatch : Test LocalJournal unit :=
  accept_e1 ;; tamper (in_payload "e1" (with_p_payload_digest deadbeef)) ;;
  r ← j_read (read_verified_payload "e1");
  expect (payload_corrupted "e1" "differs from stored envelope digest" r).

Definition read_verified_payload_rejects_payload_digest_mismatch : Test LocalJournal unit :=
  accept_e1 ;; tamper (in_payload "e1" (with_p_payload [xde; xad])) ;;
  r ← j_read (read_verified_payload "e1");
  expect (payload_corrupted "e1" "payload digest mismatch" r).

Definition spoil_lifecycle_checksum : Test LocalJournal unit :=
  tamper (in_lifecycle "e1" (with_l_lifecycle_checksum [x00])).

Definition corrupted_lifecycle_checksum_detected : Test LocalJournal unit :=
  accept_e1 ;; spoil_lifecycle_checksum ;; r ← j_status "e1"; expect (status_corrupted "" r).

(** ** Repeated requests on a corrupted journal *)
Definition dup_valid_state_returns_existing_duplicate : Test LocalJournal unit := dup_same_fp.

Definition dup_corrupted (spoil : Test LocalJournal unit) (detail : string) : Test LocalJournal unit :=
  r ← accept_e1; expect (is_accepted r) ;; spoil ;;
  r ← accept_e1; expect (accept_corrupted "e1" detail r).

Definition dup_after_envelope_tamper_returns_corrupted : Test LocalJournal unit :=
  dup_corrupted (tamper (in_envelope "e1" (with_e_namespace "HACKED"))) "".
Definition dup_after_lifecycle_checksum_tamper_returns_corrupted : Test LocalJournal unit :=
  dup_corrupted spoil_lifecycle_checksum "".
Definition dup_after_payload_digest_tamper_returns_corrupted : Test LocalJournal unit :=
  dup_corrupted (tamper (in_envelope "e1" (with_e_payload_digest deadbeef))) "".
Definition dup_after_unsupported_lifecycle_returns_corrupted : Test LocalJournal unit :=
  dup_corrupted (tamper_lifecycle "e1" "UNKNOWN_STATUS" "PRESENT") "unsupported delivery status".
Definition dup_after_payload_blob_tamper_returns_corrupted : Test LocalJournal unit :=
  dup_corrupted (tamper (in_payload "e1" (with_p_payload [xde; xad]))) "digest mismatch".
Definition dup_after_payload_blob_digest_tamper_returns_corrupted : Test LocalJournal unit :=
  dup_corrupted (tamper (in_payload "e1" (with_p_payload_digest deadbeef))) "digest mismatch".
Definition dup_missing_payload_blob_returns_corrupted : Test LocalJournal unit :=
  dup_corrupted (tamper (delete_payload "e1")) "not found".

(** ** Unsupported statuses and unreadable rows *)
Definition unknown_delivery_status_with_valid_checksum_detected : Test LocalJournal unit :=
  accept_e1 ;; tamper_lifecycle "e1" "UNKNOWN_STATUS" "PRESENT" ;;
  r ← j_status "e1"; expect (status_corrupted "unsupported delivery status" r).

Definition unknown_retention_with_valid_checksum_detected : Test LocalJournal unit :=
  accept_e1 ;; tamper_lifecycle "e1" "LOCAL_ACCEPTED" "ARCHIVED" ;;
  r ← j_status "e1"; expect (status_corrupted "unsupported retention status" r).

Definition short_request_fingerprint_detected : Test LocalJournal unit :=
  accept_e1 ;; tamper (in_envelope "e1" (with_e_request_fingerprint [xaa; xbb])) ;;
  r ← j_status "e1"; expect (status_corrupted "request_fingerprint" r).

(** A text in a column of blobs: the first statement fails. *)
Definition malformed_blob_type_not_found : Test LocalJournal unit :=
  accept_e1 ;; r ← j_read (@get_status _ (unreadable 0) "e1"); expect (negb (is_found r)).

Definition recompute_envelope_failure_is_corrupted : Test LocalJournal unit :=
  tampered_detected (with_e_request_fingerprint [xff]).

Definition status_by_journal_seq_corrupt_not_hidden : Test LocalJournal unit :=
  accept_e1 ;; spoil_lifecycle_checksum ;;
  r ← j_read (get_status_by_journal_seq 1); expect (status_corrupted "" r).

(** ** No update over a corrupted state *)
Definition lifecycle_refused (spoil : Test LocalJournal unit) : Test LocalJournal unit :=
  accept_e1 ;; spoil ;; r ← j_lifecycle "e1" 1 LdDeliveryPending;
  expect (match r with CasCorrupted e _ => e =?= "e1" | _ => false end).

Definition cas_after_lifecycle_checksum_tamper_returns_corrupted : Test LocalJournal unit :=
  lifecycle_refused spoil_lifecycle_checksum ;; r ← j_status "e1"; expect (status_corrupted "" r).
Definition cas_after_unsupported_delivery_returns_corrupted : Test LocalJournal unit :=
  lifecycle_refused (tamper_lifecycle "e1" "UNKNOWN_STATUS" "PRESENT").
Definition cas_after_envelope_tamper_returns_corrupted : Test LocalJournal unit :=
  lifecycle_refused (tamper (in_envelope "e1" (with_e_namespace "HACKED"))).

(** ** Unreadable rows on the way of [accept] *)

(** The statement that reads the row: the fingerprint after the begin, the
    producer's sequence after that, the head of the stream after the journal
    sequence. *)
Definition accept_unreadable (n : nat) (r : AcceptRequest) : Test LocalJournal AcceptResult := λ j,
  let '(a, j') := @accept _ (unreadable n) j true test_now r in (λ a, (a, j')) <$> a.

Definition corrupt_dedup_fingerprint_rejects_accept : Test LocalJournal unit :=
  r ← accept_e1; expect (is_accepted r) ;;
  r ← accept_unreadable 1 (req "e1" 1); expect (accept_corrupted "e1" "" r).

Definition corrupt_producer_sequence_rejects_accept : Test LocalJournal unit :=
  j_accept (req "e1" 5) ;;
  r ← accept_unreadable 2 (with_rq_request_fingerprint (replicate 32 xaa) (req "e2" 3));
  expect (accept_corrupted "e2" "" r).

Definition corrupt_stream_head_does_not_reset_sequence : Test LocalJournal unit :=
  accept_e1 ;;
  r ← accept_unreadable 4 (with_rq_request_fingerprint (replicate 32 xbb) (req "e2" 2));
  expect (match r with AcceptError e => contains "stream head" e | _ => false end).

(** ** Affected rows *)
Definition cas_update_nonexistent_returns_not_found : Test LocalJournal unit :=
  r ← j_lifecycle "nonexistent" 1 LdDeliveryPending; expect (r =?= CasNotFound).
Definition cas_stale_revision_still_detected : Test LocalJournal unit := cas_rejects_stale.
Definition cas_valid_update_returns_updated : Test LocalJournal unit := cas_update_succeeds.

(** ** Delivery state *)
Definition create_delivery_pending_succeeds : Test LocalJournal unit :=
  accept_e1 ;; r ← j_create "e1" "p0-profile"; expect (r =?= Updated) ;;
  r ← j_delivery "e1"; ds ← unwrap (found_delivery r);
  expect ((d_delivery_status ds =?= "DELIVERY_PENDING") && (d_attempt_count ds =? 0) &&
          (d_delivery_revision ds =? 1) && (d_profile_id ds =?= Some "p0-profile")).

Definition create_delivery_pending_nonexistent_event : Test LocalJournal unit :=
  r ← j_create "missing" "p0"; expect (r =?= CasNotFound).

(** The table is gone: the query fails. *)
Definition create_delivery_pending_sql_error_is_not_hidden_as_not_found : Test LocalJournal unit :=
  accept_e1 ;;
  r ← j_cas (@create_delivery_pending _ (unreadable 0) "e1" routing_fp "p0" 1 topic test_now);
  expect (match r with CasError _ => true | _ => false end).

Definition failed_attempt_record : DeliveryAttemptRecord :=
  mkAttempt "e1" 1 "TRANSIENT_FAILURE" (Some "BROKER_UNAVAILABLE") None None None (Some "p0") (Some 1) 1000.

Definition record_delivery_attempt_increments_count : Test LocalJournal unit :=
  scheduled_e1 ;;
  r ← j_cas (record_delivery_attempt failed_attempt_record test_now); expect (r =?= Updated) ;;
  n ← delivery_attempt_count "e1"; expect (n =? 1) ;;
  r ← j_delivery "e1"; ds ← unwrap (found_delivery r);
  expect ((d_attempt_count ds =? 1) && (d_last_error ds =?= Some "BROKER_UNAVAILABLE")).

(** An event that is confirmed at offset 42. *)
Definition good_confirmation : ReplicatedDeliveryConfirmation := confirmation routing_fp topic 0 42.
Definition confirmed_e1 : Test LocalJournal unit :=
  scheduled_e1 ;; r ← j_confirm 1 good_confirmation; expect (r =?= Updated).

Definition confirm_replicated_delivery_succeeds : Test LocalJournal unit :=
  confirmed_e1 ;; r ← j_delivery "e1"; ds ← unwrap (found_delivery r);
  expect ((d_delivery_status ds =?= "REPLICATED") && (d_kafka_partition ds =?= Some 0) &&
          (d_kafka_offset ds =?= Some 42) && bool_decide (is_Some (d_confirmed_at_ms ds))) ;;
  r ← j_status "e1"; s ← unwrap (found_status r); expect (ps_delivery_status s =?= "REPLICATED").

Definition replicated_state_missing (mutate : DeliveryStateRecord → DeliveryStateRecord)
    (field : string) : Test LocalJournal unit :=
  confirmed_e1 ;; tamper_delivery_state_with_valid_checksum "e1" mutate ;;
  r ← j_delivery "e1"; expect (delivery_corrupted field r).

Definition replicated_state_missing_kafka_partition_with_valid_checksum_is_corrupted
  : Test LocalJournal unit := replicated_state_missing (with_d_kafka_partition None) "kafka_partition".
Definition replicated_state_missing_kafka_offset_with_valid_checksum_is_corrupted
  : Test LocalJournal unit := replicated_state_missing (with_d_kafka_offset None) "kafka_offset".
Definition replicated_state_missing_kafka_topic_with_valid_checksum_is_corrupted
  : Test LocalJournal unit := replicated_state_missing (with_d_kafka_topic None) "kafka_topic".
Definition replicated_state_missing_confirmed_at_with_valid_checksum_is_corrupted
  : Test LocalJournal unit := replicated_state_missing (with_d_confirmed_at_ms None) "confirmed_at_ms".

Definition pending_state_with_confirmed_kafka_metadata_and_valid_checksum_is_corrupted
  : Test LocalJournal unit :=
  scheduled_e1 ;;
  tamper_delivery_state_with_valid_checksum "e1" (λ d,
    with_d_kafka_partition (Some 0) (with_d_kafka_offset (Some 42) (with_d_confirmed_at_ms (Some 1234) d))) ;;
  r ← j_delivery "e1"; expect (delivery_corrupted "kafka_partition" r).

Definition confirm_replicated_delivery_stale_revision : Test LocalJournal unit :=
  scheduled_e1 ;; r ← j_confirm 99 (confirmation routing_fp topic 0 1); expect (r =?= StaleRevision).

Definition block_delivery_succeeds : Test LocalJournal unit :=
  scheduled_e1 ;; r ← j_block 1 "permanent broker failure"; expect (r =?= Updated) ;;
  r ← j_delivery "e1"; ds ← unwrap (found_delivery r);
  expect ((d_delivery_status ds =?= "DELIVERY_BLOCKED") &&
          (d_blocked_reason ds =?= Some "permanent broker failure")).

Definition update_delivery_retry_succeeds : Test LocalJournal unit :=
  scheduled_e1 ;; r ← j_retry 1 5000; expect (r =?= Updated) ;;
  r ← j_delivery "e1"; ds ← unwrap (found_delivery r);
  expect ((d_delivery_status ds =?= "DELIVERY_RETRYING") && (d_next_retry_at_ms ds =?= Some 5000) &&
          (d_delivery_revision ds =? 2)).

(** ** Scans and candidates *)
Definition two_scheduled : Test LocalJournal CasResult :=
  accept_e1 ;; j_accept (req "e2" 2) ;; j_create "e1" "p0" ;; j_create "e2" "p0".

Definition scan_pending_deliveries_ordered : Test LocalJournal unit :=
  two_scheduled ;; r ← j_read (scan_pending_deliveries 10); l ← unwrap (scanned r);
  match l with
  | [a; b] => expect ((pd_event_id a =?= "e1") && (pd_event_id b =?= "e2") &&
                      (pd_journal_sequence a <? pd_journal_sequence b))
  | _ => expect false
  end.

Definition scan_pending_deliveries_respects_limit : Test LocalJournal unit :=
  two_scheduled ;; r ← j_read (scan_pending_deliveries 1); l ← unwrap (scanned r);
  expect (length l =? 1)%nat.

Definition delivery_candidate_returns_verified_envelope_and_state : Test LocalJournal unit :=
  scheduled_e1 ;; r ← j_read (get_delivery_candidate "e1");
  match r with
  | CandidateFound c =>
      expect ((dc_event_id c =?= "e1") && (dc_installation_id c =?= "inst-a") &&
              (dc_namespace c =?= "economy") && (dc_logical_stream_type c =?= "account") &&
              (dc_stream_key c =?= "player-1") && (dc_stream_sequence c =? 1) &&
              (dc_event_type c =?= "transfer") && (dc_routing_version c =? 1) &&
              (d_delivery_status (dc_delivery_state c) =?= "DELIVERY_PENDING"))
  | _ => expect false
  end.

Definition delivery_candidate_rejects_corrupt_envelope : Test LocalJournal unit :=
  scheduled_e1 ;; tamper (in_envelope "e1" (with_e_namespace "HACKED")) ;;
  r ← j_read (get_delivery_candidate "e1"); expect (candidate_corrupted "envelope checksum mismatch" r).

Definition delivery_candidate_rejects_missing_envelope_for_delivery_state : Test LocalJournal unit :=
  scheduled_e1 ;; tamper (delete_envelope "e1") ;;
  r ← j_read (get_delivery_candidate "e1"); expect (candidate_corrupted "stored envelope missing" r).

Definition scan_retrying_deliveries_filters_by_time : Test LocalJournal unit :=
  scheduled_e1 ;; j_retry 1 5000 ;;
  r1 ← j_read (scan_retrying_deliveries 1000 10);
  r2 ← j_read (scan_retrying_deliveries 5000 10);
  r3 ← j_read (scan_retrying_deliveries 9999 10);
  expect (mapM (λ r, length <$> scanned r) [r1; r2; r3] =?= Some [0; 1; 1]%nat).

Definition spoil_delivery_checksum : Test LocalJournal unit :=
  tamper (in_delivery "e1" (with_d_delivery_checksum [x00])).

Definition corrupt_delivery_row_in_pending_scan_is_not_hidden : Test LocalJournal unit :=
  scheduled_e1 ;; spoil_delivery_checksum ;;
  r ← j_read (scan_pending_deliveries 10); expect (scan_corrupted "e1" "" r).

Definition corrupt_delivery_row_in_retry_scan_is_not_hidden : Test LocalJournal unit :=
  scheduled_e1 ;; j_retry 1 5000 ;; spoil_delivery_checksum ;;
  r ← j_read (scan_retrying_deliveries 5000 10); expect (scan_corrupted "e1" "" r).

(** A corruption the gate scan reports. *)
Definition gate_scan_reports (spoil : Db → Db) (detail : string) : Test LocalJournal unit :=
  scheduled_e1 ;; tamper spoil ;;
  r ← j_read (scan_delivery_gate_states 10); expect (scan_corrupted "e1" detail r).

Definition corrupt_delivery_row_in_gate_scan_is_not_hidden : Test LocalJournal unit :=
  gate_scan_reports (in_delivery "e1" (with_d_delivery_checksum [x00])) "".
Definition corrupt_envelope_in_gate_scan_is_not_hidden : Test LocalJournal unit :=
  gate_scan_reports (in_envelope "e1" (with_e_stream_key "fake-stream")) "envelope checksum mismatch".
Definition missing_envelope_in_gate_scan_is_not_hidden : Test LocalJournal unit :=
  gate_scan_reports (delete_envelope "e1") "stored envelope missing".
Definition unsupported_delivery_status_in_gate_scan_is_not_hidden : Test LocalJournal unit :=
  gate_scan_reports (in_delivery "e1" (with_d_delivery_status "BROKEN"))
    "unsupported delivery state status".

Definition get_delivery_state_not_found : Test LocalJournal unit :=
  r ← j_delivery "missing"; expect (match r with DeliveryNotFound => true | _ => false end).

Definition delivery_state_fk_requires_envelope : Test LocalJournal unit :=
  r ← j_create "orphan" "p0"; expect (r =?= CasNotFound).

(** ** Both rows move together *)
Definition confirm_also_updates_lifecycle_to_replicated : Test LocalJournal unit :=
  scheduled_e1 ;; j_confirm 1 (confirmation routing_fp topic 0 10) ;;
  r ← j_status "e1"; s ← unwrap (found_status r);
  expect ((ps_delivery_status s =?= "REPLICATED") && (ps_lifecycle_revision s =? 2)).

Definition block_also_updates_lifecycle : Test LocalJournal unit :=
  scheduled_e1 ;; j_block 1 "test" ;;
  r ← j_status "e1"; s ← unwrap (found_status r); expect (ps_delivery_status s =?= "DELIVERY_BLOCKED").

(** The delivery is still pending. *)
Definition still_pending : Test LocalJournal unit :=
  r ← j_delivery "e1"; ds ← unwrap (found_delivery r); expect (d_delivery_status ds =?= "DELIVERY_PENDING").

Definition confirm_replicated_missing_lifecycle_does_not_mutate_delivery : Test LocalJournal unit :=
  scheduled_e1 ;; tamper (delete_lifecycle "e1") ;;
  r ← j_confirm 1 good_confirmation; expect (cas_corrupted "" r) ;; still_pending.

Definition confirm_replicated_corrupt_lifecycle_checksum_does_not_return_updated
  : Test LocalJournal unit :=
  scheduled_e1 ;; spoil_lifecycle_checksum ;;
  r ← j_confirm 1 good_confirmation; expect (cas_corrupted "" r).

Definition block_delivery_missing_lifecycle_does_not_mutate_delivery : Test LocalJournal unit :=
  scheduled_e1 ;; tamper (delete_lifecycle "e1") ;;
  r ← j_block 1 "operator block"; expect (cas_corrupted "" r) ;; still_pending.

Definition block_delivery_corrupt_lifecycle_checksum_does_not_return_updated : Test LocalJournal unit :=
  scheduled_e1 ;; spoil_lifecycle_checksum ;;
  r ← j_block 1 "operator block"; expect (cas_corrupted "" r).

(** ** Repeated confirmations *)
Definition duplicate_confirm_is_idempotent : Test LocalJournal unit :=
  confirmed_e1 ;; r ← j_confirm 1 good_confirmation; expect (r =?= AlreadyConfirmed).

Definition duplicate_confirm_after_reopen_is_idempotent : Test LocalJournal unit :=
  confirmed_e1 ;; reopen ;; r ← j_confirm 1 good_confirmation; expect (r =?= AlreadyConfirmed).

Definition duplicate_confirm_with_different_offset_is_rejected_without_mutation
  : Test LocalJournal unit :=
  confirmed_e1 ;; r ← j_confirm 1 (confirmation routing_fp topic 0 43);
  expect (cas_corrupted "conflicting replicated confirmation" r) ;;
  r ← j_delivery "e1"; ds ← unwrap (found_delivery r); expect (d_kafka_offset ds =?= Some 42).

Definition duplicate_confirm_with_different_topic_is_rejected_without_mutation
  : Test LocalJournal unit :=
  confirmed_e1 ;; r ← j_confirm 1 (confirmation routing_fp "wrong-topic" 0 42);
  expect (cas_corrupted "" r) ;;
  r ← j_delivery "e1"; ds ← unwrap (found_delivery r); expect (d_kafka_topic ds =?= Some topic).

Definition confirm_with_wrong_topic_is_rejected_by_journal : Test LocalJournal unit :=
  scheduled_e1 ;; r ← j_confirm 1 (confirmation routing_fp "wrong-topic" 0 42);
  expect (cas_corrupted "" r) ;; still_pending.

(** ** Tampered delivery rows *)
Definition delivery_tamper_cases : list (DeliveryStateRecord → DeliveryStateRecord) :=
  [with_d_delivery_status "REPLICATED"; with_d_attempt_count 99;
   with_d_routing_fingerprint (Some [x01; x02; x03]); with_d_profile_id (Some "other");
   with_d_profile_version (Some 99); with_d_kafka_topic (Some "wrong-topic");
   with_d_kafka_partition (Some 7); with_d_kafka_offset (Some 8); with_d_delivery_checksum [xaa]].

Definition delivery_state_tamper_is_detected : bool :=
  forallb (λ f, on_mem (scheduled_e1 ;; tamper (in_delivery "e1" f) ;;
                        r ← j_delivery "e1"; expect (delivery_corrupted "" r)))
    delivery_tamper_cases.

Definition corrupted_delivery_state_cannot_transition : Test LocalJournal unit :=
  scheduled_e1 ;; tamper (in_delivery "e1" (with_d_attempt_count 99)) ;;
  r ← j_confirm 1 good_confirmation; expect (cas_corrupted "" r) ;;
  r ← j_block 1 "blocked"; expect (cas_corrupted "" r) ;;
  r ← j_retry 1 5000; expect (cas_corrupted "" r) ;;
  r ← j_delivery "e1"; expect (delivery_corrupted "" r).

(** ** Foreign keys and guards *)
Definition fk_payload_requires_envelope : bool :=
  negb (is_ok (insert_payload "orphan" (mkPayload [xaa] [xbb]) empty_db)).
Definition fk_lifecycle_requires_envelope : bool :=
  negb (is_ok (insert_lifecycle "orphan" (mkLifecycle 1 [xcc] "X" "Y" 0) empty_db)).
Definition fk_dedup_requires_envelope : bool :=
  negb (is_ok (insert_dedup "orphan" [xdd] empty_db)).

Definition disk_guard_rejects : bool :=
  match open_in_memory cfg with
  | Some (Ok j) =>
      match (accept_guarded AlwaysUnsafe test_now (req "e1" 1) j).1 with
      | Some DiskUnsafe => true
      | _ => false
      end
  | _ => false
  end.

Definition shutdown_rejects : Test LocalJournal unit :=
  change shutdown ;; r ← accept_e1;
  expect (match r with ShuttingDown => true | _ => false end).

Definition never_claims_replicated : Test LocalJournal unit :=
  r ← accept_e1;
  match r with
  | Accepted a => expect ((ae_delivery_status a =?= LocalAccepted) &&
                          negb (ae_delivery_status a =?= Replicated))
  | _ => expect false
  end.
(** ** The suite *)
Definition journal_tests : list bool :=
  [schema_created_on_open; repeated_open_is_idempotent; future_schema_rejected_before_mutation;
   on_mem local_acceptance_writes_atomically; on_mem journal_seq_monotonic;
   on_mem stream_seq_per_stream; on_mem failed_tx_no_partial; on_mem dup_same_fp;
   on_mem dup_diff_fp; on_mem producer_seq_conflict; on_mem status_by_event_id;
   on_mem status_by_journal_seq; on_mem status_after_reopen; on_mem missing_not_found;
   on_mem cas_update_succeeds; on_mem cas_rejects_stale; replicated_status_not_possible;
   on_mem status_remains_local_after_cas; on_mem envelope_checksum_verified_on_read;
   on_mem tampered_namespace_detected; on_mem tampered_producer_id_detected;
   on_mem tampered_event_type_detected; on_mem tampered_routing_version_detected;
   on_mem tampered_payload_length_detected; on_mem tampered_schema_version_detected;
   on_mem immutable_envelope_stable_across_lifecycle; on_mem corrupted_payload_detected;
   on_mem read_verified_payload_returns_stored_payload;
   on_mem read_verified_payload_missing_blob_is_corrupted;
   on_mem read_verified_payload_rejects_blob_digest_mismatch;
   on_mem read_verified_payload_rejects_payload_digest_mismatch;
   on_mem corrupted_lifecycle_checksum_detected;
   on_mem dup_valid_state_returns_existing_duplicate;
   on_mem dup_after_envelope_tamper_returns_corrupted;
   on_mem dup_after_lifecycle_checksum_tamper_returns_corrupted;
   on_mem dup_after_payload_digest_tamper_returns_corrupted;
   on_mem unknown_delivery_status_with_valid_checksum_detected;
   on_mem unknown_retention_with_valid_checksum_detected;
   on_mem dup_after_unsupported_lifecycle_returns_corrupted;
   on_mem short_request_fingerprint_detected; on_mem malformed_blob_type_not_found;
   on_mem recompute_envelope_failure_is_corrupted;
   on_mem status_by_journal_seq_corrupt_not_hidden;
   on_mem dup_after_payload_blob_tamper_returns_corrupted;
   on_mem dup_after_payload_blob_digest_tamper_returns_corrupted;
   on_mem dup_missing_payload_blob_returns_corrupted;
   on_mem cas_after_lifecycle_checksum_tamper_returns_corrupted;
   on_mem cas_after_unsupported_delivery_returns_corrupted;
   on_mem cas_after_envelope_tamper_returns_corrupted;
   on_mem corrupt_dedup_fingerprint_rejects_accept;
   on_mem corrupt_producer_sequence_rejects_accept;
   on_mem corrupt_stream_head_does_not_reset_sequence;
   on_mem cas_update_nonexistent_returns_not_found; on_mem cas_stale_revision_still_detected;
   on_mem cas_valid_update_returns_updated; schema_v2_created_on_open;
   on_mem create_delivery_pending_succeeds; on_mem create_delivery_pending_nonexistent_event;
   on_mem create_delivery_pending_sql_error_is_not_hidden_as_not_found;
   on_mem record_delivery_attempt_increments_count; on_mem confirm_replicated_delivery_succeeds;
   on_mem replicated_state_missing_kafka_partition_with_valid_checksum_is_corrupted;
   on_mem replicated_state_missing_kafka_offset_with_valid_checksum_is_corrupted;
   on_mem replicated_state_missing_kafka_topic_with_valid_checksum_is_corrupted;
   on_mem replicated_state_missing_confirmed_at_with_valid_checksum_is_corrupted;
   on_mem pending_state_with_confirmed_kafka_metadata_and_valid_checksum_is_corrupted;
   on_mem confirm_replicated_delivery_stale_revision; on_mem block_delivery_succeeds;
   on_mem update_delivery_retry_succeeds; on_mem scan_pending_deliveries_ordered;
   on_mem scan_pending_deliveries_respects_limit;
   on_mem delivery_candidate_returns_verified_envelope_and_state;
   on_mem delivery_candidate_rejects_corrupt_envelope;
   on_mem delivery_candidate_rejects_missing_envelope_for_delivery_state;
   on_mem scan_retrying_deliveries_filters_by_time;
   on_mem corrupt_delivery_row_in_pending_scan_is_not_hidden;
   on_mem corrupt_delivery_row_in_retry_scan_is_not_hidden;
   on_mem corrupt_delivery_row_in_gate_scan_is_not_hidden;
   on_mem corrupt_envelope_in_gate_scan_is_not_hidden;
   on_mem missing_envelope_in_gate_scan_is_not_hidden;
   on_mem unsupported_delivery_status_in_gate_scan_is_not_hidden;
   on_mem get_delivery_state_not_found; on_mem delivery_state_fk_requires_envelope;
   on_mem confirm_also_updates_lifecycle_to_replicated; on_mem block_also_updates_lifecycle;
   on_mem confirm_replicated_missing_lifecycle_does_not_mutate_delivery;
   on_mem confirm_replicated_corrupt_lifecycle_checksum_does_not_return_updated;
   on_mem block_delivery_missing_lifecycle_does_not_mutate_delivery;
   on_mem block_delivery_corrupt_lifecycle_checksum_does_not_return_updated;
   on_mem duplicate_confirm_is_idempotent; on_mem duplicate_confirm_after_reopen_is_idempotent;
   on_mem duplicate_confirm_with_different_offset_is_rejected_without_mutation;
   on_mem duplicate_confirm_with_different_topic_is_rejected_without_mutation;
   on_mem confirm_with_wrong_topic_is_rejected_by_journal; delivery_state_tamper_is_detected;
   on_mem corrupted_delivery_state_cannot_transition; fk_payload_requires_envelope;
   fk_lifecycle_requires_envelope; fk_dedup_requires_envelope; disk_guard_rejects;
   on_mem shutdown_rejects; on_mem never_claims_replicated].
End Journal.

(** The model of the journal passes the tests of the journal. *)
Lemma journal_tests_pass : forallb id (@journal_tests fips_sha256) = true.
Proof. vm_compute. reflexivity. Qed.
