(* ===== verification/ServiceScenarios.v ===== *)
(** * The tests of the delivery service (crates/craftrelay-kafka-delivery/src/service.rs,
      module [tests])

    Every test of the module as a computation on the model: the journal, the
    fake producer and the service.  A trigger that aborts an insert is an engine
    on which this statement fails. *)
From S2P Require Import Prelude Checksum Fips180 JournalDb JournalCore JournalAccept JournalDelivery.
From S2P Require Import JournalScan JournalOpen Retry Gate Profiles Routing Service Scenarios JournalScenarios.
Open Scope Z_scope.
#[local] Coercion Z.of_nat : nat >-> Z.

Section ServiceTests.
Context `{Sha256}.
#[local] Existing Instance sample_engine.
#[local] Existing Instance by_key.

(** ** Fixtures *)
Definition SvcTest (A : Type) : Type := Test (DeliveryService FakeProducer) A.

Definition test_req (event_id : string) (seq : Z) : AcceptRequest := req event_id seq.

Definition test_profile : KafkaProductionProfile :=
  mkProfile "p0-test" 1 5 5 "all" true 120000 30000 5 5 "lz4" 604800000 1073741824 "delete" false
    "PROTECTED".

Definition test_routing : RoutingInput :=
  mkRoutingInput "inst-a" "economy" "account" "player-1" "transfer" 1.

Definition routing_from_req (req : AcceptRequest) : RoutingInput :=
  mkRoutingInput (rq_installation_id req) (rq_namespace req) (rq_logical_stream_type req)
    (rq_stream_key req) (rq_event_type req) (rq_routing_version req).

Definition routing_for_stream (stream_key : string) : RoutingInput :=
  mkRoutingInput "inst-a" "economy" "account" stream_key "transfer" 1.

Definition resolved (routing : RoutingInput) : RoutingResolution :=
  match resolve_routing routing with Ok r => r | Err _ => mkResolution "" "" [] 0 end.

Definition test_routing_fingerprint : Checksum := rr_routing_checksum (resolved test_routing).
Definition test_topic : string := rr_topic (resolved test_routing).

(** Every clock of an attempt shows the same time. *)
Definition env_with (attempt : Engine) : Env :=
  mkEnv sample_engine sample_engine sample_engine attempt sample_engine sample_engine
    test_now test_now test_now test_now test_now.
Definition test_env : Env := env_with sample_engine.

(** The test starts with a new journal, a new fake and a new service. *)
Definition on_service {A} (t : SvcTest A) : bool :=
  match open_in_memory cfg with
  | Some (Ok j) => passes (service_new j fake_new test_profile) t
  | _ => false
  end.

(** A part of the test that uses the journal. *)
Definition journal {A} (t : Test LocalJournal A) : SvcTest A := λ svc,
  match t (ds_journal svc) with
  | Some (a, j) => Some (a, mkService j (ds_producer svc) (ds_gate svc) (ds_profile svc) (ds_shutdown svc))
  | None => None
  end.

(** [DeliveryService::new] on the same journal. *)
Definition new_service (profile : KafkaProductionProfile) : SvcTest unit :=
  change (λ svc, service_new (ds_journal svc) fake_new profile).

Definition success (topic : string) (partition offset : Z) : SvcTest unit :=
  change (λ svc, set_producer svc (enqueue_success (mkSuccess topic partition offset) (ds_producer svc))).
Definition failure (e : SendError) : SvcTest unit :=
  change (λ svc, set_producer svc (enqueue_error e (ds_producer svc))).
Definition attempt_in (env : Env) (eid : string) : SvcTest DeliveryOutcome := λ svc,
  Some (attempt_delivery env svc eid).
Definition attempt (eid : string) : SvcTest DeliveryOutcome := attempt_in test_env eid.
Definition s_recover : SvcTest (result unit string) := λ svc, Some (recover svc).
Definition sent : SvcTest (list SendRequest) := look (λ svc, sent_requests (ds_producer svc)).

Definition pending_with (eid profile_id topic : string) (version : Z) (fp : Checksum) : SvcTest CasResult :=
  journal (j_cas (create_delivery_pending eid fp profile_id version topic test_now)).
Definition pending (eid : string) : SvcTest CasResult :=
  pending_with eid "p0-test" test_topic 1 test_routing_fingerprint.

(** The usual starts: one event, or two of a stream, accepted and scheduled. *)
Definition one_event : SvcTest CasResult := journal (j_accept (test_req "e1" 1)) ;; pending "e1".
Definition second_req : AcceptRequest := with_rq_request_fingerprint (replicate 32 xbb) (test_req "e2" 2).
Definition two_events : SvcTest CasResult :=
  journal (j_accept (test_req "e1" 1)) ;; journal (j_accept second_req) ;; pending "e1" ;; pending "e2".

Definition is_replicated (o : DeliveryOutcome) : bool :=
  match o with OutReplicated _ _ => true | _ => false end.
Definition replicated_as (p q : Z) (o : DeliveryOutcome) : bool :=
  match o with OutReplicated a b => (a =? p) && (b =? q) | _ => false end.
Definition is_retrying (o : DeliveryOutcome) : bool := match o with OutRetrying _ => true | _ => false end.
Definition is_blocked (o : DeliveryOutcome) : bool := match o with OutBlocked _ => true | _ => false end.
Definition is_error (o : DeliveryOutcome) : bool := match o with OutError _ => true | _ => false end.
Definition held_for (s : Z) (o : DeliveryOutcome) : bool :=
  match o with GateHeld w => w =? s | _ => false end.

(** An attempt whose outcome is checked. *)
Definition expect_attempt (eid : string) (ok : DeliveryOutcome → bool) : SvcTest unit :=
  o ← attempt eid; expect (ok o).
Definition nothing_sent : SvcTest unit := l ← sent; expect (length l =? 0)%nat.

Definition delivery_is (ok : DeliveryStateRecord → bool) : SvcTest unit :=
  r ← journal (j_delivery "e1"); ds ← unwrap (found_delivery r); expect (ok ds).

Definition assert_delivery_blocked : SvcTest unit :=
  delivery_is (λ ds, (d_delivery_status ds =?= "DELIVERY_BLOCKED") &&
                     bool_decide (is_Some (d_blocked_reason ds))) ;;
  r ← journal (j_status "e1"); s ← unwrap (found_status r);
  expect (ps_delivery_status s =?= "DELIVERY_BLOCKED").

Definition assert_delivery_pending : SvcTest unit :=
  delivery_is (λ ds, (d_delivery_status ds =?= "DELIVERY_PENDING") && (d_kafka_offset ds =?= None)).

(** [force_delivery_checksum_to_match]: the checksum of the row as it is. *)
Definition force_delivery_checksum_to_match (eid : string) : SvcTest unit :=
  journal (tamper (in_delivery eid (λ d,
    with_d_delivery_checksum (compute_delivery_checksum (delivery_of_row eid d)) d))).

(** ** Successful deliveries *)
Definition successful_delivery_returns_replicated : SvcTest unit :=
  one_event ;; success test_topic 0 42 ;; expect_attempt "e1" (replicated_as 0 42).

Definition confirmed_at (partition offset : Z) : ReplicatedDeliveryConfirmation :=
  mkConfirmation test_routing_fingerprint "p0-test" 1 test_topic partition offset.

Definition confirmed_elsewhere : SvcTest unit :=
  one_event ;; r ← journal (j_confirm 1 (confirmed_at 3 99)); expect (r =?= Updated).

Definition already_replicated_delivery_returns_persisted_metadata : SvcTest unit :=
  confirmed_elsewhere ;; expect_attempt "e1" (replicated_as 3 99) ;; nothing_sent.

Definition already_replicated_delivery_missing_metadata_fails_closed : SvcTest unit :=
  confirmed_elsewhere ;; journal (tamper (in_delivery "e1" (with_d_kafka_partition None))) ;;
  force_delivery_checksum_to_match "e1" ;; expect_attempt "e1" is_error ;; nothing_sent.

(** The payload that was accepted is the one that is sent. *)
Definition sends_stored (payload : string) (offset : Z) : SvcTest (list SendRequest) :=
  let bytes := bytes_of payload in
  journal (j_accept (with_rq_payload bytes (with_rq_request_fingerprint (sha256 bytes) (test_req "e1" 1)))) ;;
  pending "e1" ;; success test_topic 0 offset ;; expect_attempt "e1" is_replicated ;; sent.

Definition delivery_sends_exactly_journal_stored_payload : SvcTest unit :=
  l ← sends_stored "journal-stored-payload" 42;
  expect ((sq_payload <$> l) =?= [bytes_of "journal-stored-payload"]).

Definition caller_cannot_override_journal_payload : SvcTest unit :=
  l ← sends_stored "immutable-journal-payload" 43;
  expect (((sq_payload <$> l) =?= [bytes_of "immutable-journal-payload"]) &&
          negb ((sq_payload <$> l) =?= [bytes_of "caller-supplied-payload"])).

Definition attempt_delivery_uses_stored_stream_gate_for_sequence_two : SvcTest unit :=
  two_events ;; success test_topic 0 2 ;; expect_attempt "e2" (held_for 1) ;; nothing_sent.

Definition routing_is_derived_from_stored_envelope : SvcTest unit :=
  let req := with_rq_stream_key "player-2"
               (with_rq_request_fingerprint (replicate 32 xdd) (test_req "e1" 1)) in
  let r := resolved (routing_from_req req) in
  journal (j_accept req) ;; pending_with "e1" "p0-test" (rr_topic r) 1 (rr_routing_checksum r) ;;
  success (rr_topic r) 0 47 ;; expect_attempt "e1" is_replicated ;;
  l ← sent;
  expect (((λ q, (sq_topic q, sq_partition_key q)) <$> l) =?= [(rr_topic r, rr_partition_key r)]).

(** ** A corrupted journal stops the send *)
Definition fails_closed (spoil : Db → Db) (offset : Z) : SvcTest unit :=
  one_event ;; journal (tamper spoil) ;; success test_topic 0 offset ;;
  expect_attempt "e1" is_error ;; nothing_sent.

Definition corrupted_stored_envelope_fails_closed_before_send : SvcTest unit :=
  fails_closed (in_envelope "e1" (with_e_namespace "HACKED")) 48 ;; assert_delivery_pending.
Definition delivery_state_without_stored_envelope_fails_closed_before_send : SvcTest unit :=
  fails_closed (delete_envelope "e1") 49.
Definition missing_payload_blob_prevents_producer_send : SvcTest unit :=
  fails_closed (delete_payload "e1") 44.
Definition corrupted_payload_blob_prevents_producer_send : SvcTest unit :=
  fails_closed (in_payload "e1" (with_p_payload [xde; xad])) 45.

(** ** Revisions and attempts are the persisted ones *)
Definition persisted_delivery_revision_is_used_for_confirmation : SvcTest unit :=
  one_event ;; r ← journal (j_retry 1 5000); expect (r =?= Updated) ;;
  success test_topic 0 46 ;; expect_attempt "e1" is_replicated ;;
  delivery_is (λ ds, (d_delivery_status ds =?= "REPLICATED") && (d_delivery_revision ds =? 3)).

Definition retry_backoff_uses_persisted_attempt_count : SvcTest unit :=
  one_event ;;
  r ← journal (j_cas (record_delivery_attempt (mkAttempt "e1" 1 "TRANSIENT_FAILURE"
        (Some "BrokerUnavailable") (Some test_topic) None None (Some "p0-test") (Some 1) 1000) test_now));
  expect (r =?= Updated) ;; failure BrokerUnavailable ;; expect_attempt "e1" is_retrying ;;
  row ← journal (j_read (λ db, last (delivery_attempt db))); last_attempt ← unwrap (da_record <$> row);
  expect (at_attempt_number last_attempt =? 2) ;;
  delivery_is (λ ds, ((λ t, t - at_attempted_at_ms last_attempt) <$> d_next_retry_at_ms ds) =?= Some 2000).

(** ** Failed sends *)
Definition transient_failure_returns_retrying : SvcTest unit :=
  one_event ;; failure BrokerUnavailable ;; expect_attempt "e1" is_retrying ;;
  delivery_is (λ ds, (d_delivery_status ds =?= "DELIVERY_RETRYING") && (d_attempt_count ds =? 1)).

Definition permanent_failure_returns_blocked : SvcTest unit :=
  one_event ;; failure TopicNotFound ;; expect_attempt "e1" is_blocked ;; assert_delivery_blocked.

(** The insert of the attempt is aborted: the third statement of
    [record_delivery_attempt]. *)
Definition attempt_not_persisted (e : SendError) : SvcTest unit :=
  one_event ;; failure e ;; o ← attempt_in (env_with (unreadable 2)) "e1"; expect (is_error o) ;;
  delivery_is (λ ds, (d_delivery_status ds =?= "DELIVERY_PENDING") && (d_attempt_count ds =? 0) &&
                     (d_blocked_reason ds =?= None)).

Definition transient_failure_with_attempt_persistence_failure_returns_error : SvcTest unit :=
  attempt_not_persisted BrokerUnavailable.
Definition permanent_failure_with_attempt_persistence_failure_returns_error : SvcTest unit :=
  attempt_not_persisted TopicNotFound.

(** ** Order *)
Definition seq_2_held_while_seq_1_is_retrying : SvcTest unit :=
  two_events ;; failure BrokerUnavailable ;; expect_attempt "e1" is_retrying ;;
  expect_attempt "e2" (held_for 1).

Definition seq_2_held_while_seq_1_is_blocked : SvcTest unit :=
  two_events ;; failure TopicNotFound ;; expect_attempt "e1" is_blocked ;;
  expect_attempt "e2" (held_for 1).

Definition seq_2_held_when_broker_ack_cannot_be_persisted : SvcTest unit :=
  two_events ;; success "wrong-topic" 0 1 ;; expect_attempt "e1" is_error ;;
  expect_attempt "e2" (held_for 1).

Definition seq_2_advances_after_seq_1_is_persisted_replicated : SvcTest unit :=
  two_events ;; failure BrokerUnavailable ;; success test_topic 0 1 ;; success test_topic 0 2 ;;
  expect_attempt "e1" is_retrying ;; expect_attempt "e1" is_replicated ;;
  expect_attempt "e2" is_replicated.

Definition independent_stream_delivers_while_other_stream_is_retrying : SvcTest unit :=
  let r2 := resolved (routing_for_stream "player-2") in
  journal (j_accept (test_req "e1" 1)) ;;
  journal (j_accept (with_rq_stream_key "player-2"
                       (with_rq_request_fingerprint (replicate 32 xcc) (test_req "e2" 2)))) ;;
  pending "e1" ;; pending_with "e2" "p0-test" (rr_topic r2) 1 (rr_routing_checksum r2) ;;
  failure BrokerUnavailable ;; success (rr_topic r2) 0 2 ;;
  expect_attempt "e1" is_retrying ;; expect_attempt "e2" is_replicated.

Definition ordering_gate_blocks_out_of_order : SvcTest unit :=
  two_events ;; success test_topic 0 1 ;; success test_topic 0 2 ;;
  expect_attempt "e2" (held_for 1) ;; expect_attempt "e1" is_replicated ;;
  expect_attempt "e2" is_replicated.

(** ** Checks before the send *)

(** The attempt blocks the delivery and sends nothing. *)
Definition blocks_before_send : SvcTest unit :=
  expect_attempt "e1" is_blocked ;; nothing_sent ;; assert_delivery_blocked.

Definition accept_one : SvcTest AcceptResult := journal (j_accept (test_req "e1" 1)).

Definition unsafe_profile : KafkaProductionProfile :=
  mkProfile "p0-test" 1 5 3 "all" true 120000 30000 5 5 "lz4" 604800000 1073741824 "delete" false
    "PROTECTED".

Definition unsafe_profile_blocks_before_producer_send : SvcTest unit :=
  one_event ;; new_service unsafe_profile ;; success test_topic 0 1 ;; blocks_before_send.

Definition profile_id_mismatch_blocks_before_producer_send : SvcTest unit :=
  accept_one ;; pending_with "e1" "old-profile" test_topic 1 test_routing_fingerprint ;;
  blocks_before_send.

Definition profile_version_mismatch_blocks_before_producer_send : SvcTest unit :=
  accept_one ;; pending_with "e1" "p0-test" test_topic 2 test_routing_fingerprint ;;
  blocks_before_send.

Definition routing_fingerprint_mismatch_persists_block_before_producer_send : SvcTest unit :=
  accept_one ;; pending_with "e1" "p0-test" test_topic 1 (sha256 (bytes_of "wrong-routing")) ;;
  blocks_before_send.

Definition routing_topic_mismatch_persists_block_before_producer_send : SvcTest unit :=
  accept_one ;; pending_with "e1" "p0-test" "wrong-topic" 1 test_routing_fingerprint ;;
  blocks_before_send.

Definition unsupported_routing_version_persists_block_before_producer_send : SvcTest unit :=
  journal (j_accept (with_rq_routing_version 2 (test_req "e1" 1))) ;; pending "e1" ;; blocks_before_send.

Definition empty_routing_field_persists_block_before_producer_send : SvcTest unit :=
  journal (j_accept (with_rq_namespace "" (test_req "e1" 1))) ;; pending "e1" ;; blocks_before_send.

(** ** Recovery *)
Definition recover_keeps_blocked_earlier_sequence_blocking_later_sequence : SvcTest unit :=
  two_events ;; r ← journal (j_block 1 "operator repair required"); expect (r =?= Updated) ;;
  success test_topic 0 2 ;; r ← s_recover; expect (is_ok r) ;;
  expect_attempt "e2" (held_for 1) ;; nothing_sent.

Definition recover_returns_error_on_corrupt_gate_scan : SvcTest unit :=
  one_event ;; journal spoil_delivery_checksum ;; r ← s_recover; expect (negb (is_ok r)).

(** The recovery fails on a spoiled first event. *)
Definition recover_fails (spoil : Db → Db) : SvcTest unit :=
  two_events ;; journal (tamper spoil) ;; success test_topic 0 2 ;;
  r ← s_recover; expect (negb (is_ok r)).

Definition corrupt_earlier_stream_event_is_not_dropped_during_recover : SvcTest unit :=
  recover_fails (in_delivery "e1" (with_d_delivery_checksum [x00])) ;; nothing_sent.
Definition corrupt_envelope_earlier_stream_event_fails_recover_closed : SvcTest unit :=
  recover_fails (in_envelope "e1" (with_e_stream_key "fake-stream")) ;; nothing_sent.
Definition corrupt_predecessor_envelope_cannot_release_later_sequence : SvcTest unit :=
  recover_fails (in_envelope "e1" (with_e_stream_key "fake-stream")) ;;
  expect_attempt "e2" (held_for 1) ;; nothing_sent.
Definition unsupported_status_earlier_stream_event_fails_recover_closed : SvcTest unit :=
  recover_fails (in_delivery "e1" (with_d_delivery_status "BROKEN")) ;;
  expect_attempt "e2" (held_for 1) ;; nothing_sent.

(** An event of a stream of its own. *)
Definition on_stream (eid stream_key : string) (seq : Z) (fp : Checksum) : SvcTest CasResult :=
  let r := resolved (routing_for_stream stream_key) in
  journal (j_accept (with_rq_stream_key stream_key (with_rq_request_fingerprint fp (test_req eid seq)))) ;;
  pending_with eid "p0-test" (rr_topic r) 1 (rr_routing_checksum r).

Definition gate_says (stream_key : string) (d : GateDecision) : SvcTest unit :=
  c ← look (λ svc, check (ds_gate svc) stream_key 2);
  expect (match c, d with
          | Allowed, Allowed => true
          | Blocked a, Blocked b => a =? b
          | _, _ => false
          end).

Definition recover_handles_all_valid_gate_statuses : SvcTest unit :=
  on_stream "replicated" "stream-replicated" 1 (sha256 (bytes_of "test-payload")) ;;
  (let r := resolved (routing_for_stream "stream-replicated") in
   c ← journal (j_cas (confirm_replicated_delivery "replicated" 1
          (mkConfirmation (rr_routing_checksum r) "p0-test" 1 (rr_topic r) 0 10) test_now));
   expect (c =?= Updated)) ;;
  on_stream "pending" "stream-pending" 2 (replicate 32 xa1) ;;
  on_stream "retrying" "stream-retrying" 3 (replicate 32 xa2) ;;
  c ← journal (j_cas (update_delivery_retry "retrying" 1 5000 test_now)); expect (c =?= Updated) ;;
  on_stream "blocked" "stream-blocked" 4 (replicate 32 xa3) ;;
  c ← journal (j_cas (block_delivery "blocked" 1 "test block" test_now)); expect (c =?= Updated) ;;
  r ← s_recover; expect (is_ok r) ;;
  gate_says "stream-replicated" Allowed ;; gate_says "stream-pending" (Blocked 1) ;;
  gate_says "stream-retrying" (Blocked 1) ;; gate_says "stream-blocked" (Blocked 1).

(** A block survives a restart. *)
Definition block_survives_recover : SvcTest unit :=
  blocks_before_send ;; new_service test_profile ;; success test_topic 0 2 ;;
  r ← s_recover; expect (is_ok r) ;; expect_attempt "e2" (held_for 1) ;; nothing_sent.

Definition service_persisted_block_survives_recover_and_blocks_later_sequence : SvcTest unit :=
  accept_one ;; journal (j_accept second_req) ;;
  pending_with "e1" "old-profile" test_topic 1 test_routing_fingerprint ;; pending "e2" ;;
  block_survives_recover.

Definition invalid_routing_block_survives_recover_and_blocks_later_sequence : SvcTest unit :=
  journal (j_accept (with_rq_routing_version 2 (test_req "e1" 1))) ;; journal (j_accept second_req) ;;
  pending "e1" ;; pending "e2" ;; block_survives_recover.

(** ** What is not a replication *)
Definition producer_success_on_wrong_topic_does_not_replicate : SvcTest unit :=
  one_event ;; success "wrong-topic" 0 99 ;; expect_attempt "e1" is_error ;; assert_delivery_pending.

Definition shutdown_prevents_delivery : SvcTest unit :=
  change service_shutdown ;; expect_attempt "e1" is_error.

Definition local_durable_alone_is_not_replicated : SvcTest unit :=
  accept_one ;; r ← journal (j_status "e1"); s ← unwrap (found_status r);
  expect ((ps_delivery_status s =?= "LOCAL_ACCEPTED") && negb (ps_delivery_status s =?= "REPLICATED")).

Definition send_failure_is_not_replicated : SvcTest unit :=
  one_event ;; failure BrokerUnavailable ;; attempt "e1" ;;
  delivery_is (λ ds, negb (d_delivery_status ds =?= "REPLICATED")).

Definition persisted_ack_reaches_replicated : SvcTest unit :=
  one_event ;; success test_topic 0 99 ;; attempt "e1" ;;
  delivery_is (λ ds, (d_delivery_status ds =?= "REPLICATED") && bool_decide (is_Some (d_confirmed_at_ms ds))) ;;
  r ← journal (j_status "e1"); s ← unwrap (found_status r); expect (ps_delivery_status s =?= "REPLICATED").
(** ** The suite *)
Definition service_tests : list bool :=
  [on_service successful_delivery_returns_replicated;
   on_service already_replicated_delivery_returns_persisted_metadata;
   on_service already_replicated_delivery_missing_metadata_fails_closed;
   on_service delivery_sends_exactly_journal_stored_payload;
   on_service attempt_delivery_uses_stored_stream_gate_for_sequence_two;
   on_service caller_cannot_override_journal_payload;
   on_service routing_is_derived_from_stored_envelope;
   on_service corrupted_stored_envelope_fails_closed_before_send;
   on_service delivery_state_without_stored_envelope_fails_closed_before_send;
   on_service missing_payload_blob_prevents_producer_send;
   on_service corrupted_payload_blob_prevents_producer_send;
   on_service persisted_delivery_revision_is_used_for_confirmation;
   on_service retry_backoff_uses_persisted_attempt_count;
   on_service transient_failure_returns_retrying; on_service permanent_failure_returns_blocked;
   on_service transient_failure_with_attempt_persistence_failure_returns_error;
   on_service permanent_failure_with_attempt_persistence_failure_returns_error;
   on_service seq_2_held_while_seq_1_is_retrying; on_service seq_2_held_while_seq_1_is_blocked;
   on_service seq_2_held_when_broker_ack_cannot_be_persisted;
   on_service seq_2_advances_after_seq_1_is_persisted_replicated;
   on_service independent_stream_delivers_while_other_stream_is_retrying;
   on_service ordering_gate_blocks_out_of_order;
   on_service unsafe_profile_blocks_before_producer_send;
   on_service profile_id_mismatch_blocks_before_producer_send;
   on_service profile_version_mismatch_blocks_before_producer_send;
   on_service routing_fingerprint_mismatch_persists_block_before_producer_send;
   on_service routing_topic_mismatch_persists_block_before_producer_send;
   on_service unsupported_routing_version_persists_block_before_producer_send;
   on_service empty_routing_field_persists_block_before_producer_send;
   on_service recover_keeps_blocked_earlier_sequence_blocking_later_sequence;
   on_service recover_returns_error_on_corrupt_gate_scan;
   on_service corrupt_earlier_stream_event_is_not_dropped_during_recover;
   on_service corrupt_envelope_earlier_stream_event_fails_recover_closed;
   on_service corrupt_predecessor_envelope_cannot_release_later_sequence;
   on_service unsupported_status_earlier_stream_event_fails_recover_closed;
   on_service recover_handles_all_valid_gate_statuses;
   on_service service_persisted_block_survives_recover_and_blocks_later_sequence;
   on_service invalid_routing_block_survives_recover_and_blocks_later_sequence;
   on_service producer_success_on_wrong_topic_does_not_replicate;
   on_service shutdown_prevents_delivery; on_service local_durable_alone_is_not_replicated;
   on_service send_failure_is_not_replicated; on_service persisted_ack_reaches_replicated].
End ServiceTests.

(** The model of the service passes the tests of the service. *)
Lemma service_tests_pass : forallb id (@service_tests fips_sha256) = true.
Proof. vm_compute. reflexivity. Qed.
