(* ===== verification/DeliveryScenarios.v ===== *)
(** * The tests of the other parts of the delivery crate
      (crates/craftrelay-kafka-delivery/src: gate.rs, producer.rs, profile.rs, repair.rs,
      replicated.rs, retry.rs and routing.rs, modules [tests])

    Every test of these modules, under its own name, as a computation on the
    model. *)
From S2P Require Import Prelude Checksum Fips180 JournalDb Retry Gate Routing Profiles Repair.
From S2P Require Import Service Scenarios.
Open Scope Z_scope.
#[local] Coercion Z.of_nat : nat >-> Z.

#[local] Instance RetryDecision_eq_dec : EqDecision RetryDecision.
Proof. solve_decision. Defined.
#[local] Instance SendSuccess_eq_dec : EqDecision SendSuccess.
Proof. solve_decision. Defined.
#[local] Instance RepairClassification_eq_dec : EqDecision RepairClassification.
Proof. solve_decision. Defined.
#[local] Instance TransitionError_eq_dec : EqDecision TransitionError.
Proof. solve_decision. Defined.
#[local] Instance RoutingError_eq_dec : EqDecision RoutingError.
Proof. solve_decision. Defined.
#[local] Instance RoutingResolution_eq_dec : EqDecision RoutingResolution.
Proof. solve_decision. Defined.

Definition is_err {A E} (r : result A E) : bool := negb (is_ok r).

(** ** gate.rs *)
Module GateTests.

Definition GateTest : Type := Test OrderingGate unit.
Definition on_gate : GateTest → bool := passes gate_new.

(** [assert_eq!(gate.check(k, s), d)] *)
Definition checks (k : string) (s : Z) (d : GateDecision) : GateTest :=
  g ← look id; expect (check g k s =?= d).

Definition seq_1_allowed_on_empty_gate : GateTest := checks "stream-a" 1 Allowed.

Definition seq_2_blocked_when_1_not_completed : GateTest := checks "stream-a" 2 (Blocked 1).

Definition seq_2_allowed_after_1_completed : GateTest :=
  change (λ g, mark_completed g "stream-a" 1);;
  checks "stream-a" 2 Allowed.

Definition seq_2_blocked_when_1_in_flight : GateTest :=
  change (λ g, mark_in_flight g "stream-a" 1);;
  checks "stream-a" 1 (Blocked 1).

Definition different_streams_independent : GateTest :=
  change (λ g, mark_in_flight g "stream-a" 1);;
  checks "stream-b" 1 Allowed.

Definition recovery_from_scan : GateTest :=
  change (λ g, recover_from_scan g
    [mkRecovered "stream-a" 3 true false false; mkRecovered "stream-b" 2 false false true]);;
  checks "stream-a" 4 Allowed;;
  checks "stream-b" 2 (Blocked 2).

Definition mark_completed_is_idempotent : GateTest :=
  change (λ g, mark_completed g "stream-a" 1);;
  change (λ g, mark_completed g "stream-a" 1);;
  checks "stream-a" 2 Allowed.

Definition stream_count_tracks_correctly : GateTest :=
  g ← look id; expect (stream_count g =?= 0%nat);;
  change (λ g, mark_in_flight g "stream-a" 1);;
  g ← look id; expect (stream_count g =?= 1%nat);;
  change (λ g, mark_in_flight g "stream-b" 1);;
  g ← look id; expect (stream_count g =?= 2%nat).

Definition blocking_sequence_holds_later_sequence_but_can_retry_itself : GateTest :=
  change (λ g, mark_blocking g "stream-a" 1);;
  checks "stream-a" 1 Allowed;;
  checks "stream-a" 2 (Blocked 1);;
  checks "stream-b" 1 Allowed.

Definition recovery_blocks_on_lowest_unreplicated_sequence : GateTest :=
  change (λ g, recover_from_scan g
    [mkRecovered "stream-a" 1 true false false; mkRecovered "stream-a" 2 false true false;
     mkRecovered "stream-a" 3 false true false]);;
  checks "stream-a" 2 Allowed;;
  checks "stream-a" 3 (Blocked 2).

Definition gate_tests : list bool :=
  on_gate <$>
  [seq_1_allowed_on_empty_gate; seq_2_blocked_when_1_not_completed;
   seq_2_allowed_after_1_completed; seq_2_blocked_when_1_in_flight;
   different_streams_independent; recovery_from_scan; mark_completed_is_idempotent;
   stream_count_tracks_correctly; blocking_sequence_holds_later_sequence_but_can_retry_itself;
   recovery_blocks_on_lowest_unreplicated_sequence].
End GateTests.

(** ** producer.rs *)
Module ProducerTests.

Definition FakeTest : Type := Test FakeProducer unit.
Definition on_fake : FakeTest → bool := passes fake_new.

Definition sample_request : SendRequest :=
  mkSend "evt-1" "craftrelay.install-1.economy.events" "pk-1" [Byte.x01; Byte.x02; Byte.x03]
    [("key", "value")].

Definition send_sample : Test FakeProducer (result SendSuccess SendError) :=
  λ p, Some (fake_send sample_request p).

Definition fake_returns_enqueued_results_in_order : FakeTest :=
  change (enqueue_success (mkSuccess "t1" 0 100));;
  change (enqueue_error Timeout);;
  r1 ← send_sample;
  expect (is_ok r1);;
  s ← unwrap (match r1 with Ok s => Some s | Err _ => None end);
  expect (ss_offset s =? 100);;
  r2 ← send_sample;
  expect (r2 =?= Err Timeout).

Definition fake_records_sent_requests : FakeTest :=
  change (enqueue_success (mkSuccess "t1" 0 0));;
  _ ← send_sample;
  sent ← look sent_requests;
  expect (length sent =?= 1%nat);;
  first ← unwrap (sent !! 0%nat);
  expect (sq_event_id first =?= "evt-1").

Definition fake_returns_unknown_when_empty : FakeTest :=
  r ← send_sample;
  expect (match r with Err (Unknown _) => true | _ => false end).

Definition error_classification : FakeTest :=
  expect (forallb is_retriable [BrokerUnavailable; Timeout; QueueFull]);;
  expect (negb (existsb is_retriable
    [TopicNotFound; AuthorizationFailed; MessageTooLarge; Unknown "x"]));;
  expect (forallb is_permanent [TopicNotFound; AuthorizationFailed; MessageTooLarge]);;
  expect (negb (existsb is_permanent [BrokerUnavailable; Timeout; QueueFull; Unknown "x"])).

Definition producer_tests : list bool :=
  on_fake <$>
  [fake_returns_enqueued_results_in_order; fake_records_sent_requests;
   fake_returns_unknown_when_empty; error_classification].
End ProducerTests.

(** ** profile.rs *)
Module ProfileTests.

(** [base_profile], with the fields the tests change. *)
Definition base_profile_with (version rf min_isr : Z) (acks : string) (idempotence unclean : bool)
  : KafkaProductionProfile :=
  mkProfile "prod" version rf min_isr acks idempotence 120000 30000 5 5 "lz4" 604800000 1073741824
    "delete" unclean "PROTECTED".
Definition base_profile : KafkaProductionProfile := base_profile_with 2 5 5 "all" true false.

Definition drifts_are (current : KafkaProductionProfile) (drifts : list ProfileDriftKind) : bool :=
  detect_profile_drift current base_profile =?= drifts.

Definition no_drift_when_identical : bool := drifts_are base_profile [].

Definition version_downgrade_detected : bool :=
  drifts_are (base_profile_with 1 5 5 "all" true false) [VersionDowngrade].

Definition rf_weakened_detected : bool :=
  drifts_are (base_profile_with 2 3 5 "all" true false) [RfWeakened].

Definition min_isr_weakened_detected : bool :=
  drifts_are (base_profile_with 2 5 1 "all" true false) [MinIsrWeakened].

Definition idempotence_disabled_detected : bool :=
  drifts_are (base_profile_with 2 5 5 "all" false false) [IdempotenceDisabled].

Definition unclean_election_enabled_detected : bool :=
  drifts_are (base_profile_with 2 5 5 "all" true true) [UncleanElectionEnabled].

Definition acks_weakened_detected : bool :=
  drifts_are (base_profile_with 2 5 5 "1" true false) [AcksWeakened].

Definition multiple_drifts_at_once : bool :=
  let drifts := detect_profile_drift (base_profile_with 1 3 5 "all" false false) base_profile in
  (length drifts =?= 3%nat) &&
  bool_decide (VersionDowngrade ∈ drifts) && bool_decide (RfWeakened ∈ drifts) &&
  bool_decide (IdempotenceDisabled ∈ drifts).

Definition is_profile_safe_delegates_to_domain : bool :=
  is_ok (is_profile_safe_for_delivery base_profile) &&
  is_err (is_profile_safe_for_delivery (base_profile_with 2 5 5 "all" false false)).

Definition profile_tests : list bool :=
  [no_drift_when_identical; version_downgrade_detected; rf_weakened_detected;
   min_isr_weakened_detected; idempotence_disabled_detected; unclean_election_enabled_detected;
   acks_weakened_detected; multiple_drifts_at_once; is_profile_safe_delegates_to_domain].
End ProfileTests.

(** ** repair.rs *)
Module RepairTests.

Definition is_inconsistent (c : RepairClassification) : bool :=
  match c with Inconsistent _ => true | _ => false end.
Definition is_stuck (c : RepairClassification) : bool :=
  match c with Stuck _ => true | _ => false end.
Definition is_profile_drift (c : RepairClassification) : bool :=
  match c with ProfileDrift _ => true | _ => false end.

Definition blocked_with_valid_checksum_and_no_drift_eligible : bool :=
  classify_for_repair "DELIVERY_BLOCKED" 3 (Some "broker down") [] true =?= EligibleForRetry.

Definition profile_drift_detected : bool :=
  classify_for_repair "DELIVERY_BLOCKED" 1 None [RfWeakened] true =?= ProfileDrift [RfWeakened].

Definition invalid_checksum_is_inconsistent : bool :=
  is_inconsistent (classify_for_repair "DELIVERY_BLOCKED" 1 None [] false).

Definition retrying_past_max_is_stuck : bool :=
  is_stuck (classify_for_repair "DELIVERY_RETRYING" MAX_RETRY_ATTEMPTS None [] true).

Definition unknown_status_is_stuck : bool :=
  is_stuck (classify_for_repair "SOME_OTHER_STATUS" 0 None [] true).

Definition inconsistent_takes_precedence_over_drift : bool :=
  is_inconsistent (classify_for_repair "DELIVERY_BLOCKED" 1 None [RfWeakened] false).

Definition drift_takes_precedence_over_eligible : bool :=
  is_profile_drift (classify_for_repair "DELIVERY_BLOCKED" 1 None [AcksWeakened] true).

Definition repair_tests : list bool :=
  [blocked_with_valid_checksum_and_no_drift_eligible; profile_drift_detected;
   invalid_checksum_is_inconsistent; retrying_past_max_is_stuck; unknown_status_is_stuck;
   inconsistent_takes_precedence_over_drift; drift_takes_precedence_over_eligible].
End RepairTests.

(** ** replicated.rs *)
Module TransitionTests.

Definition pending_to_retrying : bool := is_ok (validate_transition DeliveryPending DeliveryRetrying).

Definition pending_to_replicated : bool := is_ok (validate_transition DeliveryPending Replicated).

Definition pending_to_blocked : bool := is_ok (validate_transition DeliveryPending DeliveryBlocked).

Definition retrying_to_replicated : bool := is_ok (validate_transition DeliveryRetrying Replicated).

Definition retrying_to_blocked : bool := is_ok (validate_transition DeliveryRetrying DeliveryBlocked).

Definition blocked_to_retrying_repair : bool :=
  is_ok (validate_transition DeliveryBlocked DeliveryRetrying).

(** [assert_eq!(validate_transition(from, to), Err(InvalidTransition { from, to }))] *)
Definition invalid (from to : DeliveryStatus) : bool :=
  validate_transition from to =?= Err (TransitionInvalid from to).

Definition replicated_to_anything_rejected : bool :=
  invalid Replicated DeliveryRetrying &&
  is_err (validate_transition Replicated DeliveryBlocked) &&
  is_err (validate_transition Replicated DeliveryPending).

Definition local_accepted_to_retrying_rejected : bool := invalid LocalAccepted DeliveryRetrying.

Definition blocked_to_replicated_rejected : bool := invalid DeliveryBlocked Replicated.

Definition transition_tests : list bool :=
  [pending_to_retrying; pending_to_replicated; pending_to_blocked; retrying_to_replicated;
   retrying_to_blocked; blocked_to_retrying_repair; replicated_to_anything_rejected;
   local_accepted_to_retrying_rejected; blocked_to_replicated_rejected].
End TransitionTests.

(** ** retry.rs *)
Module RetryTests.

Definition first_retry_is_base_backoff_from_now : bool :=
  compute_next_retry 1 10000 =?= Retry (10000 + BASE_BACKOFF_MS).

Definition exponential_growth : bool :=
  (compute_next_retry 1 0 =?= Retry 1000) && (compute_next_retry 2 0 =?= Retry 2000) &&
  (compute_next_retry 3 0 =?= Retry 4000).

Definition capped_at_max_backoff : bool :=
  match compute_next_retry 30 0 with
  | Retry next_retry_at_ms => next_retry_at_ms <=? MAX_BACKOFF_MS
  | Exhausted => false
  end.

Definition exhausted_after_max_retry_attempts : bool :=
  (compute_next_retry MAX_RETRY_ATTEMPTS 0 =?= Exhausted) &&
  (compute_next_retry (MAX_RETRY_ATTEMPTS + 1) 0 =?= Exhausted).

Definition retriable_errors_allow_retry : bool :=
  should_retry BrokerUnavailable 1 && should_retry Timeout 1 && should_retry QueueFull 1.

Definition permanent_errors_do_not_retry : bool :=
  negb (should_retry TopicNotFound 1) && negb (should_retry AuthorizationFailed 1) &&
  negb (should_retry MessageTooLarge 1).

Definition should_retry_respects_attempt_count : bool :=
  should_retry BrokerUnavailable 1 && should_retry BrokerUnavailable (MAX_RETRY_ATTEMPTS - 1) &&
  negb (should_retry BrokerUnavailable MAX_RETRY_ATTEMPTS).

Definition retry_tests : list bool :=
  [first_retry_is_base_backoff_from_now; exponential_growth; capped_at_max_backoff;
   exhausted_after_max_retry_attempts; retriable_errors_allow_retry;
   permanent_errors_do_not_retry; should_retry_respects_attempt_count].
End RetryTests.

(** ** routing.rs *)
Module RoutingTests.
Section RoutingTests.
Context `{Sha256}.

Definition sample_input : RoutingInput :=
  mkRoutingInput "install-1" "economy" "account" "player-abc" "transfer" 1.

(** The sample with one field changed. *)
Definition with_installation_id (v : string) : RoutingInput :=
  mkRoutingInput v "economy" "account" "player-abc" "transfer" 1.
Definition with_namespace (v : string) : RoutingInput :=
  mkRoutingInput "install-1" v "account" "player-abc" "transfer" 1.
Definition with_logical_stream_type (v : string) : RoutingInput :=
  mkRoutingInput "install-1" "economy" v "player-abc" "transfer" 1.
Definition with_stream_key (v : string) : RoutingInput :=
  mkRoutingInput "install-1" "economy" "account" v "transfer" 1.
Definition with_event_type (v : string) : RoutingInput :=
  mkRoutingInput "install-1" "economy" "account" "player-abc" v 1.
Definition with_routing_version (v : Z) : RoutingInput :=
  mkRoutingInput "install-1" "economy" "account" "player-abc" "transfer" v.

(** A check of two routes; an input that is not routed is a panic. *)
Definition both_routes (a b : RoutingInput) (p : RoutingResolution → RoutingResolution → bool)
  : bool :=
  match resolve_routing a, resolve_routing b with
  | Ok ra, Ok rb => p ra rb
  | _, _ => false
  end.

Definition determinism_same_input_same_output : bool :=
  both_routes sample_input sample_input eqb_of.

Definition different_installation_different_topic : bool :=
  both_routes (with_installation_id "install-a") (with_installation_id "install-b") (λ ra rb,
    negb (rr_topic ra =?= rr_topic rb)).

Definition different_stream_key_different_partition_key_same_topic : bool :=
  both_routes (with_stream_key "key-1") (with_stream_key "key-2") (λ ra rb,
    (rr_topic ra =?= rr_topic rb) && negb (rr_partition_key ra =?= rr_partition_key rb)).

Definition empty_field_rejected : bool :=
  forallb (λ input, resolve_routing input =?= Err EmptyField)
    [with_installation_id ""; with_namespace ""; with_logical_stream_type "";
     with_stream_key ""; with_event_type ""].

Definition unsupported_routing_version_rejected : bool :=
  (resolve_routing (with_routing_version 2) =?= Err UnsupportedRoutingVersion) &&
  (resolve_routing (with_routing_version 0) =?= Err UnsupportedRoutingVersion).

Definition checksum_changes_when_any_field_changes : bool :=
  forallb (λ input, both_routes input sample_input (λ r base,
      negb (rr_routing_checksum r =?= rr_routing_checksum base)))
    [with_installation_id "other"; with_namespace "other"; with_logical_stream_type "other";
     with_stream_key "other"; with_event_type "other"].

Definition routing_tests : list bool :=
  [determinism_same_input_same_output; different_installation_different_topic;
   different_stream_key_different_partition_key_same_topic; empty_field_rejected;
   unsupported_routing_version_rejected; checksum_changes_when_any_field_changes].
End RoutingTests.
End RoutingTests.

Definition delivery_tests `{Sha256} : list bool :=
  GateTests.gate_tests ++ ProducerTests.producer_tests ++ ProfileTests.profile_tests ++
  RepairTests.repair_tests ++ TransitionTests.transition_tests ++ RetryTests.retry_tests ++
  RoutingTests.routing_tests.

(** The model of the delivery crate passes the tests of these modules. *)
Lemma delivery_tests_pass : forallb id (@delivery_tests fips_sha256) = true.
Proof. vm_compute. reflexivity. Qed.
