(* ===== verification/DomainScenarios.v ===== *)
(** * The tests of the domain crate (crates/craftrelay-domain/src/lib.rs, module [tests])

    Every test of the module, under its own name, as a computation on the
    model.  The fixtures of the tests are functions of the fields the tests
    change. *)
From S2P Require Import Prelude Checksum JournalDb Profiles Metadata Identity Registration Acl.
From S2P Require Import Policy Scenarios.
Open Scope Z_scope.
#[local] Coercion Z.of_nat : nat >-> Z.

#[local] Instance PolicyDecision_eq_dec : EqDecision PolicyDecision.
Proof. solve_decision. Defined.
#[local] Instance RevisionDecision_eq_dec : EqDecision RevisionDecision.
Proof. solve_decision. Defined.
#[local] Instance ValidationError_eq_dec : EqDecision ValidationError.
Proof. solve_decision. Defined.
#[local] Instance RegistrationRejection_eq_dec : EqDecision ProducerRegistrationRejection.
Proof. solve_decision. Defined.
#[local] Instance ManifestViolation_eq_dec : EqDecision ManifestViolation.
Proof. solve_decision. Defined.
#[local] Instance AclDenyReason_eq_dec : EqDecision AclDenyReason.
Proof. solve_decision. Defined.
#[local] Instance AdmissionDecision_eq_dec : EqDecision AdmissionDecision.
Proof. solve_decision. Defined.
#[local] Instance QuotaClass_eq_dec : EqDecision QuotaClass.
Proof. solve_decision. Defined.
#[local] Instance DurabilityClass_eq_dec : EqDecision DurabilityClass.
Proof. solve_decision. Defined.
#[local] Instance RetentionClass_eq_dec : EqDecision RetentionClass.
Proof. solve_decision. Defined.
#[local] Instance PolicyRejectionReason_eq_dec : EqDecision PolicyRejectionReason.
Proof. solve_decision. Defined.
#[local] Instance EffectivePolicyResult_eq_dec : EqDecision EffectivePolicyResult.
Proof. solve_decision. Defined.
#[local] Instance OwnershipViolation_eq_dec : EqDecision OwnershipViolation.
Proof. solve_decision. Defined.
#[local] Instance AdmissionRejectionReason_eq_dec : EqDecision AdmissionRejectionReason.
Proof. solve_decision. Defined.
#[local] Instance ProfileValidationError_eq_dec : EqDecision ProfileValidationError.
Proof. solve_decision. Defined.
#[local] Instance ExtendedProfileError_eq_dec : EqDecision ExtendedProfileValidationError.
Proof. solve_decision. Defined.

(** [result.unwrap_err().contains(&v)] *)
Definition violates {V} `{EqDecision V} (r : result unit (list V)) (v : V) : bool :=
  match r with Err violations => bool_decide (v ∈ violations) | Ok _ => false end.

(** ** Flush criteria, revisions, names, numbers, metadata *)
Definition flush_is_or_based : bool :=
  let c := mkFlush 10 100 50 in
  should_flush c 10 0 0 false && should_flush c 0 100 0 false && should_flush c 0 0 50 false &&
  should_flush c 0 0 0 true.

Definition requested_flush_is_clamped_or_rejected_by_policy : bool :=
  let requested := mkFlush 1 10 1 in
  let bounds := mkBounds (mkFlush 4 100 5) (mkFlush 64 65536 1000) in
  match resolve_flush_policy requested bounds false with
  | Some (FlushClamped _) => true
  | _ => false
  end &&
  (resolve_flush_policy requested bounds true =?= Some FlushRejected) &&
  negb (semantic_coalescing_allowed "P0_LEDGER") &&
  semantic_coalescing_allowed "ACTIVITY_DELTA".

Definition revision_conflict_is_detected : bool :=
  compare_revision 2 (replicate 32 Byte.x01) 2 (replicate 32 Byte.x02) =?= RevIntegrityConflict.

Definition installation_scope_separates_names : bool :=
  negb (scoped_name "a" "same" =?= scoped_name "b" "same").

Definition uuid_v7_shape : bool :=
  is_canonical_uuid_v7 "01890f3e-7b4c-7cc2-98c8-3f0f5f3f9b4a" &&
  negb (is_canonical_uuid_v7 "01890f3e-7b4c-4cc2-98c8-3f0f5f3f9b4a") &&
  negb (is_canonical_uuid_v7 "01890F3E-7B4C-7CC2-98C8-3F0F5F3F9B4A").

Definition positive_numeric_boundaries : bool :=
  (positive_i32 1 =?= Ok 1) && (positive_i32 i32_max =?= Ok i32_max) &&
  (positive_i32 0 =?= Err NonPositiveInt32) &&
  (positive_i64 1 =?= Ok 1) && (positive_i64 i64_max =?= Ok i64_max) &&
  (positive_i64 (-1) =?= Err NonPositiveInt64).

Definition metadata_is_sorted_and_duplicate_keys_are_rejected : bool :=
  (canonical_metadata_text [mkEntry "z" "last"; mkEntry "a" "first"] =?= Ok "a=first|z=last") &&
  (canonicalize_metadata [mkEntry "same" "a"; mkEntry "same" "b"] =?= Err DuplicateMetadataKey).

Definition value_tests : list bool :=
  [flush_is_or_based; requested_flush_is_clamped_or_rejected_by_policy;
   revision_conflict_is_detected; installation_scope_separates_names; uuid_v7_shape;
   positive_numeric_boundaries; metadata_is_sorted_and_duplicate_keys_are_rejected].

(** ** Registration of producers *)
Definition producer_of (installation_id : string) (state : ProducerLifecycleState)
    (priority : PriorityClass) (policy_binding_id : string) : RegisteredProducer :=
  mkRegistered installation_id "producer-a" "instance-1" "reference" "ReferencePlugin" state
    ["economy"; "mining"] priority QuotaStandard policy_binding_id.

Definition test_producer (state : ProducerLifecycleState) : RegisteredProducer :=
  producer_of "installation-a" state P1 "binding-1".

Definition valid_producer_registration : bool :=
  is_ok (validate_producer_registration (test_producer Active) "installation-a" []).

Definition duplicate_producer_registration_rejected : bool :=
  let producer := test_producer Active in
  validate_producer_registration producer "installation-a" [producer] =?= Err RegDuplicate.

Definition disabled_producer_rejected : bool :=
  validate_producer_registration (test_producer Disabled) "installation-a" [] =?= Err RegDisabled.

Definition suspended_producer_rejected : bool :=
  validate_producer_registration (test_producer Suspended) "installation-a" []
  =?= Err RegSuspended.

Definition cross_installation_producer_rejected : bool :=
  validate_producer_registration (test_producer Active) "installation-b" []
  =?= Err RegCrossInstallation.

Definition registration_tests : list bool :=
  [valid_producer_registration; duplicate_producer_registration_rejected;
   disabled_producer_rejected; suspended_producer_rejected;
   cross_installation_producer_rejected].

(** ** Manifests *)
Definition declared_event_of (event_type : string) (min_schema_version : Z) (event_class : string)
    (priority : PriorityClass) : ManifestEventDeclaration :=
  mkEventDecl event_type min_schema_version 1 "economy" event_class ReplicatedDurable RetPermanent
    priority QuotaCritical.
Definition query_of (query_id : string) : ManifestQueryDeclaration := mkQueryDecl query_id 1 1.

Definition manifest_of (events : list ManifestEventDeclaration)
    (queries : list ManifestQueryDeclaration) (namespaces : list string)
    (max_pending_publishes : Z) (priority : PriorityClass) : ExtendedIntegrationManifest :=
  mkManifest "reference" 1 "ReferencePlugin" "producer-a" events queries namespaces
    ReplicatedDurable RetStandard priority QuotaStandard max_pending_publishes 64 32.

Definition declared_event : ManifestEventDeclaration := declared_event_of "economy.transfer" 1 "P0_LEDGER" P1.
Definition declared_query : ManifestQueryDeclaration := query_of "economy.get-account".

Definition test_manifest (priority : PriorityClass) : ExtendedIntegrationManifest :=
  manifest_of [declared_event_of "economy.transfer" 1 "P0_LEDGER" priority] [declared_query] ["economy"] 128
    priority.

Definition manifest_duplicate_event_rejected : bool :=
  violates (validate_manifest (manifest_of [declared_event; declared_event] [declared_query]
    ["economy"] 128 P1) P1) DuplicateEvent.

Definition manifest_duplicate_query_rejected : bool :=
  violates (validate_manifest (manifest_of [declared_event] [declared_query; declared_query]
    ["economy"] 128 P1) P1) DuplicateQuery.

Definition manifest_duplicate_namespace_rejected : bool :=
  violates (validate_manifest (manifest_of [declared_event] [declared_query]
    ["economy"; "economy"] 128 P1) P1) DuplicateNamespace.

Definition manifest_invalid_event_name_rejected : bool :=
  violates (validate_manifest (manifest_of [declared_event_of "UPPER_CASE" 1 "P0_LEDGER" P1]
    [declared_query] ["economy"] 128 P1) P1) InvalidEventName.

Definition manifest_invalid_query_name_rejected : bool :=
  violates (validate_manifest (manifest_of [declared_event] [query_of ""] ["economy"] 128 P1) P1)
    InvalidQueryName.

Definition manifest_invalid_namespace_rejected : bool :=
  violates (validate_manifest (manifest_of [declared_event] [declared_query] ["INVALID"] 128 P1) P1)
    InvalidNamespaceName.

Definition manifest_self_promotion_forbidden : bool :=
  violates (validate_manifest (test_manifest P0) P1) SelfPromotionForbidden.

Definition manifest_best_effort_forbidden : bool :=
  violates (validate_manifest (manifest_of [declared_event_of "economy.transfer" 1 "BEST_EFFORT" P1]
    [declared_query] ["economy"] 128 P1) P1) BestEffortForbidden.

Definition manifest_unbounded_limit_rejected : bool :=
  violates (validate_manifest (manifest_of [declared_event] [declared_query] ["economy"] 5000 P1) P1)
    UnboundedLimit.

Definition manifest_missing_limit_rejected : bool :=
  violates (validate_manifest (manifest_of [declared_event] [declared_query] ["economy"] 0 P1) P1)
    MissingLimit.

Definition manifest_invalid_schema_version_rejected : bool :=
  violates (validate_manifest (manifest_of [declared_event_of "economy.transfer" 0 "P0_LEDGER" P1]
    [declared_query] ["economy"] 128 P1) P1) InvalidSchemaVersion.

Definition valid_manifest_accepted : bool := is_ok (validate_manifest (test_manifest P1) P1).

Definition manifest_tests : list bool :=
  [manifest_duplicate_event_rejected; manifest_duplicate_query_rejected;
   manifest_duplicate_namespace_rejected; manifest_invalid_event_name_rejected;
   manifest_invalid_query_name_rejected; manifest_invalid_namespace_rejected;
   manifest_self_promotion_forbidden; manifest_best_effort_forbidden;
   manifest_unbounded_limit_rejected; manifest_missing_limit_rejected;
   manifest_invalid_schema_version_rejected; valid_manifest_accepted].

(** ** Access control *)
Definition test_credential (status : CredentialStatus) : CredentialReference :=
  mkCredential "cred-1" FakeTestOnly 1 status "installation-a".

Definition test_principal (status : CredentialStatus) : AclPrincipal :=
  mkPrincipal "producer-a" "installation-a" (test_credential status).

Definition allow_rule : AclRule := mkRule "rule-allow" Publish "economy" Allow 10.
Definition deny_rule : AclRule := mkRule "rule-deny" Publish "economy" Deny 20.

Definition denied_for (reason : AclDenyReason) (result : AclEvaluationResult) : bool :=
  (ae_decision result =?= Deny) && (ae_deny_reason result =?= Some reason).

Definition acl_allow_decision : bool :=
  let result := evaluate_acl (test_principal CredActive) "installation-a" "economy" Publish
                  [allow_rule] 1 in
  (ae_decision result =?= Allow) && (ae_matched_rule_id result =?= Some "rule-allow").

Definition acl_deny_decision : bool :=
  denied_for ExplicitDeny (evaluate_acl (test_principal CredActive) "installation-a" "economy"
    Publish [allow_rule; deny_rule] 1).

Definition acl_no_matching_rule_denies : bool :=
  denied_for NoMatchingRule (evaluate_acl (test_principal CredActive) "installation-a" "mining"
    Publish [allow_rule] 1).

Definition acl_unknown_credential_rejected : bool :=
  denied_for CredentialInvalid (evaluate_acl (test_principal CredUnknown) "installation-a"
    "economy" Publish [allow_rule] 1).

Definition acl_revoked_credential_rejected : bool :=
  denied_for CredentialRevoked (evaluate_acl (test_principal CredRevoked) "installation-a"
    "economy" Publish [allow_rule] 1).

Definition acl_expired_credential_rejected : bool :=
  denied_for CredentialExpired (evaluate_acl (test_principal CredExpired) "installation-a"
    "economy" Publish [allow_rule] 1).

Definition acl_cross_installation_rejected : bool :=
  denied_for AclCrossInstallation (evaluate_acl (test_principal CredActive) "installation-b"
    "economy" Publish [allow_rule] 1).

Definition namespace_wildcard_matching : bool :=
  namespace_matches "*" "anything" && namespace_matches "economy" "economy" &&
  negb (namespace_matches "economy" "mining") &&
  namespace_matches "economy.*" "economy.transfer" &&
  negb (namespace_matches "economy.*" "economy").

Definition acl_tests : list bool :=
  [acl_allow_decision; acl_deny_decision; acl_no_matching_rule_denies;
   acl_unknown_credential_rejected; acl_revoked_credential_rejected;
   acl_expired_credential_rejected; acl_cross_installation_rejected;
   namespace_wildcard_matching].

(** ** Policy resolution *)
Definition test_flush_bounds : FlushPolicyBounds :=
  mkBounds (mkFlush 4 100 5) (mkFlush 512 131072 1000).

Definition policy_config_of (minimum_retention : RetentionClass) : PolicyConfiguration :=
  mkPolicyConfig "installation-a" ReplicatedDurable minimum_retention (Some "projection-v1") P1
    ["binding-1"] test_flush_bounds 42.
Definition test_policy_config : PolicyConfiguration := policy_config_of RetStandard.

Definition test_acl_allow : AclEvaluationResult := mkAclResult Allow None (Some "rule-1") 1.
Definition test_acl_deny : AclEvaluationResult :=
  mkAclResult Deny (Some ExplicitDeny) (Some "rule-deny") 1.

Definition policy_ctx_of (installation_id : string) (durability : DurabilityClass)
    (projection : string) (priority : PriorityClass) (flush : FlushCriteria)
    (producer : RegisteredProducer) (acl : AclEvaluationResult) : PolicyResolutionContext :=
  mkContext installation_id producer acl "snapshot-1" "economy" durability RetStandard projection
    priority QuotaStandard flush.

Definition test_flush : FlushCriteria := mkFlush 16 16384 5.
Definition test_policy_ctx : RegisteredProducer → AclEvaluationResult → PolicyResolutionContext :=
  policy_ctx_of "installation-a" ReplicatedDurable "projection-v1" P1 test_flush.

(** [resolve_policy] answers, and the answer passes the check. *)
Definition policy_answers (ctx : PolicyResolutionContext) (config : PolicyConfiguration)
    (owned : list string) (p : EffectivePolicyResult → bool) : bool :=
  match resolve_policy ctx config owned with Some result => p result | None => false end.

Definition is_admitted (r : EffectivePolicyResult) : bool := ep_admission_decision r =?= AdmAdmitted.
Definition is_rejected (r : EffectivePolicyResult) : bool := ep_admission_decision r =?= AdmRejected.
Definition rejected_for (reason : PolicyRejectionReason) (r : EffectivePolicyResult) : bool :=
  is_rejected r && (ep_rejection_reason r =?= Some reason).

Definition policy_resolution_determinism : bool :=
  let ctx := test_policy_ctx (test_producer Active) test_acl_allow in
  (resolve_policy ctx test_policy_config ["economy"] =?=
   resolve_policy ctx test_policy_config ["economy"]) &&
  policy_answers ctx test_policy_config ["economy"] is_admitted.

Definition policy_durability_weakening_rejected : bool :=
  policy_answers (policy_ctx_of "installation-a" LocalDurable "projection-v1" P1 test_flush
    (test_producer Active) test_acl_allow) test_policy_config ["economy"]
    (rejected_for DurabilityWeakening).

Definition policy_retention_weakening_rejected : bool :=
  policy_answers (test_policy_ctx (test_producer Active) test_acl_allow)
    (policy_config_of RetExtended) ["economy"] (rejected_for RetentionWeakening).

Definition policy_projection_bypass_rejected : bool :=
  policy_answers (policy_ctx_of "installation-a" ReplicatedDurable "bypass-policy" P1 test_flush
    (test_producer Active) test_acl_allow) test_policy_config ["economy"]
    (rejected_for ProjectionBypass).

Definition policy_self_promotion_rejected : bool :=
  policy_answers (policy_ctx_of "installation-a" ReplicatedDurable "projection-v1" P0 test_flush
    (test_producer Active) test_acl_allow) test_policy_config ["economy"]
    (rejected_for SelfPromotion).

Definition policy_installation_escape_rejected : bool :=
  policy_answers (policy_ctx_of "installation-b" ReplicatedDurable "projection-v1" P1 test_flush
    (test_producer Active) test_acl_allow) test_policy_config ["economy"]
    (rejected_for InstallationEscape).

Definition policy_acl_denied_rejected : bool :=
  policy_answers (test_policy_ctx (test_producer Active) test_acl_deny) test_policy_config
    ["economy"] (rejected_for AclDenied).

Definition policy_disabled_producer_rejected : bool :=
  policy_answers (test_policy_ctx (test_producer Disabled) test_acl_allow) test_policy_config
    ["economy"] (rejected_for PolProducerDisabled).

Definition policy_suspended_producer_rejected : bool :=
  policy_answers (test_policy_ctx (test_producer Suspended) test_acl_allow) test_policy_config
    ["economy"] (rejected_for PolProducerSuspended).

Definition policy_cross_installation_rejected : bool :=
  policy_answers (test_policy_ctx (producer_of "installation-b" Active P1 "binding-1")
    test_acl_allow) test_policy_config ["economy"] is_rejected.

Definition policy_not_locally_owned_rejected : bool :=
  policy_answers (test_policy_ctx (test_producer Active) test_acl_allow) test_policy_config
    ["mining"] (rejected_for PolNotLocallyOwned).

Definition policy_unknown_binding_rejected : bool :=
  policy_answers (test_policy_ctx (producer_of "installation-a" Active P1 "unknown-binding")
    test_acl_allow) test_policy_config ["economy"] (rejected_for UnknownPolicyBinding).

Definition policy_flush_criteria_clamped : bool :=
  policy_answers (policy_ctx_of "installation-a" ReplicatedDurable "projection-v1" P1
    (mkFlush 1 10 1) (test_producer Active) test_acl_allow) test_policy_config ["economy"]
    (λ result, is_admitted result && (4 <=? fc_max_records (ep_flush result))).

Definition policy_effective_reason_codes : bool :=
  policy_answers (test_policy_ctx (test_producer Active) test_acl_allow) test_policy_config
    ["economy"]
    (λ result, is_admitted result && (ep_rejection_reason result =?= None) &&
       negb (str_is_empty (ep_decision_detail result)) && (ep_policy_version result =? 42)).

Definition policy_tests : list bool :=
  [policy_resolution_determinism; policy_durability_weakening_rejected;
   policy_retention_weakening_rejected; policy_projection_bypass_rejected;
   policy_self_promotion_rejected; policy_installation_escape_rejected;
   policy_acl_denied_rejected; policy_disabled_producer_rejected;
   policy_suspended_producer_rejected; policy_cross_installation_rejected;
   policy_not_locally_owned_rejected; policy_unknown_binding_rejected;
   policy_flush_criteria_clamped; policy_effective_reason_codes].

(** ** Ownership *)
Definition entry_of (owner_node_id installation_id : string) : NamespaceOwnershipEntry :=
  mkOwnership "economy" owner_node_id "agent-1" installation_id NodeLocal.
Definition snapshot_of (entries : list NamespaceOwnershipEntry) : OwnershipSnapshot :=
  mkSnapshot (mkSnapshotId "snap-1" 1) "installation-a" "node-1" NodeLocal entries.

Definition test_ownership_snapshot : OwnershipSnapshot :=
  snapshot_of [entry_of "node-1" "installation-a"].

Definition valid_ownership_snapshot : bool :=
  is_ok (validate_ownership_snapshot test_ownership_snapshot).

Definition ownership_missing_owner_rejected : bool :=
  violates (validate_ownership_snapshot (snapshot_of [entry_of "" "installation-a"])) MissingOwner.

Definition ownership_duplicate_namespace_rejected : bool :=
  violates (validate_ownership_snapshot (snapshot_of
    [entry_of "node-1" "installation-a"; entry_of "node-1" "installation-a"])) OwDuplicateNamespace.

Definition ownership_cross_installation_rejected : bool :=
  violates (validate_ownership_snapshot (snapshot_of [entry_of "node-1" "installation-b"]))
    OwCrossInstallation.

Definition ownership_namespace_locally_owned : bool :=
  is_namespace_locally_owned test_ownership_snapshot "economy" &&
  negb (is_namespace_locally_owned test_ownership_snapshot "mining").

Definition ownership_not_locally_owned_by_wrong_node : bool :=
  negb (is_namespace_locally_owned (snapshot_of [entry_of "node-2" "installation-a"]) "economy").

Definition ownership_tests : list bool :=
  [valid_ownership_snapshot; ownership_missing_owner_rejected;
   ownership_duplicate_namespace_rejected; ownership_cross_installation_rejected;
   ownership_namespace_locally_owned; ownership_not_locally_owned_by_wrong_node].

(** ** Admission *)
Definition producer_quota_of (in_flight_publishes queued_publishes : Z) : ProducerQuotaState :=
  mkProducerQuota "producer-a" in_flight_publishes 100 queued_publishes 50 1000 100000.
Definition test_producer_quota : ProducerQuotaState := producer_quota_of 5 0.

Definition namespace_quota_of (in_flight_publishes : Z) : NamespaceQuotaState :=
  mkNamespaceQuota "economy" in_flight_publishes 200.
Definition test_namespace_quota : NamespaceQuotaState := namespace_quota_of 10.

Definition test_global_quota : GlobalQuotaState := mkGlobalQuota 20 500 50 10.

Definition admits (r : AdmissionResult) : bool := ad_decision r =?= AdmAdmitted.
Definition refuses (reason : AdmissionRejectionReason) (r : AdmissionResult) : bool :=
  (ad_decision r =?= AdmRejected) && (ad_rejection_reason r =?= Some reason).

Definition quota_under_limit_admitted : bool :=
  admits (evaluate_admission (test_producer Active) test_producer_quota test_namespace_quota
    test_global_quota 100 true).

Definition per_producer_in_flight_quota_rejected : bool :=
  refuses ProducerInFlightExceeded (evaluate_admission (test_producer Active)
    (producer_quota_of 100 0) test_namespace_quota test_global_quota 100 true).

Definition per_producer_queue_quota_rejected : bool :=
  refuses ProducerQueueExceeded (evaluate_admission (test_producer Active)
    (producer_quota_of 5 50) test_namespace_quota test_global_quota 100 true).

Definition per_producer_bytes_quota_rejected : bool :=
  refuses ProducerBytesExceeded (evaluate_admission (test_producer Active) test_producer_quota
    test_namespace_quota test_global_quota 100000 true).

Definition namespace_quota_rejected : bool :=
  refuses NamespaceInFlightExceeded (evaluate_admission (test_producer Active)
    test_producer_quota (namespace_quota_of 200) test_global_quota 100 true).

Definition global_quota_rejected : bool :=
  refuses GlobalInFlightExceeded (evaluate_admission (test_producer Active) test_producer_quota
    test_namespace_quota (mkGlobalQuota 500 500 0 0) 100 true).

Definition lower_priority_cannot_consume_p0_reserved_capacity : bool :=
  refuses P0CapacityReserved (evaluate_admission
    (producer_of "installation-a" Active P2 "binding-1") test_producer_quota
    test_namespace_quota (mkGlobalQuota 460 500 50 10) 100 true).

Definition p0_producer_admitted_with_reserved_capacity : bool :=
  admits (evaluate_admission (producer_of "installation-a" Active P0 "binding-1")
    test_producer_quota test_namespace_quota (mkGlobalQuota 460 500 50 10) 100 true).

Definition admission_disabled_producer_rejected : bool :=
  refuses AdmProducerDisabled (evaluate_admission (test_producer Disabled) test_producer_quota
    test_namespace_quota test_global_quota 100 true).

Definition admission_not_locally_owned_rejected : bool :=
  refuses AdmNotLocallyOwned (evaluate_admission (test_producer Active) test_producer_quota
    test_namespace_quota test_global_quota 100 false).

Definition bounded_ingress_cannot_grow_unbounded : bool :=
  admits (evaluate_admission (test_producer Active)
    (mkProducerQuota "producer-a" (i32_max - 1) i32_max 0 50 0 100000) test_namespace_quota
    (mkGlobalQuota 0 i32_max 0 0) 100 true).

Definition admission_tests : list bool :=
  [quota_under_limit_admitted; per_producer_in_flight_quota_rejected;
   per_producer_queue_quota_rejected; per_producer_bytes_quota_rejected;
   namespace_quota_rejected; global_quota_rejected;
   lower_priority_cannot_consume_p0_reserved_capacity;
   p0_producer_admitted_with_reserved_capacity; admission_disabled_producer_rejected;
   admission_not_locally_owned_rejected; bounded_ingress_cannot_grow_unbounded].

(** ** Kafka profiles *)
Definition kafka_profile_valid_p0 : bool :=
  is_ok (validate_p0_kafka_profile (mkDurability "p0" 5 5 "all" "events" 1)).

Definition kafka_profile_weakened_rf_rejected : bool :=
  validate_p0_kafka_profile (mkDurability "weak" 3 3 "all" "events" 1) =?= Err WeakenedDurability.

Definition kafka_profile_invalid_acks_rejected : bool :=
  validate_kafka_profile (mkDurability "bad-acks" 5 5 "1" "events" 1) =?= Err InvalidAcks.

Definition production_profile_of (rf min_isr : Z) (idempotence : bool) (max_in_flight : Z)
    (compression cleanup_policy : string) (unclean : bool) (topic_deletion_policy : string)
  : KafkaProductionProfile :=
  mkProfile "p0-production" 1 rf min_isr "all" idempotence 120000 30000 5 max_in_flight compression
    604800000 1073741824 cleanup_policy unclean topic_deletion_policy.

Definition valid_production_profile : KafkaProductionProfile :=
  production_profile_of 5 5 true 5 "lz4" "delete" false "PROTECTED".

Definition valid_p0_production_profile_accepted : bool :=
  is_ok (validate_p0_production_profile valid_production_profile).

Definition production_profile_idempotence_required : bool :=
  validate_production_profile (production_profile_of 5 5 false 5 "lz4" "delete" false "PROTECTED")
  =?= Err IdempotenceRequired.

Definition production_profile_unclean_election_forbidden : bool :=
  validate_production_profile (production_profile_of 5 5 true 5 "lz4" "delete" true "PROTECTED")
  =?= Err UncleanElectionForbidden.

Definition production_profile_invalid_cleanup_policy : bool :=
  validate_production_profile
    (production_profile_of 5 5 true 5 "lz4" "compact,delete" false "PROTECTED")
  =?= Err InvalidCleanupPolicy.

Definition production_profile_topic_deletion_forbidden : bool :=
  validate_production_profile (production_profile_of 5 5 true 5 "lz4" "delete" false "ALLOWED")
  =?= Err TopicDeletionForbidden.

Definition production_profile_invalid_max_in_flight : bool :=
  validate_production_profile (production_profile_of 5 5 true 6 "lz4" "delete" false "PROTECTED")
  =?= Err InvalidMaxInFlight.

Definition production_profile_invalid_compression : bool :=
  validate_production_profile
    (production_profile_of 5 5 true 5 "brotli" "delete" false "PROTECTED")
  =?= Err InvalidCompression.

Definition p0_production_profile_weakened_rf_rejected : bool :=
  validate_p0_production_profile
    (production_profile_of 3 3 true 5 "lz4" "delete" false "PROTECTED")
  =?= Err (Base WeakenedDurability).

Definition delivery_retrying_variant_exists : bool :=
  negb (DeliveryRetrying =?= DeliveryPending) && negb (DeliveryRetrying =?= Replicated).

Definition kafka_profile_tests : list bool :=
  [kafka_profile_valid_p0; kafka_profile_weakened_rf_rejected;
   kafka_profile_invalid_acks_rejected; valid_p0_production_profile_accepted;
   production_profile_idempotence_required; production_profile_unclean_election_forbidden;
   production_profile_invalid_cleanup_policy; production_profile_topic_deletion_forbidden;
   production_profile_invalid_max_in_flight; production_profile_invalid_compression;
   p0_production_profile_weakened_rf_rejected; delivery_retrying_variant_exists].

Definition domain_tests : list bool :=
  value_tests ++ registration_tests ++ manifest_tests ++ acl_tests ++ policy_tests ++
  ownership_tests ++ admission_tests ++ kafka_profile_tests.

(** The model of the domain crate passes the tests of the domain crate. *)
Lemma domain_tests_pass : forallb id domain_tests = true.
Proof. vm_compute. reflexivity. Qed.
