(* ===== verification/BarrierCapture.v ===== *)
(** * Capturing a projection barrier (crates/craftrelay-agent/src/barrier_capture.rs,
      and the trait of crates/craftrelay-protocol/src/lib.rs)

    The adapter asks a Kafka consumer for the next offsets of a topic's
    partitions.  The consumer is a parameter, the class [Consumer]: its partition
    lists, its errors and its answers. *)
From S2P Require Import Prelude.
Open Scope Z_scope.
#[local] Coercion Z.of_nat : nat >-> Z.

Definition MAX_PARTITIONS : Z := 1024.
Definition MAX_TIMEOUT_MILLIS : Z := 30000.

(** ** The consumer *)
Inductive Offset : Type :=
| OffBeginning
| OffEnd
| OffStored
| OffInvalid
| OffAt (value : Z)
| OffTail (value : Z).

Class Consumer : Type := {
  TopicPartitionList : Type;
  KafkaError : Type;
  tpl_new : TopicPartitionList;
  add_partition_offset :
    TopicPartitionList → string → Z → Offset → result TopicPartitionList KafkaError;
  offsets_for_times : TopicPartitionList → Z → result TopicPartitionList KafkaError;
  find_partition : TopicPartitionList → string → Z → option Offset
}.

Section Capture.
Context `{Consumer}.

Inductive CaptureError : Type :=
| InvalidBounds
| Kafka (e : KafkaError)
| MissingPartition (partition : Z).

(** ** The adapter *)
Fixpoint add_partitions (request : TopicPartitionList) (topic : string) (partitions : list Z)
  : result TopicPartitionList CaptureError :=
  match partitions with
  | [] => Ok request
  | p :: partitions =>
      match add_partition_offset request topic p OffEnd with
      | Err e => Err (Kafka e)
      | Ok request => add_partitions request topic partitions
      end
  end.

Fixpoint collect_offsets (resolved : TopicPartitionList) (topic : string) (partitions : list Z)
    (acc : gmap Z Z) : result (gmap Z Z) CaptureError :=
  match partitions with
  | [] => Ok acc
  | p :: partitions =>
      match find_partition resolved topic p with
      | Some (OffAt value) => collect_offsets resolved topic partitions (<[p := value]> acc)
      | Some OffEnd => collect_offsets resolved topic partitions (<[p := 0]> acc)
      | _ => Err (MissingPartition p)
      end
  end.

Definition bounds_ok (partitions : list Z) (timeout_millis : Z) : bool :=
  negb (bool_decide (partitions = []) || (MAX_PARTITIONS <? length partitions) ||
        (timeout_millis =? 0) || (MAX_TIMEOUT_MILLIS <? timeout_millis)).

Definition capture_read_committed_next_offsets (topic : string) (partitions : list Z)
    (timeout_millis : Z) : result (gmap Z Z) CaptureError :=
  if negb (bounds_ok partitions timeout_millis) then Err InvalidBounds
  else
    let? request := add_partitions tpl_new topic partitions in
    match offsets_for_times request timeout_millis with
    | Err e => Err (Kafka e)
    | Ok resolved => collect_offsets resolved topic partitions ∅
    end.

(** ** What is captured *)

(** The next offset an answer stands for. *)
Definition next_offset (o : Offset) : option Z :=
  match o with OffAt value => Some value | OffEnd => Some 0 | _ => None end.

Definition captured (resolved : TopicPartitionList) (topic : string) (p : Z) : option Z :=
  o ← find_partition resolved topic p; next_offset o.

Lemma collect_offsets_spec resolved topic partitions acc :
  match collect_offsets resolved topic partitions acc with
  | Ok m => (∀ p, p ∈ partitions → is_Some (captured resolved topic p) ∧ m !! p = captured resolved topic p) ∧
            (∀ p, p ∉ partitions → m !! p = acc !! p)
  | Err e => ∃ before p after, partitions = before ++ p :: after ∧ e = MissingPartition p ∧
               captured resolved topic p = None ∧
               ∀ q, q ∈ before → is_Some (captured resolved topic q)
  end.
Proof.
  revert acc. induction partitions as [|p partitions IH]; intros acc; simpl.
  { split; [by intros ? ?%not_elem_of_nil|done]. }
  assert (Hgo : ∀ v, captured resolved topic p = Some v →
    match collect_offsets resolved topic partitions (<[p := v]> acc) with
    | Ok m => (∀ q, q ∈ p :: partitions → is_Some (captured resolved topic q) ∧ m !! q = captured resolved topic q) ∧
              (∀ q, q ∉ p :: partitions → m !! q = acc !! q)
    | Err e => ∃ before q after, p :: partitions = before ++ q :: after ∧ e = MissingPartition q ∧
                 captured resolved topic q = None ∧ ∀ r, r ∈ before → is_Some (captured resolved topic r)
    end).
  { intros v Hv. specialize (IH (<[p := v]> acc)). destruct (collect_offsets _ _ _ _) as [m|e].
    - destruct IH as [Hin Hout]. split.
      + intros q Hq. destruct (decide (q ∈ partitions)) as [Hi|Hn]; [by apply Hin|].
        apply elem_of_cons in Hq as [->|?]; [|done]. rewrite (Hout p Hn), lookup_insert_eq, Hv. eauto.
      + intros q [Hne Hn]%not_elem_of_cons. rewrite (Hout q Hn), lookup_insert_ne; done.
    - destruct IH as (before & q & after & -> & -> & Hq & Hb). exists (p :: before), q, after.
      split_and!; try done. intros r [->|Hr]%elem_of_cons; [by rewrite Hv|by apply Hb]. }
  assert (Hmiss : captured resolved topic p = None →
    ∃ before q after, p :: partitions = before ++ q :: after ∧
      MissingPartition p = MissingPartition q ∧ captured resolved topic q = None ∧
      ∀ r, r ∈ before → is_Some (captured resolved topic r)).
  { intros Hp. exists [], p, partitions. split_and!; try done. by intros ? ?%not_elem_of_nil. }
  destruct (find_partition resolved topic p) as [[]|] eqn:Hf;
    first [apply Hgo; unfold captured; by rewrite Hf|apply Hmiss; unfold captured; by rewrite Hf].
Qed.

Lemma bounds_ok_iff partitions timeout_millis :
  bounds_ok partitions timeout_millis = true ↔
  (partitions ≠ [] ∧ length partitions ≤ MAX_PARTITIONS ∧ timeout_millis ≠ 0 ∧
   timeout_millis ≤ MAX_TIMEOUT_MILLIS).
Proof.
  unfold bounds_ok. rewrite negb_true_iff, !orb_false_iff, bool_decide_eq_false, !Z.ltb_ge, Z.eqb_neq.
  naive_solver.
Qed.
End Capture.
Arguments CaptureError {_}.

(** The trait, and the adapter over a consumer as its implementation. *)
Class BarrierCaptureAdapter (Error : Type) : Type :=
  capture_next_offsets : string → list Z → Z → result (gmap Z Z) Error.
#[export] Instance rdkafka_adapter `{Consumer} : BarrierCaptureAdapter CaptureError :=
  capture_read_committed_next_offsets.

(** The test of the adapter. *)
Definition is_invalid_bounds `{Consumer} (r : result (gmap Z Z) CaptureError) : bool :=
  match r with Err InvalidBounds => true | _ => false end.

Definition bounds_are_explicit `{Consumer} : bool :=
  is_invalid_bounds (capture_next_offsets "t" [] 1) &&
  is_invalid_bounds (capture_next_offsets "t" (replicate (Z.to_nat (MAX_PARTITIONS + 1)) 0) 1) &&
  is_invalid_bounds (capture_next_offsets "t" [0] (MAX_TIMEOUT_MILLIS + 1)).

Lemma bounds_are_explicit_passes (C : Consumer) : bounds_are_explicit = true.
Proof. vm_compute. reflexivity. Qed.

(** The offset a partition was answered with, if it was answered with one. *)
Definition known_offset `{Consumer} (resolved : TopicPartitionList) (topic : string) (p : Z) : option Z :=
  match find_partition resolved topic p with Some (OffAt value) => Some value | _ => None end.

Lemma captured_known `{Consumer} resolved topic p :
  find_partition resolved topic p ≠ Some OffEnd → captured resolved topic p = known_offset resolved topic p.
Proof. intros Hne. unfold captured, known_offset. by destruct (find_partition _ _ _) as [[]|]. Qed.

Lemma add_partitions_error `{Consumer} request topic partitions e :
  add_partitions request topic partitions = Err e → ∃ k, e = Kafka k.
Proof.
  revert request. induction partitions as [|p partitions IH]; intros request; simpl; [done|].
  destruct (add_partition_offset _ _ _ _); [apply IH|]. intros [= <-]. eauto.
Qed.

(** C36. A barrier covers exactly the partitions asked for.  Outside the bounds
    nothing is asked and the answer is [InvalidBounds].  Within them a call of the
    consumer that fails is answered with its Kafka error.  When the consumer takes
    the request and answers it, and answers no asked partition with the end
    marker, the capture succeeds exactly when it answered every partition with an
    offset: the barrier then holds these offsets and no other partition;
    otherwise the error names the first partition without an offset. *)
Theorem capture_exact (C : Consumer) (topic : string) (partitions : list Z) (timeout : Z) :
  (¬ (partitions ≠ [] ∧ length partitions ≤ 1024 ∧ timeout ≠ 0 ∧ timeout ≤ 30000) →
     capture_read_committed_next_offsets topic partitions timeout = Err InvalidBounds) ∧
  (partitions ≠ [] ∧ length partitions ≤ 1024 ∧ timeout ≠ 0 ∧ timeout ≤ 30000 →
   match add_partitions tpl_new topic partitions with
   | Err e => (∃ k, e = Kafka k) ∧ capture_read_committed_next_offsets topic partitions timeout = Err e
   | Ok request =>
       match offsets_for_times request timeout with
       | Err k => capture_read_committed_next_offsets topic partitions timeout = Err (Kafka k)
       | Ok resolved =>
           (∀ p, p ∈ partitions → find_partition resolved topic p ≠ Some OffEnd) →
           match capture_read_committed_next_offsets topic partitions timeout with
           | Ok barrier => dom barrier = list_to_set partitions ∧
               ∀ p, p ∈ partitions → barrier !! p = known_offset resolved topic p
           | Err e => ∃ before p after, partitions = before ++ p :: after ∧ e = MissingPartition p ∧
               known_offset resolved topic p = None ∧
               ∀ q, q ∈ before → is_Some (known_offset resolved topic q)
           end
       end
   end).
Proof.
  unfold capture_read_committed_next_offsets. split.
  { intros Hb. destruct (bounds_ok partitions timeout) eqn:Hok; [|done].
    apply bounds_ok_iff in Hok. by destruct Hb. }
  intros Hb. rewrite (proj2 (bounds_ok_iff _ _)) by done. simpl.
  destruct (add_partitions _ _ _) as [request|e] eqn:Hreq;
    [|split; [by eapply add_partitions_error|done]]. simpl.
  destruct (offsets_for_times request timeout) as [resolved|k]; [|done]. intros Hend.
  pose proof (collect_offsets_spec resolved topic partitions ∅) as Hs.
  destruct (collect_offsets resolved topic partitions ∅) as [m|e].
  - destruct Hs as [Hin Hout]. split.
    + apply set_eq. intros p. rewrite elem_of_dom, elem_of_list_to_set. split.
      * intros Hm. destruct (decide (p ∈ partitions)) as [|Hn]; [done|].
        rewrite (Hout p Hn), lookup_empty in Hm. by destruct Hm.
      * intros Hp. destruct (Hin p Hp) as [Hc ->]. done.
    + intros p Hp. rewrite <- captured_known by by apply Hend. by apply Hin.
  - destruct Hs as (before & p & after & -> & -> & Hp & Hq). exists before, p, after.
    split; [done|]. split; [done|]. split.
    + rewrite <- captured_known; [done|]. apply Hend. apply elem_of_app. right. by left.
    + intros q Hin. rewrite <- captured_known; [by apply Hq|]. apply Hend, elem_of_app. by left.
Qed.

(** A consumer that knows the next offsets of two partitions. *)
Definition sample_consumer : Consumer := {|
  TopicPartitionList := list Z;
  KafkaError := string;
  tpl_new := [];
  add_partition_offset l _ p _ := Ok (l ++ [p]);
  offsets_for_times l _ := Ok l;
  find_partition l _ p := if decide (p ∈ l) then
    (if decide (p = 0) then Some (OffAt 10) else if decide (p = 1) then Some (OffAt 7) else None) else None
|}.

Lemma capture_exact_witness :
  @capture_read_committed_next_offsets sample_consumer "t" [0; 1] 1000 = Ok {[0 := 10; 1 := 7]} ∧
  dom ({[0 := 10; 1 := 7]} : gmap Z Z) = list_to_set [0; 1] ∧
  @capture_read_committed_next_offsets sample_consumer "t" [] 1000 = Err InvalidBounds.
Proof.
  assert (Hrun : @capture_read_committed_next_offsets sample_consumer "t" [0; 1] 1000 =
    Ok {[0 := 10; 1 := 7]}) by (vm_compute; reflexivity).
  split; [exact Hrun|]. split.
  - destruct (capture_exact sample_consumer "t" [0; 1] 1000) as [_ Hc]. rewrite Hrun in Hc. apply Hc.
    + split; [discriminate|]. split; [vm_compute; discriminate|]. split; discriminate.
    + intros p Hp. apply elem_of_cons in Hp as [->|[->|Hp]%elem_of_cons]; [discriminate|discriminate|].
      by apply not_elem_of_nil in Hp.
  - apply (capture_exact sample_consumer "t" [] 1000). intros [Hne _]. by apply Hne.
Defined.

(** A partition that is answered with the end marker enters the barrier with
    zero, whatever it holds: nothing is waited for.  The plan asks for the
    exclusive end offset there. *)
Lemma end_captured_as_zero `{C : Consumer} request resolved topic p timeout :
  add_partitions tpl_new topic [p] = Ok request → offsets_for_times request timeout = Ok resolved →
  0 < timeout ≤ 30000 → find_partition resolved topic p = Some OffEnd →
  capture_read_committed_next_offsets topic [p] timeout = Ok {[p := 0]}.
Proof.
  intros Hreq Hres Ht Hf. unfold capture_read_committed_next_offsets.
  rewrite (proj2 (bounds_ok_iff _ _)).
  - simpl in *. rewrite Hreq. simpl. rewrite Hres. simpl. by rewrite Hf.
  - unfold MAX_PARTITIONS, MAX_TIMEOUT_MILLIS. split; [done|]. simpl. lia.
Qed.
