(* ===== verification/BenchEvents.v ===== *)
(** * Synthetic events of the benchmark (crates/craftrelay-journal-bench/src/ingress.rs)

    The generated events, their payloads and identifiers, and the configuration
    of an ingress run.  The identifiers pass the UUID check of the domain crate
    and are distinct. *)
From S2P Require Import Prelude Checksum Metadata Identity.
Open Scope Z_scope.
#[local] Coercion Z.of_nat : nat >-> Z.

Definition BENCH_MAX_PAYLOAD_BYTES : Z := 1048576.
Definition DEFAULT_CHANNEL_CAPACITY : Z := 4096.
Definition MAX_BOUNDED_ERRORS : nat := 64.

Record SyntheticEvent : Type := mkEvent {
  se_event_id : string;
  se_installation_id : string;
  se_producer_id : string;
  se_namespace : string;
  se_logical_stream : string;
  se_schema_version : Z;
  se_payload : list byte;
  se_payload_digest : Checksum;
  se_request_fingerprint : Checksum;
  se_payload_ref_id : string;
  se_metadata_count : Z
}.

(** ** Payloads *)

(** [u64] arithmetic wraps. *)
Definition u64_wrap (z : Z) : Z := z mod 2 ^ 64.

(** The step of the generator and the byte it yields. *)
Definition next_state (state : Z) : Z := u64_wrap (u64_wrap (state * 6364136223846793005) + 1).
Definition state_byte (state : Z) : byte := byte_of_Z (Z.shiftr state 33).

Fixpoint payload_bytes (n : nat) (state : Z) : list byte :=
  match n with
  | O => []
  | S n => let state := next_state state in state_byte state :: payload_bytes n state
  end.

Definition deterministic_payload (seed size : Z) : list byte :=
  payload_bytes (Z.to_nat (Z.min size BENCH_MAX_PAYLOAD_BYTES)) seed.

(** ** Identifiers *)
Definition hex_ascii (n : Z) : ascii :=
  default "0"%char (String.list_ascii_of_string "0123456789abcdef" !! Z.to_nat (n mod 16)).

(** [{:0wx}] of a number of at most [w] hexadecimal digits. *)
Fixpoint hex_padded (w : nat) (n : Z) : string :=
  match w with
  | O => ""
  | S w => hex_padded w (n / 16) +:+ String (hex_ascii n) ""
  end.

Definition generated_id (index : Z) : string :=
  "01890f3e-" +:+ hex_padded 4 (Z.land (Z.shiftr index 32) 65535) +:+ "-7cc2-98c8-" +:+
  hex_padded 12 (Z.land index 281474976710655).

Definition generate `{Sha256} (index : Z) (installation_id producer_id namespace : string)
    (payload_size : Z) : SyntheticEvent :=
  let event_id := generated_id index in
  let logical_stream := namespace +:+ ".stream-" +:+ to_string (index mod 8) in
  let payload := deterministic_payload index payload_size in
  mkEvent event_id installation_id producer_id namespace logical_stream 1 payload
    (sha256 payload) (sha256 (bytes_of (join_nul [event_id; namespace; logical_stream])))
    (installation_id +:+ "/" +:+ event_id) 1.

(** ** Configuration *)
Record IngressConfig : Type := mkIngress {
  ic_channel_capacity : Z;
  ic_total_records : Z;
  ic_installation_id : string;
  ic_producer_id : string;
  ic_namespace : string;
  ic_payload_bytes : Z
}.

Definition ingress_new (total_records payload_size : Z) : IngressConfig :=
  mkIngress DEFAULT_CHANNEL_CAPACITY total_records "bench-installation" "bench-producer" "bench"
    (Z.min payload_size BENCH_MAX_PAYLOAD_BYTES).

Definition event_of `{Sha256} (config : IngressConfig) (i : Z) : SyntheticEvent :=
  generate i (ic_installation_id config) (ic_producer_id config) (ic_namespace config)
    (ic_payload_bytes config).

Definition generate_events `{Sha256} (config : IngressConfig) : list SyntheticEvent :=
  event_of config <$> seqZ 0 (ic_total_records config).

(** ** Payload facts *)
Lemma length_payload_bytes n state : length (payload_bytes n state) = n.
Proof. revert state. induction n; intros; simpl; auto. Qed.

Lemma payload_size_bound seed size :
  0 ≤ size → (length (deterministic_payload seed size) : Z) = Z.min size BENCH_MAX_PAYLOAD_BYTES.
Proof. intros Hs. unfold deterministic_payload. rewrite length_payload_bytes. unfold BENCH_MAX_PAYLOAD_BYTES. lia. Qed.

(** ** Identifier facts *)
Lemma hex_ascii_inj a b : hex_ascii a = hex_ascii b → a mod 16 = b mod 16.
Proof.
  assert (Hall : ∀ z, ∃ n, z mod 16 = Z.of_nat n ∧ (n < 16)%nat).
  { intros z. exists (Z.to_nat (z mod 16)). pose proof (Z.mod_pos_bound z 16). lia. }
  unfold hex_ascii. destruct (Hall a) as (n & -> & Hn), (Hall b) as (m & -> & Hm).
  rewrite !Nat2Z.id. do 16 (destruct n as [|n]; [do 16 (destruct m as [|m]; [done|]); lia|]). lia.
Qed.

Lemma length_hex_padded w n : length (bytes_of (hex_padded w n)) = w.
Proof.
  revert n. induction w as [|w IH]; intros n; [done|]. simpl.
  rewrite bytes_of_app, length_app, IH. rewrite bytes_of_cons. simpl. lia.
Qed.

Lemma hex_padded_inj (w : nat) a b :
  0 ≤ a < 16 ^ w → 0 ≤ b < 16 ^ w → hex_padded w a = hex_padded w b → a = b.
Proof.
  revert a b. induction w as [|w IH]; intros a b Ha Hb Heq; [simpl in *; lia|].
  rewrite Nat2Z.inj_succ, Z.pow_succ_r in Ha, Hb by lia.
  apply (f_equal bytes_of) in Heq. simpl in Heq. rewrite !bytes_of_app, !bytes_of_cons in Heq.
  apply app_inj_tail in Heq as [Hq Hr]. apply (inj bytes_of) in Hq.
  apply (f_equal ascii_of_byte) in Hr. rewrite !ascii_of_byte_of_ascii in Hr.
  apply hex_ascii_inj in Hr. apply IH in Hq;
    [|split; [apply Z.div_pos; lia|apply Z.div_lt_upper_bound; lia]..].
  rewrite (Z.div_mod a 16), (Z.div_mod b 16) by lia. congruence.
Qed.

Lemma generated_id_inj i j : 0 ≤ i < 2 ^ 48 → 0 ≤ j < 2 ^ 48 → generated_id i = generated_id j → i = j.
Proof.
  intros Hi Hj Heq. unfold generated_id in Heq. apply (f_equal bytes_of) in Heq.
  rewrite !bytes_of_app in Heq. apply app_inv_head in Heq.
  apply app_inj_1 in Heq as [_ Heq]; [|by rewrite !length_hex_padded].
  apply app_inv_head, (inj bytes_of) in Heq.
  change 281474976710655 with (Z.ones 48) in Heq. rewrite !Z.land_ones in Heq by lia.
  rewrite !(Z.mod_small _ (2 ^ 48)) in Heq by lia. apply hex_padded_inj in Heq; [done|..];
    (change (16 ^ 12%nat) with (2 ^ 48); lia).
Qed.

Lemma hex_padded_lower w n : Forall (λ b, is_lower_hex b = true) (bytes_of (hex_padded w n)).
Proof.
  revert n. induction w as [|w IH]; intros n; [constructor|]. simpl.
  rewrite bytes_of_app. apply Forall_app. split; [apply IH|].
  rewrite bytes_of_cons. repeat constructor. unfold hex_ascii.
  assert (Hm : (Z.to_nat (n mod 16) < 16)%nat) by (pose proof (Z.mod_pos_bound n 16); lia).
  revert Hm. generalize (Z.to_nat (n mod 16)) as m. intros m Hm.
  do 16 (destruct m as [|m]; [done|]). lia.
Qed.

(** A text of the shape the generator writes passes the UUID check. *)
Lemma uuid_shape a b :
  length a = 4%nat → length b = 12%nat → Forall (λ b, is_lower_hex b = true) (a ++ b) →
  ∀ s, bytes_of s = bytes_of "01890f3e-" ++ a ++ bytes_of "-7cc2-98c8-" ++ b →
  is_canonical_uuid_v7 s = true.
Proof.
  intros Ha Hb Hall s Hs. unfold is_canonical_uuid_v7. rewrite Hs. clear Hs s.
  do 4 (destruct a as [|? a]; [done|]). destruct a; [|done].
  do 12 (destruct b as [|? b]; [done|]). destruct b; [|done].
  rewrite !Forall_app in Hall. destruct Hall as [Ha' Hb'].
  repeat match goal with Hf : Forall _ (_ :: _) |- _ => apply Forall_cons in Hf as [? Hf] end.
  cbn -[is_lower_hex].
  repeat match goal with Hh : is_lower_hex ?x = true |- _ => rewrite Hh; clear Hh end.
  by vm_compute.
Qed.

Lemma generated_id_canonical index : is_canonical_uuid_v7 (generated_id index) = true.
Proof.
  unfold generated_id. eapply uuid_shape; [apply (length_hex_padded 4)|apply (length_hex_padded 12)|..].
  - apply Forall_app. split; apply hex_padded_lower.
  - by rewrite !bytes_of_app.
Qed.

(** The events of a run have distinct identifiers. *)
Lemma generated_nodup `{Sha256} config :
  ic_total_records config ≤ 2 ^ 48 → NoDup (se_event_id <$> generate_events config).
Proof.
  intros Hn. unfold generate_events. rewrite <- list_fmap_compose.
  apply NoDup_fmap_2_strong; [|apply NoDup_seqZ].
  intros i j Hi%elem_of_seqZ Hj%elem_of_seqZ. simpl. apply generated_id_inj; lia.
Qed.

Lemma length_generate_events `{Sha256} config :
  0 ≤ ic_total_records config → (length (generate_events config) : Z) = ic_total_records config.
Proof. intros Hn. unfold generate_events. rewrite length_fmap, length_seqZ. lia. Qed.

Example third_event : generated_id 3 = "01890f3e-0000-7cc2-98c8-000000000003".
Proof. vm_compute. reflexivity. Qed.
