(* ===== verification/BenchStore.v ===== *)
(** * Storage candidates of the benchmark (crates/craftrelay-journal-bench/src/candidate.rs)

    Two ways to store a batch of events in SQLite: one database, or segments of
    a bounded number of records.  Every statement may fail as the engine
    decides; where the source calls [expect], a failure is a panic, and a panic
    rolls an open transaction back.  The loops run on fuel, so that one that
    does not end is visible as [OutOfFuel]. *)
From S2P Require Import Prelude Checksum JournalDb BenchEvents.
Open Scope Z_scope.
#[local] Coercion Z.of_nat : nat >-> Z.

(** ** Configuration and results *)
Record CandidateConfig : Type := mkCandidateConfig {
  cc_name : string;
  cc_journal_mode : string;
  cc_synchronous : string;
  cc_busy_timeout_ms : Z;
  cc_wal_autocheckpoint : Z;
  cc_page_size : option Z;
  cc_max_records_per_tx : Z;
  cc_max_bytes_per_tx : Z;
  cc_segment_rollover_records : option Z;
  cc_unsafe_mode : bool
}.

Definition monolithic : CandidateConfig :=
  mkCandidateConfig "monolithic" "WAL" "FULL" 5000 1000 None 64 1048576 None false.
Definition segmented : CandidateConfig :=
  mkCandidateConfig "segmented" "WAL" "FULL" 5000 1000 None 64 1048576 (Some 500) false.

Definition is_segmented (c : CandidateConfig) : bool :=
  match cc_segment_rollover_records c with Some _ => true | None => false end.

Definition label (c : CandidateConfig) : string :=
  cc_name c +:+ (if cc_unsafe_mode c then " [UNSAFE-BENCHMARK-ONLY]" else "").

Record WriteResult : Type := mkWrite {
  wr_journal_sequence : Z;
  wr_stream_sequence : Z;
  wr_envelope_checksum : Checksum
}.

Record WriteBatchMetrics : Type := mkMetrics {
  wm_committed_transactions : Z;
  wm_failed_transactions : Z;
  wm_written_records : Z;
  wm_failed_records : Z;
  wm_max_observed_batch_size : Z;
  wm_total_batch_records : Z
}.
Definition no_metrics : WriteBatchMetrics := mkMetrics 0 0 0 0 0 0.

(** What [write_batch] answers. *)
Abbreviation BatchResult := (list (result WriteResult string) * WriteBatchMetrics)%type.

Definition PER_EVENT_OVERHEAD_BYTES : Z := 512.
Definition estimated_transaction_bytes (event : SyntheticEvent) : Z :=
  length (se_payload event) + PER_EVENT_OVERHEAD_BYTES.

(** ** Tables *)
Record BenchEnvelope : Type := mkBenchEnvelope {
  be_event_id : string;
  be_installation_id : string;
  be_producer_id : string;
  be_namespace : string;
  be_logical_stream : string;
  be_stream_sequence : Z;
  be_schema_version : Z;
  be_payload_digest : Checksum;
  be_request_fingerprint : Checksum;
  be_envelope_checksum : Checksum;
  be_payload_ref_id : string;
  be_payload_length : Z;
  be_received_at_ms : Z
}.

Record BenchLifecycle : Type := mkBenchLifecycle {
  bl_revision : Z;
  bl_snapshot_checksum : Checksum;
  bl_delivery_status : string;
  bl_local_durable_at_ms : Z
}.

(** The primary key of the envelopes is the journal sequence. *)
Record BenchDb : Type := mkBenchDb {
  bench_envelope : gmap Z BenchEnvelope;
  bench_payload : gmap string (list byte * Checksum);
  bench_lifecycle : gmap string BenchLifecycle;
  bench_stream_head : gmap string Z
}.
Definition empty_bench : BenchDb := mkBenchDb ∅ ∅ ∅ ∅.

(** ** Computations on a store *)
Inductive outcome (A : Type) : Type :=
| Done (a : A)
| Panicked
| OutOfFuel.
Arguments Done {A} a.
Arguments Panicked {A}.
Arguments OutOfFuel {A}.

(** The store and the number of statements so far. *)
Definition Store (S A : Type) : Type := S * nat → outcome A * (S * nat).

#[export] Instance store_ret S : MRet (Store S) := λ A a s, (Done a, s).
#[export] Instance store_bind S : MBind (Store S) := λ A B k m s,
  let '(r, s') := m s in
  match r with
  | Done a => k a s'
  | Panicked => (Panicked, s')
  | OutOfFuel => (OutOfFuel, s')
  end.

Definition store_panic {S A} : Store S A := λ s, (Panicked, s).
Definition store_diverge {S A} : Store S A := λ s, (OutOfFuel, s).
Definition store_get {S} : Store S S := λ s, (Done s.1, s).
Definition store_modify {S} (f : S → S) : Store S unit := λ s, (Done tt, (f s.1, s.2)).

(** [expect] *)
Definition expect {S A} (r : result A string) : Store S A :=
  match r with Ok a => mret a | Err _ => store_panic end.

Section Candidates.
Context `{Sha256} `{Engine}.

Definition bench_statement {S A} (f : S → result (A * S) string) : Store S (result A string) :=
  λ '(db, pc), match sql_fault pc with
               | Some e => (Done (Err e), (db, Datatypes.S pc))
               | None => match f db with
                         | Err e => (Done (Err e), (db, Datatypes.S pc))
                         | Ok (a, db') => (Done (Ok a), (db', Datatypes.S pc))
                         end
               end.

(** A transaction: it is committed when the body says so and rolled back when
    it does not, or panics. *)
Definition transaction {A} (body : Store BenchDb (bool * A)) : Store BenchDb (bool * A) :=
  λ '(db, pc),
    match sql_fault pc with
    | Some _ => (Panicked, (db, Datatypes.S pc))
    | None =>
        match body (db, Datatypes.S pc) with
        | (Done (true, a), (db', pc')) =>
            match sql_fault pc' with
            | Some _ => (Panicked, (db, Datatypes.S pc'))
            | None => (Done (true, a), (db', Datatypes.S pc'))
            end
        | (Done (false, a), (_, pc')) => (Done (false, a), (db, pc'))
        | (Panicked, (_, pc')) => (Panicked, (db, pc'))
        | (OutOfFuel, (_, pc')) => (OutOfFuel, (db, pc'))
        end
    end.

(** ** Writing one event *)

(** [query_row(..).ok()]: a failed query counts as a missing row. *)
Definition bench_allocate_stream_sequence (stream_key : string) : Store BenchDb Z :=
  r ← bench_statement (λ db, Ok (bench_stream_head db !! stream_key, db));
  let existing := match r with Ok (Some n) => Some n | _ => None end in
  let next := i64_add (default 0 existing) 1 in
  u ← bench_statement (λ db,
        Ok (tt, mkBenchDb (bench_envelope db) (bench_payload db) (bench_lifecycle db)
                  (<[stream_key := next]> (bench_stream_head db))));
  _ ← expect u;
  mret next.

Definition bench_envelope_checksum (event : SyntheticEvent) (journal_seq stream_seq : Z)
  : Checksum :=
  sha256 (bytes_of (se_installation_id event) ++ [x00] ++ bytes_of (se_event_id event) ++ [x00] ++
          i64_to_be_bytes journal_seq ++ i64_to_be_bytes stream_seq ++ se_payload_digest event).

Definition bench_row (event : SyntheticEvent) (stream_seq : Z) (checksum : Checksum) (now_ms : Z)
  : BenchEnvelope :=
  mkBenchEnvelope (se_event_id event) (se_installation_id event) (se_producer_id event)
    (se_namespace event) (se_logical_stream event) stream_seq (se_schema_version event)
    (se_payload_digest event) (se_request_fingerprint event) checksum (se_payload_ref_id event)
    (length (se_payload event)) now_ms.

Definition bench_life (journal_seq now_ms : Z) : BenchLifecycle :=
  mkBenchLifecycle 1
    (sha256 (bytes_of (join_nul [to_string journal_seq; "LOCAL_ACCEPTED_SYNTHETIC"])))
    "LOCAL_ACCEPTED_SYNTHETIC" now_ms.

(** The identifiers in the envelope table; the column is unique. *)
Definition bench_ids (t : gmap Z BenchEnvelope) : list string :=
  (λ p, be_event_id p.2) <$> map_to_list t.

Definition insert_bench_envelope (journal_seq : Z) (row : BenchEnvelope) (db : BenchDb)
  : result (unit * BenchDb) string :=
  if decide (is_Some (bench_envelope db !! journal_seq)) then
    Err (sql_constraint "bench_envelope.journal_sequence")
  else if decide (be_event_id row ∈ bench_ids (bench_envelope db)) then
    Err (sql_constraint "bench_envelope.event_id")
  else Ok (tt, mkBenchDb (<[journal_seq := row]> (bench_envelope db)) (bench_payload db)
                 (bench_lifecycle db) (bench_stream_head db)).

Definition insert_bench_payload (event : SyntheticEvent) (db : BenchDb)
  : result (unit * BenchDb) string :=
  let? t := insert_new "bench_payload.event_id" (se_event_id event)
              (se_payload event, se_payload_digest event) (bench_payload db) in
  Ok (tt, mkBenchDb (bench_envelope db) t (bench_lifecycle db) (bench_stream_head db)).

Definition insert_bench_lifecycle (event_id : string) (row : BenchLifecycle) (db : BenchDb)
  : result (unit * BenchDb) string :=
  let? t := insert_new "bench_lifecycle.event_id" event_id row (bench_lifecycle db) in
  Ok (tt, mkBenchDb (bench_envelope db) (bench_payload db) t (bench_stream_head db)).

Definition write_three_rows (event : SyntheticEvent) (journal_seq stream_seq : Z)
    (envelope_checksum : Checksum) (now_ms : Z) : Store BenchDb (result unit string) :=
  try _ ← bench_statement (insert_bench_envelope journal_seq
             (bench_row event stream_seq envelope_checksum now_ms))
    catch e => mret (Err e) in
  try _ ← bench_statement (insert_bench_payload event) catch e => mret (Err e) in
  try _ ← bench_statement (insert_bench_lifecycle (se_event_id event) (bench_life journal_seq now_ms))
    catch e => mret (Err e) in
  mret (Ok tt).

(** The allocation of the stream sequence and the three rows, under a given
    journal sequence. *)
Definition write_event_at (journal_seq : Z) (event : SyntheticEvent) (now_ms : Z)
  : Store BenchDb (result WriteResult string) :=
  stream_seq ← bench_allocate_stream_sequence (se_logical_stream event);
  let checksum := bench_envelope_checksum event journal_seq stream_seq in
  try _ ← write_three_rows event journal_seq stream_seq checksum now_ms
    catch e => mret (Err e) in
  mret (Ok (mkWrite journal_seq stream_seq checksum)).

(** [MAX(journal_sequence)] *)
Definition max_bench_sequence (t : gmap Z BenchEnvelope) : option Z :=
  foldr (λ p m, Some (Z.max p.1 (default p.1 m))) None (map_to_list t).

(** [COALESCE(MAX(journal_sequence), 0) + 1]: past the largest integer the sum
    is a real number, which is not an [i64]. *)
Definition next_bench_sequence (t : gmap Z BenchEnvelope) : result Z string :=
  let m := default 0 (max_bench_sequence t) in
  if m <? i64_max then Ok (m + 1) else Err "Invalid column type Real".

Definition write_event_in_tx (event : SyntheticEvent) (now_ms : Z)
  : Store BenchDb (result WriteResult string) :=
  try journal_sequence ← bench_statement (λ db,
        let? n := next_bench_sequence (bench_envelope db) in Ok (n, db)) catch e => mret (Err e) in
  write_event_at journal_sequence event now_ms.

(** ** Batches *)

(** The loop of [next_batch_end] over the events before [hard_end]; the byte
    count stays below the memory that holds the events. *)
Fixpoint batch_loop (rest : list SyntheticEvent) (max_records max_bytes count bytes : Z)
    (pos : nat) : nat :=
  match rest with
  | [] => pos
  | event :: rest =>
      let event_bytes := estimated_transaction_bytes event in
      if (0 <? count) && ((max_records <=? count) || (max_bytes <? bytes + event_bytes)) then pos
      else batch_loop rest max_records max_bytes (count + 1) (bytes + event_bytes) (S pos)
  end.

(** [events[start..end]] *)
Definition slice {A} (l : list A) (start end_ : nat) : list A := take (end_ - start) (drop start l).

Definition next_batch_end (events : list SyntheticEvent) (start : nat)
    (max_records max_bytes : Z) (hard_end : nat) : nat :=
  batch_loop (slice events start hard_end) max_records max_bytes 0 0 start.

(** What a finished transaction adds to the metrics and the results; the [u64]
    counters stay below the number of events in memory. *)
Definition account_committed (n : Z) (m : WriteBatchMetrics) : WriteBatchMetrics :=
  mkMetrics (wm_committed_transactions m + 1) (wm_failed_transactions m)
    (wm_written_records m + n) (wm_failed_records m) (Z.max (wm_max_observed_batch_size m) n)
    (wm_total_batch_records m + n).

Definition account_failed (n : Z) (m : WriteBatchMetrics) : WriteBatchMetrics :=
  mkMetrics (wm_committed_transactions m) (wm_failed_transactions m + 1)
    (wm_written_records m) (wm_failed_records m + n) (wm_max_observed_batch_size m)
    (wm_total_batch_records m).

Definition rolled_back (prefix : string) (event : SyntheticEvent) : result WriteResult string :=
  Err (prefix +:+ se_event_id event).

(** ** Opening a database

    [Connection::open], the pragmas and the schema: each failure panics. *)
Fixpoint expect_statements {S} (n : nat) : Store S unit :=
  match n with
  | O => mret tt
  | Datatypes.S n =>
      r ← bench_statement (λ s : S, Ok (tt, s)); _ ← expect r; expect_statements n
  end.
Definition init_statements (config : CandidateConfig) : nat :=
  (7 + match cc_page_size config with Some _ => 1 | None => 0 end)%nat.

(** ** One database *)

(** The loop over a batch inside its transaction; it stops at an error. *)
Fixpoint write_events (batch : list SyntheticEvent) (now_ms : Z)
    (batch_results : list (result WriteResult string))
  : Store BenchDb (bool * list (result WriteResult string)) :=
  match batch with
  | [] => mret (true, batch_results)
  | event :: batch =>
      r ← write_event_in_tx event now_ms;
      match r with
      | Ok wr => write_events batch now_ms (batch_results ++ [Ok wr])
      | Err e => mret (false, batch_results ++ [Err e])
      end
  end.

Fixpoint mono_loop (fuel : nat) (config : CandidateConfig) (now_ms : Z)
    (events : list SyntheticEvent) (i : nat) (acc : BatchResult) : Store BenchDb BatchResult :=
  if (i <? length events)%nat then
    match fuel with
    | O => store_diverge
    | S fuel =>
        let batch_end := next_batch_end events i (cc_max_records_per_tx config)
                           (cc_max_bytes_per_tx config) (length events) in
        let batch := slice events i batch_end in
        r ← transaction (write_events batch now_ms []);
        let acc :=
          if r.1 : bool then (acc.1 ++ r.2, account_committed (u32 (length r.2)) acc.2)
          else (acc.1 ++ (rolled_back "batch rolled back for event " <$> batch),
                account_failed (length batch) acc.2) in
        mono_loop fuel config now_ms events batch_end acc
    end
  else mret acc.

Record MonolithicCandidate : Type := mkMono {
  mc_conn : BenchDb;
  mc_config : CandidateConfig
}.

(** [Connection::open], the pragmas and the schema, on the database a file
    holds; each failure panics. *)
Definition mono_open (file : BenchDb) (config : CandidateConfig)
  : outcome MonolithicCandidate * (BenchDb * nat) :=
  (_ ← expect_statements (init_statements config); db ← store_get; mret (mkMono db config)) (file, O).

Definition mono_write_batch (fuel : nat) (now_ms : Z) (events : list SyntheticEvent)
    (c : MonolithicCandidate) : outcome BatchResult * MonolithicCandidate :=
  let '(r, (db, _)) := mono_loop fuel (mc_config c) now_ms events 0 ([], no_metrics) (mc_conn c, O) in
  (r, mkMono db (mc_config c)).

(** [SELECT COUNT( * )], zero when the query fails *)
Definition mono_record_count (c : MonolithicCandidate) : Z :=
  match (bench_statement (λ db, Ok (size (bench_envelope db), db)) (mc_conn c, O)).1 with
  | Done (Ok n) => n
  | _ => 0
  end.

(** ** Segments *)

(** The record counts are [u32] and wrap around as in a release build. *)
Record SegmentInfo : Type := mkSegment {
  si_record_count : Z;
  si_first_journal_seq : Z;
  si_last_journal_seq : Z
}.

(** [sc_files] holds the database files of the directory by the index in their
    name, [sc_active] the index of the open one. *)
Record SegmentedCandidate : Type := mkSeg {
  sc_files : gmap nat BenchDb;
  sc_config : CandidateConfig;
  sc_segments : list SegmentInfo;
  sc_active : option nat;
  sc_global_journal_seq : Z;
  sc_records_in_active : Z
}.

Definition push_segment (c : SegmentedCandidate) : SegmentedCandidate :=
  let seg_index := length (sc_segments c) in
  mkSeg (<[seg_index := default empty_bench (sc_files c !! seg_index)]> (sc_files c))
    (sc_config c)
    (sc_segments c ++ [mkSegment 0 (i64_add (sc_global_journal_seq c) 1) (sc_global_journal_seq c)])
    (Some seg_index) (sc_global_journal_seq c) 0.

Definition roll_segment : Store SegmentedCandidate unit :=
  c ← store_get;
  _ ← expect_statements (init_statements (sc_config c));
  store_modify push_segment.

(** [SegmentedCandidate::open] on a directory with the given files *)
Definition segmented_open (files : gmap nat BenchDb) (config : CandidateConfig)
  : outcome unit * (SegmentedCandidate * nat) :=
  roll_segment (mkSeg files config [] None 0 0, O).

Definition needs_rollover (c : SegmentedCandidate) : bool :=
  match cc_segment_rollover_records (sc_config c) with
  | Some limit => limit <=? sc_records_in_active c
  | None => false
  end.

(** A computation on the open segment. *)
Definition on_active {A} (m : Store BenchDb A) : Store SegmentedCandidate A :=
  λ '(c, pc),
    match sc_active c with
    | None => (Panicked, (c, pc))
    | Some k =>
        let '(r, (db, pc')) := m (default empty_bench (sc_files c !! k), pc) in
        (r, (mkSeg (<[k := db]> (sc_files c)) (sc_config c) (sc_segments c) (sc_active c)
               (sc_global_journal_seq c) (sc_records_in_active c), pc'))
    end.

(** The loop over a batch; [local_journal_seq] counts the sequences. *)
Fixpoint seg_write_events (batch : list SyntheticEvent) (now_ms local_journal_seq : Z)
    (batch_results : list (result WriteResult string))
  : Store BenchDb (bool * (list (result WriteResult string) * Z)) :=
  match batch with
  | [] => mret (true, (batch_results, local_journal_seq))
  | event :: batch =>
      let local_journal_seq := i64_add local_journal_seq 1 in
      r ← write_event_at local_journal_seq event now_ms;
      match r with
      | Ok wr => seg_write_events batch now_ms local_journal_seq (batch_results ++ [Ok wr])
      | Err e => mret (false, (batch_results ++ [Err e], local_journal_seq))
      end
  end.

(** [segments.last_mut()] *)
Definition count_in_last (n seq : Z) (segments : list SegmentInfo) : list SegmentInfo :=
  match last segments with
  | Some seg => take (pred (length segments)) segments ++
                [mkSegment (u32_add (si_record_count seg) n) (si_first_journal_seq seg) seq]
  | None => segments
  end.

Definition commit_segment (n seq : Z) (c : SegmentedCandidate) : SegmentedCandidate :=
  mkSeg (sc_files c) (sc_config c) (count_in_last n seq (sc_segments c)) (sc_active c) seq
    (u32_add (sc_records_in_active c) n).

Definition count_ok {A E} (l : list (result A E)) : Z := length (filter (λ r, is_ok r = true) l).

(** The part of the loop after the check for a rollover. *)
Definition seg_batch (now_ms : Z) (events : list SyntheticEvent) (i : nat) (acc : BatchResult)
  : Store SegmentedCandidate (nat * BatchResult) :=
  c ← store_get;
  let config := sc_config c in
  let remaining := match cc_segment_rollover_records config with
                   | Some limit => Z.to_nat (u32_sub limit (sc_records_in_active c))
                   | None => (length events - i)%nat
                   end in
  let hard_end := Nat.min (i + remaining) (length events) in
  let batch_end := next_batch_end events i (cc_max_records_per_tx config)
                     (cc_max_bytes_per_tx config) hard_end in
  let batch := slice events i batch_end in
  r ← on_active (transaction (seg_write_events batch now_ms (sc_global_journal_seq c) []));
  let n := u32 (count_ok r.2.1) in
  if r.1 : bool then
    _ ← store_modify (commit_segment n r.2.2);
    mret (batch_end, (acc.1 ++ r.2.1, account_committed n acc.2))
  else
    mret (batch_end, (acc.1 ++ (rolled_back "segment batch rolled back for event " <$> batch),
                      account_failed (length batch) acc.2)).

Fixpoint seg_loop (fuel : nat) (now_ms : Z) (events : list SyntheticEvent) (i : nat)
    (acc : BatchResult) : Store SegmentedCandidate BatchResult :=
  if (i <? length events)%nat then
    match fuel with
    | O => store_diverge
    | S fuel =>
        c ← store_get;
        _ ← (if needs_rollover c then roll_segment else mret tt);
        r ← seg_batch now_ms events i acc;
        seg_loop fuel now_ms events r.1 r.2
    end
  else mret acc.

Definition seg_write_batch (fuel : nat) (now_ms : Z) (events : list SyntheticEvent)
    (c : SegmentedCandidate) : outcome BatchResult * SegmentedCandidate :=
  let '(r, (c', _)) := seg_loop fuel now_ms events 0 ([], no_metrics) (c, O) in (r, c').

Definition segment_count (c : SegmentedCandidate) : Z := length (sc_segments c).
Definition total_records (c : SegmentedCandidate) : Z :=
  foldl u32_add 0 (si_record_count <$> sc_segments c).

(** ** The runner *)
Inductive CandidateRunner : Type :=
| Monolithic (c : MonolithicCandidate)
| Segmented (c : SegmentedCandidate).

Definition runner_run (fuel : nat) (now_ms : Z) (events : list SyntheticEvent)
    (runner : CandidateRunner) : outcome BatchResult * CandidateRunner :=
  match runner with
  | Monolithic c => let '(r, c') := mono_write_batch fuel now_ms events c in (r, Monolithic c')
  | Segmented c => let '(r, c') := seg_write_batch fuel now_ms events c in (r, Segmented c')
  end.

Definition runner_config (runner : CandidateRunner) : CandidateConfig :=
  match runner with Monolithic c => mc_config c | Segmented c => sc_config c end.

Definition runner_record_count (runner : CandidateRunner) : Z :=
  match runner with Monolithic c => mono_record_count c | Segmented c => total_records c end.
End Candidates.
