(* ===== verification/BenchBatches.v ===== *)
(** * Batches and transactions of the storage candidates

    The limits of a batch, the rules for computations on a store, and what one
    transaction leaves: the store holds a log of events under consecutive
    journal sequences, and a transaction appends its whole batch or nothing. *)
From S2P Require Import Prelude Checksum JournalDb SqlLogic BenchEvents BenchStore.
Open Scope Z_scope.
#[local] Coercion Z.of_nat : nat >-> Z.

(** ** The limits of a batch *)
Definition batch_bytes (l : list SyntheticEvent) : Z :=
  foldr Z.add 0 (estimated_transaction_bytes <$> l).

Lemma batch_bytes_app l k : batch_bytes (l ++ k) = batch_bytes l + batch_bytes k.
Proof. unfold batch_bytes. rewrite fmap_app, foldr_app. induction (estimated_transaction_bytes <$> l); simpl; lia. Qed.

Lemma batch_bytes_one e : batch_bytes [e] = estimated_transaction_bytes e.
Proof. unfold batch_bytes. simpl. lia. Qed.

(** The loop takes a prefix of what is left: it stops at a limit, never before
    the first event. *)
Lemma batch_loop_spec rest max_records max_bytes taken pos :
  (taken = [] ∨ (length taken ≤ Z.max 1 max_records ∧
                 (length taken = 1%nat ∨ batch_bytes taken ≤ max_bytes))) →
  ∃ more rem, rest = more ++ rem ∧
    batch_loop rest max_records max_bytes (length taken) (batch_bytes taken) pos =
      (pos + length more)%nat ∧
    (taken ++ more = [] ∨ (length (taken ++ more) ≤ Z.max 1 max_records ∧
       (length (taken ++ more) = 1%nat ∨ batch_bytes (taken ++ more) ≤ max_bytes))) ∧
    (taken ++ more ≠ [] ∨ rest = []) ∧
    (∀ e, head rem = Some e →
       max_records ≤ length (taken ++ more) ∨ max_bytes < batch_bytes (taken ++ more ++ [e])).
Proof.
  revert taken pos. induction rest as [|e rest IH]; intros taken pos Ht; simpl.
  { exists [], []. rewrite (app_nil_r taken). split; [done|]. split; [simpl; lia|]. split; [done|].
    split; [by right|done]. }
  destruct ((0 <? length taken) && ((max_records <=? length taken) ||
    (max_bytes <? batch_bytes taken + estimated_transaction_bytes e))) eqn:Hstop.
  - apply andb_true_iff in Hstop as [H0 Hs]. exists [], (e :: rest). rewrite (app_nil_r taken).
    split; [done|]. split; [simpl; lia|]. split; [done|].
    split; [left; by intros ->|]. intros e' [= <-].
    rewrite (left_id_L [] (++)), batch_bytes_app, batch_bytes_one.
    apply orb_true_iff in Hs as [Hs|Hs]; [left; lia|right; lia].
  - destruct (IH (taken ++ [e]) (S pos)) as (more & rem & -> & Hloop & Hlim & Hne & Hleft).
    { right. rewrite length_app, batch_bytes_app, batch_bytes_one.
      destruct taken as [|t taken]; [simpl; lia|]. set (n := length (t :: taken)) in *.
      assert (Hn : (0 <? Z.of_nat n) = true) by (apply Z.ltb_lt; unfold n; simpl; lia).
      rewrite Hn in Hstop. simpl andb in Hstop. apply orb_false_iff in Hstop as [Hr Hb].
      destruct Ht as [Ht|Ht]; [done|]. simpl length. lia. }
    exists (e :: more), rem. split; [done|]. split.
    { replace (length taken + 1) with (length (taken ++ [e]) : Z) by (rewrite length_app; simpl; lia).
      replace (batch_bytes taken + estimated_transaction_bytes e) with (batch_bytes (taken ++ [e]))
        by (by rewrite batch_bytes_app, batch_bytes_one).
      rewrite Hloop. simpl. lia. }
    rewrite <- (assoc_L (++)) in Hlim, Hne, Hleft. simpl in *.
    split; [done|]. split; [left; by destruct taken|]. intros e' He'.
    destruct (Hleft e' He') as [?|Hb]; [by left|right]. by rewrite <- (assoc_L (++)) in Hb.
Qed.

(** A batch that the two limits allow. *)
Definition batch_fits (max_records max_bytes : Z) (batch : list SyntheticEvent) : Prop :=
  length batch ≤ Z.max 1 max_records ∧
  (length batch = 1%nat ∨ batch_bytes batch ≤ max_bytes).

Lemma next_batch_end_spec events start max_records max_bytes hard_end :
  (start < hard_end)%nat → (hard_end ≤ length events)%nat →
  let e := next_batch_end events start max_records max_bytes hard_end in
  (start < e ≤ hard_end)%nat ∧ batch_fits max_records max_bytes (slice events start e) ∧
  ((e < hard_end)%nat → max_records ≤ length (slice events start e) ∨
     max_bytes < batch_bytes (slice events start (S e))).
Proof.
  intros Hs Hh e. unfold e, next_batch_end.
  destruct (batch_loop_spec (slice events start hard_end) max_records max_bytes [] start)
    as (more & rem & Hsl & Hloop & Hlim & Hne & Hleft); [by left|].
  change (batch_bytes []) with 0 in Hloop. change (Z.of_nat (length [])) with 0 in Hloop.
  simpl in *. rewrite Hloop. clear Hloop.
  assert (Hlen : length (slice events start hard_end) = (hard_end - start)%nat).
  { unfold slice. rewrite length_take, length_drop. lia. }
  assert (Hmore : more ≠ []).
  { destruct Hne as [?|Hn]; [done|]. rewrite Hn in Hlen. simpl in Hlen. lia. }
  assert (Hm : (0 < length more)%nat) by (destruct more; [done|simpl; lia]).
  pose proof Hlen as Hle. rewrite Hsl, length_app in Hle.
  assert (Hpre : ∀ k, (k ≤ hard_end - start)%nat →
    slice events start (start + k) = take k (more ++ rem)).
  { intros k Hk. rewrite <- Hsl. unfold slice. rewrite take_take. f_equal. lia. }
  assert (Htake : slice events start (start + length more) = more).
  { rewrite Hpre by lia. by rewrite take_app_length. }
  rewrite Htake. split; [lia|]. split; [by destruct Hlim|]. intros He.
  destruct rem as [|x rem]; [simpl in Hle; lia|].
  destruct (Hleft x eq_refl) as [?|Hb]; [by left|right].
  replace (S (start + length more)) with (start + length (more ++ [x]))%nat
    by (rewrite length_app; simpl; lia).
  rewrite Hpre by (rewrite length_app; simpl in *; lia).
  change (more ++ x :: rem) with (more ++ [x] ++ rem). rewrite (assoc_L (++)), take_app_length. done.
Qed.

(** ** Rules for computations on a store *)

(** [m] ends: with a value that satisfies [Q] in its store, or with a panic in
    a store that satisfies [R]. *)
Definition swp {S A} (m : Store S A) (Q : A → S → Prop) (R : S → Prop) (s : S * nat) : Prop :=
  match m s with
  | (Done a, s') => Q a s'.1
  | (Panicked, s') => R s'.1
  | (OutOfFuel, _) => False
  end.

Section StoreRules.
Context {S : Type}.
Implicit Types (R : S → Prop).

Lemma swp_ret {A} (a : A) (Q : A → S → Prop) R s : Q a s.1 → swp (mret a) Q R s.
Proof. done. Qed.

Lemma swp_bind {A B} (m : Store S A) (k : A → Store S B) (Q : B → S → Prop) R s :
  swp m (λ a s', ∀ pc, swp (k a) Q R (s', pc)) R s → swp (mbind k m) Q R s.
Proof.
  unfold swp, mbind, store_bind. destruct (m s) as [[a| |] [s' pc]]; simpl; [|done..].
  intros Hk. apply Hk.
Qed.

Lemma swp_mono {A} (m : Store S A) (P Q : A → S → Prop) R R' s :
  swp m P R s → (∀ a s', P a s' → Q a s') → (∀ s', R s' → R' s') → swp m Q R' s.
Proof. unfold swp. destruct (m s) as [[a| |] s']; auto. Qed.

Lemma swp_get (Q : S → S → Prop) R s : Q s.1 s.1 → swp store_get Q R s.
Proof. done. Qed.

Lemma swp_modify f (Q : unit → S → Prop) R s : Q tt (f s.1) → swp (store_modify f) Q R s.
Proof. done. Qed.

Context `{E : Engine}.

Lemma swp_statement {A} (f : S → result (A * S) string) (Q : result A string → S → Prop) R s pc :
  (∀ e, faulty E → Q (Err e) s) →
  match f s with Err e => Q (Err e) s | Ok (a, s') => Q (Ok a) s' end →
  swp (bench_statement f) Q R (s, pc).
Proof.
  intros Hf Hok. unfold swp, bench_statement. destruct (sql_fault pc) as [e|] eqn:He; simpl.
  - apply Hf. by exists pc, e.
  - by destruct (f s) as [[]|].
Qed.

(** A statement whose failure panics. *)
Lemma swp_expect_statement {A} (f : S → A * S) (Q : A → S → Prop) R s pc :
  (faulty E → R s) → Q (f s).1 (f s).2 →
  swp (r ← bench_statement (λ s, Ok (f s)); expect r) Q R (s, pc).
Proof.
  intros Hf Hok. apply swp_bind, swp_statement; [intros e He ?; by apply Hf|].
  destruct (f s). by intros ?.
Qed.

Lemma swp_expect_statements n (Q : unit → S → Prop) R s pc :
  (faulty E → R s) → Q tt s → swp (expect_statements n) Q R (s, pc).
Proof.
  intros Hf Hok. revert pc. induction n as [|n IH]; intros pc; [done|]. simpl.
  apply swp_bind, swp_statement; [intros e He ?; by apply Hf|]. intros ?.
  apply swp_bind. simpl. intros ?. apply IH.
Qed.
End StoreRules.

(** A transaction keeps the store unless its body ends with [true]. *)
Lemma swp_transaction `{E : Engine} {A} (body : Store BenchDb (bool * A))
    (Q : bool * A → BenchDb → Prop) R db pc :
  (faulty E → R db) →
  swp body (λ r db', Q r (if r.1 then db' else db)) (λ _, R db) (db, S pc) →
  swp (transaction body) Q R (db, pc).
Proof.
  intros Hf Hb. unfold swp, transaction in *. destruct (sql_fault pc) as [e|] eqn:He; simpl.
  { apply Hf. by exists pc, e. }
  destruct (body (db, S pc)) as [[[[] a]| |] [db' pc']]; simpl in *; try done.
  destruct (sql_fault pc') as [e|] eqn:He'; simpl; [|done]. apply Hf. by exists pc', e.
Qed.

Lemma max_bench_sequence_spec (t : gmap Z BenchEnvelope) n :
  0 ≤ n → (∀ k, k ∈ dom t → k ≤ n) → (n = 0 ∧ dom t = ∅ ∨ n ∈ dom t) →
  default 0 (max_bench_sequence t) = n.
Proof.
  intros Hn Hle Hin. unfold max_bench_sequence.
  assert (Hmax : ∀ l : list (Z * BenchEnvelope),
    match foldr (λ p m, Some (Z.max p.1 (default p.1 m))) None l with
    | None => l = []
    | Some m => (∃ p, p ∈ l ∧ p.1 = m) ∧ ∀ p, p ∈ l → p.1 ≤ m
    end).
  { induction l as [|p l IH]; simpl; [done|].
    destruct (foldr _ None l) as [m|]; simpl.
    - destruct IH as [(q & Hq & <-) Hub]. split.
      + destruct (Z.max_spec p.1 q.1) as [[_ ->]|[_ ->]]; [exists q|exists p]; split; set_solver.
      + intros r [->|Hr]%elem_of_cons; [lia|]. specialize (Hub _ Hr). lia.
    - subst l. split; [exists p; split; [by left|lia]|]. intros r ->%list_elem_of_singleton. lia. }
  specialize (Hmax (map_to_list t)). destruct (foldr _ None _) as [m|]; simpl.
  - destruct Hmax as [([k row] & Hk%elem_of_map_to_list & <-) Hub]. simpl in *.
    assert (Hd : k ∈ dom t) by (apply elem_of_dom; eauto). apply Z.le_antisymm; [by apply Hle|].
    destruct Hin as [[-> Hemp]|[row' Hin]%elem_of_dom]; [set_solver|].
    apply (Hub (n, row')). by apply elem_of_map_to_list.
  - apply map_to_list_empty_iff in Hmax as ->. rewrite dom_empty_L in Hin. set_solver.
Qed.

(** ** The log a store holds *)
Section Log.
Context `{Sha256}.

Definition bench_event_ids (log : list SyntheticEvent) : list string := se_event_id <$> log.

(** The store holds exactly the events of [log], in this order, under the
    journal sequences after [off]. *)
Record holds (off : Z) (db : BenchDb) (log : list SyntheticEvent) : Prop := {
  h_nodup : NoDup (bench_event_ids log);
  h_env : ∀ (i : nat) ev, log !! i = Some ev → ∃ ss now,
    bench_envelope db !! (off + i + 1) =
    Some (bench_row ev ss (bench_envelope_checksum ev (off + i + 1) ss) now);
  h_env_dom : dom (bench_envelope db) = list_to_set (seqZ (off + 1) (length log));
  h_payload : ∀ ev, ev ∈ log →
    bench_payload db !! se_event_id ev = Some (se_payload ev, se_payload_digest ev);
  h_payload_dom : dom (bench_payload db) = list_to_set (bench_event_ids log);
  h_life : ∀ (i : nat) ev, log !! i = Some ev → ∃ now,
    bench_lifecycle db !! se_event_id ev = Some (bench_life (off + i + 1) now);
  h_life_dom : dom (bench_lifecycle db) = list_to_set (bench_event_ids log)
}.

Lemma holds_empty off : holds off empty_bench [].
Proof. constructor; try done; [constructor|by intros ? ?%not_elem_of_nil]. Qed.

(** The stream heads are not part of it. *)
Lemma holds_head off db log heads :
  holds off db log →
  holds off (mkBenchDb (bench_envelope db) (bench_payload db) (bench_lifecycle db) heads) log.
Proof. intros []. by constructor. Qed.

Lemma holds_row off db log js row :
  holds off db log → bench_envelope db !! js = Some row →
  ∃ (i : nat) ev ss now, js = off + i + 1 ∧ log !! i = Some ev ∧
    row = bench_row ev ss (bench_envelope_checksum ev js ss) now.
Proof.
  intros Hh Hr. assert (Hd : js ∈ dom (bench_envelope db)) by (apply elem_of_dom; eauto).
  rewrite (h_env_dom _ _ _ Hh), elem_of_list_to_set, elem_of_seqZ in Hd.
  destruct (lookup_lt_is_Some_2 log (Z.to_nat (js - off - 1))) as [ev Hev]; [lia|].
  destruct (h_env _ _ _ Hh _ _ Hev) as (ss & now & He).
  assert (Hjs : off + Z.to_nat (js - off - 1) + 1 = js) by lia. rewrite Hjs in He.
  exists (Z.to_nat (js - off - 1)), ev, ss, now. split; [lia|]. split; [done|]. congruence.
Qed.

Lemma holds_ids off db log eid :
  holds off db log → eid ∈ bench_ids (bench_envelope db) ↔ eid ∈ bench_event_ids log.
Proof.
  intros Hh. unfold bench_ids, bench_event_ids. rewrite !list_elem_of_fmap. split.
  - intros ([js row] & -> & Hin%elem_of_map_to_list).
    destruct (holds_row _ _ _ _ _ Hh Hin) as (i & ev & ss & now & _ & Hev & ->).
    exists ev. split; [done|by eapply list_elem_of_lookup_2].
  - intros (ev & -> & [i Hi]%list_elem_of_lookup).
    destruct (h_env _ _ _ Hh _ _ Hi) as (ss & now & He).
    eexists (_, _). split; [|by apply elem_of_map_to_list]. done.
Qed.

Lemma holds_next db log :
  holds 0 db log → length log < i64_max →
  next_bench_sequence (bench_envelope db) = Ok (length log + 1).
Proof.
  intros Hh Hlen. unfold next_bench_sequence. rewrite (max_bench_sequence_spec _ (length log)).
  - by rewrite (proj2 (Z.ltb_lt _ _) Hlen).
  - lia.
  - intros k. rewrite (h_env_dom _ _ _ Hh), elem_of_list_to_set, elem_of_seqZ. lia.
  - rewrite (h_env_dom _ _ _ Hh), elem_of_list_to_set, elem_of_seqZ.
    destruct log; [left|right]; simpl in *; [done|lia].
Qed.

(** Appending one event. *)
Lemma holds_snoc off db log ev ss now heads :
  holds off db log → se_event_id ev ∉ bench_event_ids log →
  let js := off + length log + 1 in
  holds off
    (mkBenchDb (<[js := bench_row ev ss (bench_envelope_checksum ev js ss) now]> (bench_envelope db))
       (<[se_event_id ev := (se_payload ev, se_payload_digest ev)]> (bench_payload db))
       (<[se_event_id ev := bench_life js now]> (bench_lifecycle db)) heads)
    (log ++ [ev]).
Proof.
  intros Hh Hnew js. pose proof (h_nodup _ _ _ Hh) as Hnd.
  assert (Hids : bench_event_ids (log ++ [ev]) = bench_event_ids log ++ [se_event_id ev])
    by (unfold bench_event_ids; by rewrite fmap_app).
  assert (Hother : ∀ e, e ∈ log → se_event_id e ≠ se_event_id ev).
  { intros e He Heq. apply Hnew. rewrite <- Heq. by apply list_elem_of_fmap_2. }
  constructor; simpl; rewrite ?Hids.
  - apply NoDup_app. split; [done|]. split; [|apply NoDup_singleton]. set_solver.
  - intros i e [Hi|[-> <-]]%lookup_snoc_Some.
    + destruct Hi as [Hlt Hi]. destruct (h_env _ _ _ Hh _ _ Hi) as (s & n & He).
      rewrite lookup_insert_ne by lia. eauto.
    + exists ss, now. by rewrite lookup_insert_eq.
  - rewrite dom_insert_L, (h_env_dom _ _ _ Hh), length_app. simpl.
    apply set_eq. intros x. rewrite elem_of_union, elem_of_singleton, !elem_of_list_to_set, !elem_of_seqZ.
    lia.
  - intros e [He| ->%list_elem_of_singleton]%elem_of_app; [|by rewrite lookup_insert_eq].
    rewrite lookup_insert_ne by (apply not_eq_sym; auto). by apply Hh.
  - rewrite dom_insert_L, (h_payload_dom _ _ _ Hh). set_solver.
  - intros i e [Hi|[-> <-]]%lookup_snoc_Some.
    + destruct Hi as [Hlt Hi]. rewrite lookup_insert_ne; [by apply Hh|].
      apply not_eq_sym, Hother. by eapply list_elem_of_lookup_2.
    + exists now. by rewrite lookup_insert_eq.
  - rewrite dom_insert_L, (h_life_dom _ _ _ Hh). set_solver.
Qed.

(** The number of events of a stream. *)
Definition bench_stream_count (stream : string) (log : list SyntheticEvent) : Z :=
  length (filter (λ ev, se_logical_stream ev = stream) log).

Lemma bench_stream_count_snoc stream log ev :
  bench_stream_count stream (log ++ [ev]) =
  bench_stream_count stream log + (if decide (se_logical_stream ev = stream) then 1 else 0).
Proof.
  unfold bench_stream_count. rewrite filter_app, length_app. rewrite filter_cons.
  destruct (decide _); simpl; lia.
Qed.

Lemma bench_stream_count_le stream log : 0 ≤ bench_stream_count stream log ≤ length log.
Proof. unfold bench_stream_count. pose proof (length_filter (λ ev, se_logical_stream ev = stream) log). lia. Qed.

(** The stream heads and the stream sequences of the rows count the events of
    each stream. *)
Record ranked (off : Z) (db : BenchDb) (log : list SyntheticEvent) : Prop := {
  rk_heads : ∀ s, default 0 (bench_stream_head db !! s) = bench_stream_count s log;
  rk_rows : ∀ (i : nat) ev row, log !! i = Some ev → bench_envelope db !! (off + i + 1) = Some row →
    be_stream_sequence row = bench_stream_count (se_logical_stream ev) (take (S i) log)
}.

(** The store after an event is written. *)
Definition append_event (js ss : Z) (ev : SyntheticEvent) (now : Z) (db : BenchDb) : BenchDb :=
  mkBenchDb
    (<[js := bench_row ev ss (bench_envelope_checksum ev js ss) now]> (bench_envelope db))
    (<[se_event_id ev := (se_payload ev, se_payload_digest ev)]> (bench_payload db))
    (<[se_event_id ev := bench_life js now]> (bench_lifecycle db))
    (<[se_logical_stream ev := ss]> (bench_stream_head db)).

Lemma ranked_snoc off db log ev now :
  ranked off db log → dom (bench_envelope db) = list_to_set (seqZ (off + 1) (length log)) →
  length log < i64_max →
  let ss := i64_add (default 0 (bench_stream_head db !! se_logical_stream ev)) 1 in
  ranked off (append_event (off + length log + 1) ss ev now db) (log ++ [ev]).
Proof.
  intros [Hh Hr] Hdom Hlen ss. assert (Hss : ss = bench_stream_count (se_logical_stream ev) (log ++ [ev])).
  { unfold ss. rewrite Hh, bench_stream_count_snoc, decide_True by done.
    pose proof (bench_stream_count_le (se_logical_stream ev) log). apply i64_add_id; rlia. }
  constructor; simpl.
  - intros s. destruct (decide (se_logical_stream ev = s)) as [<-|Hne].
    + by rewrite lookup_insert_eq.
    + rewrite lookup_insert_ne, Hh, bench_stream_count_snoc, decide_False by done. lia.
  - intros i e row [[Hlt Hi]|[-> <-]]%lookup_snoc_Some.
    + rewrite lookup_insert_ne by lia. intros Hrow. rewrite (Hr _ _ _ Hi Hrow).
      by rewrite take_app_le by lia.
    + rewrite lookup_insert_eq. intros [= <-]. simpl. rewrite take_ge; [done|].
      rewrite length_app. simpl. lia.
Qed.

(** ** What a transaction leaves *)
Context `{E : Engine}.

(** A store with its log; the stream sequences are right unless a query
    failed. *)
Definition store_ok (off : Z) (db : BenchDb) (log : list SyntheticEvent) : Prop :=
  holds off db log ∧ (¬ faulty E → ranked off db log).

Lemma store_ok_empty off : store_ok off empty_bench [].
Proof. split; [apply holds_empty|]. by constructor. Qed.

Lemma store_ok_snoc off db log ev ss now :
  store_ok off db log → se_event_id ev ∉ bench_event_ids log → length log < i64_max →
  (¬ faulty E → ss = i64_add (default 0 (bench_stream_head db !! se_logical_stream ev)) 1) →
  store_ok off (append_event (off + length log + 1) ss ev now db) (log ++ [ev]).
Proof.
  intros [Hh Hr] Hnew Hlen Hss. split; [by apply holds_snoc|]. intros Hf. rewrite (Hss Hf).
  apply ranked_snoc; [auto|apply Hh|done].
Qed.

Lemma swp_allocate stream (Q : Z → BenchDb → Prop) R db pc :
  (faulty E → R db) →
  (∀ ss, (¬ faulty E → ss = i64_add (default 0 (bench_stream_head db !! stream)) 1) →
     Q ss (mkBenchDb (bench_envelope db) (bench_payload db) (bench_lifecycle db)
             (<[stream := ss]> (bench_stream_head db)))) →
  swp (bench_allocate_stream_sequence stream) Q R (db, pc).
Proof.
  intros Hf Hok. unfold bench_allocate_stream_sequence.
  apply swp_bind, swp_statement; [intros e He pc1|intros pc1];
    apply swp_bind, swp_statement; [intros e2 He2 pc2|intros pc2|intros e2 He2 pc2|intros pc2]; simpl;
    try (by apply Hf); apply swp_ret, Hok; [done|].
  intros _. by destruct (bench_stream_head db !! stream).
Qed.

(** Writing one event appends it, unless its identifier is taken or the engine
    fails; only the engine makes it panic. *)
Lemma swp_write_event_at off db log ev now (Q : result WriteResult string → BenchDb → Prop)
    (R : BenchDb → Prop) pc :
  holds off db log → (faulty E → ∀ db', R db') →
  (∀ e db', faulty E ∨ se_event_id ev ∈ bench_event_ids log → Q (Err e) db') →
  (∀ ss, se_event_id ev ∉ bench_event_ids log →
     (¬ faulty E → ss = i64_add (default 0 (bench_stream_head db !! se_logical_stream ev)) 1) →
     let js := off + length log + 1 in
     Q (Ok (mkWrite js ss (bench_envelope_checksum ev js ss))) (append_event js ss ev now db)) →
  swp (write_event_at (off + length log + 1) ev now) Q R (db, pc).
Proof.
  intros Hh Hf He Hok. unfold write_event_at. apply swp_bind, swp_allocate; [intros ?; by apply Hf|].
  intros ss Hss pc1. set (js := off + length log + 1) in *.
  assert (Hjs : bench_envelope db !! js = None).
  { apply not_elem_of_dom. rewrite (h_env_dom _ _ _ Hh), elem_of_list_to_set, elem_of_seqZ. unfold js. lia. }
  assert (Hfail : ∀ e db', faulty E → ∀ pc', swp (mret (Err e)) Q R (db', pc')).
  { intros e db' Hfa pc'. apply swp_ret, He. by left. }
  unfold write_three_rows. apply swp_bind, swp_bind, swp_statement; [intros; apply swp_ret; auto|].
  unfold insert_bench_envelope; simpl. rewrite decide_False by (rewrite Hjs; by intros []).
  destruct (decide _) as [Hin|Hnew]; rewrite (holds_ids _ _ _ _ Hh) in *; intros pc2.
  { apply swp_ret. intros pc3. apply swp_ret, He. by right. }
  apply swp_bind, swp_statement; [intros; apply swp_ret; auto|].
  unfold insert_bench_payload, insert_new; simpl.
  rewrite (not_elem_of_dom_1 (bench_payload db)) by
    (by rewrite (h_payload_dom _ _ _ Hh), elem_of_list_to_set).
  simpl. intros pc3. apply swp_bind, swp_statement; [intros; apply swp_ret; auto|].
  unfold insert_bench_lifecycle, insert_new; simpl.
  rewrite (not_elem_of_dom_1 (bench_lifecycle db)) by
    (by rewrite (h_life_dom _ _ _ Hh), elem_of_list_to_set).
  simpl. intros pc4. apply swp_ret. intros pc5. by apply swp_ret, Hok.
Qed.
End Log.
