(* ===== verification/BenchSafety.v ===== *)
(** * What the storage candidates guarantee

    An abstract log, to which [write_batch] appends the events it answers with
    [Ok] in their order; both candidates refine it.  The segmented one keeps its
    segments within the rollover limit, every closed one exactly full; the loops
    end, except at a rollover limit of zero. *)
From S2P Require Import Prelude Checksum JournalDb SqlLogic BenchEvents BenchStore BenchBatches.
Open Scope Z_scope.
#[local] Coercion Z.of_nat : nat >-> Z.

(** ** The abstract log *)
Section Abstract.
Context `{Sha256}.

(** The events answered with [Ok] and the journal sequences in the answers. *)
Definition written (events : list SyntheticEvent) (results : list (result WriteResult string))
  : list SyntheticEvent :=
  (filter (λ p, is_ok p.2 = true) (zip events results)).*1.

Definition sequences (results : list (result WriteResult string)) : list Z :=
  omap (λ r, match r with Ok wr => Some (wr_journal_sequence wr) | Err _ => None end) results.

Definition sealed (ev : SyntheticEvent) (r : result WriteResult string) : Prop :=
  match r with
  | Ok wr => wr_envelope_checksum wr =
             bench_envelope_checksum ev (wr_journal_sequence wr) (wr_stream_sequence wr)
  | Err _ => True
  end.

(** One answer per event; the events answered with [Ok], and no others, are
    appended under the next journal sequences. *)
Record appended (log events : list SyntheticEvent) (results : list (result WriteResult string))
    (log' : list SyntheticEvent) : Prop := {
  ap_sealed : Forall2 sealed events results;
  ap_log : log' = log ++ written events results;
  ap_sequences : sequences results = seqZ (length log + 1) (length (written events results))
}.

Lemma written_app l1 r1 l2 r2 :
  length l1 = length r1 → written (l1 ++ l2) (r1 ++ r2) = written l1 r1 ++ written l2 r2.
Proof. intros Hl. unfold written. by rewrite zip_with_app, filter_app, fmap_app by done. Qed.

Lemma written_sublist events results : written events results `sublist_of` events.
Proof.
  unfold written. revert results. induction events as [|e events IH]; intros [|r results];
    [apply sublist_nil_l..|]. cbn [zip_with]. rewrite filter_cons. destruct (decide _); simpl; by constructor.
Qed.

Lemma appended_nil log : appended log [] [] log.
Proof. split; [by apply Forall2_nil|symmetry; apply app_nil_r|done]. Qed.

Lemma appended_app log l1 r1 log1 l2 r2 log2 :
  appended log l1 r1 log1 → appended log1 l2 r2 log2 → appended log (l1 ++ l2) (r1 ++ r2) log2.
Proof.
  intros [Hs1 -> Hq1] [Hs2 -> Hq2]. pose proof (Forall2_length _ _ _ Hs1) as Hlen.
  constructor; [by apply Forall2_app|..]; rewrite written_app by done.
  - by rewrite (assoc_L (++)).
  - unfold sequences in *. rewrite omap_app, Hq1, Hq2, !length_app, !Nat2Z.inj_add, seqZ_app by lia.
    f_equal. f_equal. lia.
Qed.

(** A batch written as a whole. *)
Fixpoint wrote (n : Z) (batch : list SyntheticEvent) (wrs : list WriteResult) : Prop :=
  match batch, wrs with
  | [], [] => True
  | ev :: batch, wr :: wrs =>
      wr_journal_sequence wr = n + 1 ∧ sealed ev (Ok wr) ∧ wrote (n + 1) batch wrs
  | _, _ => False
  end.

Lemma written_ok batch wrs : length wrs = length batch → written batch (Ok <$> wrs) = batch.
Proof.
  revert wrs. unfold written. induction batch as [|e batch IH]; intros [|wr wrs]; try done.
  intros [= Hl]. cbn [zip_with fmap list_fmap]. rewrite filter_cons_True by done. cbn [fmap list_fmap fst].
  by rewrite IH.
Qed.

Lemma wrote_facts n batch wrs :
  wrote n batch wrs → length wrs = length batch ∧ Forall2 sealed batch (Ok <$> wrs) ∧
  sequences (Ok <$> wrs) = seqZ (n + 1) (length batch).
Proof.
  revert n wrs. induction batch as [|e batch IH]; intros n [|wr wrs]; simpl; try done.
  intros (Hjs & Hse & Hw). destruct (IH _ _ Hw) as (Hl & Hf & Hq). split; [lia|].
  split; [by constructor|]. rewrite (seqZ_cons (n + 1)) by lia.
  etrans; [apply (f_equal2 cons Hjs Hq)|]. do 2 f_equal; lia.
Qed.

Lemma appended_ok log batch wrs :
  wrote (length log) batch wrs → appended log batch (Ok <$> wrs) (log ++ batch).
Proof.
  intros (Hl & Hf & Hq)%wrote_facts. constructor; [done|..]; by rewrite written_ok.
Qed.

Lemma written_failed batch prefix : written batch (rolled_back prefix <$> batch) = [].
Proof. unfold written. induction batch; [done|]. cbn [zip_with fmap list_fmap]. by rewrite filter_cons_False. Qed.

Lemma appended_failed log batch prefix : appended log batch (rolled_back prefix <$> batch) log.
Proof.
  constructor; rewrite ?written_failed.
  - apply Forall2_fmap_r, Forall_Forall2_diag, Forall_true. done.
  - by rewrite (app_nil_r log).
  - unfold sequences. induction batch; simpl; auto.
Qed.

(** ** The metrics *)
Record accounted (max_records : Z) (events : list SyntheticEvent)
    (results : list (result WriteResult string)) (m : WriteBatchMetrics) : Prop := {
  ac_written : wm_written_records m = length (written events results);
  ac_failed : wm_failed_records m = length events - length (written events results);
  ac_total : wm_total_batch_records m = wm_written_records m;
  ac_max : 0 ≤ wm_max_observed_batch_size m ≤ Z.max 1 max_records;
  ac_committed : 0 ≤ wm_committed_transactions m ≤ wm_written_records m;
  ac_batches : wm_written_records m ≤ wm_committed_transactions m * Z.max 1 max_records;
  ac_rolled_back : 0 ≤ wm_failed_transactions m ≤ wm_failed_records m
}.

Lemma accounted_nil k : accounted k [] [] no_metrics.
Proof. constructor; simpl; lia. Qed.

Lemma accounted_committed k events results m batch wrs :
  accounted k events results m → length events = length results → length wrs = length batch →
  (0 < length batch)%nat → length batch ≤ Z.max 1 k →
  accounted k (events ++ batch) (results ++ (Ok <$> wrs)) (account_committed (length batch) m).
Proof.
  intros [] Hl Hw Hne Hk. constructor; simpl; rewrite ?written_app, ?written_ok, ?length_app by done; lia.
Qed.

Lemma accounted_failed k events results m batch prefix :
  accounted k events results m → length events = length results → (0 < length batch)%nat →
  accounted k (events ++ batch) (results ++ (rolled_back prefix <$> batch))
    (account_failed (length batch) m).
Proof.
  intros [] Hl Hne. constructor; simpl;
    rewrite ?written_app, ?written_failed, ?length_app by done; simpl; lia.
Qed.
End Abstract.

(** ** Writing a batch *)
Section Writing.
Context `{Sha256} `{E : Engine}.

(** What is left of a batch that was not written. *)
Definition refused (log batch : list SyntheticEvent) : Prop :=
  faulty E ∨ ¬ NoDup (bench_event_ids (log ++ batch)).

Lemma refused_in log ev batch : se_event_id ev ∈ bench_event_ids log → refused log (ev :: batch).
Proof.
  intros Hin. right. unfold bench_event_ids in *. rewrite fmap_app, NoDup_app. intros (_ & Hd & _).
  apply (Hd _ Hin). by left.
Qed.

Lemma refused_cons log ev batch : refused (log ++ [ev]) batch → refused log (ev :: batch).
Proof. unfold refused. by rewrite <- (assoc_L (++)). Qed.

(** One step of the loops over a batch. *)
Lemma wrote_cons off log ev batch ss wrs db' :
  let js := off + length log + 1 in
  wrote js batch wrs →
  store_ok off db' ((log ++ [ev]) ++ batch) →
  wrote (off + length log) (ev :: batch)
    (mkWrite js ss (bench_envelope_checksum ev js ss) :: wrs) ∧ store_ok off db' (log ++ ev :: batch).
Proof. intros js Hw Hs. rewrite <- (assoc_L (++)) in Hs. done. Qed.

Lemma swp_write_events batch now db log acc pc :
  store_ok 0 db log → length log + length batch ≤ i64_max →
  swp (write_events batch now acc)
    (λ r db', if r.1 : bool then ∃ wrs, r.2 = acc ++ (Ok <$> wrs) ∧ wrote (length log) batch wrs ∧
                                store_ok 0 db' (log ++ batch)
              else refused log batch)
    (λ _, faulty E) (db, pc).
Proof.
  revert db log acc pc. induction batch as [|ev batch IH]; intros db log acc pc Hs Hlen; simpl.
  { apply swp_ret. simpl. exists []. by rewrite !app_nil_r. }
  simpl in Hlen. apply swp_bind. unfold write_event_in_tx.
  apply swp_bind, swp_statement; [intros e He pc1; apply swp_ret; intros; apply swp_ret; by left|].
  rewrite (holds_next db log (proj1 Hs)) by lia. simpl. intros pc1.
  apply (swp_write_event_at 0 db log); [apply Hs|done|..].
  - intros e db' Hr pc2. apply swp_ret. simpl. destruct Hr; [by left|by apply refused_in].
  - intros ss Hnew Hss js pc2. eapply swp_mono; [apply (IH _ (log ++ [ev]))|..]; [..|done].
    + apply store_ok_snoc; auto; lia.
    + rewrite length_app. simpl. lia.
    + intros [[] r] db' Hr; simpl in *; [|by apply refused_cons].
      destruct Hr as (wrs & -> & Hw & Hs'). eexists (_ :: wrs). split; [by rewrite <- (assoc_L (++))|].
      apply (wrote_cons 0 log ev batch ss); [|done].
      rewrite length_app, Nat2Z.inj_add in Hw. done.
Qed.

(** ** The loops over the batches *)

Lemma take_slice {A} (l : list A) i e : (i ≤ e)%nat → take e l = take i l ++ slice l i e.
Proof.
  intros Hle. unfold slice. rewrite <- (take_drop i (take e l)) at 1.
  rewrite take_take, Nat.min_l by done. f_equal. by rewrite skipn_firstn_comm.
Qed.

Lemma length_slice {A} (l : list A) i e :
  (i ≤ e)%nat → (e ≤ length l)%nat → length (slice l i e) = (e - i)%nat.
Proof. intros Hi He. unfold slice. rewrite length_take, length_drop. lia. Qed.

(** The first [i] events are answered and [log1] holds what was appended. *)
Record progress (k : Z) (log events : list SyntheticEvent) (i : nat) (acc : BatchResult)
    (log1 : list SyntheticEvent) : Prop := {
  pg_appended : appended log (take i events) acc.1 log1;
  pg_accounted : accounted k (take i events) acc.1 acc.2;
  pg_all : ¬ faulty E → NoDup (bench_event_ids (log ++ events)) → log1 = log ++ take i events
}.

Lemma progress_start k log events : progress k log events 0 ([], no_metrics) log.
Proof. split; [apply appended_nil|apply accounted_nil|intros _ _; symmetry; apply app_nil_r]. Qed.

Lemma progress_answered k log events i acc log1 :
  progress k log events i acc log1 → length (take i events) = length acc.1.
Proof. intros []. by eapply Forall2_length, ap_sealed. Qed.

Lemma progress_length k log events i acc log1 :
  progress k log events i acc log1 → (i ≤ length events)%nat → (length log1 ≤ length log + i)%nat.
Proof.
  intros [Ha _ _] Hi. rewrite (ap_log _ _ _ _ Ha), length_app.
  pose proof (sublist_length _ _ (written_sublist (take i events) acc.1)) as Hl.
  rewrite length_take in Hl. lia.
Qed.

Lemma progress_committed k log events i acc log1 e wrs :
  progress k log events i acc log1 → (i < e ≤ length events)%nat →
  length (slice events i e) ≤ Z.max 1 k → wrote (length log1) (slice events i e) wrs →
  progress k log events e
    (acc.1 ++ (Ok <$> wrs), account_committed (length (slice events i e)) acc.2)
    (log1 ++ slice events i e).
Proof.
  intros Hp He Hk Hw. pose proof (progress_answered _ _ _ _ _ _ Hp) as Hans.
  destruct (wrote_facts _ _ _ Hw) as (Hl & _). pose proof Hp as [Ha Hc Hall].
  split; simpl; rewrite (take_slice events i e) by lia.
  - eapply appended_app; [done|]. by apply appended_ok.
  - apply accounted_committed; try done. rewrite length_slice by lia. lia.
  - intros Hf Hnd. by rewrite (Hall Hf Hnd), (assoc_L (++)).
Qed.

Lemma progress_failed k log events i acc log1 e prefix :
  progress k log events i acc log1 → (i < e ≤ length events)%nat →
  refused log1 (slice events i e) →
  progress k log events e
    (acc.1 ++ (rolled_back prefix <$> slice events i e), account_failed (length (slice events i e)) acc.2)
    log1.
Proof.
  intros Hp He Hr. pose proof (progress_answered _ _ _ _ _ _ Hp) as Hans.
  pose proof Hp as [Ha Hc Hall]. split; simpl; rewrite (take_slice events i e) by lia.
  - eapply appended_app; [done|]. apply appended_failed.
  - apply accounted_failed; try done. rewrite length_slice by lia. lia.
  - intros Hf Hnd. destruct Hr as [Hr|Hr]; [done|]. exfalso. apply Hr.
    rewrite (Hall Hf Hnd), <- (assoc_L (++)), <- take_slice by lia.
    eapply sublist_NoDup; [exact Hnd|]. apply fmap_sublist, sublist_app; [done|apply sublist_take].
Qed.

(** ** The ranges of the configuration *)

(** The [u32] fields are in their range. *)
Record config_typed (config : CandidateConfig) : Prop := {
  ct_records : 0 ≤ cc_max_records_per_tx config ≤ u32_max;
  ct_rollover : ∀ limit, cc_segment_rollover_records config = Some limit → 0 ≤ limit ≤ u32_max
}.

(** The size of a batch is a [u32] then. *)
Lemma typed_batch config (batch : list SyntheticEvent) :
  config_typed config → length batch ≤ Z.max 1 (cc_max_records_per_tx config) →
  u32 (length batch) = length batch.
Proof. intros [[_ Hk] _] Hb. apply u32_id. unfold u32_max in *. lia. Qed.

(** ** One database *)

(** The loop of [write_batch] ends when it has a round per event. *)
Lemma swp_mono_loop fuel config now events log i acc log1 db pc :
  let k := cc_max_records_per_tx config in
  config_typed config →
  progress k log events i acc log1 → store_ok 0 db log1 → (i ≤ length events)%nat →
  (length events ≤ fuel + i)%nat → length log + length events ≤ i64_max →
  swp (mono_loop fuel config now events i acc)
    (λ r db', ∃ log', progress k log events (length events) r log' ∧ store_ok 0 db' log')
    (λ db', faulty E ∧ ∃ j acc' log', (j ≤ length events)%nat ∧
              progress k log events j acc' log' ∧ store_ok 0 db' log') (db, pc).
Proof.
  intros k Hty. revert i acc log1 db pc. induction fuel as [|fuel IH]; intros i acc log1 db pc Hp Hs Hi Hf Hlen;
    simpl; destruct (Nat.ltb_spec i (length events)) as [Hlt|Hge]; try lia.
  1,3: apply swp_ret; exists log1; replace (length events) with i by lia; done.
  destruct (next_batch_end_spec events i k (cc_max_bytes_per_tx config) (length events))
    as (He & [Hfit _] & _); [done..|]. fold k.
  set (e := next_batch_end events i k (cc_max_bytes_per_tx config) (length events)) in *.
  pose proof (progress_length _ _ _ _ _ _ Hp Hi) as Hlog1.
  apply swp_bind, swp_transaction; [intros Hfa; split; [done|]; by exists i, acc, log1|].
  eapply swp_mono; [apply (swp_write_events _ _ _ log1); [done|]|..].
  - rewrite length_slice by lia. lia.
  - intros [[] r] db' Hr pc'; simpl in Hr |- *.
    + destruct Hr as (wrs & -> & Hw & Hs'). rewrite length_fmap.
      rewrite (proj1 (wrote_facts _ _ _ Hw)), (typed_batch config) by done.
      eapply IH; [by apply progress_committed|done|lia..].
    + eapply IH; [by apply progress_failed|done|lia..].
  - intros ? Hfa. split; [done|]. by exists i, acc, log1.
Qed.

(** ** The contract of a candidate *)

(** What [write_batch] does to a store that represents [log], with [has] for
    the stores after it: it ends; an answer for each event tells which are
    appended; without a fault of the engine, distinct events all are; after a
    panic the log has grown by events of a prefix. *)
Definition batch_spec {C} (k : Z) (has : C → list SyntheticEvent → Prop)
    (log events : list SyntheticEvent) (r : outcome BatchResult * C) : Prop :=
  match r with
  | (Done (results, m), c') => ∃ log', has c' log' ∧ appended log events results log' ∧
      accounted k events results m ∧
      (¬ faulty E → NoDup (bench_event_ids (log ++ events)) → log' = log ++ events)
  | (Panicked, c') => faulty E ∧ ∃ j results log', has c' log' ∧
      appended log (take j events) results log'
  | (OutOfFuel, _) => False
  end.

Lemma batch_spec_intro {S C} (k : Z) (has : C → list SyntheticEvent → Prop) log events
    (m : Store S BatchResult) (f : S → C) s pc :
  swp m (λ r s', ∃ log', progress k log events (length events) r log' ∧ has (f s') log')
    (λ s', faulty E ∧ ∃ j acc' log', (j ≤ length events)%nat ∧
              progress k log events j acc' log' ∧ has (f s') log') (s, pc) →
  batch_spec k has log events (let '(r, (s', _)) := m (s, pc) in (r, f s')).
Proof.
  unfold swp, batch_spec. destruct (m (s, pc)) as [[[results me]| |] [s' pc']]; simpl; [..|done].
  - intros (log' & [Ha Hc Hall] & Hs). rewrite !firstn_all in *. by exists log'.
  - intros (Hf & j & acc & log' & _ & [Ha _ _] & Hs). split; [done|]. by exists j, acc.1, log'.
Qed.

Lemma mono_batch fuel now events c log :
  config_typed (mc_config c) →
  store_ok 0 (mc_conn c) log → length log + length events ≤ i64_max → (length events ≤ fuel)%nat →
  batch_spec (cc_max_records_per_tx (mc_config c))
    (λ c' log', mc_config c' = mc_config c ∧ store_ok 0 (mc_conn c') log') log events
    (mono_write_batch fuel now events c).
Proof.
  intros Hty Hs Hlen Hf. apply (batch_spec_intro _ _ _ _ _ (λ db, mkMono db (mc_config c))).
  eapply swp_mono; [eapply swp_mono_loop; [done|apply progress_start|done|lia..]|..]; simpl.
  - intros r db' (log' & ? & ?). by exists log'.
  - intros db' (? & j & acc & log' & ? & ? & ?). split; [done|]. by exists j, acc, log'.
Qed.
End Writing.
