(* ===== verification/BenchSegments.v ===== *)
(** * The segmented candidate

    Its segments hold consecutive parts of the log, each in its own database;
    the invariant ties the infos, the files and the counters to them. *)
From S2P Require Import Prelude Checksum JournalDb SqlLogic BenchEvents BenchStore BenchBatches BenchSafety.
Open Scope Z_scope.
#[local] Coercion Z.of_nat : nat >-> Z.

Section Segments.
Context `{Sha256} `{E : Engine}.
Implicit Types (c : SegmentedCandidate) (front : list (list SyntheticEvent))
  (cur batch : list SyntheticEvent).

(** ** The invariant *)

(** The infos of segments that follow a log of length [off]. *)
Fixpoint infos (off : Z) (segs : list (list SyntheticEvent)) : list SegmentInfo :=
  match segs with
  | [] => []
  | sg :: segs => mkSegment (u32 (length sg)) (off + 1) (off + length sg) :: infos (off + length sg) segs
  end.

Lemma infos_app off segs segs' :
  infos off (segs ++ segs') = infos off segs ++ infos (off + length (concat segs)) segs'.
Proof.
  revert off. induction segs as [|sg segs IH]; intros off; simpl; [by rewrite Z.add_0_r|].
  rewrite IH, length_app. do 3 f_equal. lia.
Qed.

Lemma length_infos off segs : length (infos off segs) = length segs.
Proof. revert off. induction segs; intros; simpl; auto. Qed.

(** [front] holds the closed segments, [cur] the active one. *)
Record seg_ok c front cur : Prop := {
  so_segments : sc_segments c = infos 0 (front ++ [cur]);
  so_active : sc_active c = Some (length front);
  so_global : sc_global_journal_seq c = length (concat (front ++ [cur]));
  so_records : sc_records_in_active c = u32 (length cur);
  so_files : ∀ k sg, (front ++ [cur]) !! k = Some sg →
    ∃ db, sc_files c !! k = Some db ∧ store_ok (length (concat (take k front))) db sg;
  so_clean : ∀ k, (length front < k)%nat → sc_files c !! k = None;
  so_limit : match cc_segment_rollover_records (sc_config c) with
             | Some limit => length cur ≤ limit ∧
                             Forall (λ sg : list SyntheticEvent, Z.of_nat (length sg) = limit) front
             | None => front = []
             end
}.

Definition set_file (k : nat) (db : BenchDb) c : SegmentedCandidate :=
  mkSeg (<[k := db]> (sc_files c)) (sc_config c) (sc_segments c) (sc_active c)
    (sc_global_journal_seq c) (sc_records_in_active c).

(** The active segment written to, with the counters that go with it. *)
Lemma seg_ok_write c front cur db cur' segments (global : Z) :
  seg_ok c front cur → store_ok (length (concat front)) db cur' →
  segments = infos 0 (front ++ [cur']) → global = length (concat (front ++ [cur'])) →
  match cc_segment_rollover_records (sc_config c) with
  | Some limit => length cur' ≤ limit
  | None => True
  end →
  seg_ok (mkSeg (<[length front := db]> (sc_files c)) (sc_config c) segments (sc_active c) global
            (u32 (length cur'))) front cur'.
Proof.
  intros [] Hdb -> -> Hlim. split; simpl; try done.
  - intros k sg [[Hlt Hk]|[-> <-]]%lookup_snoc_Some.
    + rewrite lookup_insert_ne by lia. apply so_files0. by rewrite lookup_app_l.
    + exists db. rewrite lookup_insert_eq. by rewrite firstn_all.
  - intros k Hk. rewrite lookup_insert_ne by lia. auto.
  - destruct (cc_segment_rollover_records _); [|done]. naive_solver.
Qed.

Lemma seg_ok_db c front cur :
  seg_ok c front cur →
  store_ok (length (concat front)) (default empty_bench (sc_files c !! length front)) cur.
Proof.
  intros Hc. destruct (so_files _ _ _ Hc (length front) cur) as (db & -> & Hdb).
  - by rewrite lookup_app_r, Nat.sub_diag by done.
  - by rewrite firstn_all in Hdb.
Qed.

(** Rolled back or committed, the active file holds the log it should. *)
Lemma seg_ok_rollback c front cur :
  seg_ok c front cur →
  seg_ok (set_file (length front) (default empty_bench (sc_files c !! length front)) c) front cur.
Proof.
  intros Hc. pose proof (so_records _ _ _ Hc) as Hr. unfold set_file. rewrite Hr.
  eapply seg_ok_write; [done|by apply seg_ok_db|apply Hc|apply Hc|].
  pose proof (so_limit _ _ _ Hc). destruct (cc_segment_rollover_records _); naive_solver.
Qed.

Lemma seg_ok_commit c front cur db batch :
  seg_ok c front cur → store_ok (length (concat front)) db (cur ++ batch) →
  match cc_segment_rollover_records (sc_config c) with
  | Some limit => length (cur ++ batch) ≤ limit
  | None => True
  end →
  seg_ok (commit_segment (u32 (length batch)) (length (concat (front ++ [cur])) + length batch)
            (set_file (length front) db c)) front (cur ++ batch).
Proof.
  intros Hc Hdb Hlim. unfold commit_segment. simpl. rewrite (so_records _ _ _ Hc).
  assert (Hu : u32_add (u32 (length cur)) (u32 (length batch)) = u32 (length (cur ++ batch))).
  { rewrite u32_add_l. fold (u32_add (length cur) (u32 (length batch))). rewrite u32_add_r, length_app.
    f_equal. lia. }
  rewrite Hu. eapply seg_ok_write; try done.
  - rewrite (so_segments _ _ _ Hc). unfold count_in_last. rewrite !infos_app. simpl.
    rewrite last_snoc, length_app. simpl. rewrite Nat.add_comm. simpl. rewrite take_app_length.
    do 2 f_equal. rewrite Hu, concat_app, !length_app. simpl. rewrite !length_app. simpl. f_equal; lia.
  - rewrite !concat_app, !length_app. simpl. rewrite !length_app. simpl. lia.
Qed.

(** A rollover closes the active segment and opens an empty one. *)
Lemma seg_ok_push c front cur :
  seg_ok c front cur → config_typed (sc_config c) → needs_rollover c = true →
  length (concat (front ++ [cur])) < i64_max → seg_ok (push_segment c) (front ++ [cur]) [].
Proof.
  intros Hc Hty Hn Hmax. unfold needs_rollover in Hn. pose proof Hc as [].
  assert (Hlen : length (sc_segments c) = length (front ++ [cur])).
  { by rewrite so_segments0, length_infos. }
  assert (Hcl : sc_files c !! length (front ++ [cur]) = None).
  { apply so_clean0. rewrite length_app. simpl. lia. }
  assert (Hnil : concat ((front ++ [cur]) ++ [[]]) = concat (front ++ [cur])).
  { rewrite (concat_app (front ++ [cur])). simpl. by rewrite !app_nil_r. }
  unfold push_segment. rewrite Hlen, Hcl. split; simpl; try done.
  - rewrite (infos_app 0 (front ++ [cur])), so_segments0, so_global0, i64_add_id by rlia. simpl. do 2 f_equal.
    f_equal; simpl; lia.
  - by rewrite Hnil.
  - intros k sg [[Hlt Hk]|[-> <-]]%lookup_snoc_Some.
    + rewrite lookup_insert_ne by lia. rewrite take_app_le by (rewrite length_app in Hlt; simpl in Hlt; lia).
      by apply so_files0.
    + exists empty_bench. rewrite lookup_insert_eq. split; [done|apply store_ok_empty].
  - intros k Hk. rewrite lookup_insert_ne by lia. apply so_clean0. rewrite length_app in Hk. simpl in Hk. lia.
  - pose proof (ct_rollover _ Hty) as Hr.
    destruct (cc_segment_rollover_records _) as [limit|]; [|done].
    destruct so_limit0 as [Hle Hall]. split; [simpl; lia|].
    apply Forall_app. split; [done|]. apply Forall_singleton. apply Z.leb_le in Hn.
    destruct (Hr limit eq_refl) as [_ Hlim]. rewrite so_records0, u32_id in Hn; lia.
Qed.

(** ** The loop *)
Lemma swp_seg_write_events batch now off db log acc pc :
  store_ok (Z.of_nat off) db log → off + length log + length batch ≤ i64_max →
  swp (seg_write_events batch now (off + length log) acc)
    (λ r db', if r.1 : bool then
       ∃ wrs, r.2 = (acc ++ (Ok <$> wrs), off + length log + length batch) ∧
         wrote (off + length log) batch wrs ∧ store_ok (Z.of_nat off) db' (log ++ batch)
     else refused log batch)
    (λ _, faulty E) (db, pc).
Proof.
  revert db log acc pc. induction batch as [|ev batch IH]; intros db log acc pc Hs Hlen; simpl.
  { apply swp_ret. simpl. exists []. by rewrite !app_nil_r, Z.add_0_r. }
  simpl in Hlen. rewrite i64_add_id by rlia. apply swp_bind.
  apply (swp_write_event_at off db log); [apply Hs|done|..].
  - intros e db' Hr pc2. apply swp_ret. simpl. destruct Hr; [by left|by apply refused_in].
  - intros ss Hnew Hss js pc2.
    assert (Hjs : off + length log + 1 = off + length (log ++ [ev])) by (rewrite length_app; simpl; lia).
    eapply swp_mono; [rewrite Hjs; apply (IH _ (log ++ [ev]))|..]; [..|done].
    + apply store_ok_snoc; auto; lia.
    + rewrite length_app. simpl. lia.
    + intros [[] r] db' Hr; simpl in *; [|by apply refused_cons].
      destruct Hr as (wrs & -> & Hw & Hs'). eexists (_ :: wrs). split.
      { rewrite <- (assoc_L (++)), length_app. simpl. f_equal. lia. }
      apply (wrote_cons off log ev batch ss); [|done].
      by rewrite <- Hjs in Hw.
Qed.

Lemma swp_on_active {A} (m : Store BenchDb A) (Q : A → SegmentedCandidate → Prop) R c k pc :
  sc_active c = Some k →
  swp m (λ a db, Q a (set_file k db c)) (λ db, R (set_file k db c))
    (default empty_bench (sc_files c !! k), pc) →
  swp (on_active m) Q R (c, pc).
Proof.
  intros Hk. unfold swp, on_active. rewrite Hk.
  destruct (m _) as [[a| |] [db pc']]; simpl; unfold set_file; by rewrite ?Hk.
Qed.

Lemma count_ok_fmap {A B} (l : list A) : count_ok (Ok <$> l : list (result A B)) = length l.
Proof.
  unfold count_ok. f_equal. induction l; [done|]. cbn [fmap list_fmap].
  rewrite filter_cons_True by done. simpl. by f_equal.
Qed.

Lemma refused_suffix log cur batch : refused cur batch → refused (log ++ cur) batch.
Proof.
  intros [Hf|Hnd]; [by left|right]. intros Hd. apply Hnd. eapply sublist_NoDup; [exact Hd|].
  apply fmap_sublist, sublist_app; [|done]. by apply sublist_inserts_l.
Qed.

Lemma concat_snoc {A} (l : list (list A)) x : concat (l ++ [x]) = concat l ++ x.
Proof. rewrite concat_app. simpl. by rewrite (app_nil_r x). Qed.

(** The limits at which the candidate rolls. *)
Definition rollover_positive (config : CandidateConfig) : Prop :=
  match cc_segment_rollover_records config with Some limit => 0 < limit | None => True end.

(** The candidate represents [log], with its configuration. *)
Definition seg_has (config : CandidateConfig) c (log : list SyntheticEvent) : Prop :=
  sc_config c = config ∧ ∃ front cur, seg_ok c front cur ∧ log = concat (front ++ [cur]).

Lemma swp_roll c front cur (Q : unit → SegmentedCandidate → Prop) (R : SegmentedCandidate → Prop) pc :
  seg_ok c front cur → config_typed (sc_config c) → rollover_positive (sc_config c) →
  length (concat (front ++ [cur])) < i64_max → (faulty E → R c) →
  (∀ c' front' cur', seg_ok c' front' cur' → sc_config c' = sc_config c →
     concat (front' ++ [cur']) = concat (front ++ [cur]) → needs_rollover c' = false → Q tt c') →
  swp (if needs_rollover c then roll_segment else mret tt) Q R (c, pc).
Proof.
  intros Hc Hty Hpos Hmax Hf HQ. destruct (needs_rollover c) eqn:Hn; [|by eapply swp_ret, HQ].
  unfold roll_segment. apply swp_bind, swp_get. intros pc1.
  apply swp_bind, swp_expect_statements; [done|]. intros pc2. apply swp_modify.
  eapply (HQ _ (front ++ [cur]) []); [by apply seg_ok_push|done|..].
  - rewrite (concat_snoc (front ++ [cur])). apply app_nil_r.
  - unfold needs_rollover, rollover_positive in *. simpl.
    destruct (cc_segment_rollover_records _); [|done]. by apply Z.leb_gt.
Qed.

(** The events that still fit in the active segment. *)
Lemma hard_end_spec c front cur (n i : nat) :
  seg_ok c front cur → config_typed (sc_config c) → needs_rollover c = false → (i < n)%nat →
  let remaining := match cc_segment_rollover_records (sc_config c) with
                   | Some limit => Z.to_nat (u32_sub limit (sc_records_in_active c))
                   | None => (n - i)%nat
                   end in
  (i < Nat.min (i + remaining) n)%nat ∧
  match cc_segment_rollover_records (sc_config c) with
  | Some limit => length cur + remaining ≤ limit
  | None => True
  end.
Proof.
  intros Hc Hty Hn Hi. unfold needs_rollover in Hn. rewrite (so_records _ _ _ Hc) in *.
  pose proof (so_limit _ _ _ Hc) as Hl. pose proof (ct_rollover _ Hty) as Hr.
  destruct (cc_segment_rollover_records _) as [limit|]; simpl; [|lia].
  destruct Hl as [Hl _], (Hr limit eq_refl) as [_ Hm]. apply Z.leb_gt in Hn.
  rewrite u32_id in * by lia. unfold u32_sub. rewrite u32_id by lia. lia.
Qed.

Lemma swp_seg_batch now events log i acc c front cur pc :
  let k := cc_max_records_per_tx (sc_config c) in
  let log1 := concat (front ++ [cur]) in
  seg_ok c front cur → config_typed (sc_config c) → needs_rollover c = false →
  progress k log events i acc log1 →
  (i < length events)%nat → length log + length events ≤ i64_max →
  swp (seg_batch now events i acc)
    (λ r c', (i < r.1 ≤ length events)%nat ∧
       ∃ log', progress k log events r.1 r.2 log' ∧ seg_has (sc_config c) c' log')
    (λ c', faulty E ∧ seg_has (sc_config c) c' log1) (c, pc).
Proof.
  intros k log1 Hc Hty Hn Hp Hi Hlen. unfold seg_batch. apply swp_bind, swp_get. intros pc1. simpl.
  destruct (hard_end_spec c front cur (length events) i Hc Hty Hn Hi) as [Hhard Hroom].
  set (hard := Nat.min _ _) in *. assert (Hhl : (hard ≤ length events)%nat) by (unfold hard; lia).
  destruct (next_batch_end_spec events i k (cc_max_bytes_per_tx (sc_config c)) hard)
    as (He & [Hfit _] & _); [done..|]. fold k.
  set (e := next_batch_end events i k (cc_max_bytes_per_tx (sc_config c)) hard) in *.
  pose proof (progress_length _ _ _ _ _ _ Hp) as Hlog1. pose proof (length_slice events i e) as Hsl.
  assert (Hl1 : length log1 = (length (concat front) + length cur)%nat)
    by (unfold log1; by rewrite concat_snoc, length_app).
  assert (Hback : seg_has (sc_config c)
    (set_file (length front) (default empty_bench (sc_files c !! length front)) c) log1).
  { split; [done|]. exists front, cur. split; [by apply seg_ok_rollback|done]. }
  apply swp_bind, (swp_on_active _ _ _ _ _ _ (so_active _ _ _ Hc)), swp_transaction; [done|].
  rewrite (so_global _ _ _ Hc). fold log1. rewrite Hl1, Nat2Z.inj_add.
  eapply swp_mono; [apply (swp_seg_write_events _ _ _ _ cur); [by apply seg_ok_db|lia]|..].
  - intros [[] r] db' Hr pc2; simpl in Hr |- *.
    + destruct Hr as (wrs & -> & Hw & Hs'). simpl. rewrite count_ok_fmap.
      rewrite (proj1 (wrote_facts _ _ _ Hw)). apply swp_bind, swp_modify. intros pc3. apply swp_ret.
      simpl. split; [lia|]. exists (log1 ++ slice events i e). split.
      { rewrite (typed_batch (sc_config c)) by done.
        apply progress_committed; try done; [lia|]. by rewrite Hl1, Nat2Z.inj_add. }
      split; [done|]. exists front, (cur ++ slice events i e). split.
      * rewrite <- Nat2Z.inj_add, <- Hl1. apply seg_ok_commit; [done..|].
        destruct (cc_segment_rollover_records _); [|done]. rewrite length_app, Hsl by lia. lia.
      * unfold log1. by rewrite !concat_snoc, (assoc_L (++)).
    + apply swp_ret. simpl. split; [lia|]. exists log1. split; [|done].
      apply progress_failed; [done|lia|]. unfold log1. rewrite concat_snoc. by apply refused_suffix.
  - done.
Qed.

(** The loop ends when it has a round per event. *)
Lemma swp_seg_loop fuel config now events log i acc log1 c pc :
  let k := cc_max_records_per_tx config in
  config_typed config → rollover_positive config →
  progress k log events i acc log1 → seg_has config c log1 → (i ≤ length events)%nat →
  (length events ≤ fuel + i)%nat → length log + length events ≤ i64_max →
  swp (seg_loop fuel now events i acc)
    (λ r c', ∃ log', progress k log events (length events) r log' ∧ seg_has config c' log')
    (λ c', faulty E ∧ ∃ j acc' log', (j ≤ length events)%nat ∧
              progress k log events j acc' log' ∧ seg_has config c' log') (c, pc).
Proof.
  intros k Hty Hpos. revert i acc log1 c pc. induction fuel as [|fuel IH];
    intros i acc log1 c pc Hp Hs Hi Hf Hlen; simpl;
    destruct (Nat.ltb_spec i (length events)) as [Hlt|Hge]; try lia.
  1,3: apply swp_ret; exists log1; replace (length events) with i by lia; done.
  apply swp_bind, swp_get. intros pc1. destruct Hs as (<- & front & cur & Hc & ->).
  pose proof (progress_length _ _ _ _ _ _ Hp Hi) as Hlog1.
  apply swp_bind. eapply swp_roll; [done|done|done|simpl; lia|..].
  { intros Hfa. split; [done|]. exists i, acc, (concat (front ++ [cur])). split_and!; try done.
    split; [done|]. by exists front, cur. }
  intros c' front' cur' Hc' Hcfg Hlog Hn pc2. rewrite <- Hlog in Hp.
  simpl in Hcfg. unfold k in *. clear k. revert Hty Hpos IH Hp. rewrite <- Hcfg. intros Hty Hpos IH Hp.
  apply swp_bind.
  eapply swp_mono; [by eapply swp_seg_batch|..].
  - intros r c2 (Hr & log' & Hp' & Hs') pc3. eapply IH; [done..|lia|lia|done].
  - intros c2 [Hfa Hs']. split; [done|]. by exists i, acc, (concat (front' ++ [cur'])).
Qed.

Lemma seg_batch_write fuel now events c log :
  config_typed (sc_config c) → rollover_positive (sc_config c) →
  seg_has (sc_config c) c log → length log + length events ≤ i64_max →
  (length events ≤ fuel)%nat →
  batch_spec (cc_max_records_per_tx (sc_config c)) (seg_has (sc_config c)) log events
    (seg_write_batch fuel now events c).
Proof.
  intros Hty Hpos Hs Hlen Hf. apply (batch_spec_intro _ _ _ _ _ id).
  eapply swp_seg_loop; [done|done|apply progress_start|done|lia..].
Qed.
End Segments.
