(* ===== verification/BenchContract.v ===== *)
(** * The contract of the storage candidates and its theorems

    The interface the benchmark uses a candidate through, with the monolithic
    and the segmented candidate and the runner as instances; the equivalence of
    the two candidates; the rollover limit at which the loop does not end. *)
From S2P Require Import Prelude Checksum JournalDb SqlLogic BenchEvents BenchStore BenchBatches BenchSafety BenchSegments.
Open Scope Z_scope.
#[local] Coercion Z.of_nat : nat >-> Z.

Section Contract.
Context `{Sha256} `{E : Engine}.

(** ** The interface *)
Lemma batch_spec_map {C D} k (has : C → list SyntheticEvent → Prop)
    (has' : D → list SyntheticEvent → Prop) (f : C → D) log events r c :
  batch_spec k has log events (r, c) → (∀ c log, has c log → has' (f c) log) →
  batch_spec k has' log events (r, f c).
Proof.
  intros Hb Hm. destruct r as [[results m]| |]; simpl in *; [..|done].
  - destruct Hb as (log' & Hh & Hrest). exists log'. eauto.
  - destruct Hb as (Hf & j & results & log' & Hh & Ha). split; [done|]. exists j, results, log'. eauto.
Qed.

(** A store that represents a log, and whose [ls_write] appends to it once the
    store is ready for it. *)
Class LogStore (C : Type) : Type := {
  ls_write : nat → Z → list SyntheticEvent → C → outcome BatchResult * C;
  ls_config : C → CandidateConfig;
  ls_ready : C → Prop;
  ls_has : C → list SyntheticEvent → Prop;
  ls_spec : ∀ fuel now events c log,
    ls_ready c → ls_has c log → length log + length events ≤ i64_max → (length events ≤ fuel)%nat →
    batch_spec (cc_max_records_per_tx (ls_config c))
      (λ c' log', ls_config c' = ls_config c ∧ ls_ready c' ∧ ls_has c' log') log events
      (ls_write fuel now events c)
}.

(** The configuration is in the ranges of its types. *)

#[export] Program Instance mono_log : LogStore MonolithicCandidate := {
  ls_write := mono_write_batch;
  ls_config := mc_config;
  ls_ready c := config_typed (mc_config c);
  ls_has c log := store_ok 0 (mc_conn c) log
}.
Next Obligation.
  intros fuel now events c log Hty Hs Hlen Hf.
  pose proof (mono_batch fuel now events c log Hty Hs Hlen Hf) as Hb.
  destruct (mono_write_batch fuel now events c) as [r c'].
  apply (batch_spec_map _ _ _ id _ _ _ _ Hb). intros c2 log2 [Hc Hs2]. simpl. by rewrite Hc.
Qed.

(** The rollover limit, if there is one, is moreover not zero. *)

#[export] Program Instance seg_log : LogStore SegmentedCandidate := {
  ls_write := seg_write_batch;
  ls_config := sc_config;
  ls_ready c := config_typed (sc_config c) ∧ rollover_positive (sc_config c);
  ls_has c log := seg_has (sc_config c) c log
}.
Next Obligation.
  intros fuel now events c log [Hty Hpos] Hs Hlen Hf.
  pose proof (seg_batch_write fuel now events c log Hty Hpos Hs Hlen Hf) as Hb.
  destruct (seg_write_batch fuel now events c) as [r c'].
  apply (batch_spec_map _ _ _ id _ _ _ _ Hb). intros c2 log2 Hs2. simpl.
  pose proof Hs2 as [Hc _]. by rewrite Hc.
Qed.

Definition runner_has (r : CandidateRunner) (log : list SyntheticEvent) : Prop :=
  match r with Monolithic c => ls_has c log | Segmented c => ls_has c log end.

Definition runner_ready (r : CandidateRunner) : Prop :=
  match r with Monolithic c => ls_ready c | Segmented c => ls_ready c end.

#[export] Program Instance runner_log : LogStore CandidateRunner := {
  ls_write := runner_run;
  ls_config := runner_config;
  ls_ready := runner_ready;
  ls_has := runner_has
}.
Next Obligation.
  intros fuel now events r log Hrd Hs Hlen Hf. destruct r as [c|c].
  - pose proof (ls_spec fuel now events c log Hrd Hs Hlen Hf) as Hb. simpl in *.
    destruct (mono_write_batch fuel now events c) as [o c'].
    apply (batch_spec_map _ _ _ Monolithic _ _ _ _ Hb). done.
  - pose proof (ls_spec fuel now events c log Hrd Hs Hlen Hf) as Hb. simpl in *.
    destruct (seg_write_batch fuel now events c) as [o c'].
    apply (batch_spec_map _ _ _ Segmented _ _ _ _ Hb). done.
Qed.

(** ** Opening *)
Lemma expect_statements_reliable {S} n (s : S) pc :
  reliable E → expect_statements n (s, pc) = (Done tt, (s, (pc + n)%nat)).
Proof.
  intros Hr. revert pc. induction n as [|n IH]; intros pc; simpl; [by rewrite Nat.add_0_r|].
  unfold mbind, store_bind, bench_statement. rewrite Hr. simpl. rewrite IH. do 2 f_equal. lia.
Qed.

Lemma mono_open_fresh config :
  reliable E → ∃ c s, mono_open empty_bench config = (Done c, s) ∧ mc_config c = config ∧ ls_has c [].
Proof.
  intros Hr. unfold mono_open, mbind, store_bind. rewrite expect_statements_reliable by done.
  eexists _, _. split; [done|]. split; [done|]. apply store_ok_empty.
Qed.

Lemma segmented_open_ok config c pc :
  config_typed config → segmented_open ∅ config = (Done tt, (c, pc)) →
  sc_config c = config ∧ seg_ok c [] [].
Proof.
  intros Hty Hop. cut (swp (roll_segment) (λ _ c, sc_config c = config ∧ seg_ok c [] []) (λ _, True)
    (mkSeg ∅ config [] None 0 0, O)).
  { unfold swp. unfold segmented_open in Hop. by rewrite Hop. }
  unfold roll_segment. apply swp_bind, swp_get. intros pc1.
  apply swp_bind, swp_expect_statements; [done|]. intros pc2. apply swp_modify. split; [done|].
  split; simpl; try done.
  - intros k sg [Hk Hsg]%list_lookup_singleton_Some. subst. exists empty_bench.
    rewrite lookup_insert_eq. split; [done|apply store_ok_empty].
  - intros k Hk. rewrite lookup_insert_ne by lia. done.
  - pose proof (ct_rollover _ Hty) as Hr. destruct (cc_segment_rollover_records config) as [limit|]; [|done].
    specialize (Hr limit eq_refl). split; [simpl; lia|constructor].
Qed.

Lemma segmented_open_fresh config :
  reliable E → config_typed config → ∃ c pc, segmented_open ∅ config = (Done tt, (c, pc)) ∧
    sc_config c = config ∧ seg_ok c [] [].
Proof.
  intros Hr Hty. cut (∃ c pc, segmented_open ∅ config = (Done tt, (c, pc))).
  { intros (c & pc & Hop). exists c, pc. split; [done|]. by eapply segmented_open_ok. }
  unfold segmented_open, roll_segment, mbind, store_bind, store_get. cbn [fst snd].
  rewrite expect_statements_reliable by done. by eexists _, _.
Qed.

(** ** Counting the records *)
Lemma total_records_ok c front cur :
  seg_ok c front cur → total_records c = u32 (length (concat (front ++ [cur]))).
Proof.
  intros Hc. unfold total_records. rewrite (so_segments _ _ _ Hc).
  assert (Hsum : ∀ segs off n, foldl u32_add (u32 n) (si_record_count <$> infos off segs) =
    u32 (n + length (concat segs))).
  { induction segs as [|sg segs IH]; intros off n; simpl; [by rewrite Z.add_0_r|].
    rewrite u32_add_l. fold (u32_add n (u32 (length sg))). rewrite u32_add_r, IH, length_app.
    f_equal. lia. }
  apply (Hsum _ 0 0).
Qed.

Lemma holds_size off db log : holds off db log → size (bench_envelope db) = length log.
Proof.
  intros Hh. rewrite <- size_dom, (h_env_dom _ _ _ Hh), size_list_to_set by apply NoDup_seqZ.
  rewrite length_seqZ. lia.
Qed.

Lemma mono_record_count_ok c log :
  reliable E → ls_has c log → mono_record_count c = length log.
Proof.
  intros Hr [Hh _]. unfold mono_record_count, bench_statement. rewrite Hr. simpl.
  by rewrite (holds_size _ _ _ Hh).
Qed.

(** On a log of distinct events that the engine does not disturb, everything is
    written. *)
Lemma all_written {C} `{LogStore C} fuel now events c :
  reliable E → ls_ready c → ls_has c [] → NoDup (bench_event_ids events) → length events ≤ i64_max →
  (length events ≤ fuel)%nat →
  ∃ results m c', ls_write fuel now events c = (Done (results, m), c') ∧ ls_has c' events ∧
    sequences results = seqZ 1 (length events) ∧ wm_written_records m = length events.
Proof.
  intros Hr Hrd Hh Hnd Hlen Hf. pose proof (ls_spec fuel now events c [] Hrd Hh Hlen Hf) as Hb.
  assert (Hnf : ¬ faulty E) by by apply reliable_not_faulty.
  destruct (ls_write fuel now events c) as [[[results m]| |] c']; simpl in Hb; [..|done].
  - destruct Hb as (log' & (_ & _ & Hh') & Ha & Hc & Hall). rewrite (Hall Hnf Hnd) in Hh', Ha.
    assert (Hw : written events results = events) by (symmetry; apply (ap_log _ _ _ _ Ha)).
    exists results, m, c'. split; [done|]. split; [done|]. split.
    + by rewrite (ap_sequences _ _ _ _ Ha), Hw.
    + by rewrite (ac_written _ _ _ _ Hc), Hw.
  - by destruct Hb.
Qed.
End Contract.

(** ** A rollover limit of zero *)
Section Divergence.
Context `{Sha256} `{E : Engine}.

(** Each round opens a segment, commits an empty batch and stays where it is. *)
Lemma zero_rollover_loops fuel now events i acc c pc :
  reliable E → cc_segment_rollover_records (sc_config c) = Some 0 →
  0 ≤ sc_records_in_active c → (i < length events)%nat →
  (seg_loop fuel now events i acc (c, pc)).1 = OutOfFuel.
Proof.
  intros Hr Hlim. revert acc c pc Hlim. induction fuel as [|fuel IH]; intros acc c pc Hlim Hrec Hi;
    unfold seg_loop; fold seg_loop; rewrite (proj2 (Nat.ltb_lt _ _) Hi); [done|].
  unfold mbind, store_bind, store_get, needs_rollover. cbn [fst snd]. rewrite Hlim.
  rewrite (proj2 (Z.leb_le _ _) Hrec). unfold roll_segment, mbind, store_bind, store_get. cbn [fst snd].
  rewrite expect_statements_reliable by done.
  unfold store_modify, seg_batch, mbind, store_bind, store_get. cbn [fst snd].
  unfold push_segment. cbn [sc_config sc_records_in_active sc_global_journal_seq]. rewrite Hlim. simpl Z.to_nat.
  rewrite Nat.add_0_r, Nat.min_l by lia. unfold next_batch_end, slice. rewrite Nat.sub_diag. simpl take.
  unfold batch_loop. rewrite Nat.sub_diag. simpl take.
  unfold on_active, transaction. cbn [sc_active sc_files]. rewrite !Hr. simpl. rewrite Hr. simpl.
  apply IH; simpl; done.
Qed.
End Divergence.

(** ** Reachable segmented candidates *)
Section Reachable.
Context `{Sha256} `{E : Engine}.

(** Opened in an empty directory, then written to; a call that panics leaves a
    candidate too. *)
Inductive seg_reach (config : CandidateConfig) : nat → SegmentedCandidate → Prop :=
| sr_open c pc : segmented_open ∅ config = (Done tt, (c, pc)) → seg_reach config 0 c
| sr_write n c fuel now events r c' :
    seg_reach config n c → (length events ≤ fuel)%nat →
    seg_write_batch fuel now events c = (r, c') → seg_reach config (n + length events) c'.

Lemma seg_reach_ok config n c :
  config_typed config → rollover_positive config → seg_reach config n c → n ≤ i64_max →
  ∃ log, seg_has config c log ∧ (length log ≤ n)%nat.
Proof.
  intros Hty Hpos. induction 1 as [c pc Hop|n c fuel now events r c' Hc IH Hf Hw]; intros Hn.
  { destruct (segmented_open_ok _ _ _ Hty Hop) as [Hcfg Hok]. exists []. split; [|done].
    split; [done|]. by exists [], []. }
  destruct IH as (log & Hs & Hlen); [lia|]. pose proof Hs as [Hcfg _].
  assert (Hb := seg_batch_write fuel now events c log). rewrite Hcfg, Hw in Hb.
  specialize (Hb Hty Hpos Hs ltac:(lia) Hf). destruct r as [[results m]| |]; simpl in Hb; [..|done].
  - destruct Hb as (log' & Hs' & Ha & _). exists log'. split; [done|].
    rewrite (ap_log _ _ _ _ Ha), length_app.
    pose proof (sublist_length _ _ (written_sublist events results)). lia.
  - destruct Hb as (_ & j & results & log' & Hs' & Ha). exists log'. split; [done|].
    rewrite (ap_log _ _ _ _ Ha), length_app.
    pose proof (sublist_length _ _ (written_sublist (take j events) results)) as Hl.
    rewrite length_take in Hl. lia.
Qed.

(** The info of a segment, its place in the log and its file. *)
Lemma infos_lookup off segs k s :
  infos off segs !! k = Some s → ∃ sg, segs !! k = Some sg ∧
    s = mkSegment (u32 (length sg)) (off + length (concat (take k segs)) + 1)
          (off + length (concat (take k segs)) + length sg).
Proof.
  revert off k. induction segs as [|sg segs IH]; intros off [|k]; simpl; try done.
  - intros [= <-]. exists sg. split; [done|]. f_equal; lia.
  - intros (sg' & Hk & ->)%IH. exists sg'. split; [done|]. rewrite length_app. f_equal; lia.
Qed.

Lemma seg_info c front cur k s :
  seg_ok c front cur → Forall (λ sg : list SyntheticEvent, Z.of_nat (length sg) ≤ u32_max) (front ++ [cur]) →
  sc_segments c !! k = Some s →
  ∃ sg db, (front ++ [cur]) !! k = Some sg ∧ sc_files c !! k = Some db ∧
    si_first_journal_seq s = length (concat (take k (front ++ [cur]))) + 1 ∧
    si_record_count s = length sg ∧
    si_last_journal_seq s = si_first_journal_seq s + length sg - 1 ∧
    dom (bench_envelope db) = list_to_set (seqZ (si_first_journal_seq s) (si_record_count s)).
Proof.
  intros Hc Hmax Hs. rewrite (so_segments _ _ _ Hc) in Hs.
  apply infos_lookup in Hs as (sg & Hsg & ->). pose proof (Forall_lookup_1 _ _ _ _ Hmax Hsg) as Hle.
  simpl in Hle. rewrite u32_id by lia. destruct (so_files _ _ _ Hc _ _ Hsg) as (db & Hdb & Hst & _).
  exists sg, db. simpl. split_and!; [done|done|lia|done|lia|].
  rewrite (h_env_dom _ _ _ Hst). rewrite take_app_le; [done|].
  apply lookup_lt_Some in Hsg. rewrite length_app in Hsg. simpl in Hsg. lia.
Qed.
End Reachable.

(** ** Theorems *)

(** C13. Both storage candidates implement an append-only log.  Take a candidate
    that represents [log] and is ready: its configuration in the ranges of its
    types and, for the segmented one, a rollover limit other than zero.  Run on
    [events] with a round per event, it does not run out of rounds.  When it returns, there is one answer per event; the events answered
    with [Ok], and no others, are appended in their order under the next journal
    sequences; the metrics count them, and no batch exceeds the record limit.
    Without a fault of the engine all distinct events are written.  It panics
    only at a fault, and the store then represents the log grown by events of a
    prefix: a panic rolls its transaction back. *)
Theorem runner_appends (S : Sha256) (E : Engine) (fuel : nat) (now : Z)
    (events : list SyntheticEvent) (r : CandidateRunner) (log : list SyntheticEvent) :
  runner_ready r → runner_has r log →
  length log + length events ≤ i64_max → (length events ≤ fuel)%nat →
  batch_spec (cc_max_records_per_tx (runner_config r))
    (λ r' log', runner_config r' = runner_config r ∧ runner_ready r' ∧ runner_has r' log') log events
    (runner_run fuel now events r).
Proof. exact (ls_spec fuel now events r log). Qed.

Definition sample_segmented (limit : Z) : CandidateConfig :=
  mkCandidateConfig "segmented" "WAL" "FULL" 5000 1000 None 64 1048576 (Some limit) false.

Lemma monolithic_typed : config_typed monolithic.
Proof. split; [split; vm_compute; discriminate|]. intros limit [=]. Qed.

Lemma segmented_typed limit : 0 ≤ limit ≤ u32_max → config_typed (sample_segmented limit).
Proof. intros Hl. split; [split; vm_compute; discriminate|]. by intros ? [= <-]. Qed.

Definition sample_events `{Sha256} : list SyntheticEvent := generate_events (ingress_new 3 4).

Lemma runner_appends_witness :
  @batch_spec sample_sha256 sample_engine _ 64
    (λ r' log', runner_config r' = monolithic ∧ @runner_ready sample_sha256 sample_engine r' ∧
                @runner_has sample_sha256 sample_engine r' log') []
    (@sample_events sample_sha256)
    (@runner_run sample_sha256 sample_engine 3 7 (@sample_events sample_sha256)
       (Monolithic (mkMono empty_bench monolithic))).
Proof.
  apply (runner_appends sample_sha256 sample_engine 3 7 (@sample_events sample_sha256)
           (Monolithic (mkMono empty_bench monolithic)) []).
  - apply monolithic_typed.
  - apply (@store_ok_empty sample_sha256 sample_engine).
  - vm_compute. discriminate.
  - vm_compute. repeat constructor.
Defined.

(** C16. The two candidates store the same events.  With an engine that does not
    fail, configurations in the ranges of their types and a rollover limit other
    than zero, the monolithic candidate on an empty database and the segmented
    one in an empty directory both write every event of a list with distinct
    identifiers, under the same journal sequences 1, 2, ...; the database of the
    one holds the list and the segments of the other hold its consecutive parts.
    The first counts as many records, the second as many modulo 2^32, the range
    of its counter.  (The stream sequences are not compared: the segmented
    candidate starts them again in every segment.) *)
Theorem candidates_agree (S : Sha256) (E : Engine) (fuel : nat) (now : Z)
    (events : list SyntheticEvent) (mono_config seg_config : CandidateConfig) :
  reliable E → config_typed mono_config → config_typed seg_config → rollover_positive seg_config →
  NoDup (bench_event_ids events) → length events ≤ i64_max → (length events ≤ fuel)%nat →
  ∃ m0 s s0 pc rm mm m1 rs ms s1 front cur,
    mono_open empty_bench mono_config = (Done m0, s) ∧
    segmented_open ∅ seg_config = (Done tt, (s0, pc)) ∧
    mono_write_batch fuel now events m0 = (Done (rm, mm), m1) ∧
    seg_write_batch fuel now events s0 = (Done (rs, ms), s1) ∧
    sequences rm = seqZ 1 (length events) ∧ sequences rs = seqZ 1 (length events) ∧
    store_ok 0 (mc_conn m1) events ∧ seg_ok s1 front cur ∧ concat (front ++ [cur]) = events ∧
    mono_record_count m1 = length events ∧ total_records s1 = u32 (length events).
Proof.
  intros HE Hmt Hst Hpos Hnd Hlen Hf. destruct (mono_open_fresh mono_config HE) as (m0 & s & Hm & Hmc & Hm0).
  destruct (segmented_open_fresh seg_config HE Hst) as (s0 & pc & Hs & Hcfg & Hs0).
  assert (Hh : ls_has s0 []) by (split; [done|]; by exists [], []).
  assert (Hmr : ls_ready m0) by (simpl; by rewrite Hmc).
  assert (Hsr : ls_ready s0) by (simpl; by rewrite Hcfg).
  destruct (all_written fuel now events m0 HE Hmr Hm0 Hnd Hlen Hf) as (rm & mm & m1 & Hmw & Hm1 & Hmq & _).
  destruct (all_written fuel now events s0 HE Hsr Hh Hnd Hlen Hf)
    as (rs & ms & s1 & Hsw & (_ & front & cur & Hok & Hlog) & Hsq & _).
  exists m0, s, s0, pc, rm, mm, m1, rs, ms, s1, front, cur. split_and!; try done.
  - by apply mono_record_count_ok.
  - by rewrite (total_records_ok _ _ _ Hok), <- Hlog.
Qed.

Lemma candidates_agree_witness :
  ∃ m0 s m1 rm mm, @mono_open sample_engine empty_bench monolithic = (Done m0, s) ∧
    @mono_write_batch sample_sha256 sample_engine 3 7 (@sample_events sample_sha256) m0 =
      (Done (rm, mm), m1) ∧ sequences rm = [1; 2; 3].
Proof.
  destruct (candidates_agree sample_sha256 sample_engine 3 7 (@sample_events sample_sha256)
              monolithic segmented)
    as (m0 & s & s0 & pc & rm & mm & m1 & rs & ms & s1 & front & cur & Hm & _ & Hw & _ & Hq & _).
  - exact (λ n, eq_refl).
  - apply monolithic_typed.
  - apply (segmented_typed 500). split; vm_compute; discriminate.
  - reflexivity.
  - apply generated_nodup. vm_compute. discriminate.
  - vm_compute. discriminate.
  - vm_compute. repeat constructor.
  - exists m0, s, m1, rm, mm. split; [exact Hm|]. split; [exact Hw|exact Hq].
Defined.

(** C17. The segments partition the journal.  In a candidate opened in an empty
    directory with a positive rollover limit, its configuration in the ranges of
    its types, after any calls, panics included:
    the first segment starts at sequence 1, every segment starts where the one
    before it ends, the last one ends at the global sequence; the file of a
    segment holds exactly the sequences of its range, as many as its record count
    says; no count exceeds the limit and every closed segment is exactly full. *)
Theorem segments_partition (S : Sha256) (E : Engine) (config : CandidateConfig) (limit : Z) (n : nat)
    (c : SegmentedCandidate) :
  config_typed config → cc_segment_rollover_records config = Some limit → 0 < limit → seg_reach config n c → n ≤ i64_max →
  (∀ s, head (sc_segments c) = Some s → si_first_journal_seq s = 1) ∧
  (∀ k s t, sc_segments c !! k = Some s → sc_segments c !! (k + 1)%nat = Some t →
     si_first_journal_seq t = si_last_journal_seq s + 1 ∧ si_record_count s = limit) ∧
  (∀ s, last (sc_segments c) = Some s → si_last_journal_seq s = sc_global_journal_seq c) ∧
  (∀ k s, sc_segments c !! k = Some s → 0 ≤ si_record_count s ≤ limit ∧
     si_last_journal_seq s = si_first_journal_seq s + si_record_count s - 1 ∧
     ∃ db, sc_files c !! k = Some db ∧ size (bench_envelope db) = Z.to_nat (si_record_count s) ∧
       dom (bench_envelope db) = list_to_set (seqZ (si_first_journal_seq s) (si_record_count s))).
Proof.
  intros Hty Hlim Hpos Hr Hn.
  destruct (seg_reach_ok config n c) as (log & (Hcfg & front & cur & Hc & _) & _);
    [done|by unfold rollover_positive; rewrite Hlim|done..|].
  pose proof (so_limit _ _ _ Hc) as Hl. rewrite Hcfg, Hlim in Hl. destruct Hl as [Hcur Hfull].
  destruct (ct_rollover _ Hty limit Hlim) as [_ Hmax].
  assert (Hsmall : Forall (λ sg : list SyntheticEvent, Z.of_nat (length sg) ≤ u32_max) (front ++ [cur])).
  { apply Forall_app. split; [|apply Forall_singleton; lia].
    eapply Forall_impl; [exact Hfull|]. simpl. lia. }
  split_and!.
  - intros s Hs. rewrite head_lookup in Hs.
    destruct (seg_info _ _ _ _ _ Hc Hsmall Hs) as (sg & db & _ & _ & -> & _). by destruct (front ++ [cur]).
  - intros k s t Hs Ht. destruct (seg_info _ _ _ _ _ Hc Hsmall Hs) as (sg & db & Hsg & _ & Hf & Hcn & Hla & _).
    destruct (seg_info _ _ _ _ _ Hc Hsmall Ht) as (sg' & db' & Hsg' & _ & Hf' & _).
    rewrite Nat.add_1_r in *. rewrite (take_S_r _ _ _ Hsg), concat_snoc, length_app in Hf'.
    split; [lia|]. apply lookup_lt_Some in Hsg'. rewrite length_app in Hsg'. simpl in Hsg'.
    rewrite lookup_app_l in Hsg by lia. rewrite Hcn. by eapply Forall_lookup_1 in Hfull.
  - intros s Hs. rewrite last_lookup, (so_segments _ _ _ Hc), length_infos in Hs.
    rewrite <- (so_segments _ _ _ Hc), length_app, Nat.add_comm in Hs.
    destruct (seg_info _ _ _ _ _ Hc Hsmall Hs) as (sg & db & Hsg & _ & Hf & _ & -> & _).
    rewrite Hf, (so_global _ _ _ Hc). simpl in Hsg. rewrite lookup_app_r, Nat.sub_diag in Hsg by done.
    injection Hsg as <-. simpl. rewrite take_app_length, concat_snoc, length_app. lia.
  - intros k s Hs. destruct (seg_info _ _ _ _ _ Hc Hsmall Hs) as (sg & db & Hsg & Hdb & _ & Hcn & -> & Hdom).
    assert (Hle : length sg ≤ limit).
    { apply lookup_snoc_Some in Hsg as [[_ Hsg]|[_ <-]]; [|done].
      eapply Forall_lookup_1 in Hfull; [|done]. simpl in Hfull. lia. }
    split_and!; [lia..|]. exists db. split_and!; [done| |done].
    rewrite <- size_dom, Hdom, size_list_to_set by apply NoDup_seqZ. rewrite length_seqZ. done.
Qed.

Definition sample_opened (limit : Z) : SegmentedCandidate :=
  (@segmented_open sample_engine ∅ (sample_segmented limit)).2.1.

Definition sample_segments_run : outcome BatchResult * SegmentedCandidate :=
  @seg_write_batch sample_sha256 sample_engine 3 7 (@sample_events sample_sha256) (sample_opened 2).

Lemma segments_partition_witness :
  length (sc_segments sample_segments_run.2) = 2%nat ∧
  ∀ s, head (sc_segments sample_segments_run.2) = Some s → si_first_journal_seq s = 1.
Proof.
  split; [vm_compute; reflexivity|].
  destruct (segments_partition sample_sha256 sample_engine (sample_segmented 2) 2 3
              sample_segments_run.2) as [Hhead _]; [..|exact Hhead].
  - apply segmented_typed. split; vm_compute; discriminate.
  - reflexivity.
  - reflexivity.
  - apply (sr_write (sample_segmented 2) 0 (sample_opened 2) 3 7 (@sample_events sample_sha256)
             sample_segments_run.1 sample_segments_run.2).
    + apply (sr_open (sample_segmented 2) (sample_opened 2) 7). vm_compute. reflexivity.
    + vm_compute. repeat constructor.
    + exact (surjective_pairing sample_segments_run).
  - vm_compute. discriminate.
Defined.

(** C18. When [write_batch] of the segmented candidate ends.  On a candidate just
    opened in an empty directory, its configuration in the ranges of its types,
    with an engine that does not fail, the loop over
    the events ends exactly when the rollover limit is not zero or there is no
    event; at a limit of zero it opens segments for ever.  Where it ends, a round
    per event is enough. *)
Theorem rollover_termination (S : Sha256) (E : Engine) (config : CandidateConfig) (limit : Z)
    (now : Z) (events : list SyntheticEvent) (c : SegmentedCandidate) (pc : nat) :
  reliable E → config_typed config → cc_segment_rollover_records config = Some limit →
  length events ≤ i64_max → segmented_open ∅ config = (Done tt, (c, pc)) →
  ((∃ fuel, (seg_write_batch fuel now events c).1 ≠ OutOfFuel) ↔ limit ≠ 0 ∨ events = []) ∧
  (limit ≠ 0 ∨ events = [] → (seg_write_batch (length events) now events c).1 ≠ OutOfFuel).
Proof.
  intros HE Hty Hlim Hlen Hop. destruct (ct_rollover _ Hty limit Hlim) as [Hl _].
  assert (Hend : limit ≠ 0 ∨ events = [] → (seg_write_batch (length events) now events c).1 ≠ OutOfFuel).
  { intros [Hne| ->]; [|done].
    destruct (segmented_open_ok config c pc) as [Hcfg Hok]; [done..|].
    assert (Hb := seg_batch_write (length events) now events c []).
    rewrite Hcfg in Hb. specialize (Hb Hty ltac:(unfold rollover_positive; rewrite Hlim; lia)).
    specialize (Hb ltac:(split; [done|]; by exists [], []) Hlen (le_n _)).
    by destruct (seg_write_batch _ now events c) as [[]]. }
  split; [|done]. split; [|eauto]. intros [fuel Hfuel].
  destruct (decide (limit = 0)) as [->|]; [|by left]. right.
  destruct events as [|e events]; [done|]. exfalso. apply Hfuel. unfold seg_write_batch.
  assert (Hc : cc_segment_rollover_records (sc_config c) = Some 0 ∧ sc_records_in_active c = 0).
  { cut (swp (roll_segment) (λ _ c, cc_segment_rollover_records (sc_config c) = Some 0 ∧
      sc_records_in_active c = 0) (λ _, True) (mkSeg ∅ config [] None 0 0, O)).
    { unfold swp. unfold segmented_open in Hop. by rewrite Hop. }
    unfold roll_segment. apply swp_bind, swp_get. intros pc1.
    apply swp_bind, swp_expect_statements; [done|]. intros pc2. by apply swp_modify. }
  pose proof (zero_rollover_loops fuel now (e :: events) 0 ([], no_metrics) c 0 HE (proj1 Hc)) as Hloop.
  destruct (seg_loop fuel now (e :: events) 0 ([], no_metrics) (c, O)) as [r [c' pc']].
  apply Hloop; [destruct Hc; lia|simpl; lia].
Qed.

Lemma rollover_termination_witness :
  ¬ (∃ fuel, (@seg_write_batch sample_sha256 sample_engine fuel 7 (@sample_events sample_sha256)
                (sample_opened 0)).1 ≠ OutOfFuel) ∧
  ((∃ fuel, (@seg_write_batch sample_sha256 sample_engine fuel 7 (@sample_events sample_sha256)
                (sample_opened 2)).1 ≠ OutOfFuel) ↔ 2 ≠ 0 ∨ @sample_events sample_sha256 = []).
Proof.
  split.
  - destruct (rollover_termination sample_sha256 sample_engine (sample_segmented 0) 0 7
                (@sample_events sample_sha256) (sample_opened 0) 7) as [[Hterm _] _].
    + exact (λ n, eq_refl).
    + apply segmented_typed. split; vm_compute; discriminate.
    + reflexivity.
    + vm_compute. discriminate.
    + vm_compute. reflexivity.
    + intros Hex. destruct (Hterm Hex) as [Hn|Hn]; [by apply Hn|discriminate Hn].
  - apply (rollover_termination sample_sha256 sample_engine (sample_segmented 2) 2 7
             (@sample_events sample_sha256) (sample_opened 2) 7).
    + exact (λ n, eq_refl).
    + apply segmented_typed. split; vm_compute; discriminate.
    + reflexivity.
    + vm_compute. discriminate.
    + vm_compute. reflexivity.
Defined.

(** Stream sequences count within a segment: with one record per segment, the
    second event of a stream has sequence 1 again, where the monolithic candidate
    gives it 2. *)
Definition two_of_a_stream `{Sha256} : list SyntheticEvent :=
  [event_of (ingress_new 9 4) 0; event_of (ingress_new 9 4) 8].

Lemma segments_restart_streams :
  let streams {C} (r : outcome BatchResult * C) :=
    match r.1 with
    | Done (results, _) => (λ x, match x with Ok wr => Some (wr_stream_sequence wr) | Err _ => None end) <$> results
    | _ => []
    end in
  let events := @two_of_a_stream sample_sha256 in
  streams (@seg_write_batch sample_sha256 sample_engine 2 7 events (sample_opened 1)) = [Some 1; Some 1] ∧
  streams (@mono_write_batch sample_sha256 sample_engine 2 7 events (mkMono empty_bench monolithic)) =
    [Some 1; Some 2].
Proof. vm_compute. done. Qed.
