(* ===== verification/BenchPipeline.v ===== *)
(** * The benchmark pipeline (crates/craftrelay-journal-bench/src/ingress.rs,
      report.rs and main.rs)

    A producer thread offers generated events to a bounded channel and counts
    the ones it refuses; the writer takes batches from the channel and runs a
    storage candidate on them.  The two threads are a transition system whose
    steps interleave freely; the steps are functions, so that a schedule can be
    run.  Around it the report and the arguments of the program. *)
From S2P Require Import Prelude Checksum JournalDb BenchEvents BenchStore.
Open Scope Z_scope.
#[local] Coercion Z.of_nat : nat >-> Z.

(** ** Accumulating results *)
Definition merge_metrics (acc batch : WriteBatchMetrics) : WriteBatchMetrics :=
  mkMetrics (wm_committed_transactions acc + wm_committed_transactions batch)
    (wm_failed_transactions acc + wm_failed_transactions batch)
    (wm_written_records acc + wm_written_records batch)
    (wm_failed_records acc + wm_failed_records batch)
    (if wm_max_observed_batch_size acc <? wm_max_observed_batch_size batch
     then wm_max_observed_batch_size batch else wm_max_observed_batch_size acc)
    (wm_total_batch_records acc + wm_total_batch_records batch).

Fixpoint collect_errors {A} (results : list (result A string)) (errors : list string) : list string :=
  match results with
  | [] => errors
  | Ok _ :: results => collect_errors results errors
  | Err e :: results =>
      collect_errors results
        (if (length errors <? MAX_BOUNDED_ERRORS)%nat then errors ++ [e] else errors)
  end.

(** ** The threads *)

(** Where the writer is: waiting in [recv], filling its batch with [try_recv],
    inside [run] (for the last time or not), past its loop, or unwound by a
    panic. *)
Inductive WriterPhase : Type :=
| Waiting (batch : list SyntheticEvent)
| Filling (batch : list SyntheticEvent)
| Writing (batch : list SyntheticEvent) (final : bool)
| Finished
| Crashed.

(** [ps_sent] and [ps_answered] are history: the events the channel took, and
    the answers for the ones the writer ran on. *)
Record Pipeline : Type := mkPipeline {
  ps_next : nat;
  ps_submitted : Z;
  ps_rejected : Z;
  ps_producing : bool;
  ps_channel : list SyntheticEvent;
  ps_phase : WriterPhase;
  ps_runner : CandidateRunner;
  ps_metrics : WriteBatchMetrics;
  ps_errors : list string;
  ps_sent : list SyntheticEvent;
  ps_answered : list (result WriteResult string)
}.

Definition pipeline_start (runner : CandidateRunner) : Pipeline :=
  mkPipeline 0 0 0 true [] (Waiting []) runner no_metrics [] [] [].

(** [try_send] succeeds when there is room, or, in a channel without a buffer,
    when the writer waits; it fails when the receiver is gone. *)
Definition can_send (config : IngressConfig) (p : Pipeline) : bool :=
  match ps_phase p with
  | Finished | Crashed => false
  | Waiting _ => (length (ps_channel p) <? Z.max 1 (ic_channel_capacity config))
  | _ => (length (ps_channel p) <? ic_channel_capacity config)
  end.

Definition set_phase (ph : WriterPhase) (channel : list SyntheticEvent) (p : Pipeline) : Pipeline :=
  mkPipeline (ps_next p) (ps_submitted p) (ps_rejected p) (ps_producing p) channel ph (ps_runner p)
    (ps_metrics p) (ps_errors p) (ps_sent p) (ps_answered p).

Section Steps.
Context `{Sha256} `{Engine}.

(** One turn of the producer's loop; after the last it drops its end of the
    channel. *)
Definition producer_step (config : IngressConfig) (p : Pipeline) : option Pipeline :=
  if ps_producing p then
    if ps_next p <? ic_total_records config then
      let event := event_of config (ps_next p) in
      if can_send config p then
        Some (mkPipeline (S (ps_next p)) (ps_submitted p + 1) (ps_rejected p) true
                (ps_channel p ++ [event]) (ps_phase p) (ps_runner p) (ps_metrics p) (ps_errors p)
                (ps_sent p ++ [event]) (ps_answered p))
      else
        Some (mkPipeline (S (ps_next p)) (ps_submitted p + 1) (ps_rejected p + 1) true
                (ps_channel p) (ps_phase p) (ps_runner p) (ps_metrics p) (ps_errors p)
                (ps_sent p) (ps_answered p))
    else
      Some (mkPipeline (ps_next p) (ps_submitted p) (ps_rejected p) false (ps_channel p) (ps_phase p)
              (ps_runner p) (ps_metrics p) (ps_errors p) (ps_sent p) (ps_answered p))
  else None.

(** The writer after [run]. *)
Definition after_run (final : bool) (run : outcome BatchResult * CandidateRunner) (p : Pipeline)
  : option Pipeline :=
  match run with
  | (Done (results, metrics), runner) =>
      Some (mkPipeline (ps_next p) (ps_submitted p) (ps_rejected p) (ps_producing p) (ps_channel p)
              (if final then Finished else Waiting []) runner
              (merge_metrics (ps_metrics p) metrics) (collect_errors results (ps_errors p))
              (ps_sent p) (ps_answered p ++ results))
  | (Panicked, runner) =>
      Some (mkPipeline (ps_next p) (ps_submitted p) (ps_rejected p) (ps_producing p) (ps_channel p)
              Crashed runner (ps_metrics p) (ps_errors p) (ps_sent p) (ps_answered p))
  | (OutOfFuel, _) => None
  end.

(** One call of the writer: [recv], [try_recv] or [run]; [None] when it waits or
    is done, or [run] does not end within [fuel] rounds. *)
Definition writer_step (fuel : nat) (now_ms : Z) (p : Pipeline) : option Pipeline :=
  let max_records := cc_max_records_per_tx (runner_config (ps_runner p)) in
  match ps_phase p with
  | Waiting batch =>
      match ps_channel p with
      | event :: rest => Some (set_phase (Filling (batch ++ [event])) rest p)
      | [] => if ps_producing p then None
              else if decide (batch = []) then Some (set_phase Finished [] p)
              else Some (set_phase (Writing batch true) [] p)
      end
  | Filling batch =>
      if (length batch <? max_records) then
        match ps_channel p with
        | event :: rest => Some (set_phase (Filling (batch ++ [event])) rest p)
        | [] => Some (set_phase (Writing batch false) [] p)
        end
      else Some (set_phase (Writing batch false) (ps_channel p) p)
  | Writing batch final => after_run final (runner_run fuel now_ms batch (ps_runner p)) p
  | Finished | Crashed => None
  end.

(** A step of either thread. *)
Inductive pipeline_step (config : IngressConfig) (p p' : Pipeline) : Prop :=
| step_producer : producer_step config p = Some p' → pipeline_step config p p'
| step_writer fuel now_ms : writer_step fuel now_ms p = Some p' → pipeline_step config p p'.

(** A schedule: which thread moves; a thread that cannot move is skipped. *)
Fixpoint run_schedule (fuel : nat) (config : IngressConfig) (schedule : list bool) (p : Pipeline)
  : Pipeline :=
  match schedule with
  | [] => p
  | b :: schedule =>
      run_schedule fuel config schedule
        (default p (if b : bool then producer_step config p else writer_step fuel 0 p))
  end.

(** ** The result *)
Record PipelineResult : Type := mkResult {
  pr_submitted : Z;
  pr_accepted : Z;
  pr_rejected_capacity : Z;
  pr_write_metrics : WriteBatchMetrics;
  pr_errors : list string
}.

(** What [run_pipeline] returns when both threads are done. *)
Definition pipeline_result (p : Pipeline) : option PipelineResult :=
  match ps_phase p, ps_producing p with
  | Finished, false =>
      Some (mkResult (ps_submitted p) (ps_submitted p - ps_rejected p) (ps_rejected p) (ps_metrics p)
              (ps_errors p))
  | _, _ => None
  end.
End Steps.
