(* ===== verification/BenchRun.v ===== *)
(** * What the benchmark pipeline guarantees

    Every interleaving of the two threads ends; it keeps the events the channel
    took in order, stores them once, and accounts for every event it was offered.
    The proofs use a storage candidate only through its contract. *)
From S2P Require Import Prelude Checksum JournalDb SqlLogic BenchEvents BenchStore BenchBatches BenchSafety BenchSegments BenchContract BenchPipeline.
Open Scope Z_scope.
#[local] Coercion Z.of_nat : nat >-> Z.

(** ** More rounds do not change a result *)
Section Fuel.
Context `{Sha256} `{Engine}.

Lemma mono_loop_fuel fuel fuel' config now events i acc s :
  (fuel ≤ fuel')%nat → (mono_loop fuel config now events i acc s).1 ≠ OutOfFuel →
  mono_loop fuel' config now events i acc s = mono_loop fuel config now events i acc s.
Proof.
  revert fuel' i acc s. induction fuel as [|fuel IH]; intros fuel' i acc s Hle Hne.
  - destruct fuel'; simpl in *; by destruct (i <? length events)%nat.
  - destruct fuel' as [|fuel']; [lia|]. simpl in *. destruct (i <? length events)%nat; [|done].
    unfold mbind, store_bind in *. destruct (transaction _ s) as [[r| |] s']; [|done..].
    apply IH; [lia|done].
Qed.

Lemma seg_loop_fuel fuel fuel' now events i acc s :
  (fuel ≤ fuel')%nat → (seg_loop fuel now events i acc s).1 ≠ OutOfFuel →
  seg_loop fuel' now events i acc s = seg_loop fuel now events i acc s.
Proof.
  revert fuel' i acc s. induction fuel as [|fuel IH]; intros fuel' i acc s Hle Hne.
  - destruct fuel'; simpl in *; by destruct (i <? length events)%nat.
  - destruct fuel' as [|fuel']; [lia|]. simpl in *. destruct (i <? length events)%nat; [|done].
    unfold mbind, store_bind in *. destruct (store_get s) as [[c| |] s1]; [|done..].
    destruct ((if needs_rollover c then roll_segment else mret tt) s1) as [[u| |] s2]; [|done..].
    destruct (seg_batch now events i acc s2) as [[r| |] s3]; [|done..]. apply IH; [lia|done].
Qed.

Lemma runner_fuel fuel fuel' now events r :
  (fuel ≤ fuel')%nat → (runner_run fuel now events r).1 ≠ OutOfFuel →
  runner_run fuel' now events r = runner_run fuel now events r.
Proof.
  intros Hle. destruct r as [c|c]; simpl.
  - unfold mono_write_batch. pose proof (mono_loop_fuel fuel fuel' (mc_config c) now events 0
      ([], no_metrics) (mc_conn c, O) Hle) as Hm.
    destruct (mono_loop fuel _ _ _ _ _ _) as [o [db pc]]. simpl. intros Hne. by rewrite Hm.
  - unfold seg_write_batch. pose proof (seg_loop_fuel fuel fuel' now events 0
      ([], no_metrics) (c, O) Hle) as Hm.
    destruct (seg_loop fuel _ _ _ _ _) as [o [c' pc]]. simpl. intros Hne. by rewrite Hm.
Qed.
End Fuel.

(** ** Accumulation *)
Section Accumulate.
Context `{Sha256}.

Lemma accounted_merge k e1 r1 m1 e2 r2 m2 :
  length e1 = length r1 → accounted k e1 r1 m1 → accounted k e2 r2 m2 →
  accounted k (e1 ++ e2) (r1 ++ r2) (merge_metrics m1 m2).
Proof.
  intros Hl [] []. constructor; simpl; rewrite ?written_app, ?length_app by done; try lia.
  destruct (_ <? _); lia.
Qed.

(** The messages of the failed answers. *)
Definition messages {A} (results : list (result A string)) : list string :=
  omap (λ r, match r with Ok _ => None | Err e => Some e end) results.

Lemma collect_errors_spec {A} (results : list (result A string)) l :
  collect_errors results (take MAX_BOUNDED_ERRORS l) = take MAX_BOUNDED_ERRORS (l ++ messages results).
Proof.
  revert l. induction results as [|[a|e] results IH]; intros l; simpl.
  - by rewrite (app_nil_r l).
  - apply IH.
  - rewrite (cons_middle e l), (assoc_L (++)), <- IH. f_equal.
    rewrite length_take. destruct (Nat.ltb_spec (Nat.min MAX_BOUNDED_ERRORS (length l)) MAX_BOUNDED_ERRORS).
    + rewrite !take_ge; [done|rewrite length_app; simpl; lia|lia].
    + rewrite take_app_le by lia. done.
Qed.
End Accumulate.

(** ** The invariant *)
Section Invariant.
Context `{Sha256} `{E : Engine}.
Variables (config : IngressConfig) (log0 : list SyntheticEvent) (cfg : CandidateConfig).

(** The batch the writer holds. *)
Definition held (ph : WriterPhase) : list SyntheticEvent :=
  match ph with Waiting b | Filling b | Writing b _ => b | Finished | Crashed => [] end.

(** The events the writer ran on are answered and stored; without a fault all of
    the run's distinct events are. *)
Record stored (p : Pipeline) (ran : list SyntheticEvent) : Prop := {
  st_log : ∃ log1, runner_has (ps_runner p) log1 ∧ appended log0 ran (ps_answered p) log1 ∧
    (¬ faulty E → NoDup (bench_event_ids (log0 ++ generate_events config)) → log1 = log0 ++ ran);
  st_metrics : accounted (cc_max_records_per_tx cfg) ran (ps_answered p) (ps_metrics p);
  st_errors : ps_errors p = take MAX_BOUNDED_ERRORS (messages (ps_answered p))
}.

(** After a panic the store holds the log grown by a prefix of what was sent. *)
Record wrecked (p : Pipeline) : Prop := {
  wk_fault : faulty E;
  wk_log : ∃ ran results log1, ran `prefix_of` ps_sent p ∧ runner_has (ps_runner p) log1 ∧
    appended log0 ran results log1
}.

(** The phases the writer can be in: it holds no batch while it waits. *)
Definition phase_ok (ph : WriterPhase) : Prop :=
  match ph with
  | Waiting b => b = []
  | Filling b => b ≠ [] ∧ length b ≤ Z.max 1 (cc_max_records_per_tx cfg)
  | Writing b final => b ≠ [] ∧ length b ≤ Z.max 1 (cc_max_records_per_tx cfg) ∧ final = false
  | Finished | Crashed => True
  end.

(** Where the events are that the channel took. *)
Definition flow (p : Pipeline) : Prop :=
  match ps_phase p with
  | Crashed => wrecked p
  | ph => ∃ ran, ps_sent p = ran ++ held ph ++ ps_channel p ∧ stored p ran
  end.

Record pipe_ok (p : Pipeline) : Prop := {
  po_submitted : ps_submitted p = ps_next p;
  po_rejected : ps_rejected p = ps_next p - length (ps_sent p);
  po_sent : ps_sent p `sublist_of` take (ps_next p) (generate_events config);
  po_next : ps_next p ≤ ic_total_records config;
  po_done : ps_producing p = false → Z.of_nat (ps_next p) = ic_total_records config;
  po_channel : length (ps_channel p) ≤ Z.max 1 (ic_channel_capacity config);
  po_config : runner_config (ps_runner p) = cfg;
  po_ready : runner_ready (ps_runner p);
  po_phase : phase_ok (ps_phase p);
  po_finished : ps_phase p = Finished → ps_producing p = false ∧ ps_channel p = [];
  po_flow : flow p
}.

(** The counters of the producer are not part of the flow. *)
Lemma flow_same p p' :
  flow p → ps_phase p' = ps_phase p → ps_channel p' = ps_channel p → ps_runner p' = ps_runner p →
  ps_metrics p' = ps_metrics p → ps_errors p' = ps_errors p → ps_sent p' = ps_sent p →
  ps_answered p' = ps_answered p → flow p'.
Proof.
  destruct p, p'; simpl. intros Hf -> -> -> -> -> -> ->. unfold flow in *; simpl in *.
  destruct ps_phase; try (destruct Hf as (ran & Hs & []); by exists ran). by destruct Hf.
Qed.

Lemma take_generated (n : nat) :
  n < ic_total_records config →
  take (S n) (generate_events config) = take n (generate_events config) ++ [event_of config n].
Proof.
  intros Hn. apply take_S_r. unfold generate_events. rewrite list_lookup_fmap.
  rewrite (lookup_seqZ_lt 0) by lia. done.
Qed.

Lemma pipe_ok_start runner :
  runner_ready runner → runner_has runner log0 → runner_config runner = cfg →
  0 ≤ ic_total_records config → pipe_ok (pipeline_start runner).
Proof.
  intros Hrd Hr Hc Ht. split; simpl; try done; try lia.
  unfold flow. simpl. exists []. split; [done|]. split; [|apply accounted_nil|done].
  exists log0. split; [done|]. split; [apply appended_nil|]. intros _ _. symmetry. apply app_nil_r.
Qed.

Lemma producer_step_ok p p' : pipe_ok p → producer_step config p = Some p' → pipe_ok p'.
Proof.
  intros Hp Hs. pose proof Hp as []. unfold producer_step in Hs.
  destruct (ps_producing p) eqn:Hprod; [|done].
  assert (Hnf : ps_phase p ≠ Finished) by (intros Hph; destruct (po_finished0 Hph); congruence).
  destruct (Z.ltb_spec (ps_next p) (ic_total_records config)) as [Hlt|Hge].
  - destruct (can_send config p) eqn:Hcan; injection Hs as <-.
    + unfold can_send in Hcan. split; simpl; try done; try lia.
      * rewrite length_app. simpl. lia.
      * rewrite take_generated by done. by apply sublist_app.
      * rewrite length_app. simpl. destruct (ps_phase p); try done; lia.
      * unfold flow in *. simpl. destruct (ps_phase p) eqn:Hph; try done; destruct po_flow0 as (ran & Hsent & Hst); exists ran;
          (split; [rewrite Hsent, <- !(assoc_L (++)); done|by destruct Hst]).
    + split; simpl; try done; try lia.
      * etrans; [done|]. rewrite take_generated by done. by apply sublist_inserts_r.
      * by apply (flow_same p).
  - injection Hs as <-. split; simpl; try done; try lia.
    by apply (flow_same p).
Qed.

(** The batch the writer holds has distinct events when the run has. *)
Lemma batch_distinct (ran batch channel sent : list SyntheticEvent) n :
  NoDup (bench_event_ids (log0 ++ generate_events config)) →
  sent `sublist_of` take n (generate_events config) → sent = ran ++ batch ++ channel →
  NoDup (bench_event_ids ((log0 ++ ran) ++ batch)).
Proof.
  intros Hnd Hsub ->. eapply sublist_NoDup; [exact Hnd|]. apply fmap_sublist.
  rewrite <- (assoc_L (++)). apply sublist_app; [done|].
  etrans; [|etrans; [exact Hsub|apply sublist_take]]. rewrite (assoc_L (++)). by apply sublist_inserts_r.
Qed.

(** The log has room for the held batch. *)
Lemma room_left p ran batch log1 :
  pipe_ok p → length log0 + ic_total_records config ≤ i64_max →
  ps_sent p = ran ++ batch ++ ps_channel p → appended log0 ran (ps_answered p) log1 →
  length log1 + length batch ≤ i64_max.
Proof.
  intros [] Hlen Hsent Ha. rewrite (ap_log _ _ _ _ Ha), length_app.
  pose proof (sublist_length _ _ (written_sublist ran (ps_answered p))).
  apply sublist_length in po_sent0. rewrite length_take, Hsent, !length_app in po_sent0. lia.
Qed.

(** A run on the held batch: the whole batch is answered, or the writer panics. *)
Lemma after_run_ok p p' batch final fuel now :
  pipe_ok p → ps_phase p = Writing batch final →
  length log0 + ic_total_records config ≤ i64_max →
  after_run final (runner_run fuel now batch (ps_runner p)) p = Some p' → pipe_ok p'.
Proof.
  intros Hp Hph Hlen Hs. pose proof Hp as []. unfold flow in po_flow0. rewrite Hph in po_flow0, po_phase0.
  destruct po_flow0 as (ran & Hsent & [(log1 & Hh & Ha & Hall) Hm He]). destruct po_phase0 as (_ & _ & ->).
  simpl in Hsent. set (run := runner_run fuel now batch (ps_runner p)) in *.
  assert (Hnf : run.1 ≠ OutOfFuel) by (destruct run as [[[]| |]]; done).
  pose proof (Forall2_length _ _ _ (ap_sealed _ _ _ _ Ha)) as Hans.
  pose proof (room_left p ran batch log1 Hp Hlen Hsent Ha) as Hl1.
  pose proof (ls_spec (fuel + length batch) now batch (ps_runner p) log1 po_ready0 Hh Hl1 ltac:(lia)) as Hspec.
  simpl in Hspec. rewrite (runner_fuel fuel) in Hspec by (done || lia). fold run in Hspec.
  destruct run as [[[results m]| |] r']; simpl in Hs, Hspec; [..|done]; injection Hs as <-.
  - destruct Hspec as (log' & (Hc' & Hrd' & Hh') & Ha' & Hm' & Hall'). split; simpl; try done; [congruence|].
    exists (ran ++ batch). split; [by rewrite Hsent, (assoc_L (++))|]. split; simpl.
    + exists log'. split; [done|]. split; [by eapply appended_app|]. intros Hf Hnd.
      rewrite (Hall Hf Hnd) in Hall'. rewrite Hall', (assoc_L (++)); [done..|].
      by eapply batch_distinct.
    + rewrite po_config0 in Hm'. by apply accounted_merge.
    + rewrite He, collect_errors_spec. unfold messages. by rewrite omap_app.
  - destruct Hspec as (Hf & j & results & log' & (Hc' & Hrd' & Hh') & Ha'). split; simpl; try done; [congruence|].
    split; [done|]. exists (ran ++ take j batch), (ps_answered p ++ results), log'. simpl.
    split_and!; [|done|by eapply appended_app]. rewrite Hsent. apply prefix_app.
    etrans; [apply prefix_take|by apply prefix_app_r].
Qed.

(** A step that moves an event or the writer, but stores nothing. *)
Lemma set_phase_ok p ph channel :
  pipe_ok p → phase_ok ph → ps_phase p ≠ Crashed → ph ≠ Crashed →
  held (ps_phase p) ++ ps_channel p = held ph ++ channel →
  (length channel ≤ length (ps_channel p))%nat →
  (ph = Finished → ps_producing p = false ∧ channel = []) → pipe_ok (set_phase ph channel p).
Proof.
  intros [] Hph Hc1 Hc2 Heq Hle Hfin. split; simpl; try done; [lia|]. unfold flow in *. simpl.
  destruct (ps_phase p), ph; simpl in *; try done; destruct po_flow0 as (ran & Hsent & Hst); exists ran;
    (split; [by rewrite Hsent, Heq|by destruct Hst]).
Qed.

Lemma writer_step_ok fuel now p p' :
  length log0 + ic_total_records config ≤ i64_max →
  pipe_ok p → writer_step fuel now p = Some p' → pipe_ok p'.
Proof.
  intros Hlen Hp Hs. pose proof (po_phase _ Hp) as Hph. unfold writer_step in Hs.
  rewrite (po_config _ Hp) in Hs. destruct (ps_phase p) as [b|b|b final| |] eqn:Hphase; try done.
  - simpl in Hph. subst b. destruct (ps_channel p) as [|e rest] eqn:Hch.
    + destruct (ps_producing p) eqn:Hprod; [done|]. injection Hs as <-.
      apply set_phase_ok; rewrite ?Hphase, ?Hch; done.
    + injection Hs as <-. apply set_phase_ok; rewrite ?Hphase, ?Hch; simpl; try done; [|lia].
      split; [done|]. simpl. lia.
  - destruct Hph as [Hne Hle]. destruct (Z.ltb_spec (length b) (cc_max_records_per_tx cfg)) as [Hlt|Hge].
    + destruct (ps_channel p) as [|e rest] eqn:Hch; injection Hs as <-;
        apply set_phase_ok; rewrite ?Hphase, ?Hch; simpl; try done; [|by rewrite <- (assoc_L (++))|lia].
      split; [by destruct b|]. rewrite length_app. simpl. lia.
    + injection Hs as <-. apply set_phase_ok; rewrite ?Hphase; done.
  - by eapply after_run_ok.
Qed.

Lemma pipeline_steps_ok p p' :
  length log0 + ic_total_records config ≤ i64_max →
  pipe_ok p → rtc (pipeline_step config) p p' → pipe_ok p'.
Proof.
  intros Hlen Hp Hs. revert Hp. induction Hs as [p|p p1 p' Hs _ IH]; [done|]. intros Hp. apply IH.
  destruct Hs; [by eapply producer_step_ok|by eapply writer_step_ok].
Qed.

(** ** Termination *)

(** What is left to do. *)
Definition phase_work (ph : WriterPhase) : nat :=
  match ph with
  | Waiting [] => 1
  | Waiting _ => 3
  | Filling _ => 3
  | Writing _ _ => 2
  | Finished | Crashed => 0
  end.

Definition work (p : Pipeline) : nat :=
  (5 * (Z.to_nat (ic_total_records config) - ps_next p) + 4 * length (ps_channel p) +
   phase_work (ps_phase p) + (if ps_producing p then 1 else 0))%nat.

Lemma step_work p p' : pipeline_step config p p' → (work p' < work p)%nat.
Proof.
  unfold work. intros [Hs|fuel now Hs].
  - unfold producer_step in Hs. destruct (ps_producing p); [|done].
    destruct (Z.ltb_spec (ps_next p) (ic_total_records config)).
    + destruct (can_send config p); injection Hs as <-; simpl; rewrite ?length_app; simpl; lia.
    + injection Hs as <-. simpl. lia.
  - unfold writer_step in Hs. destruct (ps_phase p) as [b|b|b final| |]; try done.
    + destruct (ps_channel p); [|injection Hs as <-; simpl; destruct b; simpl; lia].
      destruct (ps_producing p) eqn:Hprod; [done|].
      destruct (decide (b = [])) as [->|Hb]; injection Hs as <-; simpl; rewrite Hprod;
        [simpl; lia|destruct b; [done|simpl; lia]].
    + destruct (_ <? _); [destruct (ps_channel p)|]; injection Hs as <-; simpl; lia.
    + unfold after_run in Hs. destruct (runner_run fuel now b (ps_runner p)) as [[[]| |]];
        [..|done]; injection Hs as <-; simpl; [destruct final|]; simpl; lia.
Qed.

(** Both threads are done. *)
Definition settled (p : Pipeline) : Prop :=
  ps_producing p = false ∧ (ps_phase p = Finished ∨ ps_phase p = Crashed).

Lemma pipeline_progress p :
  length log0 + ic_total_records config ≤ i64_max →
  pipe_ok p → settled p ∨ ∃ p', pipeline_step config p p'.
Proof.
  intros Hlen Hp. destruct (ps_producing p) eqn:Hprod.
  { right. destruct (producer_step config p) as [p'|] eqn:Hs; [exists p'; by constructor|].
    unfold producer_step in Hs. rewrite Hprod in Hs.
    destruct (_ <? _); [destruct (can_send config p)|]; done. }
  destruct (ps_phase p) as [b|b|b final| |] eqn:Hph; [right..|left|left]; [..|split; auto|split; auto].
  - destruct (writer_step 0 0 p) as [p'|] eqn:Hs; [exists p'; by eapply step_writer|].
    unfold writer_step in Hs. rewrite Hph, Hprod in Hs. destruct (ps_channel p); [|done].
    by destruct (decide (b = [])).
  - destruct (writer_step 0 0 p) as [p'|] eqn:Hs; [exists p'; by eapply step_writer|].
    unfold writer_step in Hs. rewrite Hph in Hs. destruct (_ <? _); [destruct (ps_channel p)|]; done.
  - pose proof Hp as []. unfold flow in po_flow0. rewrite Hph in po_flow0.
    destruct po_flow0 as (ran & Hsent & [(log1 & Hh & Ha & _) _ _]). simpl in Hsent.
    pose proof (room_left p ran b log1 Hp Hlen Hsent Ha) as Hl1.
    pose proof (ls_spec (length b) 0 b (ps_runner p) log1 po_ready0 Hh Hl1 (le_n _)) as Hspec. simpl in Hspec.
    destruct (after_run final (runner_run (length b) 0 b (ps_runner p)) p) as [p'|] eqn:Hs.
    + exists p'. apply (step_writer _ _ _ (length b) 0). unfold writer_step. by rewrite Hph.
    + unfold after_run in Hs. by destruct (runner_run (length b) 0 b (ps_runner p)) as [[[]| |]].
Qed.
End Invariant.

(** ** Theorems *)
Lemma length_messages `{Sha256} events (results : list (result WriteResult string)) :
  length events = length results →
  (length (messages results) + length (written events results) = length events)%nat.
Proof.
  revert results. unfold written. induction events as [|ev events IH]; intros [|r results]; try done.
  intros [= Hl]. cbn [zip_with]. specialize (IH _ Hl). rewrite length_fmap in *. rewrite filter_cons.
  assert (Hm : length (messages (r :: results)) =
    (length (messages results) + if decide (is_ok r = true) then 0 else 1)%nat) by (destruct r; simpl; lia).
  rewrite Hm. simpl. destruct (decide (is_ok r = true)); simpl; lia.
Qed.

Lemma settled_stored `{Sha256} `{E : Engine} config log0 cfg p :
  pipe_ok config log0 cfg p → ps_phase p = Finished → stored config log0 cfg p (ps_sent p).
Proof.
  intros [] Hph. unfold flow in po_flow0. rewrite Hph in po_flow0.
  destruct po_flow0 as (ran & Hsent & Hst). destruct (po_finished0 Hph) as [_ Hch].
  rewrite Hch in Hsent. simpl in Hsent. rewrite (app_nil_r ran) in Hsent. by rewrite Hsent.
Qed.

(** What [run_pipeline] returns, and what the store holds then. *)
Lemma pipeline_accounts (S : Sha256) (E : Engine) (config : IngressConfig)
    (runner : CandidateRunner) (log0 : list SyntheticEvent) (p : Pipeline) (res : PipelineResult) :
  runner_ready runner → runner_has runner log0 → 0 ≤ ic_total_records config →
  length log0 + ic_total_records config ≤ i64_max →
  rtc (pipeline_step config) (pipeline_start runner) p → pipeline_result p = Some res →
  let m := pr_write_metrics res in
  pr_submitted res = ic_total_records config ∧
  pr_accepted res + pr_rejected_capacity res = pr_submitted res ∧
  wm_written_records m + wm_failed_records m = pr_accepted res ∧
  wm_max_observed_batch_size m ≤ Z.max 1 (cc_max_records_per_tx (runner_config runner)) ∧
  wm_written_records m ≤
    wm_committed_transactions m * Z.max 1 (cc_max_records_per_tx (runner_config runner)) ∧
  Z.of_nat (length (pr_errors res)) = Z.min 64 (wm_failed_records m) ∧
  (∃ stored_now, runner_has (ps_runner p) (log0 ++ stored_now) ∧
     stored_now `sublist_of` generate_events config ∧
     Z.of_nat (length stored_now) = wm_written_records m) ∧
  (reliable E → log0 = [] → ic_total_records config ≤ 2 ^ 48 →
     wm_written_records m = pr_accepted res ∧ pr_errors res = []).
Proof.
  intros Hrd Hr Ht Hlen Hs Hres. unfold pipeline_result in Hres.
  destruct (ps_phase p) eqn:Hph; try done. destruct (ps_producing p) eqn:Hprod; [done|].
  injection Hres as <-. simpl.
  pose proof (pipeline_steps_ok config log0 (runner_config runner) _ _ Hlen
                (pipe_ok_start _ _ _ _ Hrd Hr eq_refl Ht) Hs) as Hp.
  destruct (settled_stored _ _ _ _ Hp Hph) as [(log1 & Hh & Ha & Hall) [] He].
  pose proof Hp as []. pose proof (po_done0 Hprod) as Hnext.
  pose proof (Forall2_length _ _ _ (ap_sealed _ _ _ _ Ha)) as Hans.
  pose proof (length_messages _ _ Hans) as Hmsg. pose proof (ap_log _ _ _ _ Ha) as Hlog.
  split; [congruence|]. split; [lia|]. split; [lia|]. split; [lia|]. split; [done|].
  split; [rewrite He, length_take; unfold MAX_BOUNDED_ERRORS; lia|]. split.
  - exists (written (ps_sent p) (ps_answered p)). split; [by rewrite <- Hlog|]. split; [|lia].
    etrans; [apply written_sublist|]. etrans; [done|]. apply sublist_take.
  - intros HE -> H48. rewrite Hlog in Hall. simpl in Hall.
    specialize (Hall (reliable_not_faulty _ HE) (generated_nodup _ H48)). rewrite Hall in Hmsg, ac_written.
    split; [lia|]. rewrite He. by rewrite (nil_length_inv (messages (ps_answered p))) by lia.
Qed.

Lemma run_schedule_steps `{Sha256} `{Engine} fuel config schedule p :
  rtc (pipeline_step config) p (run_schedule fuel config schedule p).
Proof.
  revert p. induction schedule as [|b schedule IH]; intros p; simpl; [done|].
  etrans; [|apply IH]. destruct b.
  - destruct (producer_step config p) eqn:Hs; [|done]. by apply rtc_once, step_producer.
  - destruct (writer_step fuel 0 p) eqn:Hs; [|done]. by eapply rtc_once, step_writer.
Qed.

(** Three events through a channel of one; the writer starts after two. *)
Definition sample_ingress : IngressConfig := mkIngress 1 3 "i" "p" "n" 4.
Definition sample_runner : CandidateRunner := Monolithic (mkMono empty_bench monolithic).
Definition sample_run : Pipeline :=
  @run_schedule sample_sha256 sample_engine 8 sample_ingress
    [true; true; false; true; true; false; false; false; false]
    (pipeline_start sample_runner).

(** C15. The pipeline ends.  Run on a candidate that is ready (its configuration in
    the ranges of its types and, when it is segmented, a rollover limit other than
    zero, at which [write_batch] does not return), from its start no interleaving of the two threads has
    more than five steps per event and two more; and a state in which neither
    thread can move is one in which [run_pipeline] returns its result, or, only
    when the engine fails, one in which the writer panicked. *)
Theorem pipeline_ends (S : Sha256) (E : Engine) (config : IngressConfig)
    (runner : CandidateRunner) (log0 : list SyntheticEvent) :
  runner_ready runner → runner_has runner log0 → 0 ≤ ic_total_records config →
  length log0 + ic_total_records config ≤ i64_max →
  (∀ n p, nsteps (pipeline_step config) n (pipeline_start runner) p →
     n ≤ 5 * ic_total_records config + 2) ∧
  (∀ p, rtc (pipeline_step config) (pipeline_start runner) p → (∀ p', ¬ pipeline_step config p p') →
     (∃ res, pipeline_result p = Some res) ∨ (faulty E ∧ ps_phase p = Crashed)).
Proof.
  intros Hrd Hr Ht Hlen. split.
  - intros n p Hs. cut (n + work config p ≤ work config (pipeline_start runner))%nat.
    { unfold work. simpl. lia. }
    induction Hs as [p|n p p1 p2 Hs _ IH]; [lia|]. apply step_work in Hs. lia.
  - intros p Hs Hstop.
    pose proof (pipeline_steps_ok config log0 (runner_config runner) _ _ Hlen
                  (pipe_ok_start _ _ _ _ Hrd Hr eq_refl Ht) Hs) as Hp.
    destruct (pipeline_progress _ _ _ _ Hlen Hp) as [[Hprod Hph]|[p' Hp']]; [|by apply Hstop in Hp'].
    destruct Hph as [Hph|Hph].
    + left. unfold pipeline_result. rewrite Hph, Hprod. eauto.
    + right. split; [|done]. pose proof (po_flow _ _ _ _ Hp) as Hf. unfold flow in Hf. rewrite Hph in Hf.
      by destruct Hf.
Qed.

Lemma pipeline_ends_witness :
  ps_phase sample_run = Finished ∧
  ∀ n p, nsteps (@pipeline_step sample_sha256 sample_engine sample_ingress) n
           (pipeline_start sample_runner) p → n ≤ 17.
Proof.
  split; [vm_compute; reflexivity|].
  destruct (pipeline_ends sample_sha256 sample_engine sample_ingress sample_runner []) as [Hbound _].
  - apply monolithic_typed.
  - apply (@store_ok_empty sample_sha256 sample_engine).
  - discriminate.
  - vm_compute. discriminate.
  - exact Hbound.
Defined.

(** C19. Nothing is lost or reordered between the threads.  Run on a candidate that
    is ready (as for the end of the pipeline), in every reachable state
    the channel holds no more than its capacity (one event being handed over when
    that is zero), and the writer no more than its record limit.  While the writer
    has not panicked, what the channel took is, in order, the events that are
    answered, the batch the writer holds and the contents of the channel.  The
    writer holds nothing while it waits, so that the flush after its loop never
    runs. *)
Theorem pipeline_in_order (S : Sha256) (E : Engine) (config : IngressConfig)
    (runner : CandidateRunner) (log0 : list SyntheticEvent) (p : Pipeline) :
  runner_ready runner → runner_has runner log0 → 0 ≤ ic_total_records config →
  length log0 + ic_total_records config ≤ i64_max →
  rtc (pipeline_step config) (pipeline_start runner) p →
  length (ps_channel p) ≤ Z.max 1 (ic_channel_capacity config) ∧
  length (held (ps_phase p)) ≤ Z.max 1 (cc_max_records_per_tx (runner_config runner)) ∧
  ps_sent p `sublist_of` generate_events config ∧
  (ps_phase p ≠ Crashed → ∃ ran, ps_sent p = ran ++ held (ps_phase p) ++ ps_channel p ∧
     Forall2 sealed ran (ps_answered p)) ∧
  (∀ b, ps_phase p = Waiting b → b = []) ∧ (∀ b, ps_phase p ≠ Writing b true).
Proof.
  intros Hrd Hr Ht Hlen Hs.
  pose proof (pipeline_steps_ok config log0 (runner_config runner) _ _ Hlen
                (pipe_ok_start _ _ _ _ Hrd Hr eq_refl Ht) Hs) as [].
  split; [done|]. split.
  { destruct (ps_phase p) as [b|b|b f| |]; simpl in *; subst; simpl; [lia|apply po_phase0..|lia|lia]. }
  split; [etrans; [done|apply sublist_take]|]. split.
  { intros Hc. unfold flow in po_flow0.
    destruct (ps_phase p); try done; destruct po_flow0 as (ran & Hsent & [(log1 & _ & Ha & _) _ _]);
      exists ran; (split; [done|apply Ha]). }
  split; intros b Hb; rewrite Hb in po_phase0; simpl in po_phase0; [done|]. by destruct po_phase0 as (_ & _ & ?).
Qed.

Lemma pipeline_in_order_witness :
  length (ps_channel sample_run) ≤ 1 ∧ ∀ b, ps_phase sample_run ≠ Writing b true.
Proof.
  destruct (pipeline_in_order sample_sha256 sample_engine sample_ingress sample_runner [] sample_run)
    as (Hch & _ & _ & _ & _ & Hfin).
  - apply monolithic_typed.
  - apply (@store_ok_empty sample_sha256 sample_engine).
  - discriminate.
  - vm_compute. discriminate.
  - apply run_schedule_steps.
  - split; [exact Hch|exact Hfin].
Defined.
