(* ===== verification/FileSystem.v ===== *)
(** * Files and directories (the uses of std::path and std::fs in the benchmark)

    Paths, a file system without links, the directory of a run
    (candidate.rs, [derive_run_data_dir] and [prepare_run_data_dir]) and what
    the calls leave behind, whichever of them fails.  A file holds anything: a
    text or a database. *)
From S2P Require Import Prelude Checksum JournalDb SqlLogic BenchEvents BenchStore BenchBatches.
Open Scope Z_scope.

(** ** Paths *)

(** [std::path::Component], and a [Path] as its components. *)
Inductive PathComponent : Type :=
| RootDir
| CurDir
| ParentDir
| NormalName (name : string).
#[export] Instance PathComponent_eq_dec : EqDecision PathComponent.
Proof. solve_decision. Defined.
Definition Path : Type := list PathComponent.

(** [Path::file_name]: the last component, when it is a name. *)
Definition file_name (p : Path) : option string :=
  match last p with Some (NormalName name) => Some name | _ => None end.

Fixpoint before_last_dot (s : string) : option string :=
  match s with
  | "" => None
  | String c rest =>
      match before_last_dot rest with
      | Some b => Some (String c b)
      | None => if decide (c = "."%char) then Some "" else None
      end
  end.

(** [Path::file_stem]: the name up to its last dot, unless that is its first
    character. *)
Definition file_stem (p : Path) : option string :=
  (λ name, match before_last_dot name with None | Some "" => name | Some b => b end) <$> file_name p.

(** [Path::parent]: the path without its last component; the root and the empty
    path have none. *)
Definition path_parent (p : Path) : option Path :=
  match last p with
  | None | Some RootDir => None
  | Some _ => Some (take (pred (length p)) p)
  end.

Definition derive_run_data_dir (output : Path) : Path :=
  default [CurDir] (path_parent output) ++
  [NormalName "runs"; NormalName (default "default" (file_stem output))].

(** ** The file system *)
Inductive Node (C : Type) : Type :=
| Directory
| RegularFile (contents : C).
Arguments Directory {C}.
Arguments RegularFile {C} contents.

(** A place is the list of names that leads to it from the root. *)
Record FileSystem (C : Type) : Type := mkFs {
  fs_cwd : list string;
  fs_nodes : gmap (list string) (Node C)
}.
Arguments mkFs {C} _ _.
Arguments fs_cwd {C} _.
Arguments fs_nodes {C} _.

Inductive IoError : Type :=
| IoNotFound
| IoAlreadyExists
| IoNotADirectory
| IoIsADirectory
| IoOther (message : string).

Definition path_step (at_ : list string) (c : PathComponent) : list string :=
  match c with
  | RootDir => []
  | CurDir => at_
  | ParentDir => take (pred (length at_)) at_
  | NormalName name => at_ ++ [name]
  end.

Section Fs.
Context {C : Type}.
Implicit Types (fs : FileSystem C) (p : Path) (loc : list string).

(** The root is always there. *)
Definition node_at fs loc : option (Node C) :=
  match loc with [] => Some Directory | _ => fs_nodes fs !! loc end.

(** The walk along a path: what it passes must be a directory. *)
Fixpoint locate_from fs loc p : result (list string) IoError :=
  match p with
  | [] => Ok loc
  | RootDir :: p => locate_from fs [] p
  | c :: p =>
      match node_at fs loc with
      | None => Err IoNotFound
      | Some (RegularFile _) => Err IoNotADirectory
      | Some Directory => locate_from fs (path_step loc c) p
      end
  end.

Definition locate fs p : result (list string) IoError :=
  match p with [] => Err IoNotFound | _ => locate_from fs (fs_cwd fs) p end.

Definition path_node fs p : option (Node C) :=
  match locate fs p with Ok loc => node_at fs loc | Err _ => None end.

Definition set_node loc (n : Node C) fs : FileSystem C := mkFs (fs_cwd fs) (<[loc := n]> (fs_nodes fs)).

(** ** Calls *)
Section Calls.
Context `{E : Engine}.

(** A call may fail as a statement may. *)
Definition os_call (f : FileSystem C → result unit IoError * FileSystem C)
  : Store (FileSystem C) (result unit IoError) :=
  r ← bench_statement (λ fs, Ok (f fs));
  mret (match r with Ok r => r | Err e => Err (IoOther e) end).

(** [mkdir] *)
Definition make_dir p : Store (FileSystem C) (result unit IoError) :=
  os_call (λ fs, match locate fs p with
                 | Err e => (Err e, fs)
                 | Ok loc => match node_at fs loc with
                             | Some _ => (Err IoAlreadyExists, fs)
                             | None => (Ok tt, set_node loc Directory fs)
                             end
                 end).

(** [Path::exists] and [Path::is_dir]: a call that fails counts as no. *)
Definition ask (f : FileSystem C → bool) : Store (FileSystem C) bool :=
  r ← bench_statement (λ fs, Ok (f fs, fs));
  mret (match r with Ok b => b | Err _ => false end).
Definition path_exists p : Store (FileSystem C) bool :=
  ask (λ fs, match path_node fs p with Some _ => true | None => false end).
Definition path_is_dir p : Store (FileSystem C) bool :=
  ask (λ fs, match path_node fs p with Some Directory => true | _ => false end).

(** [std::fs::create_dir_all], which goes up as long as a parent is missing;
    [depth] bounds the number of parents. *)
Fixpoint create_dirs (depth : nat) p : Store (FileSystem C) (result unit IoError) :=
  match p with
  | [] => mret (Ok tt)
  | _ =>
      r ← make_dir p;
      match r with
      | Ok _ => mret (Ok tt)
      | Err IoNotFound =>
          match path_parent p, depth with
          | Some parent, S depth =>
              u ← create_dirs depth parent;
              match u with
              | Err e => mret (Err e)
              | Ok _ =>
                  r ← make_dir p;
                  match r with
                  | Ok _ => mret (Ok tt)
                  | Err e => d ← path_is_dir p; mret (if d : bool then Ok tt else Err e)
                  end
              end
          | _, _ => mret (Err (IoOther "failed to create whole tree"))
          end
      | Err e => d ← path_is_dir p; mret (if d : bool then Ok tt else Err e)
      end
  end.
Definition create_dir_all p : Store (FileSystem C) (result unit IoError) := create_dirs (length p) p.

(** [std::fs::remove_dir_all].  A removal that fails half-way leaves some of the
    files; the callers end there, and the model leaves them all. *)
Definition remove_dir_all p : Store (FileSystem C) (result unit IoError) :=
  os_call (λ fs, match locate fs p with
                 | Err e => (Err e, fs)
                 | Ok loc =>
                     match node_at fs loc with
                     | None => (Err IoNotFound, fs)
                     | Some (RegularFile _) => (Err IoNotADirectory, fs)
                     | Some Directory =>
                         (Ok tt, mkFs (fs_cwd fs) (filter (λ x, ¬ loc `prefix_of` x.1) (fs_nodes fs)))
                     end
                 end).

(** [std::fs::write] *)
Definition write_file p (contents : C) : Store (FileSystem C) (result unit IoError) :=
  os_call (λ fs, match locate fs p with
                 | Err e => (Err e, fs)
                 | Ok loc => match node_at fs loc with
                             | Some Directory => (Err IoIsADirectory, fs)
                             | _ => (Ok tt, set_node loc (RegularFile contents) fs)
                             end
                 end).

(** ** The directory of a run *)
Definition expect_io {A} (r : result A IoError) : Store (FileSystem C) A :=
  match r with Ok a => mret a | Err _ => store_panic end.

Definition prepare_run_data_dir (dir : Path) : Store (FileSystem C) unit :=
  there ← path_exists dir;
  _ ← (if there : bool then r ← remove_dir_all dir; expect_io r else mret tt);
  r ← create_dir_all dir;
  expect_io r.
End Calls.
End Fs.

(** ** Where paths lead *)

(** A path without [..], with the root at its head only. *)
Definition is_name (c : PathComponent) : bool :=
  match c with CurDir | NormalName _ => true | _ => false end.
Definition plain (p : Path) : bool :=
  match p with RootDir :: q => forallb is_name q | _ => forallb is_name p end.

(** The place a path names. *)
Definition resolve {C} (fs : FileSystem C) (p : Path) : list string := foldl path_step (fs_cwd fs) p.

(** The parent of everything is a directory, and so is the working directory. *)
Record fs_ok {C} (fs : FileSystem C) : Prop := {
  fo_cwd : node_at fs (fs_cwd fs) = Some Directory;
  fo_parent : ∀ loc name, is_Some (fs_nodes fs !! (loc ++ [name])) → node_at fs loc = Some Directory
}.

Section Places.
Context {C : Type}.
Implicit Types (fs : FileSystem C) (p q : Path) (loc : list string).

Lemma names_extend loc p : forallb is_name p = true → loc `prefix_of` foldl path_step loc p.
Proof.
  revert loc. induction p as [|c p IH]; intros loc Hp; [done|]. simpl in *.
  apply andb_prop in Hp as [Hc Hp]. specialize (IH (path_step loc c) Hp).
  destruct c; try done. by apply prefix_app_l in IH.
Qed.

Lemma locate_from_resolve fs loc p loc' : locate_from fs loc p = Ok loc' → loc' = foldl path_step loc p.
Proof.
  revert loc. induction p as [|c p IH]; intros loc Hl; simpl in *; [by injection Hl|].
  destruct c; repeat case_match; simplify_eq; auto.
Qed.

Lemma locate_resolve fs p loc : locate fs p = Ok loc → loc = resolve fs p.
Proof. unfold locate. destruct p; [done|]. apply locate_from_resolve. Qed.

(** What lies above something is a directory. *)
Lemma above_is_dir fs loc loc' :
  fs_ok fs → loc `prefix_of` loc' → loc ≠ loc' → is_Some (fs_nodes fs !! loc') → node_at fs loc = Some Directory.
Proof.
  intros Hok [rest ->]. revert loc. induction rest as [|name rest IH]; intros loc Hne Hs.
  { rewrite app_nil_r in Hne. done. }
  destruct rest as [|name' rest]; [by apply (fo_parent _ Hok) in Hs|].
  replace (loc ++ name :: name' :: rest) with ((loc ++ [name]) ++ name' :: rest) in Hs
    by by rewrite <- app_assoc.
  pose proof (IH (loc ++ [name])) as Hd.
  assert (Hd' : node_at fs (loc ++ [name]) = Some Directory).
  { apply Hd; [|done]. intros Heq. apply (f_equal length) in Heq. rewrite !length_app in Heq. simpl in Heq. lia. }
  apply (fo_parent _ Hok loc name). unfold node_at in Hd'. destruct (loc ++ [name]) eqn:Hn; [|eauto].
  by destruct loc.
Qed.

Lemma locate_from_dir fs loc p :
  fs_ok fs → forallb is_name p = true → node_at fs loc = Some Directory →
  node_at fs (foldl path_step loc p) = Some Directory →
  locate_from fs loc p = Ok (foldl path_step loc p).
Proof.
  intros Hok. revert loc. induction p as [|c p IH]; intros loc Hp Hloc Hs; [done|]. simpl in *.
  apply andb_prop in Hp as [Hc Hp]. destruct c as [| | |name]; try done; rewrite Hloc; [by apply IH|].
  apply IH; [done| |done]. simpl in *. pose proof (names_extend (loc ++ [name]) p Hp) as Hpre.
  destruct (decide (loc ++ [name] = foldl path_step (loc ++ [name]) p)) as [->|Hne]; [done|].
  apply (above_is_dir fs _ _ Hok Hpre Hne).
  destruct (foldl path_step (loc ++ [name]) p) eqn:Hf; [|by eexists].
  apply prefix_nil_inv in Hpre. by destruct loc.
Qed.

(** A plain path to a directory leads there. *)
Lemma locate_dir fs p :
  fs_ok fs → plain p = true → p ≠ [] → node_at fs (resolve fs p) = Some Directory →
  locate fs p = Ok (resolve fs p).
Proof.
  intros Hok Hp Hne Hd. unfold locate, resolve, plain in *.
  destruct p as [|[| | |name] p]; try done; simpl in *.
  - by apply locate_from_dir.
  - apply (locate_from_dir fs (fs_cwd fs) (CurDir :: p)); [done..|apply Hok|done].
  - apply (locate_from_dir fs (fs_cwd fs) (NormalName name :: p)); [done..|apply Hok|done].
Qed.

(** ** Creating directories *)

(** [fs'] has everything of [fs], and besides only directories on the way to [loc]. *)
Record grown loc fs fs' : Prop := {
  gr_cwd : fs_cwd fs' = fs_cwd fs;
  gr_keeps : fs_nodes fs ⊆ fs_nodes fs';
  gr_new : ∀ x n, fs_nodes fs' !! x = Some n → fs_nodes fs !! x = Some n ∨ n = Directory ∧ x `prefix_of` loc;
  gr_ok : fs_ok fs → fs_ok fs'
}.

Lemma grown_refl loc fs : grown loc fs fs.
Proof. split; [done..|by auto|done]. Qed.

Lemma grown_trans loc loc' fs1 fs2 fs3 :
  loc `prefix_of` loc' → grown loc fs1 fs2 → grown loc' fs2 fs3 → grown loc' fs1 fs3.
Proof.
  intros Hpre [Hc1 Hk1 Hn1 Ho1] [Hc2 Hk2 Hn2 Ho2]. split; [congruence|by etrans| |by auto].
  intros x n Hx. destruct (Hn2 x n Hx) as [Hx2|?]; [|by right].
  destruct (Hn1 x n Hx2) as [?|[-> ?]]; [by left|]. right. split; [done|]. by etrans.
Qed.

Lemma node_at_grown loc fs fs' x n : grown loc fs fs' → node_at fs x = Some n → node_at fs' x = Some n.
Proof. intros [_ Hk _ _]. unfold node_at. destruct x; [done|]. intros Hx. by apply (lookup_weaken _ _ _ _ Hx). Qed.

Lemma resolve_grown loc fs fs' p : grown loc fs fs' → resolve fs' p = resolve fs p.
Proof. intros [Hc _ _ _]. unfold resolve. by rewrite Hc. Qed.

(** A walk ends in a directory or just below one. *)
Definition reachable fs loc : Prop :=
  node_at fs loc = Some Directory ∨ ∃ dir name, loc = dir ++ [name] ∧ node_at fs dir = Some Directory.

Lemma locate_from_reachable fs start p loc :
  fs_ok fs → reachable fs start → locate_from fs start p = Ok loc → reachable fs loc.
Proof.
  intros Hok. revert start. induction p as [|c p IH]; intros start Hst Hl; simpl in Hl; [by injection Hl as <-|].
  destruct c; [by apply (IH []); [left|]|..];
    destruct (node_at fs start) as [[|]|] eqn:Hd; try done; apply (IH _) in Hl; try done.
  - left. destruct start as [|name start _] using rev_ind; [done|]. simpl.
    rewrite length_app, Nat.add_1_r. simpl. rewrite take_app_length.
    apply (fo_parent _ Hok start name). unfold node_at in Hd.
    destruct (start ++ [name]) eqn:Hn; [by destruct start|eauto].
  - right. eauto.
Qed.

Lemma locate_reachable fs p loc : fs_ok fs → locate fs p = Ok loc → reachable fs loc.
Proof.
  intros Hok. unfold locate. destruct p; [done|]. apply locate_from_reachable; [done|left; apply Hok].
Qed.

(** A new node where there was no directory. *)
Lemma set_node_ok fs loc n :
  fs_ok fs → reachable fs loc → node_at fs loc ≠ Some Directory → fs_ok (set_node loc n fs).
Proof.
  intros Hok Hr Hn.
  assert (Hkeep : ∀ x, node_at fs x = Some Directory → node_at (set_node loc n fs) x = Some Directory).
  { intros x Hx. destruct (decide (x = loc)) as [->|Hne]; [done|]. unfold node_at in *. destruct x; [done|].
    simpl. by rewrite lookup_insert_ne. }
  split; [apply Hkeep, Hok|]. intros x name Hs. apply Hkeep. simpl in Hs.
  destruct (decide (x ++ [name] = loc)) as [Heq|Hne].
  - destruct Hr as [?|(dir & name' & -> & Hd)]; [done|]. by apply app_inj_2 in Heq as [-> _].
  - rewrite lookup_insert_ne in Hs by done. by apply (fo_parent _ Hok x name).
Qed.

Section Create.
Context `{E : Engine}.

Lemma swp_os_call f (Q : result unit IoError → FileSystem C → Prop) R fs pc :
  (∀ e, faulty E → Q (Err (IoOther e)) fs) → Q (f fs).1 (f fs).2 → swp (os_call f) Q R (fs, pc).
Proof.
  intros Hf Hok. apply swp_bind, swp_statement; [intros e He pc'; by apply swp_ret, Hf|].
  destruct (f fs). intros pc'. by apply swp_ret.
Qed.

Lemma swp_make_dir p fs pc :
  swp (make_dir p) (λ r fs', grown (resolve fs p) fs fs' ∧
    (r = Ok tt → node_at fs' (resolve fs p) = Some Directory)) (λ _, False) (fs, pc).
Proof.
  apply swp_os_call; [intros; split; [apply grown_refl|done]|].
  destruct (locate fs p) as [loc|] eqn:Hl; [|split; [apply grown_refl|done]].
  destruct (node_at fs loc) eqn:Hn; [split; [apply grown_refl|done]|]. simpl.
  pose proof (locate_resolve _ _ _ Hl) as <-. split.
  - split; [done|apply insert_subseteq; unfold node_at in Hn; by destruct loc| |].
    + intros x n. simpl. rewrite lookup_insert. case_decide; [|by left].
      intros [= <-]. right. by subst.
    + intros Hok. apply set_node_ok; [done|by eapply locate_reachable|by rewrite Hn].
  - intros _. unfold node_at in *. destruct loc; [done|]. apply lookup_insert_eq.
Qed.

Lemma swp_is_dir p fs pc (Q : bool → FileSystem C → Prop) R :
  (∀ b, (b = true → node_at fs (resolve fs p) = Some Directory) → Q b fs) →
  swp (path_is_dir p) Q R (fs, pc).
Proof.
  intros HQ. apply swp_bind, swp_statement; [intros e _ pc'; by apply swp_ret, HQ|].
  intros pc'. apply swp_ret, HQ. unfold path_node. destruct (locate fs p) eqn:Hl; [|done].
  rewrite <- (locate_resolve _ _ _ Hl). by destruct (node_at fs a) as [[]|].
Qed.

Lemma parent_plain p q :
  plain p = true → path_parent p = Some q →
  plain q = true ∧ ∀ fs, resolve fs q `prefix_of` resolve fs p.
Proof.
  destruct p as [|c q' _] using rev_ind; [done|]. unfold path_parent. rewrite last_snoc, length_app, Nat.add_1_r.
  simpl. rewrite take_app_length. intros Hp Hq.
  assert (Hqq : q = q') by (by destruct c; simplify_eq). subst q'.
  assert (Hq' : plain q = true ∧ is_name c = true).
  { destruct q as [|[| | |name] q]; simpl in *; try by destruct c.
    all: rewrite forallb_app in Hp; simpl in Hp; rewrite andb_true_r in Hp; by apply andb_prop in Hp. }
  destruct Hq' as [Hpq Hc]. split; [done|]. intros fs. unfold resolve. rewrite foldl_app. simpl.
  destruct c; try done. by eexists.
Qed.

Definition created p fs (r : result unit IoError) fs' : Prop :=
  grown (resolve fs p) fs fs' ∧ (r = Ok tt → p ≠ [] → node_at fs' (resolve fs p) = Some Directory).

Lemma swp_check_dir p fs fs1 e pc :
  grown (resolve fs p) fs fs1 →
  swp (d ← path_is_dir p; mret (if d : bool then Ok tt else Err e)) (created p fs) (λ _, False) (fs1, pc).
Proof.
  intros Hg. apply swp_bind, swp_is_dir. intros d Hd pc'. apply swp_ret. split; [done|].
  rewrite (resolve_grown _ _ _ p Hg) in Hd. destruct d; [by auto|done].
Qed.

Lemma swp_create_dirs depth p fs pc :
  plain p = true → swp (create_dirs depth p) (created p fs) (λ _, False) (fs, pc).
Proof.
  revert p fs pc. induction depth as [|depth IH]; intros p fs pc Hp;
    (destruct p as [|c p']; [by apply swp_ret; split; [apply grown_refl|]|]); cbn [create_dirs];
    set (p := c :: p') in *; apply swp_bind; (eapply swp_mono; [apply swp_make_dir| |done]); simpl;
    intros [[]|e] fs1 [Hg Hd] pc1; try (apply swp_ret; by split; auto);
    (destruct e; try by apply swp_check_dir); [by destruct (path_parent p); apply swp_ret; split|].
  destruct (path_parent p) as [q|] eqn:Hq; [|by apply swp_ret; split].
  destruct (parent_plain p q Hp Hq) as [Hpq Hpre].
  apply swp_bind. eapply swp_mono; [by apply IH| |done]. intros [[]|e] fs2 [Hg2 _] pc2;
    rewrite (resolve_grown _ _ _ q Hg) in Hg2;
    pose proof (grown_trans _ _ _ _ _ (Hpre fs) Hg2 (grown_refl (resolve fs p) _)) as Hg2';
    pose proof (grown_trans _ _ _ _ _ (reflexivity _) Hg Hg2') as Hg12; [|by apply swp_ret; split].
  apply swp_bind. eapply swp_mono; [apply swp_make_dir| |done]. simpl. intros r fs3 [Hg3 Hd3] pc3.
  rewrite (resolve_grown _ _ _ p Hg12) in Hg3, Hd3.
  pose proof (grown_trans _ _ _ _ _ (reflexivity _) Hg12 Hg3) as Hg13.
  destruct r as [[]|e]; [apply swp_ret; by split; auto|by apply swp_check_dir].
Qed.
End Create.
End Places.

(** ** The directory of a run is empty *)
Section Prepare.
Context {C : Type} `{E : Engine}.
Implicit Types (fs : FileSystem C) (loc : list string).

(** [fs'] is [fs] without what was below [loc]. *)
Record cleared loc fs fs' : Prop := {
  cl_cwd : fs_cwd fs' = fs_cwd fs;
  cl_sub : fs_nodes fs' ⊆ fs_nodes fs;
  cl_below : ∀ x, loc `prefix_of` x → x ≠ loc → fs_nodes fs' !! x = None;
  cl_keeps : ∀ x n, ¬ loc `prefix_of` x → fs_nodes fs !! x = Some n → fs_nodes fs' !! x = Some n;
  cl_ok : fs_ok fs'
}.

(** There is nothing below what is not a directory. *)
Lemma nothing_below loc fs : fs_ok fs → node_at fs loc ≠ Some Directory → cleared loc fs fs.
Proof.
  intros Hok Hn. split; [done..| |done|done]. intros x Hpre Hne.
  destruct (fs_nodes fs !! x) eqn:Hx; [|done]. destruct Hn. apply (above_is_dir fs loc x); eauto.
Qed.

Lemma removed_cleared loc fs :
  fs_ok fs → loc ≠ [] → ¬ loc `prefix_of` fs_cwd fs →
  cleared loc fs (mkFs (fs_cwd fs) (filter (λ x, ¬ loc `prefix_of` x.1) (fs_nodes fs))).
Proof.
  intros Hok Hne Hcwd.
  assert (Hdir : ∀ x, ¬ loc `prefix_of` x → node_at fs x = Some Directory →
    node_at (mkFs (fs_cwd fs) (filter (λ x, ¬ loc `prefix_of` x.1) (fs_nodes fs))) x = Some Directory).
  { intros x Hx. unfold node_at. destruct x; [done|]. simpl. intros ?. by apply map_lookup_filter_Some. }
  split; [done|apply map_filter_subseteq|..]; simpl.
  - intros x Hpre _. apply map_lookup_filter_None. right. by intros n _ [].
  - intros x n Hx Hn. by apply map_lookup_filter_Some.
  - split; [by apply Hdir; [|apply Hok]|]. intros x name [n [Hn Hx]%map_lookup_filter_Some]. simpl in Hx.
    apply Hdir; [|apply (fo_parent _ Hok x name); eauto]. intros Hpre. by apply Hx, prefix_app_r.
Qed.

Lemma swp_create_cleared dir fs fs1 pc :
  plain dir = true → dir ≠ [] → cleared (resolve fs dir) fs fs1 →
  let loc := resolve fs dir in
  swp (r ← create_dir_all dir; expect_io r) (λ _ fs',
    fs_ok fs' ∧ node_at fs' loc = Some Directory ∧
    (∀ x, loc `prefix_of` x → x ≠ loc → fs_nodes fs' !! x = None) ∧
    (∀ x n, ¬ loc `prefix_of` x → fs_nodes fs !! x = Some n → fs_nodes fs' !! x = Some n) ∧
    (∀ x n, fs_nodes fs' !! x = Some n → fs_nodes fs !! x = Some n ∨ n = Directory ∧ x `prefix_of` loc))
    (λ _, True) (fs1, pc).
Proof.
  intros Hp Hne [Hcwd Hsub Hbelow Hkeeps Hok] loc.
  assert (Hres : resolve fs1 dir = loc) by (unfold resolve; by rewrite Hcwd).
  apply swp_bind. eapply swp_mono; [by apply swp_create_dirs| |done]. unfold created. rewrite Hres.
  intros [[]|e] fs2 [Hg Hd] pc2; [|done]. apply swp_ret. simpl. split; [by apply Hg|]. split; [by apply Hd|].
  split; [|split].
  - intros x Hpre Hx. destruct (fs_nodes fs2 !! x) as [n|] eqn:Hn; [|done].
    destruct (gr_new _ _ _ Hg x n Hn) as [Hold|[_ Hpre']]; [by rewrite Hbelow in Hold|].
    destruct Hx. by apply (anti_symm prefix).
  - intros x n Hx Hn. apply (lookup_weaken (fs_nodes fs1)); [by apply Hkeeps|apply Hg].
  - intros x n Hn. destruct (gr_new _ _ _ Hg x n Hn) as [Hold|?]; [left|by right].
    by apply (lookup_weaken _ _ _ _ Hold).
Qed.
End Prepare.

(** [prepare_run_data_dir] starts clean.  When it returns, and the question whether
    the directory is there was answered, the directory is there and holds
    nothing; what was not in it is still there, and nothing is new but the
    directories that lead to it. *)
Theorem prepared_is_empty {C} (E : Engine) (fs fs' : FileSystem C) (dir : Path) (pc' : nat) :
  let loc := resolve fs dir in
  fs_ok fs → plain dir = true → dir ≠ [] → loc ≠ [] → ¬ loc `prefix_of` fs_cwd fs →
  sql_fault O = None → prepare_run_data_dir dir (fs, O) = (Done tt, (fs', pc')) →
  fs_ok fs' ∧ node_at fs' loc = Some Directory ∧
  (∀ x, loc `prefix_of` x → x ≠ loc → fs_nodes fs' !! x = None) ∧
  (∀ x n, ¬ loc `prefix_of` x → fs_nodes fs !! x = Some n → fs_nodes fs' !! x = Some n) ∧
  (∀ x n, fs_nodes fs' !! x = Some n → fs_nodes fs !! x = Some n ∨ n = Directory ∧ x `prefix_of` loc).
Proof.
  intros loc Hok Hp Hne Hroot Hcwd Hf Hrun.
  assert (Hask : @path_exists C E dir (fs, O) =
    (Done (match path_node fs dir with Some _ => true | None => false end), (fs, 1%nat))).
  { unfold path_exists, ask, mbind, store_bind, bench_statement. by rewrite Hf. }
  unfold prepare_run_data_dir in Hrun. unfold mbind at 1, store_bind at 1 in Hrun. rewrite Hask in Hrun.
  pose proof (swp_create_cleared (E := E) dir fs) as Hcreate. fold loc in Hcreate. unfold swp in Hcreate.
  destruct (path_node fs dir) as [n|] eqn:Hn.
  - assert (Hrem : swp (r ← remove_dir_all dir; expect_io r) (λ _ fs1, cleared loc fs fs1) (λ _, True) (fs, 1%nat)).
    { apply swp_bind, swp_os_call; [done|]. intros pc1. unfold path_node in Hn.
      destruct (locate fs dir) as [loc'|] eqn:Hl; [|done]. rewrite (locate_resolve _ _ _ Hl) in *. fold loc in Hn |- *.
      rewrite Hn. destruct n; [|done]. by apply swp_ret, removed_cleared. }
    unfold swp in Hrem. unfold mbind at 1, store_bind at 1 in Hrun.
    destruct ((r ← remove_dir_all dir; expect_io r) (fs, 1%nat)) as [[[]| |] [fs1 pc1]]; try done.
    specialize (Hcreate fs1 pc1 Hp Hne Hrem). simpl in Hrun, Hcreate. by rewrite Hrun in Hcreate.
  - unfold mbind at 1, store_bind at 1 in Hrun. simpl in Hrun.
    specialize (Hcreate fs 1%nat Hp Hne). rewrite Hrun in Hcreate. apply Hcreate, nothing_below; [done|].
    intros Hd. unfold path_node in Hn. rewrite (locate_dir fs dir Hok Hp Hne Hd) in Hn.
    by assert (Hn' : node_at fs loc = None) by exact Hn; rewrite Hd in Hn'.
Qed.
