(* ===== verification/BenchMain.v ===== *)
(** * The benchmark program (crates/craftrelay-journal-bench/src/main.rs, report.rs,
      and the storage figures of candidate.rs)

    The arguments, the configuration they choose, the sizes of the files, the
    report and its file.  The times a run takes are arguments. *)
From Stdlib Require Import SpecFloat.
From S2P Require Import Prelude Checksum JournalDb SqlLogic JournalOpen FileSystem BenchEvents BenchStore BenchBatches BenchSafety BenchSegments BenchContract BenchPipeline BenchRun.
Open Scope Z_scope.
#[local] Coercion Z.of_nat : nat >-> Z.

(** ** Arguments *)

(** The value after the first occurrence of a flag. *)
Fixpoint arg_value (args : list string) (flag : string) : option string :=
  match args with
  | [] => None
  | a :: args => if decide (a = flag) then head args else arg_value args flag
  end.

(** [str::parse] of an unsigned integer below [bound]: digits, after a plus sign
    or not. *)
Definition parse_unsigned (bound : Z) (s : string) : option Z :=
  let digits := match bytes_of s with "+"%byte :: ds => ds | ds => ds end in
  match digits with
  | [] => None
  | _ => n ← parse_digits 0 digits; if n <? bound then Some n else None
  end.

Record BenchArgs : Type := mkArgs {
  ba_candidate : string;
  ba_records : Z;
  ba_payload_bytes : Z;
  ba_max_records_per_tx : Z;
  ba_max_bytes_per_tx : Z;
  ba_synchronous : string;
  ba_unsafe : bool;
  ba_segment_rollover : option Z
}.

Definition number_arg (args : list string) (flag : string) (bound : Z) : option Z :=
  s ← arg_value args flag; parse_unsigned bound s.

Definition parse_args (args : list string) : BenchArgs :=
  mkArgs (default "monolithic" (arg_value args "--candidate"))
    (default 1000 (number_arg args "--records" (2 ^ 64)))
    (default 256 (number_arg args "--payload-bytes" (2 ^ 64)))
    (default 64 (number_arg args "--max-records-per-tx" (2 ^ 32)))
    (default 1048576 (number_arg args "--max-bytes-per-tx" (2 ^ 64)))
    (default "FULL" (arg_value args "--synchronous"))
    (bool_decide ("--unsafe" ∈ args))
    (number_arg args "--segment-rollover" (2 ^ 32)).

(** The configuration of a run; an unknown candidate ends the program. *)
Definition set_limits (a : BenchArgs) (c : CandidateConfig) : CandidateConfig :=
  mkCandidateConfig (cc_name c) (cc_journal_mode c) (ba_synchronous a) (cc_busy_timeout_ms c)
    (cc_wal_autocheckpoint c) (cc_page_size c) (ba_max_records_per_tx a) (ba_max_bytes_per_tx a)
    (cc_segment_rollover_records c) (ba_unsafe a).

Definition with_rollover (r : option Z) (c : CandidateConfig) : CandidateConfig :=
  match r with
  | Some r => mkCandidateConfig (cc_name c) (cc_journal_mode c) (cc_synchronous c)
                (cc_busy_timeout_ms c) (cc_wal_autocheckpoint c) (cc_page_size c)
                (cc_max_records_per_tx c) (cc_max_bytes_per_tx c) (Some r) (cc_unsafe_mode c)
  | None => c
  end.

Definition choose_config (a : BenchArgs) : option CandidateConfig :=
  if decide (ba_candidate a = "monolithic") then Some (set_limits a monolithic)
  else if decide (ba_candidate a = "segmented") then
    Some (set_limits a (with_rollover (ba_segment_rollover a) segmented))
  else None.

(** ** Sizes of the files *)
Record StorageMetrics : Type := mkStorage {
  sm_db_size_bytes : Z;
  sm_wal_size_bytes : Z;
  sm_shm_size_bytes : Z;
  sm_total_storage_bytes : Z;
  sm_segment_count : Z
}.

Section Sizes.
(** The length of a file, if there is one. *)
Variable metadata_len : string → option Z.

Definition file_size_or_zero (path : string) : Z := default 0 (metadata_len path).
Definition wal_path (db_path : string) : string := db_path +:+ "-wal".
Definition shm_path (db_path : string) : string := db_path +:+ "-shm".

Definition single_db_storage (db_path : string) : Z * Z * Z :=
  (file_size_or_zero db_path, file_size_or_zero (wal_path db_path), file_size_or_zero (shm_path db_path)).

(** Of the file of the monolithic candidate, and of the files of the segments. *)
Definition mono_storage_metrics (db_path : string) : StorageMetrics :=
  let '(db, wal, shm) := single_db_storage db_path in mkStorage db wal shm (db + wal + shm) 1.

Definition seg_storage_metrics (paths : list string) : StorageMetrics :=
  let '(db, wal, shm) :=
    foldl (λ acc path,
      let '(db, wal, shm) := acc in
      let '(d, w, s) := single_db_storage path in (db + d, wal + w, shm + s)) (0, 0, 0) paths in
  mkStorage db wal shm (db + wal + shm) (length paths).

(** Of a database in memory: the pages, as two pragmas give them. *)
Definition memory_storage_metrics (page_count page_size : option Z) : StorageMetrics :=
  let db := default 0 page_count * default 4096 page_size in mkStorage db 0 0 db 1.
End Sizes.

(** The files of the segments: [segment_{i:04}.db]. *)
Definition zero_padded (width n : nat) : string :=
  let digits := to_string n in
  String.concat EmptyString (replicate (width - String.length digits) "0" ++ [digits]).
Definition segment_path (dir : string) (i : nat) : string :=
  dir +:+ "/segment_" +:+ zero_padded 4 i +:+ ".db".

(** Of either candidate; [place] is the file of the one, if it has one, and the
    directory of the other. *)
Definition storage_metrics (metadata_len : string → option Z) (place : option string)
    (page_count page_size : option Z) (runner : CandidateRunner) : StorageMetrics :=
  match runner with
  | Monolithic _ => match place with
                    | Some path => mono_storage_metrics metadata_len path
                    | None => memory_storage_metrics page_count page_size
                    end
  | Segmented c =>
      seg_storage_metrics metadata_len
        (segment_path (default EmptyString place) <$> seq 0 (length (sc_segments c)))
  end.

(** ** Figures

    [f64] is the binary format of 64 bits, its operations round to nearest. *)
Definition f64 : Type := spec_float.
Definition as_f64 (n : Z) : f64 := binary_normalize 53 1024 n 0 false.
Definition f64_div : f64 → f64 → f64 := SFdiv 53 1024.

Definition avg_observed_batch_size (m : WriteBatchMetrics) : f64 :=
  if 0 <? wm_committed_transactions m
  then f64_div (as_f64 (wm_total_batch_records m)) (as_f64 (wm_committed_transactions m))
  else as_f64 0.

Definition throughput (written elapsed_ms : Z) : f64 :=
  if 0 <? elapsed_ms then f64_div (as_f64 written) (f64_div (as_f64 elapsed_ms) (as_f64 1000))
  else as_f64 0.

(** ** The report *)
Record BenchmarkConfig : Type := mkBenchConfig {
  bc_journal_mode : string;
  bc_synchronous : string;
  bc_busy_timeout_ms : Z;
  bc_wal_autocheckpoint : Z;
  bc_page_size : option Z;
  bc_segment_rollover_records : option Z
}.

Record GroupCommitConfig : Type := mkGroupCommit {
  gc_max_records_per_tx : Z;
  gc_max_bytes_per_tx : Z
}.

Record BenchmarkReport : Type := mkReport {
  rp_candidate : string;
  rp_candidate_label : string;
  rp_unsafe_mode : bool;
  rp_os : string;
  rp_arch : string;
  rp_config : BenchmarkConfig;
  rp_submitted_records : Z;
  rp_accepted_records : Z;
  rp_written_records : Z;
  rp_rejected_capacity : Z;
  rp_failed_writes : Z;
  rp_payload_size_bytes : Z;
  rp_metadata_count : Z;
  rp_group_commit : GroupCommitConfig;
  rp_committed_transactions : Z;
  rp_failed_transactions : Z;
  rp_elapsed_ms : Z;
  rp_throughput_records_per_sec : f64;
  rp_avg_batch_size : f64;
  rp_max_batch_size : Z;
  rp_db_size_bytes : Z;
  rp_wal_size_bytes : Z;
  rp_shm_size_bytes : Z;
  rp_total_storage_bytes : Z;
  rp_segment_count : Z;
  rp_errors : list string;
  rp_benchmark_only : bool;
  rp_no_durable_receipt : bool
}.

Definition has_required_fields (r : BenchmarkReport) : bool :=
  bool_decide (rp_candidate r ≠ "") && bool_decide (rp_os r ≠ "") &&
  (0 <? rp_submitted_records r) && rp_benchmark_only r && rp_no_durable_receipt r.

(** The report of a finished pipeline; the names of the system and its
    architecture come from the build. *)
Definition make_report (os arch : string) (cfg : CandidateConfig) (a : BenchArgs)
    (pipeline : PipelineResult) (storage : StorageMetrics) (elapsed_ms : Z) : BenchmarkReport :=
  let m := pr_write_metrics pipeline in
  mkReport (cc_name cfg) (label cfg) (cc_unsafe_mode cfg) os arch
    (mkBenchConfig (cc_journal_mode cfg) (cc_synchronous cfg) (cc_busy_timeout_ms cfg)
       (cc_wal_autocheckpoint cfg) (cc_page_size cfg) (cc_segment_rollover_records cfg))
    (pr_submitted pipeline) (pr_accepted pipeline) (wm_written_records m)
    (pr_rejected_capacity pipeline) (wm_failed_records m) (ba_payload_bytes a) 1
    (mkGroupCommit (cc_max_records_per_tx cfg) (cc_max_bytes_per_tx cfg))
    (wm_committed_transactions m) (wm_failed_transactions m) elapsed_ms
    (throughput (wm_written_records m) elapsed_ms) (avg_observed_batch_size m)
    (wm_max_observed_batch_size m) (sm_db_size_bytes storage) (sm_wal_size_bytes storage)
    (sm_shm_size_bytes storage) (sm_total_storage_bytes storage) (sm_segment_count storage)
    (pr_errors pipeline) true true.

(** [write_to_file]: the text comes from [serde_json]. *)
Definition write_to_file `{E : Engine} {C : Type} (text : string → C)
    (to_string_pretty : BenchmarkReport → result string string) (r : BenchmarkReport) (path : Path)
  : Store (FileSystem C) (result unit IoError) :=
  c ← match path_parent path with
      | Some parent => create_dir_all parent
      | None => mret (Ok tt)
      end;
  match c with
  | Err e => mret (Err e)
  | Ok _ => match to_string_pretty r with
            | Err e => mret (Err (IoOther e))
            | Ok json => write_file path (text json)
            end
  end.

(** ** The program *)
Section Main.
Context `{Sha256} `{E : Engine}.

(** The candidate opened in the run's directory, which was emptied before. *)
Definition open_runner (a : BenchArgs) (cfg : CandidateConfig) : outcome CandidateRunner :=
  if decide (ba_candidate a = "monolithic") then
    match (mono_open empty_bench cfg).1 with
    | Done c => Done (Monolithic c)
    | Panicked => Panicked
    | OutOfFuel => OutOfFuel
    end
  else
    match segmented_open ∅ cfg with
    | (Done _, (c, _)) => Done (Segmented c)
    | (Panicked, _) => Panicked
    | (OutOfFuel, _) => OutOfFuel
    end.

Definition ingress_of (a : BenchArgs) : IngressConfig := ingress_new (ba_records a) (ba_payload_bytes a).

Lemma mono_open_ok cfg c s : mono_open empty_bench cfg = (Done c, s) → mc_config c = cfg ∧ ls_has c [].
Proof.
  intros Hop. cut (swp (_ ← expect_statements (init_statements cfg); db ← store_get; mret (mkMono db cfg))
    (λ c _, mc_config c = cfg ∧ ls_has c []) (λ _, True) (empty_bench, O)).
  { unfold swp. unfold mono_open in Hop. by rewrite Hop. }
  apply swp_bind, swp_expect_statements; [done|]. intros pc. apply swp_bind, swp_get. intros pc1.
  apply swp_ret. split; [done|apply store_ok_empty].
Qed.

Lemma choose_config_facts a cfg :
  choose_config a = Some cfg → ba_segment_rollover a ≠ Some 0 → config_typed cfg →
  rollover_positive cfg ∧ cc_name cfg = ba_candidate a ∧
  cc_max_records_per_tx cfg = ba_max_records_per_tx a ∧
  (ba_candidate a = "monolithic" ∨ ba_candidate a = "segmented").
Proof.
  unfold choose_config. intros Hc Hz Hty.
  destruct (decide (ba_candidate a = "monolithic")) as [->|]; [injection Hc as <-; by split_and!; auto|].
  destruct (decide (ba_candidate a = "segmented")) as [->|]; [|done]. injection Hc as <-.
  split; [|split; [by destruct (ba_segment_rollover a)|by auto]].
  pose proof (ct_rollover _ Hty) as Hn.
  unfold rollover_positive, with_rollover in *. destruct (ba_segment_rollover a) as [r|]; simpl in *; [|done].
  destruct (Hn r eq_refl) as [? _]. assert (r ≠ 0) by congruence. lia.
Qed.

Lemma open_runner_ok a cfg runner :
  open_runner a cfg = Done runner → config_typed cfg → rollover_positive cfg →
  runner_config runner = cfg ∧ runner_ready runner ∧ runner_has runner [].
Proof.
  unfold open_runner. intros Hop Hty Hpos. destruct (decide _).
  - destruct (mono_open empty_bench cfg) as [[c| |] s] eqn:Ho; simpl in Hop; try done.
    injection Hop as <-. apply mono_open_ok in Ho as [Hc Hh]. simpl. by rewrite Hc.
  - destruct (segmented_open ∅ cfg) as [[[]| |] [c pc]] eqn:Ho; try done. injection Hop as <-.
    destruct (segmented_open_ok cfg c pc Hty Ho) as [Hc Hok]. split; [done|].
    split; [simpl; by rewrite Hc|]. split; [done|]. by exists [], [].
Qed.

(** The arguments of the program are in the ranges of their types. *)
Lemma parse_digits_nonneg bs acc n : 0 ≤ acc → parse_digits acc bs = Some n → 0 ≤ n.
Proof.
  revert acc. induction bs as [|b bs IH]; intros acc Ha; simpl; [by intros [= <-]|].
  intros (d & Hd & Hn)%bind_Some. apply (IH (10 * acc + d)); [|done].
  unfold digit_value in Hd. case_match eqn:Hb; [|done]. injection Hd as <-. lia.
Qed.

Lemma number_arg_bound args flag bound n : number_arg args flag bound = Some n → 0 ≤ n < bound.
Proof.
  unfold number_arg. intros (s & _ & Hn)%bind_Some. unfold parse_unsigned in Hn.
  set (digits := match bytes_of s with "+"%byte :: ds => ds | ds => ds end) in Hn.
  destruct digits as [|d ds]; [done|]. apply bind_Some in Hn as (m & Hm & Hb).
  destruct (Z.ltb_spec m bound); [|done]. injection Hb as <-.
  split; [|done]. by apply (parse_digits_nonneg _ 0 m) in Hm.
Qed.

Lemma parsed_typed args cfg : choose_config (parse_args args) = Some cfg → config_typed cfg.
Proof.
  intros Hc. assert (Hrec : 0 ≤ ba_max_records_per_tx (parse_args args) ≤ u32_max).
  { simpl. destruct (number_arg args "--max-records-per-tx" (2 ^ 32)) as [n|] eqn:Hn; simpl; [|done].
    apply number_arg_bound in Hn. unfold u32_max. lia. }
  unfold choose_config in Hc. destruct (decide _); [injection Hc as <-; by split|].
  destruct (decide _); [|done]. injection Hc as <-. split; [done|].
  intros limit. simpl. destruct (number_arg args "--segment-rollover" (2 ^ 32)) as [m|] eqn:Hn; simpl.
  - intros [= <-]. apply number_arg_bound in Hn. unfold u32_max. lia.
  - by intros [= <-].
Qed.

(** A run keeps the kind of its candidate. *)
Definition segmented_runner (r : CandidateRunner) : bool :=
  match r with Segmented _ => true | Monolithic _ => false end.

Lemma runner_kind config runner p :
  rtc (pipeline_step config) (pipeline_start runner) p →
  segmented_runner (ps_runner p) = segmented_runner runner.
Proof.
  revert p. apply rtc_ind_r; [done|]. intros p p' _ Hstep IH. rewrite <- IH.
  destruct Hstep as [Hstep|fuel now Hstep].
  - unfold producer_step in Hstep. repeat case_match; by simplify_eq/=.
  - unfold writer_step, after_run, runner_run, set_phase in Hstep. repeat case_match; by simplify_eq/=.
Qed.

(** The segments have room for what they hold. *)
Lemma segments_room c log limit :
  ls_has c log → cc_segment_rollover_records (sc_config c) = Some limit →
  length log ≤ length (sc_segments c) * limit.
Proof.
  intros (_ & front & cur & Hc & ->) Hlim. pose proof (so_limit _ _ _ Hc) as Hl. rewrite Hlim in Hl.
  destruct Hl as [Hcur Hfull]. rewrite (so_segments _ _ _ Hc), length_infos, concat_snoc, !length_app.
  assert (Hsum : (length (concat front) : Z) = length front * limit).
  { clear Hc. induction Hfull as [|sg front Hsg _ IH]; simpl; [done|]. rewrite length_app. lia. }
  simpl. nia.
Qed.
End Main.

(** A candidate with a rollover limit is a segmented one. *)
Lemma limit_segmented a cfg limit :
  choose_config a = Some cfg → cc_segment_rollover_records cfg = Some limit → ba_candidate a ≠ "monolithic".
Proof. unfold choose_config. intros Hc Hlim Hm. rewrite decide_True in Hc by done. by simplify_eq/=. Qed.

(** The total is the sum of the parts, whatever the candidate. *)
Lemma storage_total len place pages size runner :
  let m := storage_metrics len place pages size runner in
  sm_total_storage_bytes m = sm_db_size_bytes m + sm_wal_size_bytes m + sm_shm_size_bytes m.
Proof.
  destruct runner as [c|c]; simpl.
  - destruct place; simpl; lia.
  - unfold seg_storage_metrics. by destruct (foldl _ _ _) as [[? ?] ?].
Qed.

Lemma segments_counted len place pages size c :
  sm_segment_count (storage_metrics len place pages size (Segmented c)) = length (sc_segments c).
Proof.
  simpl. unfold seg_storage_metrics. destruct (foldl _ _ _) as [[? ?] ?]. simpl.
  by rewrite length_fmap, length_seq.
Qed.

(** What a segmented candidate holds fits the segments its metrics count. *)
Lemma stored_fits (S : Sha256) (E : Engine) a cfg runner r log len place pages size limit :
  choose_config a = Some cfg → cc_segment_rollover_records cfg = Some limit →
  open_runner a cfg = Done runner → segmented_runner r = segmented_runner runner →
  runner_config r = cfg → runner_has r log →
  length log ≤ sm_segment_count (storage_metrics len place pages size r) * limit.
Proof.
  intros Hc Hlim Hop Hkind Hcfg Hh. pose proof (limit_segmented a cfg limit Hc Hlim) as Hm.
  unfold open_runner in Hop. rewrite decide_False in Hop by done.
  destruct (segmented_open ∅ cfg) as [[[]| |] [c pc]]; try done. injection Hop as <-.
  destruct r as [c'|c']; [done|]. rewrite segments_counted. apply segments_room; [exact Hh|].
  simpl in Hcfg. by rewrite Hcfg.
Qed.

(** ** Theorems *)

(** C14. The report of a run accounts for every event.  For arguments that name a
    candidate, with no rollover of zero and the limits in the ranges of their
    types, as [parse_args] makes them: however the threads interleave, when the
    pipeline returns, the report says that every requested record was submitted;
    each was accepted by the channel or rejected; each accepted one was written or
    failed; the transactions stayed within the record limit, so that there were
    enough of them for what was written; and the errors are the first 64.  The
    store holds the written events, in the order they were generated, each once.
    With an engine that does not fail everything accepted is written.  The total
    of the storage is the sum of its parts, and the segments reported have room
    for what was written.  The report has its required fields exactly when there
    was a record. *)
Theorem report_balanced (S : Sha256) (E : Engine) (a : BenchArgs) (cfg : CandidateConfig)
    (runner : CandidateRunner) (p : Pipeline) (res : PipelineResult) (os arch : string)
    (metadata_len : string → option Z) (place : option string) (page_count page_size : option Z)
    (elapsed_ms : Z) :
  choose_config a = Some cfg → ba_segment_rollover a ≠ Some 0 → config_typed cfg →
  0 ≤ ba_records a ≤ i64_max → os ≠ "" →
  open_runner a cfg = Done runner →
  rtc (pipeline_step (ingress_of a)) (pipeline_start runner) p → pipeline_result p = Some res →
  let storage := storage_metrics metadata_len place page_count page_size (ps_runner p) in
  let r := make_report os arch cfg a res storage elapsed_ms in
  rp_submitted_records r = ba_records a ∧
  rp_submitted_records r = rp_accepted_records r + rp_rejected_capacity r ∧
  rp_accepted_records r = rp_written_records r + rp_failed_writes r ∧
  rp_max_batch_size r ≤ Z.max 1 (ba_max_records_per_tx a) ∧
  rp_written_records r ≤ rp_committed_transactions r * Z.max 1 (ba_max_records_per_tx a) ∧
  Z.of_nat (length (rp_errors r)) = Z.min 64 (rp_failed_writes r) ∧
  (∃ log, runner_has (ps_runner p) log ∧ log `sublist_of` generate_events (ingress_of a) ∧
     Z.of_nat (length log) = rp_written_records r) ∧
  (reliable E → ba_records a ≤ 2 ^ 48 → rp_written_records r = rp_accepted_records r) ∧
  rp_total_storage_bytes r = rp_db_size_bytes r + rp_wal_size_bytes r + rp_shm_size_bytes r ∧
  (∀ limit, cc_segment_rollover_records cfg = Some limit →
     rp_written_records r ≤ rp_segment_count r * limit) ∧
  has_required_fields r = (0 <? ba_records a).
Proof.
  intros Hc Hz Hty Hrec Hos Hop Hs Hres storage r.
  destruct (choose_config_facts a cfg Hc Hz Hty) as (Hpos & Hname & Hmax & Hcand).
  destruct (open_runner_ok a cfg runner Hop Hty Hpos) as (Hcfg & Hrd & Hh).
  destruct (pipeline_accounts S E (ingress_of a) runner [] p res Hrd Hh)
    as (Hsub & Hacc & Hwr & Hb & Hn' & Herr & Hst & Hall); [simpl; lia..|done|done|].
  assert (Hroom : ∀ limit, cc_segment_rollover_records cfg = Some limit →
    wm_written_records (pr_write_metrics res) ≤ sm_segment_count storage * limit).
  { intros limit Hlim. destruct Hst as (log & Hlog & _ & <-). rewrite app_nil_l in Hlog.
    apply (stored_fits S E a cfg runner); [done..|by eapply runner_kind| |done]. rewrite <- Hcfg.
    apply (po_config (ingress_of a) [] _ p), (pipeline_steps_ok (ingress_of a) [] _ (pipeline_start runner)); [simpl; lia|
      |done]. apply pipe_ok_start; [done..|simpl; lia]. }
  simpl in *. rewrite Hcfg, Hmax in Hb, Hn'.
  split_and!; [done|lia|lia|done|done|done|done|by intros; apply Hall|apply storage_total|done|].
  unfold has_required_fields. simpl. rewrite Hsub, Hname, bool_decide_true by (by destruct Hcand as [-> | ->]).
  rewrite bool_decide_true by done. by rewrite !andb_true_r.
Qed.

Definition sample_args : BenchArgs :=
  parse_args ["bench"; "--candidate"; "segmented"; "--records"; "+3"; "--segment-rollover"; "2"].
Definition sample_args_runner : CandidateRunner :=
  Segmented (@segmented_open sample_engine ∅ (set_limits sample_args (with_rollover (Some 2) segmented))).2.1.
Definition sample_args_run : Pipeline :=
  @run_schedule sample_sha256 sample_engine 8 (ingress_of sample_args)
    [true; true; true; true; false; false; false; false; false; false]
    (pipeline_start sample_args_runner).

Lemma report_balanced_witness :
  ∃ res, pipeline_result sample_args_run = Some res ∧
    rp_written_records (make_report "linux" "x86_64"
      (set_limits sample_args (with_rollover (Some 2) segmented)) sample_args res
      (storage_metrics (λ _, None) None None None (ps_runner sample_args_run)) 7) = 3.
Proof.
  destruct (pipeline_result sample_args_run) as [res|] eqn:Hres; [|vm_compute in Hres; discriminate Hres].
  exists res. split; [reflexivity|].
  destruct (report_balanced sample_sha256 sample_engine sample_args
              (set_limits sample_args (with_rollover (Some 2) segmented)) sample_args_runner
              sample_args_run res "linux" "x86_64" (λ _, None) None None None 7)
    as (_ & _ & _ & _ & _ & _ & _ & Hall & _).
  - reflexivity.
  - discriminate.
  - apply (parsed_typed ["bench"; "--candidate"; "segmented"; "--records"; "+3"; "--segment-rollover"; "2"]).
    reflexivity.
  - split; vm_compute; discriminate.
  - discriminate.
  - reflexivity.
  - apply run_schedule_steps.
  - exact Hres.
  - rewrite Hall; [|exact (λ n, eq_refl)|vm_compute; discriminate].
    vm_compute in Hres. injection Hres as <-. reflexivity.
Defined.

(** The report states the payload size that was asked for, not the one the events
    have, which is bounded. *)
Lemma reported_payload_size (S : Sha256) os arch cfg a res storage elapsed_ms ev :
  BENCH_MAX_PAYLOAD_BYTES < ba_payload_bytes a → ev ∈ generate_events (ingress_of a) →
  Z.of_nat (length (se_payload ev)) < rp_payload_size_bytes (make_report os arch cfg a res storage elapsed_ms).
Proof.
  intros Hbig (i & -> & _)%list_elem_of_fmap. unfold event_of, generate. cbn [se_payload].
  rewrite payload_size_bound; simpl; unfold BENCH_MAX_PAYLOAD_BYTES in *; lia.
Qed.

(** ** The file of the report *)

(** When [write_to_file] answers [Ok] the file at the path holds the text of the
    report; when it fails no file is changed.  Other files are never touched. *)
Lemma write_to_file_spec (E : Engine) {C} (text : string → C) to_json r (path : Path)
    (fs : FileSystem C) pc :
  plain path = true →
  swp (write_to_file text to_json r path) (λ answer fs',
    (∀ x n, x ≠ resolve fs path → fs_nodes fs !! x = Some n → fs_nodes fs' !! x = Some n) ∧
    match answer with
    | Ok _ => ∃ json, to_json r = Ok json ∧
                node_at fs' (resolve fs path) = Some (RegularFile (text json))
    | Err _ => fs_nodes fs ⊆ fs_nodes fs'
    end) (λ _, False) (fs, pc).
Proof.
  intros Hp. unfold write_to_file.
  assert (Hparent : swp (match path_parent path with Some q => create_dir_all q | None => mret (Ok tt) end)
    (λ _ fs1, fs_cwd fs1 = fs_cwd fs ∧ fs_nodes fs ⊆ fs_nodes fs1) (λ _, False) (fs, pc)).
  { destruct (path_parent path) as [q|] eqn:Hq; [|by apply swp_ret].
    destruct (parent_plain (C := C) path q Hp Hq) as [Hpq _].
    eapply swp_mono; [by apply swp_create_dirs| |done]. intros ? fs1 [[Hc Hk _ _] _]. done. }
  apply swp_bind. eapply swp_mono; [exact Hparent| |done]. intros [[]|e] fs1 [Hc Hk] pc1;
    [|apply swp_ret; split; [|done]; intros x n _ Hx; by apply (lookup_weaken _ _ _ _ Hx)].
  assert (Hsame : ∀ x n, x ≠ resolve fs path → fs_nodes fs !! x = Some n → fs_nodes fs1 !! x = Some n)
    by (intros x n _ Hx; by apply (lookup_weaken _ _ _ _ Hx)).
  destruct (to_json r) as [json|e]; [|by apply swp_ret]. apply swp_os_call; [done|].
  destruct (locate fs1 path) as [loc|] eqn:Hl; [|done].
  assert (Hloc : loc = resolve fs path) by (apply locate_resolve in Hl as ->; unfold resolve; by rewrite Hc).
  assert (Hset : node_at fs1 loc ≠ Some Directory →
    (∀ x n, x ≠ resolve fs path → fs_nodes fs !! x = Some n →
       fs_nodes (set_node loc (RegularFile (text json)) fs1) !! x = Some n) ∧
    ∃ j, Ok json = Ok j :> result string string ∧ node_at (set_node loc (RegularFile (text json)) fs1) (resolve fs path) =
      Some (RegularFile (text j))).
  { intros Hn. rewrite <- Hloc in *. split; [intros x n Hx Hn'; simpl; rewrite lookup_insert_ne by done; by apply Hsame|].
    exists json. split; [done|]. unfold node_at in *. destruct loc; [done|]. apply lookup_insert_eq. }
  destruct (node_at fs1 loc) as [[|old]|] eqn:Hn; [done|by apply Hset..].
Qed.
