(* ===== verification/BenchScenarios.v ===== *)
(** * The tests of the benchmark (crates/craftrelay-journal-bench/src: candidate.rs, ingress.rs,
      report.rs, modules [tests])

    The tests that do not look at files, under their own names; those that do are in
    [BenchFileScenarios].  The tests of
    the candidates pass whatever the hash function; those that run the two
    threads are stated of every interleaving. *)
From S2P Require Import Prelude Checksum JournalDb JournalCore Scenarios BenchEvents BenchStore.
From S2P Require Import SqlLogic BenchBatches BenchSafety BenchContract BenchPipeline BenchRun FileSystem BenchMain.
Open Scope Z_scope.
#[local] Coercion Z.of_nat : nat >-> Z.

Section BenchTests.
Context `{Sha256}.
#[local] Existing Instance sample_engine.

(** ** candidate.rs *)
Definition events_with_payload (n payload_bytes : Z) : list SyntheticEvent :=
  (λ i, generate i "inst-a" "prod-a" "economy" payload_bytes) <$> seqZ 0 n.
Definition events (n : Z) : list SyntheticEvent := events_with_payload n 64.

Definition with_logical_stream (s : string) (e : SyntheticEvent) : SyntheticEvent :=
  mkEvent (se_event_id e) (se_installation_id e) (se_producer_id e) (se_namespace e) s
    (se_schema_version e) (se_payload e) (se_payload_digest e) (se_request_fingerprint e)
    (se_payload_ref_id e) (se_metadata_count e).
Definition with_event_id (s : string) (e : SyntheticEvent) : SyntheticEvent :=
  mkEvent s (se_installation_id e) (se_producer_id e) (se_namespace e) (se_logical_stream e)
    (se_schema_version e) (se_payload e) (se_payload_digest e) (se_request_fingerprint e)
    (se_payload_ref_id e) (se_metadata_count e).

Definition with_max_records_per_tx (n : Z) (c : CandidateConfig) : CandidateConfig :=
  mkCandidateConfig (cc_name c) (cc_journal_mode c) (cc_synchronous c) (cc_busy_timeout_ms c)
    (cc_wal_autocheckpoint c) (cc_page_size c) n (cc_max_bytes_per_tx c)
    (cc_segment_rollover_records c) (cc_unsafe_mode c).
Definition with_max_bytes_per_tx (n : Z) (c : CandidateConfig) : CandidateConfig :=
  mkCandidateConfig (cc_name c) (cc_journal_mode c) (cc_synchronous c) (cc_busy_timeout_ms c)
    (cc_wal_autocheckpoint c) (cc_page_size c) (cc_max_records_per_tx c) n
    (cc_segment_rollover_records c) (cc_unsafe_mode c).
Definition with_unsafe_mode (b : bool) (c : CandidateConfig) : CandidateConfig :=
  mkCandidateConfig (cc_name c) (cc_journal_mode c) (cc_synchronous c) (cc_busy_timeout_ms c)
    (cc_wal_autocheckpoint c) (cc_page_size c) (cc_max_records_per_tx c) (cc_max_bytes_per_tx c)
    (cc_segment_rollover_records c) b.

(** Open a candidate, write one batch, and check the answers, the metrics and
    the candidate.  Every transaction takes at least one event, so the length of
    the batch is fuel enough. *)
Definition on_mono (config : CandidateConfig) (evts : list SyntheticEvent)
    (check : list (result WriteResult string) → WriteBatchMetrics → MonolithicCandidate → bool)
  : bool :=
  match (mono_open empty_bench config).1 with
  | Done c =>
      match mono_write_batch (length evts) 0 evts c with
      | (Done (results, metrics), c) => check results metrics c
      | _ => false
      end
  | _ => false
  end.

Definition on_segmented (config : CandidateConfig) (evts : list SyntheticEvent)
    (check : list (result WriteResult string) → WriteBatchMetrics → SegmentedCandidate → bool)
  : bool :=
  match segmented_open ∅ config with
  | (Done _, (c, _)) =>
      match seg_write_batch (length evts) 0 evts c with
      | (Done (results, metrics), c) => check results metrics c
      | _ => false
      end
  | _ => false
  end.

Definition all_ok (results : list (result WriteResult string)) : bool := forallb is_ok results.
Definition committed (f : WriteResult → Z) (results : list (result WriteResult string)) : list Z :=
  omap (λ r, match r with Ok wr => Some (f wr) | Err _ => None end) results.

Definition monolithic_transaction_writes_all_three_tables : bool :=
  on_mono monolithic (events 3) (λ results metrics c,
    (length results =? 3) && all_ok results && (mono_record_count c =? 3) &&
    (wm_committed_transactions metrics =? 1) && (wm_written_records metrics =? 3) &&
    (size (bench_payload (mc_conn c)) =? 3) && (size (bench_lifecycle (mc_conn c)) =? 3)).

Definition journal_sequence_increments_monotonically : bool :=
  on_mono monolithic (events 5) (λ results _ _,
    committed wr_journal_sequence results =?= [1; 2; 3; 4; 5]).

Definition stream_sequence_increments_per_logical_stream : bool :=
  let evts := zip_with with_logical_stream ["stream-a"; "stream-a"; "stream-b"] (events 3) in
  on_mono monolithic evts (λ results _ _, committed wr_stream_sequence results =?= [1; 2; 1]).

Definition failed_transaction_leaves_no_partial_records : bool :=
  let evts := events 3 in
  let first := default "" (se_event_id <$> evts !! 0%nat) in
  on_mono monolithic (alter (with_event_id first) 2%nat evts) (λ results metrics c,
    forallb (negb ∘ is_ok) results && (mono_record_count c =? 0) &&
    (wm_committed_transactions metrics =? 0) && (wm_failed_transactions metrics =? 1)).

Definition group_commit_respects_max_records_per_tx : bool :=
  on_mono (with_max_records_per_tx 2 monolithic) (events 5) (λ results metrics c,
    (length results =? 5) && all_ok results && (mono_record_count c =? 5) &&
    (wm_committed_transactions metrics =? 3) && (wm_max_observed_batch_size metrics =? 2)).

Definition group_commit_respects_max_bytes_per_tx : bool :=
  on_mono (with_max_bytes_per_tx 1200 (with_max_records_per_tx 100 monolithic)) (events 5)
    (λ results metrics c,
      (length results =? 5) && all_ok results && (mono_record_count c =? 5) &&
      (wm_committed_transactions metrics =? 3) && (wm_max_observed_batch_size metrics =? 2)).

Definition oversized_single_event_written_alone : bool :=
  on_mono (with_max_bytes_per_tx 100 monolithic) (events_with_payload 3 1024)
    (λ results metrics _,
      (length results =? 3) && all_ok results && (wm_committed_transactions metrics =? 3) &&
      (wm_max_observed_batch_size metrics =? 1)).

Definition monolithic_real_tx_count_with_record_splitting : bool :=
  on_mono (with_max_records_per_tx 3 monolithic) (events 10) (λ _ metrics _,
    wm_committed_transactions metrics =? 4).

Definition monolithic_real_tx_count_with_byte_splitting : bool :=
  on_mono (with_max_bytes_per_tx 2000 (with_max_records_per_tx 1000 monolithic))
    (events_with_payload 7 256) (λ _ metrics _, wm_committed_transactions metrics =? 4).

Definition segmented_opens_with_wal_mode : bool :=
  on_segmented segmented [] (λ _ _ c, 1 <=? segment_count c).

Definition segmented_rolls_over_deterministically : bool :=
  on_segmented (with_rollover (Some 3) segmented) (events 10) (λ results _ c,
    (length results =? 10) && all_ok results && (total_records c =? 10) && (4 <=? segment_count c)).

Definition segmented_journal_sequences_are_global : bool :=
  on_segmented (with_rollover (Some 2) segmented) (events 5) (λ results _ _,
    committed wr_journal_sequence results =?= [1; 2; 3; 4; 5]).

Definition segmented_real_tx_count_with_rollover : bool :=
  on_segmented (with_max_records_per_tx 10 (with_rollover (Some 3) segmented)) (events 10)
    (λ _ metrics _,
      (wm_committed_transactions metrics =? 4) && (wm_written_records metrics =? 10)).

Definition unsafe_mode_is_labeled : bool :=
  contains "UNSAFE" (label (with_unsafe_mode true monolithic)) &&
  negb (contains "UNSAFE" (label (with_unsafe_mode false (with_unsafe_mode true monolithic)))).

Definition smoke_benchmark_monolithic : bool :=
  on_mono monolithic (events 100) (λ results metrics _,
    (count_ok results =? 100) && (0 <? wm_committed_transactions metrics)).

Definition smoke_benchmark_segmented : bool :=
  on_segmented segmented (events 100) (λ results metrics _,
    (count_ok results =? 100) && (0 <? wm_committed_transactions metrics)).

Definition estimated_bytes_includes_overhead : bool :=
  estimated_transaction_bytes (generate 0 "inst" "prod" "ns" 100)
  =? 100 + PER_EVENT_OVERHEAD_BYTES.

Definition candidate_tests : list bool :=
  [monolithic_transaction_writes_all_three_tables; journal_sequence_increments_monotonically;
   stream_sequence_increments_per_logical_stream; failed_transaction_leaves_no_partial_records;
   group_commit_respects_max_records_per_tx; group_commit_respects_max_bytes_per_tx;
   oversized_single_event_written_alone; monolithic_real_tx_count_with_record_splitting;
   monolithic_real_tx_count_with_byte_splitting; segmented_opens_with_wal_mode;
   segmented_rolls_over_deterministically; segmented_journal_sequences_are_global;
   segmented_real_tx_count_with_rollover; unsafe_mode_is_labeled; smoke_benchmark_monolithic;
   smoke_benchmark_segmented; estimated_bytes_includes_overhead].

Definition bench_file (name : string) : Path :=
  [NormalName "target"; NormalName "journal-bench"; NormalName name].

Definition run_data_dir_derivation_is_deterministic : bool :=
  let dir := derive_run_data_dir (bench_file "smoke-monolithic.json") in
  let dir2 := derive_run_data_dir (bench_file "smoke-monolithic.json") in
  (dir =?= [NormalName "target"; NormalName "journal-bench"; NormalName "runs";
            NormalName "smoke-monolithic"]) && (dir =?= dir2).

Definition run_data_dir_derivation_differs_per_output : bool :=
  negb (derive_run_data_dir (bench_file "a.json") =?= derive_run_data_dir (bench_file "b.json")).

(** ** ingress.rs *)
Definition synthetic_event_fields_are_deterministic : bool :=
  let a := generate 42 "inst-a" "prod-a" "economy" 128 in
  let b := generate 42 "inst-a" "prod-a" "economy" 128 in
  (se_event_id a =?= se_event_id b) && (se_payload a =?= se_payload b) &&
  (se_payload_digest a =?= se_payload_digest b) &&
  (se_request_fingerprint a =?= se_request_fingerprint b) && (length (se_payload a) =? 128).

Definition payload_clamped_to_max : bool :=
  let event := generate 0 "inst" "prod" "ns" (BENCH_MAX_PAYLOAD_BYTES + 100) in
  length (se_payload event) =? BENCH_MAX_PAYLOAD_BYTES.

Definition bounded_ingress_accepts_all_when_capacity_sufficient : bool :=
  length (generate_events (ingress_new 50 64)) =? 50.

(** The result of [run_pipeline] on a database in memory and its sizes pass the
    check, however the threads interleave. *)
Definition every_run (config : IngressConfig) (runner : CandidateRunner)
    (check : PipelineResult → StorageMetrics → bool) : Prop :=
  ∀ p res page_count page_size,
    rtc (pipeline_step config) (pipeline_start runner) p → pipeline_result p = Some res →
    check res (storage_metrics (λ _, None) None page_count page_size (ps_runner p)) = true.

Definition new_monolithic : CandidateRunner := Monolithic (mkMono empty_bench monolithic).

Definition bounded_writer_thread_pipeline : Prop :=
  every_run (ingress_new 50 64) new_monolithic (λ result storage,
    (pr_submitted result =? 50) && (pr_rejected_capacity result =? 0) &&
    (wm_written_records (pr_write_metrics result) =? 50) &&
    (0 <? wm_committed_transactions (pr_write_metrics result)) &&
    bool_decide (pr_errors result = []) && (sm_segment_count storage =? 1)).

Definition narrow_ingress : IngressConfig := mkIngress 2 20 "inst" "prod" "ns" 8.

(** What the test of a narrow channel asserts besides that there is a rejection. *)
Definition narrow_accounts (result : PipelineResult) (storage : StorageMetrics) : bool :=
  (pr_submitted result =? 20) &&
  (pr_accepted result =? pr_submitted result - pr_rejected_capacity result) &&
  (wm_written_records (pr_write_metrics result) =? pr_accepted result).

Definition bounded_capacity_rejection_with_pipeline : Prop :=
  every_run narrow_ingress new_monolithic (λ result storage,
    narrow_accounts result storage && (0 <? pr_rejected_capacity result)).

Definition path_tests : list bool :=
  [run_data_dir_derivation_is_deterministic; run_data_dir_derivation_differs_per_output].
Definition ingress_tests : list bool :=
  [synthetic_event_fields_are_deterministic; bounded_ingress_accepts_all_when_capacity_sufficient].
End BenchTests.


(** The candidates pass the tests with every hash function. *)
Lemma candidate_tests_pass (S : Sha256) : forallb id candidate_tests = true.
Proof. vm_compute. reflexivity. Qed.

Lemma path_tests_pass : forallb id path_tests = true.
Proof. vm_compute. reflexivity. Qed.

Lemma ingress_tests_pass (S : Sha256) : forallb id ingress_tests = true.
Proof.
  unfold ingress_tests. cbn [forallb]. apply andb_true_intro. split; [|by vm_compute].
  unfold id, synthetic_event_fields_are_deterministic, eqb_of.
  rewrite !bool_decide_true by done. reflexivity.
Qed.

Lemma payload_clamped_to_max_passes (S : Sha256) : payload_clamped_to_max = true.
Proof.
  unfold payload_clamped_to_max, generate. cbn [se_payload]. apply Z.eqb_eq.
  rewrite payload_size_bound; unfold BENCH_MAX_PAYLOAD_BYTES; lia.
Qed.

(** ** Rejections *)
Section Rejections.
Context `{Sha256} `{E : Engine}.
Variables (config : IngressConfig) (runner : CandidateRunner) (log0 : list SyntheticEvent).
Hypotheses (Hready : runner_ready runner) (Hhas : runner_has runner log0) (Htotal : 0 ≤ ic_total_records config)
  (Hlen : length log0 + ic_total_records config ≤ i64_max) (HE : reliable E)
  (Hroom : ic_total_records config ≤ ic_channel_capacity config).

Lemma producing_open p :
  pipe_ok config log0 (runner_config runner) p → ps_producing p = true →
  ps_phase p ≠ Finished ∧ ps_phase p ≠ Crashed.
Proof.
  intros Hp Hprod. split; intros Hph.
  - destruct (po_finished _ _ _ _ Hp Hph). congruence.
  - pose proof (po_flow _ _ _ _ Hp) as Hf. unfold flow in Hf. rewrite Hph in Hf.
    by apply (reliable_not_faulty _ HE), Hf.
Qed.

(** A channel with room for every event rejects none. *)
Lemma roomy_channel p :
  rtc (pipeline_step config) (pipeline_start runner) p →
  ps_rejected p = 0 ∧ length (ps_channel p) ≤ ps_next p.
Proof.
  revert p. apply rtc_ind_r; [by simpl|]. intros p p' Hs Hstep [Hrej Hch].
  pose proof (pipeline_steps_ok config log0 (runner_config runner) _ _ Hlen
                (pipe_ok_start _ _ _ _ Hready Hhas eq_refl Htotal) Hs) as Hp.
  destruct Hstep as [Hstep|fuel now Hstep].
  - unfold producer_step in Hstep. destruct (ps_producing p) eqn:Hprod; [|done].
    destruct (Z.ltb_spec (ps_next p) (ic_total_records config)) as [Hn|]; [|by simplify_eq/=].
    destruct (producing_open p Hp Hprod) as [Hnf Hnc].
    assert (can_send config p = true) as Hsend.
    { unfold can_send. destruct (ps_phase p); try done; apply Z.ltb_lt; lia. }
    rewrite Hsend in Hstep. simplify_eq/=. rewrite length_app. simpl. split; [done|lia].
  - unfold writer_step, after_run, set_phase in Hstep.
    repeat case_match; simplify_eq/=; split; try done; lia.
Qed.
End Rejections.

Lemma new_monolithic_empty (S : Sha256) : @runner_has S sample_engine new_monolithic [].
Proof. apply (@store_ok_empty S sample_engine). Qed.

(** Every interleaving passes the test of the pipeline with a wide channel. *)
Lemma wide_pipeline_passes (S : Sha256) : bounded_writer_thread_pipeline.
Proof.
  intros p res pages size Hs Hres.
  destruct (pipeline_accounts S sample_engine (ingress_new 50 64) new_monolithic [] p res monolithic_typed (new_monolithic_empty S))
    as (Hsub & Hacc & Hwr & _ & Hn & _ & _ & Hall); [done|done|done|done|].
  destruct (roomy_channel (E := sample_engine) (ingress_new 50 64) new_monolithic []
    monolithic_typed (new_monolithic_empty S) ltac:(done) ltac:(done) (λ n, eq_refl) ltac:(done) p Hs) as [Hrej _].
  destruct Hall as [Hw He]; [exact (λ n, eq_refl)|done|done|].
  assert (pr_rejected_capacity res = 0) as Hr.
  { unfold pipeline_result in Hres. repeat case_match; by simplify_eq/=. }
  simpl in *. repeat (apply andb_true_intro; split).
  4: apply Z.ltb_lt; lia.
  4: by apply bool_decide_eq_true.
  4: by apply runner_kind in Hs; destruct (ps_runner p).
  all: apply Z.eqb_eq; lia.
Qed.

(** Every interleaving passes the test of a narrow channel, but for the
    assertion that something is rejected. *)
Lemma narrow_pipeline_accounts (S : Sha256) :
  every_run narrow_ingress new_monolithic narrow_accounts.
Proof.
  intros p res pages size Hs Hres.
  destruct (pipeline_accounts S sample_engine narrow_ingress new_monolithic [] p res monolithic_typed (new_monolithic_empty S))
    as (Hsub & Hacc & _ & _ & _ & _ & _ & Hall); [done|done|done|done|].
  destruct Hall as [Hw _]; [exact (λ n, eq_refl)|done|done|].
  simpl in *. repeat (apply andb_true_intro; split); apply Z.eqb_eq; lia.
Qed.

(** That one depends on the threads: when the writer keeps up nothing is
    rejected. *)
Definition keeping_up : list bool :=
  concat (replicate 20 [true; false; false; false]) ++ [true; false].
Definition keeping_up_run `{Sha256} : Pipeline :=
  @run_schedule _ sample_engine 1 narrow_ingress keeping_up (pipeline_start new_monolithic).

Lemma keeping_up_steps (S : Sha256) :
  rtc (@pipeline_step _ sample_engine narrow_ingress) (pipeline_start new_monolithic) keeping_up_run.
Proof. unfold keeping_up_run. apply run_schedule_steps. Qed.

Lemma keeping_up_rejects_none (S : Sha256) :
  pr_rejected_capacity <$> pipeline_result keeping_up_run = Some 0.
Proof. vm_compute. reflexivity. Qed.

Lemma narrow_rejection_not_assured (S : Sha256) : ¬ bounded_capacity_rejection_with_pipeline.
Proof.
  intros Hall. pose proof (keeping_up_rejects_none S) as Hrej. pose proof (keeping_up_steps S) as Hs.
  revert Hrej Hs. generalize keeping_up_run. intros p Hrej Hs.
  apply fmap_Some in Hrej as (res & Hres & Hzero). specialize (Hall p res None None Hs Hres).
  apply andb_prop in Hall as [_ Hpos]. by rewrite <- Hzero in Hpos.
Qed.
