(* ===== verification/BenchFileScenarios.v ===== *)
(** * The tests of the benchmark that look at files (candidate.rs, ingress.rs, report.rs)

    The lengths of the files come from the system: the tests hold for every
    answer that gives the database files a positive length, those of the two
    threads for every interleaving. *)
From S2P Require Import Prelude Checksum JournalDb JournalCore Scenarios BenchEvents BenchStore SqlLogic.
From S2P Require Import BenchBatches BenchSafety BenchContract BenchPipeline BenchRun FileSystem BenchMain BenchScenarios.
Open Scope Z_scope.
#[local] Coercion Z.of_nat : nat >-> Z.

(** ** The tests *)
Section FileTests.
Context `{Sha256}.
#[local] Existing Instance sample_engine.
Variable metadata_len : string → option Z.

(** The assertions on the sizes. *)
Definition sizes_hold (sm : StorageMetrics) : bool :=
  (0 <? sm_db_size_bytes sm) &&
  (sm_total_storage_bytes sm =? sm_db_size_bytes sm + sm_wal_size_bytes sm + sm_shm_size_bytes sm).

Definition monolithic_storage_metrics_nonzero_after_writes : bool :=
  on_mono monolithic (events 10) (λ _ _ c,
    let sm := storage_metrics metadata_len (Some "/tmp/cr-bench-mono-storage/test.db") None None (Monolithic c) in
    sizes_hold sm && (sm_segment_count sm =? 1)).

Definition rollover_3 : CandidateConfig := with_rollover (Some 3) segmented.

Definition segmented_storage_metrics_sum_across_segments : bool :=
  on_segmented rollover_3 (events 10) (λ _ _ c,
    let sm := storage_metrics metadata_len (Some "/tmp/cr-bench-seg-storage") None None (Segmented c) in
    sizes_hold sm && (4 <=? sm_segment_count sm)).

Definition clean_dir : Path := [RootDir; NormalName "tmp"; NormalName "cr-bench-prepare-test"].
Definition stale_db : Path := clean_dir ++ [NormalName "stale.db"].

Definition prepare_run_data_dir_starts_clean : Store (FileSystem string) bool :=
  _ ← remove_dir_all clean_dir;
  made ← create_dir_all clean_dir; _ ← expect_io made;
  wrote ← write_file stale_db "stale"; _ ← expect_io wrote;
  _ ← prepare_run_data_dir clean_dir;
  there ← path_exists clean_dir;
  stale ← path_exists stale_db;
  _ ← remove_dir_all clean_dir;
  mret (there && negb stale).

(** The result of [run_pipeline] and the sizes of its candidate pass the check,
    however the threads interleave. *)
Definition every_stored_run (config : IngressConfig) (runner : CandidateRunner) (place : option string)
    (check : PipelineResult → StorageMetrics → bool) : Prop :=
  ∀ p res, rtc (pipeline_step config) (pipeline_start runner) p → pipeline_result p = Some res →
    check res (storage_metrics metadata_len place None None (ps_runner p)) = true.

Definition monolithic_pipeline_reports_nonzero_db_size : Prop :=
  every_stored_run (ingress_new 20 64) new_monolithic (Some "/tmp/cr-bench-mono-dbsize/mono.db")
    (λ _ sm, sizes_hold sm && (sm_segment_count sm =? 1)).

Definition new_segmented : CandidateRunner := Segmented (segmented_open ∅ rollover_3).2.1.

Definition segmented_pipeline_reports_real_segment_count : Prop :=
  every_stored_run (ingress_new 10 64) new_segmented (Some "/tmp/cr-bench-seg-count/segments")
    (λ result sm, (wm_written_records (pr_write_metrics result) =? 10) && (4 <=? sm_segment_count sm) &&
       sizes_hold sm).
End FileTests.

Definition test_report : BenchmarkReport :=
  mkReport "test" "test" false "test-os" "x86_64" (mkBenchConfig "WAL" "FULL" 5000 1000 None None)
    100 100 100 0 0 128 1 (mkGroupCommit 64 1048576) 2 0 50 (as_f64 2000) (as_f64 50) 64 65536 0 0 65536 1
    [] true true.

(** ** They pass *)

(** The figures of the sample report are those of its counts. *)
Lemma test_report_figures :
  has_required_fields test_report = true ∧
  rp_throughput_records_per_sec test_report =
    throughput (rp_written_records test_report) (rp_elapsed_ms test_report) ∧
  rp_avg_batch_size test_report =
    avg_observed_batch_size (mkMetrics (rp_committed_transactions test_report) 0 100 0 64 100).
Proof. vm_compute. repeat split. Qed.

Lemma prepare_starts_clean_passes :
  (prepare_run_data_dir_starts_clean (mkFs ["tmp"] {[["tmp"] := Directory]}, O)).1 = Done true.
Proof. vm_compute. reflexivity. Qed.

Definition silent_engine : Engine := {|
  sql_fault n := if decide (n = O) then Some "no answer" else None;
  sql_constraint := id
|}.

(** When the question whether the directory is there fails, the old files stay. *)
Lemma unanswered_question_keeps_files :
  let stale := mkFs ["tmp"] {[["tmp"] := Directory; ["tmp"; "cr-bench-prepare-test"] := Directory;
                              ["tmp"; "cr-bench-prepare-test"; "stale.db"] := RegularFile "stale"]} in
  @prepare_run_data_dir string silent_engine clean_dir (stale, O) = (Done tt, (stale, 3%nat)).
Proof. vm_compute. reflexivity. Qed.

(** *** Sizes *)
Lemma seg_db_size len paths :
  sm_db_size_bytes (seg_storage_metrics len paths) = foldr Z.add 0 (file_size_or_zero len <$> paths).
Proof.
  unfold seg_storage_metrics.
  assert (Hf : ∀ (l : list string) (d w s : Z),
    (foldl (λ acc path, let '(db, wal, shm) := acc in
       let '(d, w, s) := single_db_storage len path in (db + d, wal + w, shm + s)) (d, w, s) l).1.1 =
    d + foldr Z.add 0 (file_size_or_zero len <$> l)).
  { intros l. induction l as [|path l IH]; intros d w s; csimpl; [lia|]. rewrite IH. lia. }
  specialize (Hf paths 0 0 0). destruct (foldl _ _ _) as [[db wal] shm]. simpl in *. lia.
Qed.

Lemma sizes_hold_intro len place runner :
  let sm := storage_metrics len place None None runner in 0 < sm_db_size_bytes sm → sizes_hold sm = true.
Proof.
  intros sm Hpos. unfold sizes_hold. apply andb_true_intro. split; [by apply Z.ltb_lt|].
  apply Z.eqb_eq, storage_total.
Qed.

(** A candidate with a segment has a file of positive length. *)
Lemma segments_sized len dir c :
  (∀ i, 0 < file_size_or_zero len (segment_path dir i)) → sc_segments c ≠ [] →
  0 < sm_db_size_bytes (storage_metrics len (Some dir) None None (Segmented c)).
Proof.
  intros Hlen Hne. simpl. rewrite seg_db_size.
  destruct (length (sc_segments c)) as [|n] eqn:Hl; [by destruct (sc_segments c)|]. csimpl.
  assert (Hsum : ∀ l, 0 ≤ foldr Z.add 0 (file_size_or_zero len <$> (segment_path dir <$> l))).
  { induction l as [|i l IH]; csimpl; [lia|]. specialize (Hlen i). lia. }
  specialize (Hlen O). specialize (Hsum (seq 1 n)). lia.
Qed.

(** What the answers of a batch are checked for does not change them. *)
Lemma on_mono_check (S : Sha256) config evts :
  on_mono config evts (λ _ _ _, true) = true →
  ∃ results metrics c, ∀ check, on_mono config evts check = check results metrics c.
Proof. unfold on_mono. repeat case_match; try done. eauto. Qed.

Lemma on_segmented_check (S : Sha256) config evts P :
  on_segmented config evts (λ _ _ c, P c) = true →
  ∃ results metrics c, P c = true ∧ ∀ check, on_segmented config evts check = check results metrics c.
Proof. unfold on_segmented. repeat case_match; try done. eauto. Qed.

Lemma mono_storage_passes (S : Sha256) len :
  0 < file_size_or_zero len "/tmp/cr-bench-mono-storage/test.db" →
  monolithic_storage_metrics_nonzero_after_writes len = true.
Proof.
  intros Hlen. destruct (on_mono_check S monolithic (events 10)) as (results & metrics & c & Hc);
    [vm_compute; reflexivity|]. unfold monolithic_storage_metrics_nonzero_after_writes. rewrite Hc.
  cbv beta zeta. by rewrite sizes_hold_intro.
Qed.

Lemma seg_storage_passes (S : Sha256) len :
  (∀ i, 0 < file_size_or_zero len (segment_path "/tmp/cr-bench-seg-storage" i)) →
  segmented_storage_metrics_sum_across_segments len = true.
Proof.
  intros Hlen. destruct (on_segmented_check S rollover_3 (events 10) (λ c, 4 <=? length (sc_segments c)))
    as (results & metrics & c & H4 & Hc); [vm_compute; reflexivity|].
  unfold segmented_storage_metrics_sum_across_segments. rewrite Hc. cbv beta zeta.
  rewrite segments_counted, H4, sizes_hold_intro; [done|]. apply segments_sized; [done|].
  intros Hnil. by rewrite Hnil in H4.
Qed.

(** *** Every interleaving *)
Lemma mono_pipeline_passes (S : Sha256) len :
  0 < file_size_or_zero len "/tmp/cr-bench-mono-dbsize/mono.db" →
  monolithic_pipeline_reports_nonzero_db_size len.
Proof.
  intros Hlen p res Hs _. apply runner_kind in Hs. destruct (ps_runner p) as [c|c]; [|done].
  by rewrite sizes_hold_intro.
Qed.

Lemma rollover_3_typed : config_typed rollover_3.
Proof. split; [split; vm_compute; discriminate|]. by intros ? [= <-]. Qed.

Lemma new_segmented_empty (S : Sha256) :
  @runner_ready S sample_engine new_segmented ∧ @runner_has S sample_engine new_segmented [] ∧ runner_config new_segmented = rollover_3.
Proof.
  destruct (segmented_open_ok (E := sample_engine) rollover_3 (@segmented_open sample_engine ∅ rollover_3).2.1
    (@segmented_open sample_engine ∅ rollover_3).2.2) as [Hc Hok];
    [apply rollover_3_typed|vm_compute; reflexivity|].
  split; [split; [apply rollover_3_typed|done]|]. split; [|exact Hc]. split; [done|]. by exists [], [].
Qed.

(** Ten events are written to segments of three. *)
Lemma seg_pipeline_passes (S : Sha256) len :
  (∀ i, 0 < file_size_or_zero len (segment_path "/tmp/cr-bench-seg-count/segments" i)) →
  segmented_pipeline_reports_real_segment_count len.
Proof.
  intros Hlen p res Hs Hres. destruct (new_segmented_empty S) as (Hrd & Hh & Hcfg).
  destruct (pipeline_accounts S sample_engine (ingress_new 10 64) new_segmented [] p res Hrd Hh)
    as (Hsub & Hacc & _ & _ & _ & _ & (log & Hlog & _ & Hw) & Hall); [done..|].
  destruct (roomy_channel (E := sample_engine) (ingress_new 10 64) new_segmented [] Hrd Hh
    ltac:(done) ltac:(done) (λ n, eq_refl) ltac:(done) p Hs) as [Hrej _].
  destruct Hall as [Hwr _]; [exact (λ n, eq_refl)|done|done|].
  assert (pr_rejected_capacity res = 0) as Hr.
  { unfold pipeline_result in Hres. repeat case_match; by simplify_eq/=. }
  assert (Hpc : runner_config (ps_runner p) = rollover_3).
  { rewrite <- Hcfg. apply (po_config (E := sample_engine) (ingress_new 10 64) [] _ p),
      (pipeline_steps_ok (E := sample_engine) (ingress_new 10 64) [] _ (pipeline_start new_segmented)); [done| |done].
    by apply pipe_ok_start. }
  pose proof (runner_kind _ _ _ Hs) as Hk. destruct (ps_runner p) as [c|c]; [done|].
  pose proof (segments_room (E := sample_engine) c log 3 Hlog) as Hroom. simpl in Hpc, Hsub. rewrite Hpc in Hroom.
  specialize (Hroom eq_refl). rewrite segments_counted.
  rewrite sizes_hold_intro; [|apply segments_sized; [done|]; intros Hnil; rewrite Hnil in Hroom; simpl in Hroom; lia].
  rewrite andb_true_r. apply andb_true_intro. split; [apply Z.eqb_eq; lia|apply Z.leb_le; lia].
Qed.

(** All of them, for a system on which the files have a length. *)
Definition storage_tests `{Sha256} : Prop :=
  ∀ metadata_len, (∀ path, 0 < file_size_or_zero metadata_len path) →
    monolithic_storage_metrics_nonzero_after_writes metadata_len = true ∧
    segmented_storage_metrics_sum_across_segments metadata_len = true ∧
    monolithic_pipeline_reports_nonzero_db_size metadata_len ∧
    segmented_pipeline_reports_real_segment_count metadata_len.

Lemma storage_tests_pass (S : Sha256) : storage_tests.
Proof.
  intros len Hlen. split; [by apply mono_storage_passes|]. split; [by apply seg_storage_passes|].
  split; [by apply mono_pipeline_passes|by apply seg_pipeline_passes].
Qed.
