(* ===== verification/Suites.v ===== *)
(** * The test suites

    The tests of the repository's crates, run on the model: a check that the
    definitions compute what the repository says of their sources. *)
From S2P Require Import Prelude Checksum BenchStore FileSystem Fips180 Scenarios JournalScenarios ServiceScenarios.
From S2P Require Import DeliveryScenarios DomainScenarios BenchMain BenchScenarios BenchFileScenarios ProtocolText BarrierCapture.
Open Scope Z_scope.

(** The model behaves as the tests of the repository say.  With SHA-256
    itself, the model of the journal passes the tests of the journal, the model
    of the service those of the service, and the models of the gate, the fake
    producer, the profiles, the repair classification, the transition table, the
    retry policy, the routing and the domain crate theirs; the barrier capture
    passes its test with every consumer.  The storage
    candidates of the benchmark pass theirs with every hash function, and the
    tests of the two threads hold of every interleaving, but for the assertion
    that a narrow channel rejects something; the tests of the sizes of files hold
    on every system that gives the files a length.  The protocol file names the
    contracts the testkit looks for, and its stored envelope has none of the
    fields the testkit forbids. *)
Lemma tests_pass :
  forallb id (@journal_tests fips_sha256) = true ∧
  forallb id (@service_tests fips_sha256) = true ∧
  forallb id (@delivery_tests fips_sha256) = true ∧
  forallb id domain_tests = true ∧
  forallb id path_tests = true ∧
  (envelope_is_immutable contracts_proto = true ∧ contracts_are_named contracts_proto = true) ∧
  (∀ C : Consumer, bounds_are_explicit = true) ∧
  (prepare_run_data_dir_starts_clean (mkFs ["tmp"] {[["tmp"] := Directory]}, O)).1 = Done true ∧
  ∀ S : Sha256,
    forallb id candidate_tests = true ∧ forallb id ingress_tests = true ∧
    payload_clamped_to_max = true ∧ bounded_writer_thread_pipeline ∧
    every_run narrow_ingress new_monolithic narrow_accounts ∧ storage_tests.
Proof.
  split; [exact journal_tests_pass|]. split; [exact service_tests_pass|].
  split; [exact delivery_tests_pass|]. split; [exact domain_tests_pass|].
  split; [exact path_tests_pass|]. split; [exact protocol_checks_pass|]. split; [exact bounds_are_explicit_passes|].
  split; [exact prepare_starts_clean_passes|]. intros S.
  split; [exact (candidate_tests_pass S)|]. split; [exact (ingress_tests_pass S)|].
  split; [exact (payload_clamped_to_max_passes S)|].
  split; [exact (wide_pipeline_passes S)|]. split; [exact (narrow_pipeline_accounts S)|exact (storage_tests_pass S)].
Qed.
